(* ===== verification/_CoqProject ===== *)
-Q . S2P
Prelude.v
Validation.v
Query.v
Store.v
Session.v
Auth.v
Perm.v
Admin.v
Society.v
Event.v
Listing.v
Reset.v
Profile.v
System.v
ResetFlow.v
Client.v
UI.v
AuthPages.v
Pages.v
Forms.v
Routes.v
Seed.v
Wire.v
Views.v
Menus.v
UserTable.v
Search.v
Cards.v
EventPage.v
HtmlForms.v
Paging.v
