(* ===== verification/Prelude.v ===== *)
(** * Spark: a verification development

    Spark is a university-society management web application.  Its
    backend (src/backend/src) is an Express server whose handlers read
    and write a relational store through the Prisma ORM.  Every
    privileged handler resolves a session token to a user, checks the
    caller's authority (site admin flag, society role) and then mutates
    the store; errors are thrown as [http-errors] values (400, 401,
    403) and uncaught ORM errors become a 500 response.  Its frontend
    (src/frontend/src) is a React application that reaches the backend
    only through the API client of src/frontend/src/api and decides
    from the backend's answers which menu entries and controls a user
    sees.  src/backend/prisma/seed.ts fills a fresh database by calling
    the handlers.

    ** How the code is modelled

    - A handler is a function [Store -> outcome Store A]: it either
      returns its JSON result and the new store ([Done]) or throws an
      HTTP error, leaving the store as it was at the throw ([Fail]).
      The state-and-error monad [ST] of this file, with its notation
      [x <- c ;; k], plays the role of the [async]/[await] sequence of
      Prisma calls: one [<-] per [await].  [catch_to] and [swallow]
      are the code's [.catch] blocks.
    - The store (Store.v) has one finite map (stdpp [gmap]) per Prisma
      model of src/backend/src/data.ts: users, sessions, societies,
      society members (keyed by [(userId, societyId)]), applications,
      events, attendance, attended-form rows and reset codes, plus the
      auto-increment counters.  Uniqueness constraints and cascades are
      checked by the store's operations, which fail as Prisma does.
      Session tokens (database uuids) are stdpp's [fresh] on the set of
      live tokens, which is never the empty string.
    - External libraries are interfaces: [validator.isEmail] and
      [bcrypt] are the type classes [EmailValidator] and
      [PasswordHasher] of Validation.v with the laws the proofs use;
      handlers are proved for every instance, and the witnesses use a
      concrete instance.  Random draws (reset codes, salts) and the
      clock are arguments of the handlers that use them.
    - Strings are Rocq [string]s; the code's regular expressions are
      executable recognisers; ids and permission levels are [Z].
    - Frontend components are modelled by what they compute: the
      permission state a [useEffect] settles on, the effect of a click
      ([UiEffect]), and the API call it makes, which is the handler the
      call reaches.

    ** Files (in dependency order)

    - Prelude.v (this file): the [ST] monad, [HttpError], the
      [spark_scope] notations, the [spark] hint database, the
      [preserves_tac] tactic and the generic lemmas on read-only,
      fail-safe and invariant-preserving computations.
    - Validation.v: [toLowerCase], the regular expressions of
      auth.ts/utils.ts, the [EmailValidator] and [PasswordHasher]
      interfaces.
    - Query.v: the substring search, the lexicographic orders of the
      [orderBy] clauses and JavaScript's [slice] for pagination.
    - Store.v: the records, the [Store], every ORM operation the
      handlers use, and the store invariant [wf].
    - Session.v: [validateSession] (utils.ts) and [authLogout].
    - Auth.v: [authRegister], [authLogin] (auth.ts).
    - Perm.v: perm.ts, an abstract decision table of the society
      allocation rules and the refinement theorem.
    - Admin.v: admin.ts and the application status machine.
    - Society.v: [validateSocietyName] and society.ts.
    - Event.v: event.ts (create, edit, delete, get, attend, unattend,
      status, attendance forms, CSV export) and the event invariant
      [ev_wf] (every event, attendance and form row points to existing
      rows).
    - Listing.v: [getEvents], [societyEvents], [societyList]: search,
      date filters, ordering and pagination.
    - Reset.v: reset.ts.  Profile.v: profile.ts and the calendar of
      utils.ts.
    - System.v: every route of app.ts as one [Request], [handle], the
      step relation of the whole backend, reachability from the empty
      store, and the theorems proved by induction on reachability.
    - ResetFlow.v: the un-awaited chain of [authResetGenerate] as a
      step of its own, interleaved with the other requests, and the
      mail it sends.
    - Client.v: the frontend's API client (apiFetch, removeNull, every
      API function) and the backend's routing of an HTTP request.
    - UI.v: helper.ts, types/user.ts, the event page's menu, the event
      card's menu, the home drawer, the society menu, the attendance
      button and the member and user permission tables.
    - AuthPages.v: the token kept in [localStorage] beside the
      backend's store ([Browser]), the login, register, guest, logout
      and password-reset forms, and the step relation of a browser
      driven by these actions.
    - Pages.v: the society list (pagination and search), the event
      list (infinite scroll and search), the home feed and the profile
      page, with the order in which concurrent answers arrive as an
      argument.
    - Forms.v: the attendance form, profile edit, event edit and
      creation, society application and society edit pages, with
      JavaScript's dates as the interface [JsDate].
    - Routes.v: the route table of App.tsx and react-router's
      resolution of a path (ranking by [computeScore], ties to the
      first route, [matchPath] segment by segment) and the parameters
      [useParams] reads from a path.
    - Views.v: the event, society and QR code pages, which read their id
      from the URL and load what they show, the cards linking to them,
      and the id every other page with a path parameter reads (event
      edit and creation, attendance form, society edit, members).
    - Menus.v: the event and society menus, the home drawer and the
      event card's menu as state machines over their hooks and the
      backend's store.
    - UserTable.v: the site's user table (UserList.tsx, UserCard.tsx)
      as a state machine of the same kind.
    - Search.v: the society and event search bars.
    - Paging.v: the society list's Previous and Next buttons as a
      click machine.
    - HtmlForms.v: the browser's constraint validation and value
      sanitization of the forms' inputs ([required], [type="email"]),
      the inputs of the profile edit, register and login forms, and the
      profile edit page as a click machine.
    - EventPage.v: what the event page shows and the id it mounts its
      attendance button and menu with (EventViewPage.tsx, EventUpper,
      EventLower, EventHeader, EventDetails).
    - Cards.v: what an event card (EventCard.tsx, SocietyPostCard.tsx)
      renders and binds, and the lists of cards of the home feed, the
      event list and a society's page, and the lists of the profile
      page.
    - Seed.v: the seed script.
    - Wire.v: the JSON body of every route's answer and the TypeScript
      interfaces of api/utils/interfaces.ts the API functions cast it
      to.

    ** What the theorems show

    - Functional behaviour of each handler on every branch, errors
      included, in the order the code checks them.
    - Every handler preserves [wf] and [ev_wf]; hence every store the
      server can reach satisfies them ([reachable_wf]), and the
      site-admin flag is only set by the first registration or by a
      site admin ([admin_flag_origin]).
    - Society permission allocation refines the specification's rank
      table; sessions, registration, login, reset and applications
      behave as specified, with the divergences listed below.
    - Round trips: attendance, CSV export and parsing of clean rows,
      numbers through the query string, permission levels between the
      frontend and the backend, and saves from the permission tables.
    - The API client reaches, for every API function, the route and the
      handler its documentation names with its own arguments, and the
      answers of all but seven API functions have the type their
      signatures declare; four interfaces misdescribe the answers.
    - The menus' entries against the handlers: Delete Event and
      Attendance Data are backed by the backend; Edit Event, Edit
      Society and Delete Society are offered to users the backend
      refuses; the attendance button stays in step with the backend
      over any number of clicks.
    - The browser's stored token: in every browser reached by the
      authentication pages, a page sees a guest exactly when nothing
      is stored, and a stored token is a live session
      ([browser_tokens_live]); a login followed by a logout gives back
      the backend's store; the reset forms hide the backend's refusals.
    - The listing pages: the society list shows rows [9n..9n+8] on its
      [n]-th page and enables Next exactly when rows follow, so paging
      ends having shown every society once; the event list's infinite
      scroll equals one request for as many events; a society search
      disables Next whatever the number of matches, and an event search
      after scrolling races with the reload it triggers; the home feed
      holds exactly the upcoming events of the user's societies.
    - The forms: a user who submits the prefilled attendance form is
      recorded as attending; saving the prefilled profile form changes
      nothing; saving the prefilled event form moves the event by the
      server's offset from UTC.
    - Navigation: every path a modelled handler navigates to resolves,
      for every id and answer, to the page the handler means and never
      to the catch-all redirect ([handler_navigations_resolve]); a
      number in a path is matched like the segment "0".
    - Links: a click on an event card opens the event's page, which
      reads the id back from the URL and shows the event and its
      society without a redirect ([eventCard_opens_event]); the QR code
      of an event leads to the attendance form of that event; an
      unknown id sends the view pages home.
    - The event menu: through any clicks, the delete dialog opens only
      for a user the mount allowed to delete, and the only click that
      changes the store is the confirmed deletion
      ([adminMenu_delete_guarded]); on the society menu a click writes
      only as a successful join or a confirmed successful deletion
      ([societyMenu_writes_guarded]); in the user table a click writes
      only by a row's Save or a confirmed removal, and Reset after a
      Save shows a permission the backend no longer holds.
    - The menus' links carry their ids: every navigation of the event,
      society and card menus goes home after a confirmed deletion or
      opens a page that reads back the menu's own id
      ([menu_links_carry_ids]).
    - The society list's buttons: through any clicks on the enabled
      buttons the page shows one of the pages of the whole listing, never
      one before the first, and Previous after Next returns to the same
      page ([societyList_pages]).
    - The forms: a submission with an empty required field or an
      invalid e-mail does nothing ([forms_block_invalid]); the only
      click of the profile edit page that writes is a submission the
      browser let through, writing non-empty names and a valid e-mail
      ([profileEdit_writes_checked]); the attendance form's required
      fields are outside any [<form>] and are never checked
      ([attendanceForm_required_unenforced]).
    - The event page of an existing event shows its fields and mounts
      its attendance button and menu with its own id
      ([eventPage_binds_event]).
    - Every card of the home feed, the event list and a society's page
      shows its post and links to pages that read back the post's ids
      ([cards_show_posts]); the feed and the list swap the two pictures
      they pass to a card ([card_avatars_swapped]); the profile page
      lists exactly the user's societies and the events it is attending, each
      linking to its page ([profilePage_lists]); its Copy Ical Link
      button copies a link the backend serves from the calendar file
      of the user ([webcal_link_serves_calendar]).
    - The event search is exact: the dates the search bar picks reach
      the backend's listing as the same instants
      ([eventSearchBar_dates_reach_backend]), which justifies the
      instants Pages.v keeps as the event list's filters.
    - The reset mail: a reset request for a registered email ends,
      once its chain settles, in a mail whose code sets the password
      the next login checks ([reset_mail_roundtrip]); the chain fails
      in silence when its code is taken or the user is gone.
    - The seed script runs to completion on an empty database, for
      every hasher, salt and clock and every email validator accepting
      its six emails, and leaves the store its comments describe
      ([seed_completes]).
    - Registration writes the lower-cased email and names, the zId and
      the first-user flag, and the registered password then logs in as
      that user ([authRegister_success]); the first-user rule fires
      again in any store once its only site admin removes itself
      ([first_user_rule_rearms]).
    - The event search without pagination returns each event matching
      the date bounds and the search string once, in ascending order of
      time, name, description and id ([getEvents_spec]).
    - Findings (PROJECT.json) are theorems on concrete stores, e.g. a
      denied application can still be approved, a reset code can be
      used twice, a moderator can delete events.

    ** Bounds and fuel

    No handler loops except over finite lists (the seed's loops,
    [List.find], sorting), so every definition is structural and total
    and no fuel is needed.  A sequence of clicks or scrolls is a
    [Fixpoint] on the number of clicks.  Pagination uses JavaScript's clamping of
    indices; ids are unbounded [Z] because SQLite's 64-bit integers
    are never approached by auto-increment counters.

    ** Not modelled

    The layout of the React pages (styling, the field setters, the
    scroll geometry and the display-only components; of the JSX only
    the content of the event cards is modelled, in Cards.v), the
    pictures of components/Common/Pictures and the config.json files,
    which are not in the repository (Cards.v takes the pictures and the
    backend's host and port as parameters), the iCalendar text format
    (ical-generator), file writes, the SMTP configuration of transporter.ts (its mail is
    taken to be sent), and
    server start-up (server.ts).  The error middleware is not in the
    repository: [error_response] follows the specification. *)

From stdpp Require Export base gmap strings list fin_maps infinite pretty.

(** ** HTTP errors thrown by the handlers (http-errors) *)

Inductive HttpError :=
| BadRequest (msg : string)          (** 400 *)
| Unauthorized (msg : string)        (** 401 *)
| Forbidden (msg : string)           (** 403 *)
| InternalServerError (msg : string) (** 500: an ORM error nobody catches *).

#[export] Instance HttpError_eq_dec : EqDecision HttpError.
Proof. solve_decision. Defined.

(** The HTTP status class of an error, as errorHandler reports it. *)
Definition status_code (e : HttpError) : Z :=
  match e with
  | BadRequest _ => 400
  | Unauthorized _ => 401
  | Forbidden _ => 403
  | InternalServerError _ => 500
  end.

(** ** The state-and-error monad *)

Inductive outcome (S A : Type) :=
| Done (a : A) (s : S)
| Fail (e : HttpError) (s : S).
Arguments Done {S A} a s.
Arguments Fail {S A} e s.

Definition ST (S A : Type) := S -> outcome S A.

Definition state_of {S A} (o : outcome S A) : S :=
  match o with Done _ s => s | Fail _ s => s end.

Definition error_of {S A} (o : outcome S A) : option HttpError :=
  match o with Done _ _ => None | Fail e _ => Some e end.

Definition ret {S A} (a : A) : ST S A := fun s => Done a s.

Definition st_bind {S A B} (c : ST S A) (k : A -> ST S B) : ST S B :=
  fun s => match c s with
           | Done a s' => k a s'
           | Fail e s' => Fail e s'
           end.

Definition throw {S A} (e : HttpError) : ST S A := fun s => Fail e s.

Definition gets {S A} (f : S -> A) : ST S A := fun s => Done (f s) s.

Definition modify {S} (f : S -> S) : ST S unit := fun s => Done tt (f s).

(** [check b e] is the code's [if (!b) throw e]. *)
Definition check {S} (b : bool) (e : HttpError) : ST S unit :=
  if b then ret tt else throw e.

(** [from_option o e] is [const x = await ...; if (!x) throw e]. *)
Definition from_option {S A} (o : option A) (e : HttpError) : ST S A :=
  match o with Some a => ret a | None => throw e end.

(** [find_or f e] is [const x = await <query f>; if (!x) throw e]. *)
Definition find_or {S A} (f : S -> option A) (e : HttpError) : ST S A :=
  fun s => match f s with Some a => Done a s | None => Fail e s end.

(** [ensure_absent f e] is [if (await <query f>) throw e]. *)
Definition ensure_absent {S A} (f : S -> option A) (e : HttpError) : ST S unit :=
  fun s => match f s with Some _ => Fail e s | None => Done tt s end.

(** [catch_to c e] is [c.catch(() => { throw e })]: any error of [c]
    is replaced by [e]. *)
Definition catch_to {S A} (c : ST S A) (e : HttpError) : ST S A :=
  fun s => match c s with
           | Done a s' => Done a s'
           | Fail _ s' => Fail e s'
           end.

(** [swallow c] is [c.catch((err) => {})]: an error of [c] is
    ignored and the handler goes on. *)
Definition swallow {S} (c : ST S unit) : ST S unit :=
  fun s => match c s with
           | Done a s' => Done a s'
           | Fail _ s' => Done tt s'
           end.

Declare Scope spark_scope.
Delimit Scope spark_scope with spark.
Notation "x <- c ;; k" := (st_bind c (fun x => k))
  (at level 100, c at next level, right associativity) : spark_scope.
Notation "c ;;; k" := (st_bind c (fun _ => k))
  (at level 100, right associativity) : spark_scope.
Open Scope spark_scope.

(** ** Read-only and fail-safe computations *)

(** A read-only computation never changes the store. *)
Definition ReadOnly {S A} (c : ST S A) : Prop := forall s, state_of (c s) = s.

(** A fail-safe computation leaves the store unchanged when it fails:
    a handler that throws has written nothing. *)
Definition FailSafe {S A} (c : ST S A) : Prop :=
  forall s e s', c s = Fail e s' -> s' = s.

Create HintDb spark discriminated.
Hint Constants Transparent : spark.
Hint Variables Transparent : spark.

Section MonadLemmas.
Context {S : Type}.

Lemma bind_ret_l {A B} (a : A) (k : A -> ST S B) s :
  st_bind (ret a) k s = k a s.
Proof. reflexivity. Qed.

Lemma bind_Done {A B} (c : ST S A) (k : A -> ST S B) s a s' :
  c s = Done a s' -> st_bind c k s = k a s'.
Proof. intros H. unfold st_bind. by rewrite H. Qed.

Lemma bind_Fail {A B} (c : ST S A) (k : A -> ST S B) s e s' :
  c s = Fail e s' -> st_bind c k s = Fail e s'.
Proof. intros H. unfold st_bind. by rewrite H. Qed.

Lemma bind_assoc {A B C} (c : ST S A) (k1 : A -> ST S B) (k2 : B -> ST S C) s :
  st_bind (st_bind c k1) k2 s = st_bind c (fun a => st_bind (k1 a) k2) s.
Proof. unfold st_bind. by destruct (c s). Qed.

Lemma check_true (e : HttpError) s : check (S:=S) true e s = Done tt s.
Proof. reflexivity. Qed.

Lemma check_false (e : HttpError) s : check (S:=S) false e s = Fail e s.
Proof. reflexivity. Qed.

Lemma read_only_ret {A} (a : A) : ReadOnly (S:=S) (ret a).
Proof. by intros s. Qed.

Lemma read_only_throw {A} e : ReadOnly (S:=S) (A:=A) (throw e).
Proof. by intros s. Qed.

Lemma read_only_gets {A} (f : S -> A) : ReadOnly (gets f).
Proof. by intros s. Qed.

Lemma read_only_check b e : ReadOnly (S:=S) (check b e).
Proof. intros s. by destruct b. Qed.

Lemma read_only_from_option {A} (o : option A) e :
  ReadOnly (S:=S) (from_option o e).
Proof. intros s. by destruct o. Qed.

Lemma read_only_find_or {A} (f : S -> option A) e : ReadOnly (find_or f e).
Proof. intros s. unfold find_or. by destruct (f s). Qed.

Lemma read_only_ensure_absent {A} (f : S -> option A) e : ReadOnly (ensure_absent f e).
Proof. intros s. unfold ensure_absent. by destruct (f s). Qed.

Lemma read_only_bind {A B} (c : ST S A) (k : A -> ST S B) :
  ReadOnly c -> (forall a, ReadOnly (k a)) -> ReadOnly (st_bind c k).
Proof.
  intros Hc Hk s. specialize (Hc s). unfold st_bind.
  destruct (c s) as [a s'|e s'] eqn:E; simpl in *; subst; [apply Hk | done].
Qed.

Lemma read_only_catch_to {A} (c : ST S A) e :
  ReadOnly c -> ReadOnly (catch_to c e).
Proof. intros Hc s. specialize (Hc s). unfold catch_to. by destruct (c s). Qed.

Lemma read_only_fail_safe {A} (c : ST S A) : ReadOnly c -> FailSafe c.
Proof. intros Hc s e s' H. specialize (Hc s). by rewrite H in Hc. Qed.

Lemma fail_safe_modify f : FailSafe (S:=S) (modify f).
Proof. by intros s e s'. Qed.

Lemma fail_safe_swallow c : FailSafe (S:=S) (swallow c).
Proof. intros s e s'. unfold swallow. by destruct (c s). Qed.

(** A read-only prefix followed by fail-safe continuations is
    fail-safe: the checks of a handler come before its writes. *)
Lemma fail_safe_bind {A B} (c : ST S A) (k : A -> ST S B) :
  ReadOnly c -> (forall a, FailSafe (k a)) -> FailSafe (st_bind c k).
Proof.
  intros Hc Hk s e s' H. specialize (Hc s). unfold st_bind in H.
  destruct (c s) as [a s1|e1 s1]; simpl in Hc; subst.
  - by eapply Hk.
  - by inversion H.
Qed.

(** A write whose result is returned as it is stays fail-safe. *)
Lemma fail_safe_bind_ret {A B} (c : ST S A) (b : B) :
  FailSafe c -> FailSafe (st_bind c (fun _ => ret b)).
Proof. intros Hc s e s'. unfold st_bind, ret. destruct (c s) eqn:E; [done|]. intros [= _ <-]. eauto. Qed.

Lemma fail_safe_catch_to {A} (c : ST S A) e :
  FailSafe c -> FailSafe (catch_to c e).
Proof.
  intros Hc s e' s' H. unfold catch_to in H.
  destruct (c s) eqn:E; inversion H; subst. by eapply Hc.
Qed.

(** A computation that cannot fail is fail-safe. *)
Lemma fail_safe_never_fails {A} (c : ST S A) :
  (forall s, error_of (c s) = None) -> FailSafe c.
Proof. intros H s e s' E. specialize (H s). by rewrite E in H. Qed.
End MonadLemmas.

#[export] Hint Resolve read_only_ensure_absent read_only_find_or read_only_ret read_only_throw read_only_gets read_only_check
  read_only_from_option read_only_bind read_only_catch_to read_only_fail_safe
  fail_safe_modify fail_safe_swallow fail_safe_bind fail_safe_bind_ret fail_safe_catch_to : spark.

(** [st_simpl] unfolds the monad so that a handler applied to a store
    reduces to its [match]es on the store's lookups. *)
Ltac st_simpl :=
  unfold st_bind, ret, throw, gets, modify, check, from_option, find_or, ensure_absent, catch_to, swallow in *;
  simpl in *.

(** [st_cases] splits on every lookup, decision and boolean test that
    blocks the reduction of a handler, simplifying as it goes. *)
Ltac st_cases :=
  repeat (st_simpl;
          match goal with
          | |- context [match ?x with _ => _ end] =>
              lazymatch x with
              | context [match _ with _ => _ end] => fail
              | _ => destruct x eqn:?
              end
          | H : Done _ _ = Done _ _ |- _ => injection H as; subst
          | H : Fail _ _ = Fail _ _ |- _ => injection H as; subst
          | H : Done _ _ = Fail _ _ |- _ => discriminate H
          | H : Fail _ _ = Done _ _ |- _ => discriminate H
          end).

(** ** Invariants preserved by computations *)

(** [c] preserves the invariant [I]: whatever it returns or throws,
    an [I]-store stays an [I]-store. *)
Definition Preserves {S A} (I : S -> Prop) (c : ST S A) : Prop :=
  forall s, I s -> I (state_of (c s)).

Section PreservesLemmas.
Context {S : Type} (I : S -> Prop).

Lemma preserves_read_only {A} (c : ST S A) : ReadOnly c -> Preserves I c.
Proof. intros Hc s Hs. by rewrite Hc. Qed.

Lemma preserves_bind {A B} (c : ST S A) (k : A -> ST S B) :
  Preserves I c -> (forall a, Preserves I (k a)) -> Preserves I (st_bind c k).
Proof.
  intros Hc Hk s Hs. specialize (Hc s Hs). unfold st_bind.
  destruct (c s) as [a s'|e s']; simpl in *; [by apply Hk | done].
Qed.

Lemma preserves_catch_to {A} (c : ST S A) e : Preserves I c -> Preserves I (catch_to c e).
Proof. intros Hc s Hs. specialize (Hc s Hs). unfold catch_to. by destruct (c s). Qed.

Lemma preserves_swallow (c : ST S unit) : Preserves I c -> Preserves I (swallow c).
Proof. intros Hc s Hs. specialize (Hc s Hs). unfold swallow. by destruct (c s). Qed.

Lemma preserves_ret {A} (a : A) : Preserves I (ret a).
Proof. by intros s. Qed.

Lemma preserves_throw {A} e : Preserves I (A:=A) (throw e).
Proof. by intros s. Qed.

Lemma preserves_check b e : Preserves I (check b e).
Proof. intros s Hs. by destruct b. Qed.

Lemma preserves_from_option {A} (o : option A) e : Preserves I (from_option o e).
Proof. intros s Hs. by destruct o. Qed.

Lemma preserves_gets {A} (f : S -> A) : Preserves I (gets f).
Proof. by intros s. Qed.

Lemma preserves_find_or {A} (f : S -> option A) e : Preserves I (find_or f e).
Proof. intros s Hs. unfold find_or. by destruct (f s). Qed.

Lemma preserves_ensure_absent {A} (f : S -> option A) e : Preserves I (ensure_absent f e).
Proof. intros s Hs. unfold ensure_absent. by destruct (f s). Qed.
Lemma preserves_and {A} (J : S -> Prop) (c : ST S A) :
  Preserves I c -> Preserves J c -> Preserves (fun s => I s /\ J s) c.
Proof. intros HI HJ s [Hs1 Hs2]. split; [by apply HI | by apply HJ]. Qed.
End PreservesLemmas.

#[export] Hint Resolve preserves_read_only preserves_bind preserves_catch_to preserves_swallow preserves_ret
  preserves_throw preserves_check preserves_from_option preserves_gets preserves_find_or
  preserves_ensure_absent : spark.

(** [if b then c1 else c2] and [match o with ...] inside a handler. *)
Lemma preserves_if {S A} (I : S -> Prop) (b : bool) (c1 c2 : ST S A) :
  Preserves I c1 -> Preserves I c2 -> Preserves I (if b then c1 else c2).
Proof. by destruct b. Qed.

Lemma preserves_match_option {S A B} (I : S -> Prop) (o : option B) (c1 : B -> ST S A) c2 :
  (forall b, Preserves I (c1 b)) -> Preserves I c2 ->
  Preserves I (match o with Some b => c1 b | None => c2 end).
Proof. by destruct o. Qed.

(** [preserves_tac] proves [Preserves I c] for a handler [c] written
    with the combinators above, from the [Preserves I] hints of the
    operations it calls: it follows binds (splitting a pair the
    continuation receives), conditionals and matches. *)
Ltac preserves_tac :=
  repeat match goal with
  | |- Preserves _ (st_bind _ _) =>
      apply preserves_bind;
      [|let x := fresh "x" in
        intros x; lazymatch type of x with (_ * _)%type => destruct x as [? ?] | _ => idtac end]
  | |- Preserves _ (if _ then _ else _) => apply preserves_if
  | |- Preserves _ (match ?o with _ => _ end) => destruct o
  | |- _ => solve [auto 20 with spark]
  end.

#[export] Hint Resolve preserves_if preserves_match_option : spark.

(** ** Searching a finite map by value ([findUnique] on a unique column) *)

Section MapFind.
Context `{Countable K} {V : Type} (p : V -> bool).

Definition map_find (m : gmap K V) : option (K * V) :=
  List.find (fun kv => p kv.2) (map_to_list m).

Lemma map_find_Some (m : gmap K V) k v :
  map_find m = Some (k, v) -> m !! k = Some v /\ p v = true.
Proof.
  unfold map_find. intros [Hin Hp]%find_some. split; [|done].
  apply elem_of_map_to_list. by apply list_elem_of_In.
Qed.

Lemma map_find_None (m : gmap K V) :
  map_find m = None <-> map_Forall (fun _ v => p v = false) m.
Proof.
  unfold map_find. split.
  - intros Hn k v Hk. apply (find_none _ _ Hn (k, v)).
    apply list_elem_of_In. by apply elem_of_map_to_list.
  - intros Hall. destruct (List.find _ _) as [[k v]|] eqn:E; [|done].
    apply find_some in E as [Hin Hp]. simpl in Hp.
    apply list_elem_of_In, elem_of_map_to_list in Hin.
    by rewrite (Hall k v Hin) in Hp.
Qed.

(** A row whose column matches makes the search succeed. *)
Lemma map_find_is_Some (m : gmap K V) k v :
  m !! k = Some v -> p v = true -> is_Some (map_find m).
Proof.
  intros Hk Hp. destruct (map_find m) eqn:E; [done|].
  apply map_find_None in E. by rewrite (E k v Hk) in Hp.
Qed.
End MapFind.

(** ** Fresh strings

    stdpp picks a fresh string as [pretty n] for the first number [n]
    whose decimal text is not taken ([search_infinite pretty]), so a
    fresh string is never empty. *)

Lemma search_infinite_go_in_range {B} `{EqDecision B} (f : nat -> B) xs n
    (acc : Acc (fun n1 n2 => n2 < n1 /\ f (n1 - 1) ∈ xs)%nat n) :
  exists m, Fix_F (fun _ => B) (search_infinite_go f xs) acc = f m.
Proof.
  revert n acc; fix FIX 2; intros n [acc]; simpl; unfold search_infinite_go at 1.
  destruct (decide _); eauto.
Qed.

Lemma search_infinite_in_range {B} `{EqDecision B} (f : nat -> B) `{!Inj eq eq f} xs :
  exists n, @infinite_fresh _ (search_infinite f) xs = f n.
Proof. apply search_infinite_go_in_range. Qed.

Lemma pretty_N_go_nonempty x s : s <> "" -> pretty_N_go x s <> "".
Proof.
  revert s. induction x as [x IH] using (well_founded_induction N.lt_wf_0); intros s Hs.
  destruct (decide (0 < x)%N) as [Hx|Hx].
  - rewrite pretty_N_go_step by done. apply IH; [apply N.div_lt; lia | done].
  - by replace x with 0%N by lia.
Qed.

Lemma pretty_nat_nonempty (n : nat) : pretty n <> "".
Proof.
  unfold pretty, pretty_nat, pretty, pretty_N. case_decide; [done|].
  rewrite pretty_N_go_step by lia. by apply pretty_N_go_nonempty.
Qed.

Lemma fresh_string_nonempty (X : gset string) : fresh X <> "".
Proof.
  change (fresh X) with (@infinite_fresh _ string_infinite (elements X)).
  unfold string_infinite. destruct (search_infinite_in_range pretty (elements X)) as [n ->].
  apply pretty_nat_nonempty.
Qed.

(** ** Lists rendered element by element ([array.map] in a render) *)

Lemma Forall2_map_diag {A B} (P : A -> B -> Prop) (f : A -> B) (l : list A) :
  (forall x, P x (f x)) -> Forall2 P l (map f l).
Proof. intros HP. induction l as [|x l IH]; simpl; constructor; auto. Qed.

Lemma elem_of_map_diag {A B} (f : A -> B) (l : list A) x : x ∈ l -> f x ∈ map f l.
Proof. intros Hx. apply list_elem_of_In, in_map, list_elem_of_In, Hx. Qed.

(** [l.length > 0 ? l.map(f) : <fallback>]: [None] is the fallback. *)
Definition nonempty_map {A B} (f : A -> B) (l : list A) : option (list B) :=
  if bool_decide (0 < length l)%nat then Some (map f l) else None.

Lemma nonempty_map_None {A B} (f : A -> B) l : nonempty_map f l = None <-> l = [].
Proof.
  unfold nonempty_map. destruct l as [|x l].
  - by split.
  - rewrite bool_decide_true by (simpl; lia). split; discriminate.
Qed.

Lemma nonempty_map_Some {A B} (P : A -> B -> Prop) (f : A -> B) l r :
  (forall x, P x (f x)) -> nonempty_map f l = Some r -> Forall2 P l r.
Proof. unfold nonempty_map. case_bool_decide; [|done]. intros HP [= <-]. by apply Forall2_map_diag. Qed.
