(* ===== verification/Validation.v ===== *)
(** * Input validation and the external libraries the handlers call

    The string checks of src/backend/src/auth.ts and utils.ts as
    executable recognisers: [toLowerCase], the name regular expression
    [^[a-zA-Z ]+$], the zId regular expression [^z[0-9]{7}$] and the
    society-name test of [validateSocietyName].  [validator.isEmail]
    and [bcrypt] are libraries the code only calls: they are the type
    classes [EmailValidator] and [PasswordHasher], with the laws the
    proofs use, and one concrete instance each for the witnesses. *)

From S2P Require Import Prelude.
From Stdlib Require Import Ascii.

Open Scope string_scope.

(** ** Character classes *)

Definition is_upper (c : ascii) : bool :=
  (65 <=? nat_of_ascii c)%nat && (nat_of_ascii c <=? 90)%nat.
Definition is_lower (c : ascii) : bool :=
  (97 <=? nat_of_ascii c)%nat && (nat_of_ascii c <=? 122)%nat.
Definition is_digit (c : ascii) : bool :=
  (48 <=? nat_of_ascii c)%nat && (nat_of_ascii c <=? 57)%nat.
Definition is_alpha (c : ascii) : bool := is_upper c || is_lower c.
Definition is_space (c : ascii) : bool := Ascii.eqb c " "%char.

(** [s.toLowerCase()] on the ASCII range: A-Z become a-z, every other
    byte is kept. *)
Definition char_to_lower (c : ascii) : ascii :=
  if is_upper c then ascii_of_nat (nat_of_ascii c + 32) else c.

Fixpoint toLowerCase (s : string) : string :=
  match s with
  | EmptyString => EmptyString
  | String c s' => String (char_to_lower c) (toLowerCase s')
  end.

(** [s] matches [^[C]+$]: it is non-empty and every character is in
    the class [C]. *)
Fixpoint all_chars (p : ascii -> bool) (s : string) : bool :=
  match s with
  | EmptyString => true
  | String c s' => p c && all_chars p s'
  end.

Definition plus_regex (p : ascii -> bool) (s : string) : bool :=
  match s with EmptyString => false | _ => all_chars p s end.

(** [new RegExp('^[a-zA-Z ]+$')] (auth.ts, authRegister). *)
Definition nameRegex (s : string) : bool :=
  plus_regex (fun c => is_alpha c || is_space c) s.

(** [/^z[0-9]{7}$/] (auth.ts, authRegister). *)
Definition zIdRegex (s : string) : bool :=
  match s with
  | String "z" rest => (String.length rest =? 7)%nat && all_chars is_digit rest
  | _ => false
  end.

(** [/^[a-zA-Z0-9 ]+$/] (utils.ts, validateSocietyName). *)
Definition societyNameRegex (s : string) : bool :=
  plus_regex (fun c => is_alpha c || is_digit c || is_space c) s.

(** The store-independent half of [validateSocietyName]:
    [!societyName || length > 100 || length < 1 || !regex] is false. *)
Definition societyNameFormatOk (s : string) : bool :=
  (1 <=? String.length s)%nat && (String.length s <=? 100)%nat && societyNameRegex s.

(** ** The libraries the handlers call *)

(** [validator]'s [isEmail]: only its name is used by the proofs. *)
Class EmailValidator := { isEmail : string -> bool }.

(** [bcrypt.hash(password, salt)] and [bcrypt.compare(password, hash)].
    The salt is the value [bcrypt.genSalt()] returned. *)
Class PasswordHasher := {
  bcrypt_hash : string -> string -> string;
  bcrypt_compare : string -> string -> bool;
  (** the password that was hashed is accepted *)
  bcrypt_compare_hash : forall p salt, bcrypt_compare p (bcrypt_hash p salt) = true;
  (** and no other password is (collision freedom, idealised) *)
  bcrypt_compare_inj : forall p q salt, bcrypt_compare p (bcrypt_hash q salt) = true -> p = q
}.

(** Concrete instances for the witnesses. *)
Definition has_at (s : string) : bool :=
  match String.index 0 "@" s with Some _ => true | None => false end.

#[export] Instance demo_email_validator : EmailValidator :=
  {| isEmail s := has_at s && negb (String.prefix "@" s) |}.

(** The demo hasher ignores the salt and stores the password with a
    tag; it satisfies both laws. *)
Definition demo_hash (p salt : string) : string := "hash:" +:+ p.
Definition demo_compare (p h : string) : bool := String.eqb h ("hash:" +:+ p).

Lemma demo_compare_hash p salt : demo_compare p (demo_hash p salt) = true.
Proof. by apply String.eqb_eq. Qed.

Lemma demo_compare_inj p q salt : demo_compare p (demo_hash q salt) = true -> p = q.
Proof.
  unfold demo_compare, demo_hash. intros H. apply String.eqb_eq in H. simpl in H.
  by repeat (injection H as H).
Qed.

#[export] Instance demo_hasher : PasswordHasher :=
  {| bcrypt_hash := demo_hash; bcrypt_compare := demo_compare;
     bcrypt_compare_hash := demo_compare_hash; bcrypt_compare_inj := demo_compare_inj |}.

(** ** Lemmas on the recognisers *)

Lemma char_to_lower_idem c : char_to_lower (char_to_lower c) = char_to_lower c.
Proof. destruct c as [[] [] [] [] [] [] [] []]; reflexivity. Qed.

Lemma char_to_lower_name_class c :
  (is_alpha (char_to_lower c) || is_space (char_to_lower c)) = (is_alpha c || is_space c).
Proof. destruct c as [[] [] [] [] [] [] [] []]; reflexivity. Qed.

Lemma toLowerCase_length s : String.length (toLowerCase s) = String.length s.
Proof. induction s; simpl; auto. Qed.

(** Lower-casing twice is lower-casing once. *)
Lemma toLowerCase_idem s : toLowerCase (toLowerCase s) = toLowerCase s.
Proof. induction s; simpl; [done|]. by rewrite char_to_lower_idem, IHs. Qed.

(** A name accepted by the regular expression is still accepted once
    lower-cased: registration stores names that match it. *)
Lemma all_chars_name_toLowerCase s :
  all_chars (fun c => is_alpha c || is_space c) (toLowerCase s) =
  all_chars (fun c => is_alpha c || is_space c) s.
Proof. induction s as [|c s IH]; [done|]. simpl. by rewrite char_to_lower_name_class, IH. Qed.

Lemma nameRegex_toLowerCase s : nameRegex (toLowerCase s) = nameRegex s.
Proof.
  unfold nameRegex, plus_regex. destruct s as [|c s]; [done|].
  apply (all_chars_name_toLowerCase (String c s)).
Qed.

(** A zId accepted by the regular expression has eight characters. *)
Lemma zIdRegex_length s : zIdRegex s = true -> String.length s = 8%nat.
Proof.
  destruct s as [|c rest]; [done|]. simpl.
  destruct c as [[] [] [] [] [] [] [] []]; try done.
  intros [H _]%andb_prop. apply Nat.eqb_eq in H. by rewrite H.
Qed.
