(* ===== verification/Query.v ===== *)
(** * Query helpers shared by the listing handlers

    The listing routes (getEvents of event.ts, societyEvents and
    societyList of society.ts) push three things to the database or to
    JavaScript's array methods, modelled here once:
    - Prisma's [contains] filter, which on the SQLite database of
      src/backend/src/data.ts is an SQL [LIKE '%s%'], a substring test
      that ignores ASCII case ([like_contains]);
    - an [orderBy] list of columns, a lexicographic order ([lex]) on
      the columns' values, with strings in SQLite's binary collation,
      the byte order of [String.le];
    - [Array.prototype.slice] with two non-negative integers, the
      pagination of the results ([js_slice], [paginate]).
    The instances show that the lexicographic order of total orders is
    total and transitive (so sorting by it is well defined) and that consecutive pages of a
    slice concatenate to the slice of their union. *)

From S2P Require Import Prelude Validation.
From stdpp Require Import sorting.

Open Scope Z_scope.

(** ** Substring test *)

Fixpoint prefix_of (p s : string) : bool :=
  match p, s with
  | EmptyString, _ => true
  | String a p', String b s' => Ascii.eqb a b && prefix_of p' s'
  | String _ _, EmptyString => false
  end.

Fixpoint substring_of (p s : string) : bool :=
  prefix_of p s || match s with EmptyString => false | String _ s' => substring_of p s' end.

(** [{ field: { contains: needle } }]: [field LIKE '%needle%'], which
    SQLite compares ignoring the case of ASCII letters. *)
Definition like_contains (field needle : string) : bool :=
  substring_of (toLowerCase needle) (toLowerCase field).

(** ** Lexicographic order of [orderBy] lists *)

(** The order of a list of sort columns: the first column decides
    unless it ties, then the rest. *)
Definition lex {A B} (ltA : relation A) (leB : relation B) : relation (A * B) :=
  fun x y => ltA x.1 y.1 \/ (x.1 = y.1 /\ leB x.2 y.2).

(** Strings in binary collation. *)
Definition str_lt (s t : string) : Prop := String.le s t /\ s <> t.

#[export] Instance lex_dec {A B} (ltA : relation A) (leB : relation B)
  `{EqDecision A, RelDecision A A ltA, RelDecision B B leB} : RelDecision (lex ltA leB).
Proof. intros x y. unfold lex. apply _. Defined.

#[export] Instance str_lt_dec : RelDecision str_lt.
Proof. intros s t. unfold str_lt. apply _. Defined.

Section Lex.
Context {A B : Type} (ltA : relation A) (leB : relation B).
Context `{!Transitive ltA, !Irreflexive ltA, !Trichotomy ltA}.

Lemma lex_transitive `{!Transitive leB} : Transitive (lex ltA leB).
Proof.
  intros [a1 b1] [a2 b2] [a3 b3]; unfold lex; simpl.
  intros [H12|[-> H12]] [H23|[-> H23]]; eauto.
Qed.

Lemma lex_total `{!Total leB} : Total (lex ltA leB).
Proof.
  intros [a1 b1] [a2 b2]; unfold lex; simpl.
  destruct (trichotomy ltA a1 a2) as [?|[->|?]]; auto.
  destruct (total leB b1 b2); auto.
Qed.

Lemma lex_antisymm `{!AntiSymm (=) leB} x y : lex ltA leB x y -> lex ltA leB y x -> x = y.
Proof.
  destruct x as [a1 b1], y as [a2 b2]; unfold lex; simpl.
  intros [H12|[E12 H12]] [H21|[E21 H21]].
  - destruct (irreflexivity ltA a1). by trans a2.
  - rewrite E21 in H12. by destruct (irreflexivity ltA a1).
  - rewrite E12 in H21. by destruct (irreflexivity ltA a2).
  - subst. f_equal. by apply (anti_symm leB).
Qed.

(** With a strict order on the remaining columns, [lex] is a strict
    order whose every two values are comparable. *)
Lemma lex_irreflexive `{!Irreflexive leB} : Irreflexive (lex ltA leB).
Proof. intros [a b] [Ha|[_ Hb]]; simpl in *; [by apply (irreflexivity ltA a)|by apply (irreflexivity leB b)]. Qed.

Lemma lex_trichotomy `{!Trichotomy leB} : Trichotomy (lex ltA leB).
Proof.
  intros [a1 b1] [a2 b2]; unfold lex; simpl.
  destruct (trichotomy ltA a1 a2) as [?|[->|?]]; auto.
  destruct (trichotomy leB b1 b2) as [?|[->|?]]; auto.
Qed.
End Lex.

#[export] Existing Instances lex_transitive lex_total lex_irreflexive lex_trichotomy.

#[export] Instance lex_antisymm_inst {A B} (ltA : relation A) (leB : relation B)
  `{!Transitive ltA, !Irreflexive ltA, !AntiSymm (=) leB} : AntiSymm (=) (lex ltA leB).
Proof. intros x y. by apply lex_antisymm. Qed.

#[export] Instance str_lt_irrefl : Irreflexive str_lt.
Proof. by intros s [_ []]. Qed.

#[export] Instance str_lt_trans : Transitive str_lt.
Proof.
  intros s t u [Hst Hne1] [Htu Hne2]. split; [by trans t|].
  intros ->. apply Hne1. by apply (anti_symm String.le).
Qed.

#[export] Instance str_lt_trichotomy : Trichotomy str_lt.
Proof.
  intros s t. destruct (decide (s = t)) as [|Hne]; [by auto|].
  destruct (total String.le s t); [left|right; right]; split; auto.
Qed.

#[export] Instance Z_lt_trichotomy : Trichotomy Z.lt.
Proof. intros x y. lia. Qed.

(** ** JavaScript [slice] and pagination *)

(** [l.slice(s, e)] for integers [0 <= s] and [0 <= e]: the elements
    from index [s] up to, not including, index [e], clamped to the
    list; empty when [e <= s]. *)
Definition js_slice {A} (l : list A) (s e : Z) : list A :=
  take (Z.to_nat e - Z.to_nat s) (drop (Z.to_nat s) l).

(** [if (paginationStart >= 0 && paginationEnd >= 0) l = l.slice(...)]:
    an absent or [NaN] bound ([None]) compares false, and the whole
    list is returned. *)
Definition paginate {A} (paginationStart paginationEnd : option Z) (l : list A) : list A :=
  match paginationStart, paginationEnd with
  | Some s, Some e => if (0 <=? s) && (0 <=? e) then js_slice l s e else l
  | _, _ => l
  end.

Lemma js_slice_lookup {A} (l : list A) s e i :
  0 <= s -> 0 <= e ->
  js_slice l s e !! i = if decide (Z.of_nat i < e - s) then l !! (Z.to_nat s + i)%nat else None.
Proof.
  intros Hs He. unfold js_slice. case_decide.
  - rewrite lookup_take_lt by lia. by rewrite lookup_drop.
  - apply lookup_take_ge. lia.
Qed.

Lemma js_slice_length {A} (l : list A) s e :
  length (js_slice l s e) = ((Z.to_nat e - Z.to_nat s) `min` (length l - Z.to_nat s))%nat.
Proof. unfold js_slice. by rewrite length_take, length_drop. Qed.

(** Consecutive pages concatenate: asking for [a..b] then [b..c]
    returns exactly [a..c], with no row lost or repeated. *)
Lemma js_slice_app {A} (l : list A) a b c :
  0 <= a <= b -> b <= c -> js_slice l a b ++ js_slice l b c = js_slice l a c.
Proof.
  intros Hab Hbc. unfold js_slice.
  replace (Z.to_nat c - Z.to_nat a)%nat with ((Z.to_nat b - Z.to_nat a) + (Z.to_nat c - Z.to_nat b))%nat by lia.
  rewrite <- take_take_drop, drop_drop. do 3 f_equal. lia.
Qed.
