(* ===== verification/Store.v ===== *)
(** * The Prisma store

    The models listed in src/backend/src/data.ts ([User], [Session],
    [Society], [SocietyMember], [Application], [Event],
    [UserAttending], [UserAttended], [ResetCode], [Form]) as records and
    finite maps, and the ORM calls of the handlers as operations of the
    [ST Store] monad.  The schema file is not part of the sources: the
    fields are those the handlers read and write, the uniqueness
    constraints are those the handlers rely on (user email and zId,
    society name, the composite keys), and the cascades on delete are
    those of the specification (section 3: deleting a user removes its
    sessions, memberships and attendance records).

    The invariant [wf] collects what the handlers maintain: sessions
    and memberships point to existing rows, roles and application
    statuses are among the strings the code writes, keys are unique and
    every id is below its auto-increment counter. *)

From S2P Require Import Prelude Validation.

Open Scope Z_scope.

(** ** Rows *)

Record User := mkUser {
  email : string;
  nameFirst : string;
  nameLast : string;
  password : string;   (** the bcrypt hash *)
  zId : string;
  isAdmin : bool
}.

Record Society := mkSociety {
  name : string;
  description : string;
  photoURL : option string  (** [None]: the schema's default *)
}.

Record Application := mkApplication {
  app_name : string;
  app_description : string;
  app_photoURL : option string;
  applicantId : Z;
  status : string  (** 'pending' (the default), 'approved' or 'denied' *)
}.

Record Event := mkEvent {
  ev_societyId : Z;
  ev_name : string;
  ev_description : string;
  time : Z;        (** a [Date] as milliseconds since the epoch *)
  location : string
}.

#[export] Instance User_eq_dec : EqDecision User.
Proof. solve_decision. Defined.
#[export] Instance Society_eq_dec : EqDecision Society.
Proof. solve_decision. Defined.
#[export] Instance Application_eq_dec : EqDecision Application.
Proof. solve_decision. Defined.
#[export] Instance Event_eq_dec : EqDecision Event.
Proof. solve_decision. Defined.

(** ** The store *)

Record Store := mkStore {
  users : gmap Z User;
  sessions : gmap string Z;            (** Session.id (the token) -> userId *)
  societies : gmap Z Society;
  members : gmap (Z * Z) string;       (** (userId, societyId) -> role *)
  applications : gmap Z Application;
  events : gmap Z Event;
  attending : gset (Z * Z);            (** UserAttending (userId, eventId) *)
  attended : gset (Z * Z);             (** UserAttended (userId, eventId) *)
  resetCodes : gmap string Z;          (** ResetCode.id -> userId *)
  forms : gmap (Z * string * string) (string * string);
                                       (** (eventId, zId, email) -> names *)
  next_user : Z;
  next_society : Z;
  next_application : Z;
  next_event : Z
}.

(** The store of a fresh database: every table empty, every
    auto-increment counter at 1. *)
Definition empty_store : Store :=
  mkStore ∅ ∅ ∅ ∅ ∅ ∅ ∅ ∅ ∅ ∅ 1 1 1 1.

(** A small populated store used by the witnesses: a site admin
    (user 1) who belongs to no society, the admin (user 2) and a member
    (user 3) of society 1, one live session per user, one pending and
    one denied application. *)
Definition demo_store : Store :=
  mkStore
    (<[1 := mkUser "ada@unsw.edu" "ada" "lovelace" "hash:pw1" "z1111111" true]>
     (<[2 := mkUser "bob@unsw.edu" "bob" "ross" "hash:pw2" "z2222222" false]>
      (<[3 := mkUser "cat@unsw.edu" "cat" "stevens" "hash:pw3" "z3333333" false]> ∅)))
    (<["tok1" := 1]> (<["tok2" := 2]> (<["tok3" := 3]> ∅)))
    (<[1 := mkSociety "Chess Club" "chess" None]> ∅)
    (<[(2, 1) := "admin"]> (<[(3, 1) := "member"]> ∅))
    (<[1 := mkApplication "Go Club" "go" None 3 "pending"]>
     (<[2 := mkApplication "Poker Club" "poker" None 2 "denied"]> ∅))
    ∅ ∅ ∅ ∅ ∅ 4 2 3 1.

(** Field updates. *)
Definition set_users (f : gmap Z User -> gmap Z User) (st : Store) : Store :=
  mkStore (f (users st)) (sessions st) (societies st) (members st) (applications st)
    (events st) (attending st) (attended st) (resetCodes st) (forms st)
    (next_user st) (next_society st) (next_application st) (next_event st).
Definition set_sessions (f : gmap string Z -> gmap string Z) (st : Store) : Store :=
  mkStore (users st) (f (sessions st)) (societies st) (members st) (applications st)
    (events st) (attending st) (attended st) (resetCodes st) (forms st)
    (next_user st) (next_society st) (next_application st) (next_event st).
Definition set_societies (f : gmap Z Society -> gmap Z Society) (st : Store) : Store :=
  mkStore (users st) (sessions st) (f (societies st)) (members st) (applications st)
    (events st) (attending st) (attended st) (resetCodes st) (forms st)
    (next_user st) (next_society st) (next_application st) (next_event st).
Definition set_members (f : gmap (Z * Z) string -> gmap (Z * Z) string) (st : Store) : Store :=
  mkStore (users st) (sessions st) (societies st) (f (members st)) (applications st)
    (events st) (attending st) (attended st) (resetCodes st) (forms st)
    (next_user st) (next_society st) (next_application st) (next_event st).
Definition set_applications (f : gmap Z Application -> gmap Z Application) (st : Store) : Store :=
  mkStore (users st) (sessions st) (societies st) (members st) (f (applications st))
    (events st) (attending st) (attended st) (resetCodes st) (forms st)
    (next_user st) (next_society st) (next_application st) (next_event st).

Definition user_with_isAdmin (b : bool) (u : User) : User :=
  mkUser (email u) (nameFirst u) (nameLast u) (password u) (zId u) b.

Definition application_with_status (s : string) (a : Application) : Application :=
  mkApplication (app_name a) (app_description a) (app_photoURL a) (applicantId a) s.

(** ** Reads *)

Definition find_user_by (p : User -> bool) (st : Store) : option (Z * User) :=
  map_find p (users st).

(** [prisma.user.findUnique({ where: { email } })] *)
Definition user_by_email (e : string) (st : Store) : option (Z * User) :=
  find_user_by (fun u => String.eqb (email u) e) st.

(** [prisma.user.findUnique({ where: { zId } })] *)
Definition user_by_zId (z : string) (st : Store) : option (Z * User) :=
  find_user_by (fun u => String.eqb (zId u) z) st.

(** [prisma.society.findUnique({ where: { name } })] *)
Definition society_by_name (n : string) (st : Store) : option (Z * Society) :=
  map_find (fun soc => String.eqb (name soc) n) (societies st).

Arguments user_by_email : simpl never.
Arguments user_by_zId : simpl never.
Arguments society_by_name : simpl never.

(** ** Writes (one per Prisma call) *)

Definition unique_violation : HttpError :=
  InternalServerError "Unique constraint failed".
Definition record_not_found : HttpError :=
  InternalServerError "Record to update not found.".
Definition foreign_key_violation : HttpError :=
  InternalServerError "Foreign key constraint failed".

(** [prisma.user.create]: the email and zId columns are unique; the new
    row takes the next auto-increment id. *)
Definition user_create (u : User) : ST Store Z :=
  fun st =>
    match user_by_email (email u) st, user_by_zId (zId u) st with
    | None, None =>
        let id := next_user st in
        Done id (mkStore (<[id := u]> (users st)) (sessions st) (societies st) (members st)
                   (applications st) (events st) (attending st) (attended st)
                   (resetCodes st) (forms st) (id + 1) (next_society st)
                   (next_application st) (next_event st))
    | _, _ => Fail unique_violation st
    end.

(** [prisma.session.create({ data: { userId } })]: the id column is a
    database-generated uuid, different from every live one. *)
Definition session_create (uid : Z) : ST Store string :=
  fun st =>
    if bool_decide (is_Some (users st !! uid)) then
      let tok := fresh (dom (sessions st)) in
      Done tok (set_sessions (insert tok uid) st)
    else Fail foreign_key_violation st.

(** [prisma.session.delete({ where: { id } })] *)
Definition session_delete (tok : string) : ST Store unit :=
  fun st =>
    match sessions st !! tok with
    | Some _ => Done tt (set_sessions (delete tok) st)
    | None => Fail record_not_found st
    end.

(** [prisma.user.update({ data: { isAdmin }, where: { id } })] *)
Definition user_update_isAdmin (uid : Z) (b : bool) : ST Store unit :=
  fun st =>
    match users st !! uid with
    | Some u => Done tt (set_users (insert uid (user_with_isAdmin b u)) st)
    | None => Fail record_not_found st
    end.

(** [prisma.societyMember.update({ data: { role }, where: { userId_societyId } })] *)
Definition member_update_role (uid sid : Z) (role : string) : ST Store unit :=
  fun st =>
    match members st !! (uid, sid) with
    | Some _ => Done tt (set_members (insert (uid, sid) role) st)
    | None => Fail record_not_found st
    end.

(** [prisma.societyMember.upsert] with [update: {}] and a create that
    takes the schema's default role 'member'. *)
Definition member_upsert (uid sid : Z) : ST Store unit :=
  fun st =>
    match members st !! (uid, sid) with
    | Some _ => Done tt st
    | None =>
        if bool_decide (is_Some (users st !! uid)) && bool_decide (is_Some (societies st !! sid))
        then Done tt (set_members (insert (uid, sid) "member") st)
        else Fail foreign_key_violation st
    end.

(** [prisma.application.update({ where: { id }, data: { status } })] *)
Definition application_update_status (aid : Z) (s : string) : ST Store unit :=
  fun st =>
    match applications st !! aid with
    | Some a => Done tt (set_applications (insert aid (application_with_status s a)) st)
    | None => Fail record_not_found st
    end.

(** [prisma.society.create] with a nested create of one member: the
    name column is unique and the member's user must exist. *)
Definition society_create (soc : Society) (uid : Z) (role : string) : ST Store Z :=
  fun st =>
    match society_by_name (name soc) st with
    | Some _ => Fail unique_violation st
    | None =>
        if bool_decide (is_Some (users st !! uid)) then
          let id := next_society st in
          Done id (mkStore (users st) (sessions st) (<[id := soc]> (societies st))
                     (<[(uid, id) := role]> (members st)) (applications st) (events st)
                     (attending st) (attended st) (resetCodes st) (forms st)
                     (next_user st) (id + 1) (next_application st) (next_event st))
        else Fail foreign_key_violation st
    end.

(** [prisma.application.create] connecting the applicant; the status
    takes the schema's default 'pending'. *)
Definition application_create (n d : string) (uid : Z) : ST Store Z :=
  fun st =>
    if bool_decide (is_Some (users st !! uid)) then
      let id := next_application st in
      Done id (mkStore (users st) (sessions st) (societies st) (members st)
                 (<[id := mkApplication n d None uid "pending"]> (applications st))
                 (events st) (attending st) (attended st) (resetCodes st) (forms st)
                 (next_user st) (next_society st) (id + 1) (next_event st))
    else Fail foreign_key_violation st.

(** [prisma.user.delete({ where: { id } })], with the cascades of the
    specification: the user's sessions, memberships and attendance. *)
Definition user_delete (uid : Z) : ST Store unit :=
  fun st =>
    match users st !! uid with
    | None => Fail record_not_found st
    | Some _ =>
        Done tt (mkStore (delete uid (users st))
                   (filter (fun kv => kv.2 <> uid) (sessions st))
                   (societies st)
                   (filter (fun kv => kv.1.1 <> uid) (members st))
                   (applications st) (events st)
                   (filter (fun k => k.1 <> uid) (attending st))
                   (filter (fun k => k.1 <> uid) (attended st))
                   (resetCodes st) (forms st)
                   (next_user st) (next_society st) (next_application st) (next_event st))
    end.

(** [prisma.society.update({ where: { id }, data: { name, description } })]:
    the name column stays unique. *)
Definition society_update (sid : Z) (n d : string) : ST Store unit :=
  fun st =>
    match societies st !! sid with
    | None => Fail record_not_found st
    | Some soc =>
        match society_by_name n st with
        | Some (j, _) => if bool_decide (j = sid)
                         then Done tt (set_societies (insert sid (mkSociety n d (photoURL soc))) st)
                         else Fail unique_violation st
        | None => Done tt (set_societies (insert sid (mkSociety n d (photoURL soc))) st)
        end
    end.

(** An event belongs to a society other than [sid] (or is unknown). *)
Definition event_outside (sid : Z) (st : Store) (eid : Z) : Prop :=
  match events st !! eid with Some e => ev_societyId e <> sid | None => True end.

#[export] Instance event_outside_dec sid st eid : Decision (event_outside sid st eid).
Proof. unfold event_outside. destruct (events st !! eid); apply _. Defined.

(** [prisma.society.delete({ where: { id } })], cascading to the
    society's memberships, its events and their attendance and forms. *)
Definition society_delete (sid : Z) : ST Store unit :=
  fun st =>
    match societies st !! sid with
    | None => Fail record_not_found st
    | Some _ =>
        Done tt (mkStore (users st) (sessions st) (delete sid (societies st))
                   (filter (fun kv => kv.1.2 <> sid) (members st))
                   (applications st)
                   (filter (fun kv => ev_societyId kv.2 <> sid) (events st))
                   (filter (fun k => event_outside sid st k.2) (attending st))
                   (filter (fun k => event_outside sid st k.2) (attended st))
                   (resetCodes st)
                   (filter (fun kv => event_outside sid st kv.1.1.1) (forms st))
                   (next_user st) (next_society st) (next_application st) (next_event st))
    end.

(** [prisma.event.create]: the society must exist. *)
Definition event_create (e : Event) : ST Store Z :=
  fun st =>
    if bool_decide (is_Some (societies st !! ev_societyId e)) then
      let id := next_event st in
      Done id (mkStore (users st) (sessions st) (societies st) (members st) (applications st)
                 (<[id := e]> (events st)) (attending st) (attended st) (resetCodes st) (forms st)
                 (next_user st) (next_society st) (next_application st) (id + 1))
    else Fail foreign_key_violation st.

Definition set_events (f : gmap Z Event -> gmap Z Event) (st : Store) : Store :=
  mkStore (users st) (sessions st) (societies st) (members st) (applications st)
    (f (events st)) (attending st) (attended st) (resetCodes st) (forms st)
    (next_user st) (next_society st) (next_application st) (next_event st).

Definition set_attending (f : gset (Z * Z) -> gset (Z * Z)) (st : Store) : Store :=
  mkStore (users st) (sessions st) (societies st) (members st) (applications st)
    (events st) (f (attending st)) (attended st) (resetCodes st) (forms st)
    (next_user st) (next_society st) (next_application st) (next_event st).

(** [prisma.event.update({ where: { id }, data: { name, description, time, location } })] *)
Definition event_update (eid : Z) (n d : string) (t : Z) (l : string) : ST Store unit :=
  fun st =>
    match events st !! eid with
    | Some e => Done tt (set_events (insert eid (mkEvent (ev_societyId e) n d t l)) st)
    | None => Fail record_not_found st
    end.

(** [prisma.event.delete({ where: { id } })], cascading to the event's
    attendance and forms. *)
Definition event_delete (eid : Z) : ST Store unit :=
  fun st =>
    match events st !! eid with
    | None => Fail record_not_found st
    | Some _ =>
        Done tt (mkStore (users st) (sessions st) (societies st) (members st) (applications st)
                   (delete eid (events st))
                   (filter (fun k => k.2 <> eid) (attending st))
                   (filter (fun k => k.2 <> eid) (attended st))
                   (resetCodes st)
                   (filter (fun kv => kv.1.1.1 <> eid) (forms st))
                   (next_user st) (next_society st) (next_application st) (next_event st))
    end.

(** [prisma.userAttending.upsert] with [update: {}]. *)
Definition attending_upsert (uid eid : Z) : ST Store unit :=
  fun st =>
    if bool_decide (is_Some (users st !! uid)) && bool_decide (is_Some (events st !! eid))
    then Done tt (set_attending (union {[(uid, eid)]}) st)
    else Fail foreign_key_violation st.

(** [prisma.userAttending.delete({ where: { userId_eventId } })] *)
Definition attending_delete (uid eid : Z) : ST Store unit :=
  fun st =>
    if bool_decide ((uid, eid) ∈ attending st)
    then Done tt (set_attending (fun a => a ∖ {[(uid, eid)]}) st)
    else Fail record_not_found st.

(** [prisma.form.upsert] keyed by (eventId, zId, email) with
    [update: {}]: the event must exist. *)
Definition form_upsert (eid : Z) (z e nf nl : string) : ST Store unit :=
  fun st =>
    match forms st !! (eid, z, e) with
    | Some _ => Done tt st
    | None =>
        if bool_decide (is_Some (events st !! eid)) then
          Done tt (mkStore (users st) (sessions st) (societies st) (members st) (applications st)
                     (events st) (attending st) (attended st) (resetCodes st)
                     (<[(eid, z, e) := (nf, nl)]> (forms st))
                     (next_user st) (next_society st) (next_application st) (next_event st))
        else Fail foreign_key_violation st
    end.

(** [prisma.user.update({ where: { zId }, data: { attended: { create:
    { eventId } } } })]: fails when no user has the zId or the event
    is unknown. *)
Definition attended_create (z : string) (eid : Z) : ST Store unit :=
  fun st =>
    match user_by_zId z st with
    | None => Fail record_not_found st
    | Some (uid, _) =>
        if bool_decide (is_Some (events st !! eid)) then
          Done tt (mkStore (users st) (sessions st) (societies st) (members st) (applications st)
                     (events st) (attending st) ({[(uid, eid)]} ∪ attended st) (resetCodes st)
                     (forms st) (next_user st) (next_society st) (next_application st) (next_event st))
        else Fail foreign_key_violation st
    end.

Definition set_resetCodes (f : gmap string Z -> gmap string Z) (st : Store) : Store :=
  mkStore (users st) (sessions st) (societies st) (members st) (applications st)
    (events st) (attending st) (attended st) (f (resetCodes st)) (forms st)
    (next_user st) (next_society st) (next_application st) (next_event st).

Definition user_with_password (h : string) (u : User) : User :=
  mkUser (email u) (nameFirst u) (nameLast u) h (zId u) (isAdmin u).

Definition user_with_profile (nf nl e : string) (u : User) : User :=
  mkUser e nf nl (password u) (zId u) (isAdmin u).

(** [prisma.resetCode.create({ data: { id, userId } })]: the id is the
    primary key and the user must exist. *)
Definition reset_code_create (code : string) (uid : Z) : ST Store unit :=
  fun st =>
    match resetCodes st !! code with
    | Some _ => Fail unique_violation st
    | None =>
        if bool_decide (is_Some (users st !! uid))
        then Done tt (set_resetCodes (insert code uid) st)
        else Fail foreign_key_violation st
    end.

(** [prisma.user.update({ data: { password }, where: { id } })] *)
Definition user_update_password (uid : Z) (h : string) : ST Store unit :=
  fun st =>
    match users st !! uid with
    | Some u => Done tt (set_users (insert uid (user_with_password h u)) st)
    | None => Fail record_not_found st
    end.

(** [prisma.user.update({ where: { id }, data: { nameFirst, nameLast,
    email } })]: the email column stays unique (another user's row with
    the same email is a unique violation). *)
Definition user_update_profile (uid : Z) (nf nl e : string) : ST Store unit :=
  fun st =>
    match users st !! uid with
    | None => Fail record_not_found st
    | Some u =>
        match user_by_email e st with
        | Some (j, _) =>
            if bool_decide (j = uid)
            then Done tt (set_users (insert uid (user_with_profile nf nl e u)) st)
            else Fail unique_violation st
        | None => Done tt (set_users (insert uid (user_with_profile nf nl e u)) st)
        end
    end.

(** ** The store invariant *)

Definition valid_role (r : string) : Prop := r = "admin" \/ r = "moderator" \/ r = "member".
Definition valid_status (s : string) : Prop := s = "pending" \/ s = "approved" \/ s = "denied".

#[export] Instance valid_role_dec r : Decision (valid_role r).
Proof. unfold valid_role. apply _. Defined.
#[export] Instance valid_status_dec s : Decision (valid_status s).
Proof. unfold valid_status. apply _. Defined.

(** A column is unique in a table. *)
Definition unique_on `{Countable K} {V B} (f : V -> B) (m : gmap K V) : Prop :=
  map_Forall (fun i u => map_Forall (fun j v => f u = f v -> i = j) m) m.

#[export] Instance unique_on_dec `{Countable K} {V B} `{EqDecision B} (f : V -> B) (m : gmap K V) :
  Decision (unique_on f m).
Proof. unfold unique_on. apply _. Defined.

Record wf (st : Store) : Prop := {
  wf_sessions : map_Forall (fun _ uid => is_Some (users st !! uid)) (sessions st);
  wf_members : map_Forall (fun k r => is_Some (users st !! k.1) /\
                                      is_Some (societies st !! k.2) /\ valid_role r) (members st);
  wf_status : map_Forall (fun _ a => valid_status (status a)) (applications st);
  wf_email : unique_on email (users st);
  wf_zId : unique_on zId (users st);
  wf_society_name : unique_on name (societies st);
  wf_user_ids : map_Forall (fun i _ => 1 <= i < next_user st) (users st);
  wf_society_ids : map_Forall (fun i _ => 1 <= i < next_society st) (societies st);
  wf_application_ids : map_Forall (fun i _ => 1 <= i < next_application st) (applications st);
  wf_counters : 1 <= next_user st /\ 1 <= next_society st /\ 1 <= next_application st
}.

Definition wfb (st : Store) : bool :=
  bool_decide (map_Forall (fun _ uid => is_Some (users st !! uid)) (sessions st)) &&
  bool_decide (map_Forall (fun k r => is_Some (users st !! k.1) /\
                             is_Some (societies st !! k.2) /\ valid_role r) (members st)) &&
  bool_decide (map_Forall (fun _ a => valid_status (status a)) (applications st)) &&
  bool_decide (unique_on email (users st)) && bool_decide (unique_on zId (users st)) &&
  bool_decide (unique_on name (societies st)) &&
  bool_decide (map_Forall (fun i _ => 1 <= i < next_user st) (users st)) &&
  bool_decide (map_Forall (fun i _ => 1 <= i < next_society st) (societies st)) &&
  bool_decide (map_Forall (fun i _ => 1 <= i < next_application st) (applications st)) &&
  bool_decide (1 <= next_user st /\ 1 <= next_society st /\ 1 <= next_application st).

(** The boolean test decides the invariant, so a concrete store is
    shown well formed by computation. *)
Lemma wfb_wf st : wfb st = true -> wf st.
Proof.
  unfold wfb. intros H. repeat (apply andb_prop in H as [H ?]).
  repeat match goal with Hb : bool_decide _ = true |- _ => apply bool_decide_eq_true in Hb end.
  by constructor.
Qed.

(** ** Lemmas on unique columns *)

Section Unique.
Context `{Countable K} {V B : Type} (f : V -> B).

Lemma unique_on_empty : unique_on f (∅ : gmap K V).
Proof. intros i u Hi. by rewrite lookup_empty in Hi. Qed.

(** Writing a row whose column differs from every other row's keeps
    the column unique (a create at a fresh key, or an update). *)
Lemma unique_on_insert (m : gmap K V) i v :
  (forall j w, m !! j = Some w -> j <> i -> f w <> f v) ->
  unique_on f m -> unique_on f (<[i := v]> m).
Proof.
  intros Hn Hu j w Hj k x Hk Heq.
  apply lookup_insert_Some in Hj as [[<- <-]|[Hji Hj]];
  apply lookup_insert_Some in Hk as [[<- <-]|[Hki Hk]]; try done.
  - by destruct (Hn k x Hk (not_eq_sym Hki)).
  - by destruct (Hn j w Hj (not_eq_sym Hji)).
  - exact (Hu j w Hj k x Hk Heq).
Qed.

Lemma unique_on_subseteq (m m' : gmap K V) : m' ⊆ m -> unique_on f m -> unique_on f m'.
Proof.
  intros Hs Hu j w Hj k x Hk.
  apply (Hu j w (lookup_weaken _ _ _ _ Hj Hs) k x (lookup_weaken _ _ _ _ Hk Hs)).
Qed.

(** Two rows that agree on a unique column are the same row. *)
Lemma unique_on_eq (m : gmap K V) i j u v :
  unique_on f m -> m !! i = Some u -> m !! j = Some v -> f u = f v -> i = j.
Proof. intros Hu Hi Hj. exact (Hu i u Hi j v Hj). Qed.
End Unique.

(** ** Lemmas on the auto-increment counters *)

Lemma lookup_counter_None {V} (m : gmap Z V) n :
  map_Forall (fun i _ => 1 <= i < n) m -> m !! n = None.
Proof.
  intros Hm. destruct (m !! n) as [v|] eqn:E; [|done].
  specialize (Hm n v E). simpl in Hm. lia.
Qed.

Lemma map_Forall_counter_insert {V} (m : gmap Z V) n v :
  1 <= n -> map_Forall (fun i _ => 1 <= i < n) m ->
  map_Forall (fun i _ => 1 <= i < n + 1) (<[n := v]> m).
Proof.
  intros Hn Hm. apply map_Forall_insert_2; [simpl; lia|].
  eapply map_Forall_impl; [exact Hm|]. simpl. lia.
Qed.

Lemma map_Forall_counter_keep {V} (m : gmap Z V) i v n :
  is_Some (m !! i) -> map_Forall (fun i _ => 1 <= i < n) m ->
  map_Forall (fun i _ => 1 <= i < n) (<[i := v]> m).
Proof.
  intros [w Hw] Hm. apply map_Forall_insert_2; [|done]. exact (Hm i w Hw).
Qed.

(** A key that was present is still present after a write. *)
Lemma is_Some_insert_r `{Countable K} {V} (m : gmap K V) i v k :
  is_Some (m !! k) -> is_Some (<[i := v]> m !! k).
Proof. rewrite lookup_insert_is_Some'. tauto. Qed.

Lemma wf_empty : wf empty_store.
Proof. apply wfb_wf. reflexivity. Qed.

Lemma wf_demo_store : wf demo_store.
Proof. apply wfb_wf. vm_compute. reflexivity. Qed.

#[export] Hint Resolve unique_on_empty is_Some_insert_r map_Forall_counter_insert
  map_Forall_counter_keep : spark.

(** [map_Forall_mono H] weakens the conclusion of the [map_Forall]
    hypothesis [H] to the goal's predicate. *)
Ltac map_Forall_mono H :=
  eapply map_Forall_impl; [exact H|]; simpl; intros ??.

(** ** Every ORM write preserves the invariant *)

Lemma user_create_preserves u : Preserves wf (user_create u).
Proof.
  intros st Hwf. unfold user_create.
  destruct (user_by_email _ _) eqn:E1; [done|]. destruct (user_by_zId _ _) eqn:E2; [done|].
  apply map_find_None in E1, E2.
  destruct Hwf as [Hs Hm Hst He Hz Hn Hu Hso Ha (Hc1 & Hc2 & Hc3)].
  constructor; simpl; auto with spark.
  - map_Forall_mono Hs. auto with spark.
  - map_Forall_mono Hm. intros (?&?&?). eauto with spark.
  - apply unique_on_insert; [|done]. intros j w Hj _. apply String.eqb_neq. exact (E1 j w Hj).
  - apply unique_on_insert; [|done]. intros j w Hj _. apply String.eqb_neq. exact (E2 j w Hj).
  - lia.
Qed.

Lemma session_create_preserves uid : Preserves wf (session_create uid).
Proof.
  intros st Hwf. unfold session_create. case_bool_decide as Hu; [|done].
  destruct Hwf; constructor; simpl; auto.
  by apply map_Forall_insert_2.
Qed.

Lemma session_delete_preserves tok : Preserves wf (session_delete tok).
Proof.
  intros st Hwf. unfold session_delete. destruct (sessions st !! tok); [|done].
  destruct Hwf; constructor; simpl; auto. by apply map_Forall_delete.
Qed.

(** Updating a user row in place keeps the unique columns unique when
    the row's own columns do not change. *)
Lemma unique_on_update {V B} (f : V -> B) (m : gmap Z V) i v w :
  m !! i = Some w -> f v = f w -> unique_on f m -> unique_on f (<[i := v]> m).
Proof.
  intros Hw Hf Hu. apply unique_on_insert; [|done].
  intros j x Hj Hji Heq. apply Hji. rewrite Hf in Heq. exact (Hu j x Hj i w Hw Heq).
Qed.

Lemma user_update_isAdmin_preserves uid b : Preserves wf (user_update_isAdmin uid b).
Proof.
  intros st Hwf. unfold user_update_isAdmin. destruct (users st !! uid) as [u|] eqn:Hu; [|done].
  destruct Hwf as [Hs Hm Hst He Hz Hn Hids Hso Ha Hc].
  constructor; simpl; eauto using unique_on_update with spark.
  - map_Forall_mono Hs. auto with spark.
  - map_Forall_mono Hm. intros (?&?&?). eauto with spark.
Qed.

Lemma member_update_role_preserves uid sid r :
  valid_role r -> Preserves wf (member_update_role uid sid r).
Proof.
  intros Hr st Hwf. unfold member_update_role. destruct (members st !! (uid, sid)) eqn:E; [|done].
  destruct Hwf as [Hs Hm Hst He Hz Hn Hids Hso Ha Hc].
  constructor; simpl; auto.
  apply map_Forall_insert_2; [|done]. destruct (Hm _ _ E) as (?&?&?). done.
Qed.

Lemma member_upsert_preserves uid sid : Preserves wf (member_upsert uid sid).
Proof.
  intros st Hwf. unfold member_upsert. destruct (members st !! (uid, sid)); [done|].
  case_bool_decide; case_bool_decide; simpl; try done.
  destruct Hwf; constructor; simpl; auto.
  apply map_Forall_insert_2; [|done]. simpl. repeat split; try done. by right; right.
Qed.

Lemma application_update_status_preserves aid s :
  valid_status s -> Preserves wf (application_update_status aid s).
Proof.
  intros Hs st Hwf. unfold application_update_status. destruct (applications st !! aid) eqn:E; [|done].
  destruct Hwf; constructor; simpl; eauto with spark.
  by apply map_Forall_insert_2.
Qed.

Lemma society_create_preserves soc uid r :
  valid_role r -> Preserves wf (society_create soc uid r).
Proof.
  intros Hr st Hwf. unfold society_create.
  destruct (society_by_name _ _) eqn:E; [done|]. case_bool_decide as Hu; [|done].
  apply map_find_None in E.
  destruct Hwf as [Hs Hm Hst He Hz Hn Hids Hso Ha (Hc1 & Hc2 & Hc3)].
  constructor; simpl; auto with spark.
  - apply map_Forall_insert_2.
    + simpl. split; [done|]. split; [|done]. by rewrite lookup_insert_eq.
    + map_Forall_mono Hm. intros (?&?&?). eauto with spark.
  - apply unique_on_insert; [|done]. intros j w Hj _. apply String.eqb_neq. exact (E j w Hj).
  - lia.
Qed.

Lemma application_create_preserves n d uid : Preserves wf (application_create n d uid).
Proof.
  intros st Hwf. unfold application_create. case_bool_decide; [|done].
  destruct Hwf as [Hs Hm Hst He Hz Hn Hids Hso Ha (Hc1 & Hc2 & Hc3)].
  constructor; simpl; auto with spark.
  - apply map_Forall_insert_2; [|done]. simpl. unfold valid_status. auto.
  - lia.
Qed.

Lemma user_delete_preserves uid : Preserves wf (user_delete uid).
Proof.
  intros st Hwf. unfold user_delete. destruct (users st !! uid); [|done].
  destruct Hwf as [Hs Hm Hst He Hz Hn Hids Hso Ha Hc].
  constructor; simpl; auto.
  - intros tok v [Hv Hne]%map_lookup_filter_Some. simpl in Hne.
    rewrite lookup_delete_ne; [|done]. exact (Hs _ _ Hv).
  - intros k r [Hv Hne]%map_lookup_filter_Some. simpl in Hne.
    rewrite lookup_delete_ne; [|done]. exact (Hm _ _ Hv).
  - eapply unique_on_subseteq; [apply delete_subseteq|done].
  - eapply unique_on_subseteq; [apply delete_subseteq|done].
  - by apply map_Forall_delete.
Qed.

Lemma society_update_preserves sid n d : Preserves wf (society_update sid n d).
Proof.
  intros st Hwf. unfold society_update.
  destruct (societies st !! sid) as [soc|] eqn:Hs; [|done].
  assert (Hgoal : (forall j w, societies st !! j = Some w -> j <> sid -> name w <> n) ->
                  wf (set_societies (insert sid (mkSociety n d (photoURL soc))) st)).
  { intros Hn. destruct Hwf as [Hse Hm Hst He Hz Hname Hids Hso Ha Hc].
    constructor; simpl; eauto with spark.
    - map_Forall_mono Hm. intros (?&?&?). eauto with spark.
    - apply unique_on_insert; [|done]. intros j w Hj Hji. exact (Hn j w Hj Hji). }
  destruct (society_by_name n st) as [[j w]|] eqn:Hf.
  - case_bool_decide as Hj; [|done]. subst j. apply Hgoal.
    apply map_find_Some in Hf as [Hw Hnw]. apply String.eqb_eq in Hnw.
    intros k x Hk Hne Hx. apply Hne. subst n.
    exact (unique_on_eq name _ k sid x w (wf_society_name _ Hwf) Hk Hw Hx).
  - apply Hgoal. apply map_find_None in Hf. intros j w Hj _. apply String.eqb_neq. exact (Hf j w Hj).
Qed.

Lemma society_delete_preserves sid : Preserves wf (society_delete sid).
Proof.
  intros st Hwf. unfold society_delete. destruct (societies st !! sid); [|done].
  destruct Hwf as [Hs Hm Hst He Hz Hn Hids Hso Ha Hc].
  constructor; simpl; auto.
  - intros k r [Hv Hne]%map_lookup_filter_Some. simpl in Hne.
    destruct (Hm _ _ Hv) as (? & ? & ?). rewrite lookup_delete_ne; [done|congruence].
  - eapply unique_on_subseteq; [apply delete_subseteq|done].
  - by apply map_Forall_delete.
Qed.

(** The event operations write only the tables the invariant does not
    constrain. *)
Ltac event_op_preserves :=
  intros st Hwf; repeat (simpl; case_match); try case_bool_decide; simpl; try done;
  destruct Hwf; constructor; simpl; auto.

Lemma event_create_preserves e : Preserves wf (event_create e).
Proof. unfold event_create. event_op_preserves. Qed.
Lemma event_update_preserves eid n d t l : Preserves wf (event_update eid n d t l).
Proof. unfold event_update. event_op_preserves. Qed.
Lemma event_delete_preserves eid : Preserves wf (event_delete eid).
Proof. unfold event_delete. event_op_preserves. Qed.
Lemma attending_upsert_preserves uid eid : Preserves wf (attending_upsert uid eid).
Proof. unfold attending_upsert. event_op_preserves. Qed.
Lemma attending_delete_preserves uid eid : Preserves wf (attending_delete uid eid).
Proof. unfold attending_delete. event_op_preserves. Qed.
Lemma form_upsert_preserves eid z e nf nl : Preserves wf (form_upsert eid z e nf nl).
Proof. unfold form_upsert. event_op_preserves. Qed.
Lemma attended_create_preserves z eid : Preserves wf (attended_create z eid).
Proof. unfold attended_create. event_op_preserves. Qed.

#[export] Hint Resolve user_create_preserves session_create_preserves session_delete_preserves
  user_update_isAdmin_preserves member_update_role_preserves member_upsert_preserves
  application_update_status_preserves society_create_preserves application_create_preserves
  user_delete_preserves society_update_preserves society_delete_preserves
  event_create_preserves event_update_preserves event_delete_preserves attending_upsert_preserves
  attending_delete_preserves form_upsert_preserves attended_create_preserves : spark.

(** ** Searching a unique column finds the row *)

Lemma map_find_unique {V} (f : V -> string) (m : gmap Z V) i v :
  unique_on f m -> m !! i = Some v ->
  map_find (fun w => String.eqb (f w) (f v)) m = Some (i, v).
Proof.
  intros Hu Hi. destruct (map_find_is_Some (fun w => String.eqb (f w) (f v)) m i v Hi)
    as [[j w] Hj]; [by apply String.eqb_eq|].
  rewrite Hj. apply map_find_Some in Hj as [Hj Heq]. apply String.eqb_eq in Heq.
  pose proof (unique_on_eq f m j i w v Hu Hj Hi Heq) as ->. by simplify_eq.
Qed.

Lemma user_by_email_unique st uid u :
  wf st -> users st !! uid = Some u -> user_by_email (email u) st = Some (uid, u).
Proof. intros Hwf Hu. apply map_find_unique; [apply Hwf|done]. Qed.

Lemma user_by_zId_unique st uid u :
  wf st -> users st !! uid = Some u -> user_by_zId (zId u) st = Some (uid, u).
Proof. intros Hwf Hu. apply map_find_unique; [apply Hwf|done]. Qed.

Lemma user_by_email_Some e st uid u :
  user_by_email e st = Some (uid, u) -> users st !! uid = Some u /\ email u = e.
Proof. intros [? ?%String.eqb_eq]%map_find_Some. done. Qed.

Lemma reset_code_create_preserves code uid : Preserves wf (reset_code_create code uid).
Proof.
  intros st Hwf. unfold reset_code_create. destruct (resetCodes st !! code); [done|].
  case_bool_decide; [|done]. destruct Hwf. by constructor.
Qed.

(** Rewriting columns of an existing user other than zId keeps the
    invariant, given that the email stays unique. *)
Lemma wf_user_rewrite st uid u v :
  wf st -> users st !! uid = Some u -> zId v = zId u ->
  unique_on email (<[uid := v]> (users st)) -> wf (set_users (insert uid v) st).
Proof.
  intros Hwf Hu Hz He. destruct Hwf as [Hs Hm Hst He0 Hz0 Hn Hids Hso Ha Hc].
  constructor; simpl; eauto using unique_on_update with spark.
  - map_Forall_mono Hs. auto with spark.
  - map_Forall_mono Hm. intros (?&?&?). eauto with spark.
Qed.

Lemma user_update_password_preserves uid h : Preserves wf (user_update_password uid h).
Proof.
  intros st Hwf. unfold user_update_password. destruct (users st !! uid) as [u|] eqn:Hu; [|done].
  apply (wf_user_rewrite _ _ u); [done..|].
  apply (unique_on_update _ _ _ _ u); [done..|apply Hwf].
Qed.

Lemma user_update_profile_preserves uid nf nl e : Preserves wf (user_update_profile uid nf nl e).
Proof.
  intros st Hwf. unfold user_update_profile. destruct (users st !! uid) as [u|] eqn:Hu; [|done].
  destruct (user_by_email e st) as [[j w]|] eqn:Hj; [case_bool_decide as Hji; [subst j|done]|];
    simpl; apply (wf_user_rewrite _ _ u); try done; apply unique_on_insert; try apply Hwf;
    intros k x Hk Hki Hx; simpl in Hx.
  - apply user_by_email_Some in Hj as [Hw Hwe]. apply Hki.
    apply (unique_on_eq email (users st) k uid x w); [apply Hwf|done..|congruence].
  - apply map_find_None in Hj. specialize (Hj k x Hk). simpl in Hj.
    rewrite Hx, String.eqb_refl in Hj. done.
Qed.

#[export] Hint Resolve reset_code_create_preserves user_update_password_preserves
  user_update_profile_preserves : spark.

(** ** Inverting a handler run *)

(** [st_inv H] splits on every test that blocks the reduction of the
    handler run [H : c st = o], discarding the impossible branches. *)
Ltac st_inv H :=
  repeat (st_simpl;
          match type of H with
          | Done _ _ = Done _ _ => injection H as; subst
          | Fail _ _ = Fail _ _ => injection H as; subst
          | Done _ _ = Fail _ _ => discriminate H
          | Fail _ _ = Done _ _ => discriminate H
          | context [match ?x with _ => _ end] =>
              lazymatch x with
              | context [match _ with _ => _ end] => fail
              | _ => let E := fresh "E" in destruct x eqn:E
              end
          end).

(** ** Operations that leave the user table alone *)

(** [KeepsUsers c]: [c] never changes the user table. *)
Notation KeepsUsers c := (forall U, Preserves (fun st => users st = U) c).

Ltac keeps_users_op :=
  intros U st HU; repeat (simpl; case_match); simpl; try case_bool_decide; simpl; done.

Lemma session_create_keeps_users uid : KeepsUsers (session_create uid).
Proof. unfold session_create. keeps_users_op. Qed.
Lemma session_delete_keeps_users tok : KeepsUsers (session_delete tok).
Proof. unfold session_delete. keeps_users_op. Qed.
Lemma member_update_role_keeps_users uid sid r : KeepsUsers (member_update_role uid sid r).
Proof. unfold member_update_role. keeps_users_op. Qed.
Lemma member_upsert_keeps_users uid sid : KeepsUsers (member_upsert uid sid).
Proof. unfold member_upsert. keeps_users_op. Qed.
Lemma society_create_keeps_users soc uid r : KeepsUsers (society_create soc uid r).
Proof. unfold society_create. keeps_users_op. Qed.
Lemma application_create_keeps_users n d uid : KeepsUsers (application_create n d uid).
Proof. unfold application_create. keeps_users_op. Qed.
Lemma application_update_status_keeps_users aid s : KeepsUsers (application_update_status aid s).
Proof. unfold application_update_status. keeps_users_op. Qed.
Lemma society_update_keeps_users sid n d : KeepsUsers (society_update sid n d).
Proof. unfold society_update. keeps_users_op. Qed.
Lemma society_delete_keeps_users sid : KeepsUsers (society_delete sid).
Proof. unfold society_delete. keeps_users_op. Qed.

#[export] Hint Resolve session_create_keeps_users session_delete_keeps_users
  member_update_role_keeps_users member_upsert_keeps_users society_create_keeps_users
  application_create_keeps_users application_update_status_keeps_users
  society_update_keeps_users society_delete_keeps_users : spark.

Lemma event_create_keeps_users e : KeepsUsers (event_create e).
Proof. unfold event_create. keeps_users_op. Qed.
Lemma event_update_keeps_users eid n d t l : KeepsUsers (event_update eid n d t l).
Proof. unfold event_update. keeps_users_op. Qed.
Lemma event_delete_keeps_users eid : KeepsUsers (event_delete eid).
Proof. unfold event_delete. keeps_users_op. Qed.
Lemma attending_upsert_keeps_users uid eid : KeepsUsers (attending_upsert uid eid).
Proof. unfold attending_upsert. keeps_users_op. Qed.
Lemma attending_delete_keeps_users uid eid : KeepsUsers (attending_delete uid eid).
Proof. unfold attending_delete. keeps_users_op. Qed.
Lemma form_upsert_keeps_users eid z e nf nl : KeepsUsers (form_upsert eid z e nf nl).
Proof. unfold form_upsert. keeps_users_op. Qed.
Lemma attended_create_keeps_users z eid : KeepsUsers (attended_create z eid).
Proof. unfold attended_create. keeps_users_op. Qed.
Lemma reset_code_create_keeps_users code uid : KeepsUsers (reset_code_create code uid).
Proof. unfold reset_code_create. keeps_users_op. Qed.

#[export] Hint Resolve event_create_keeps_users event_update_keeps_users event_delete_keeps_users
  attending_upsert_keeps_users attending_delete_keeps_users form_upsert_keeps_users
  attended_create_keeps_users reset_code_create_keeps_users : spark.

(** [KeepsSession t c]: [c] never ends the live session [t]. *)
Notation KeepsSession t c := (Preserves (fun st => is_Some (sessions st !! t)) c).

Ltac keeps_session_op :=
  intros st Hs; repeat (simpl; case_match); simpl; try case_bool_decide; simpl; try done;
  rewrite ?lookup_insert_is_Some; auto.

Lemma user_create_keeps_session t u : KeepsSession t (user_create u).
Proof. unfold user_create. keeps_session_op. Qed.
Lemma session_create_keeps_session t uid : KeepsSession t (session_create uid).
Proof. unfold session_create. keeps_session_op. destruct (decide (fresh (dom (sessions st)) = t)); auto. Qed.
Lemma user_update_password_keeps_session t uid h : KeepsSession t (user_update_password uid h).
Proof. unfold user_update_password. keeps_session_op. Qed.
Lemma reset_code_create_keeps_session t code uid : KeepsSession t (reset_code_create code uid).
Proof. unfold reset_code_create. keeps_session_op. Qed.

#[export] Hint Resolve user_create_keeps_session session_create_keeps_session
  user_update_password_keeps_session reset_code_create_keeps_session : spark.

(** ** Operations that never raise the site-admin flag *)

Definition admin_flag (st : Store) (uid : Z) : bool :=
  match users st !! uid with Some u => isAdmin u | None => false end.

(** [NoRaise c]: after [c], every user with the flag already had it
    before; stated, so that it composes like an invariant, as the
    preservation of "every flagged user is in [F]" for every [F]. *)
Notation NoRaise c :=
  (forall F : Z -> bool, Preserves (fun st => forall i, admin_flag st i = true -> F i = true) c).

Lemma keeps_users_no_raise {A} (c : ST Store A) : KeepsUsers c -> NoRaise c.
Proof.
  intros Hk F st HF i. unfold admin_flag. rewrite (Hk (users st) st eq_refl). apply HF.
Qed.

Lemma admin_flag_rewrite st uid u v i :
  users st !! uid = Some u -> isAdmin v = isAdmin u ->
  admin_flag (set_users (insert uid v) st) i = admin_flag st i.
Proof.
  intros Hu Hv. unfold admin_flag; simpl. destruct (decide (i = uid)) as [->|Hne].
  - by rewrite lookup_insert_eq, Hu.
  - by rewrite lookup_insert_ne by congruence.
Qed.

Lemma user_update_password_no_raise uid h : NoRaise (user_update_password uid h).
Proof.
  intros F st HF i. unfold user_update_password. destruct (users st !! uid) as [u|] eqn:Hu; [|apply HF].
  simpl. rewrite (admin_flag_rewrite _ _ u) by done. apply HF.
Qed.

Lemma user_update_profile_no_raise uid nf nl e : NoRaise (user_update_profile uid nf nl e).
Proof.
  intros F st HF i. unfold user_update_profile. destruct (users st !! uid) as [u|] eqn:Hu; [|apply HF].
  repeat case_match; simpl; try apply HF; rewrite (admin_flag_rewrite _ _ u) by done; apply HF.
Qed.

Lemma user_delete_no_raise uid : NoRaise (user_delete uid).
Proof.
  intros F st HF i. unfold user_delete. destruct (users st !! uid); [|apply HF].
  unfold admin_flag in *; simpl. destruct (decide (i = uid)) as [->|Hne].
  - by rewrite lookup_delete_eq.
  - rewrite lookup_delete_ne by congruence. apply HF.
Qed.

#[export] Hint Resolve keeps_users_no_raise user_update_password_no_raise
  user_update_profile_no_raise user_delete_no_raise : spark.
