(* ===== verification/Session.v ===== *)
(** * Sessions: token validation and logout

    [validateSession] of src/backend/src/utils.ts (the first step of
    every authenticated handler) and [authLogout] of auth.ts.  A
    session is a row of [sessions st] mapping its token to its user;
    it lives from its creation ([session_create], called by
    registration and login) to its deletion (logout, or the removal of
    its user).  The theorems show that a live token resolves to its
    user, that a token fails with 401 once logged out, and that logout
    touches no other session. *)

From S2P Require Import Prelude Validation Store.

Open Scope Z_scope.

Definition invalid_token : HttpError := Unauthorized "Invalid token".

(** [validateSession(token)]: [prisma.session.findUnique] with the
    session's user included; [if (!session) throw Unauthorized]. *)
Definition validateSession (token : string) : ST Store (Z * User) :=
  uid <- find_or (fun st => sessions st !! token) invalid_token ;;
  u <- find_or (fun st => users st !! uid) invalid_token ;;
  ret (uid, u).

(** [authLogout(token)]: validate, then delete the session row. *)
Definition authLogout (token : string) : ST Store unit :=
  validateSession token ;;;
  session_delete token.

(** ** Validation *)

Lemma validateSession_read_only token : ReadOnly (validateSession token).
Proof. unfold validateSession. auto with spark. Qed.

Lemma validateSession_preserves token : Preserves wf (validateSession token).
Proof. unfold validateSession. auto with spark. Qed.

#[export] Hint Resolve validateSession_read_only validateSession_preserves : spark.

Lemma validateSession_live st token uid u :
  sessions st !! token = Some uid -> users st !! uid = Some u ->
  validateSession token st = Done (uid, u) st.
Proof. intros Hs Hu. unfold validateSession. st_simpl. by rewrite Hs, Hu. Qed.

Lemma validateSession_dead st token :
  sessions st !! token = None -> validateSession token st = Fail invalid_token st.
Proof. intros Hs. unfold validateSession. st_simpl. by rewrite Hs. Qed.

(** What a successful validation returns: the session's user row. *)
Lemma validateSession_Done st token uid u st' :
  validateSession token st = Done (uid, u) st' ->
  st' = st /\ sessions st !! token = Some uid /\ users st !! uid = Some u.
Proof.
  unfold validateSession. st_simpl.
  destruct (sessions st !! token) eqn:Hs; [|done].
  destruct (users st !! _) eqn:Hu; [|done]. by intros [= -> -> ->].
Qed.

(** A handler that starts with [validateSession] runs its continuation
    on the session's user, or answers 401 and writes nothing. *)
Lemma validateSession_bind {A} token (k : Z * User -> ST Store A) st :
  (s <- validateSession token ;; k s) st =
  match sessions st !! token with
  | Some uid => match users st !! uid with
                | Some u => k (uid, u) st
                | None => Fail invalid_token st
                end
  | None => Fail invalid_token st
  end.
Proof.
  unfold validateSession. st_simpl.
  destruct (sessions st !! token); [|done]. by destruct (users st !! _).
Qed.

(** The only way validation fails is a 401 "Invalid token". *)
Lemma validateSession_Fail st token e st' :
  validateSession token st = Fail e st' -> e = invalid_token /\ st' = st.
Proof.
  unfold validateSession. st_simpl.
  destruct (sessions st !! token); [|by intros [= -> ->]].
  destruct (users st !! _); [done|by intros [= -> ->]].
Qed.

(** In a well-formed store, a token is accepted exactly when a
    session row with that id exists. *)
Theorem validateSession_accepts_iff st token :
  wf st ->
  (error_of (validateSession token st) = None <-> is_Some (sessions st !! token)).
Proof.
  intros Hwf. destruct (sessions st !! token) as [uid|] eqn:Hs.
  - destruct (wf_sessions _ Hwf _ _ Hs) as [u Hu].
    by rewrite (validateSession_live _ _ _ _ Hs Hu).
  - rewrite (validateSession_dead _ _ Hs). simpl. split; [done|]. by intros [].
Qed.

(** ** Session creation *)

(** A created session is live, and a fresh one: no live token is
    reused. *)
Lemma session_create_Done st uid tok st' :
  session_create uid st = Done tok st' ->
  sessions st !! tok = None /\ st' = set_sessions (insert tok uid) st.
Proof.
  unfold session_create. case_bool_decide; [|done]. intros [= <- <-].
  split; [|done]. apply not_elem_of_dom. apply is_fresh.
Qed.

(** A session token is never the empty string, which the frontend
    reads as a guest. *)
Lemma session_create_nonempty st uid tok st' :
  session_create uid st = Done tok st' -> tok <> "".
Proof.
  unfold session_create. case_bool_decide; [|done]. intros [= <- _]. apply fresh_string_nonempty.
Qed.

Lemma session_create_live st uid tok st' :
  session_create uid st = Done tok st' -> tok <> "" /\ sessions st' !! tok = Some uid.
Proof.
  intros Hc. split; [by eapply session_create_nonempty|].
  destruct (session_create_Done _ _ _ _ Hc) as [_ ->]. apply lookup_insert_eq.
Qed.

(** The token a session creation returns resolves to its user. *)
Theorem session_create_validates st uid u tok st' :
  users st !! uid = Some u -> session_create uid st = Done tok st' ->
  validateSession tok st' = Done (uid, u) st'.
Proof.
  intros Hu Hc. destruct (session_create_Done _ _ _ _ Hc) as [_ ->].
  apply validateSession_live; simpl; [by rewrite lookup_insert_eq | done].
Qed.

(** ** Logout *)

Lemma authLogout_preserves token : Preserves wf (authLogout token).
Proof. unfold authLogout. auto with spark. Qed.

#[export] Hint Resolve authLogout_preserves : spark.

(** The effect of a successful logout: exactly its session row is
    deleted. *)
Lemma authLogout_Done st token st' :
  authLogout token st = Done tt st' ->
  is_Some (sessions st !! token) /\ st' = set_sessions (delete token) st.
Proof.
  unfold authLogout, st_bind.
  destruct (validateSession token st) as [[uid u] s1|e s1] eqn:E; [|done].
  apply validateSession_Done in E as (-> & Hs & _).
  unfold session_delete. rewrite Hs. intros [= <-]. eauto.
Qed.

(** (C6) After a logout the token is dead: validating it fails with
    401, so does a second logout, and every other session is kept. *)
Theorem authLogout_invalidates st token st' :
  authLogout token st = Done tt st' ->
  validateSession token st' = Fail invalid_token st' /\
  authLogout token st' = Fail invalid_token st' /\
  (forall tok', tok' <> token -> sessions st' !! tok' = sessions st !! tok').
Proof.
  intros H. destruct (authLogout_Done _ _ _ H) as [_ ->].
  assert (Hd : sessions (set_sessions (delete token) st) !! token = None)
    by (simpl; apply lookup_delete_eq).
  split; [by apply validateSession_dead|]. split.
  - unfold authLogout. by rewrite (bind_Fail _ _ _ _ _ (validateSession_dead _ _ Hd)).
  - intros tok' Hne. simpl. by apply lookup_delete_ne.
Qed.

(** Logout of a live token deletes its row. *)
Lemma authLogout_live st token uid u :
  sessions st !! token = Some uid -> users st !! uid = Some u ->
  authLogout token st = Done tt (set_sessions (delete token) st).
Proof.
  intros Hs Hu. unfold authLogout, st_bind. rewrite (validateSession_live _ _ _ _ Hs Hu).
  unfold session_delete. by rewrite Hs.
Qed.

(** Deleting a session row just created gives back the store. *)
Lemma set_sessions_delete_insert st tok uid :
  sessions st !! tok = None ->
  set_sessions (delete tok) (set_sessions (insert tok uid) st) = st.
Proof. intros Hs. destruct st; unfold set_sessions; simpl in *. by rewrite delete_insert_id. Qed.

(** Logout of a dead token fails with 401 and changes nothing. *)
Lemma authLogout_dead st token :
  sessions st !! token = None -> authLogout token st = Fail invalid_token st.
Proof. intros Hs. unfold authLogout. by rewrite (bind_Fail _ _ _ _ _ (validateSession_dead _ _ Hs)). Qed.

(** ** Witnesses *)

Lemma validateSession_accepts_iff_witness :
  error_of (validateSession "tok2" demo_store) = None <-> is_Some (sessions demo_store !! "tok2").
Proof. apply validateSession_accepts_iff. apply wfb_wf. vm_compute. reflexivity. Defined.

Lemma authLogout_invalidates_witness :
  exists st', authLogout "tok2" demo_store = Done tt st' /\
    validateSession "tok2" st' = Fail invalid_token st' /\
    authLogout "tok2" st' = Fail invalid_token st' /\
    (forall tok', tok' <> "tok2" -> sessions st' !! tok' = sessions demo_store !! tok').
Proof.
  eexists. split; [reflexivity|]. apply authLogout_invalidates. reflexivity.
Defined.
