(* ===== verification/Auth.v ===== *)
(** * Registration and login

    [authRegister] and [authLogin] of src/backend/src/auth.ts.
    Registration validates the names, the zId and the email in the
    code's order, lower-cases names and email, makes the new user a
    site admin when the user table is empty ("first user is admin"),
    and creates the user together with a first session whose token it
    returns.  Login looks the user up by the email as given, compares
    the password with bcrypt and opens a new session.  [bcrypt.genSalt]
    is random: its result is the argument [salt]. *)

From S2P Require Import Prelude Validation Store Session.

Open Scope Z_scope.

(** The request body of /auth/register. *)
Record UserRegister := mkUserRegister {
  reg_email : string;
  reg_nameFirst : string;
  reg_nameLast : string;
  reg_password : string;
  reg_zId : string
}.

Section Auth.
Context `{EmailValidator} `{PasswordHasher}.

(** [!(await prisma.user.findFirst())]: the user table is empty. *)
Definition firstUser (st : Store) : bool := (size (users st) =? 0)%nat.

(** The row [prisma.user.create] writes for a registration. *)
Definition registered_user (userReg : UserRegister) (salt : string) (admin : bool) : User :=
  mkUser (toLowerCase (reg_email userReg)) (toLowerCase (reg_nameFirst userReg))
    (toLowerCase (reg_nameLast userReg)) (bcrypt_hash (reg_password userReg) salt)
    (reg_zId userReg) admin.

Definition authRegister (userReg : UserRegister) (salt : string) : ST Store string :=
  check (nameRegex (reg_nameFirst userReg)) (BadRequest "Invalid first name") ;;;
  check (nameRegex (reg_nameLast userReg)) (BadRequest "Invalid last name") ;;;
  check (zIdRegex (reg_zId userReg))
    (BadRequest ("zId format is incorrect " +:+ reg_zId userReg)) ;;;
  ensure_absent (user_by_zId (reg_zId userReg)) (BadRequest "Invalid zId") ;;;
  check (isEmail (toLowerCase (reg_email userReg))) (BadRequest "Invalid Email") ;;;
  ensure_absent (user_by_email (toLowerCase (reg_email userReg))) (BadRequest "Invalid Email") ;;;
  first <- gets firstUser ;;
  uid <- user_create (registered_user userReg salt first) ;;
  session_create uid.

Definition invalid_credentials : HttpError := BadRequest "Invalid Credentials".

Definition authLogin (email password : string) : ST Store string :=
  user <- gets (user_by_email email) ;;
  match user with
  | Some (uid, u) =>
      if bcrypt_compare password (Store.password u) then session_create uid
      else throw invalid_credentials
  | None => throw invalid_credentials
  end.

(** ** Invariant and failure atomicity *)

Lemma authRegister_preserves userReg salt : Preserves wf (authRegister userReg salt).
Proof. unfold authRegister. auto 20 with spark. Qed.

Lemma authLogin_preserves email pw : Preserves wf (authLogin email pw).
Proof.
  unfold authLogin. apply preserves_bind; [auto with spark|]. intros [[uid u]|]; auto with spark.
Qed.

Lemma firstUser_spec st : firstUser st = true <-> users st = ∅.
Proof. unfold firstUser. rewrite Nat.eqb_eq. apply map_size_empty_iff. Qed.

(** The checks that make registration succeed. *)
Definition register_checks (userReg : UserRegister) (st : Store) : Prop :=
  nameRegex (reg_nameFirst userReg) = true /\ nameRegex (reg_nameLast userReg) = true /\
  zIdRegex (reg_zId userReg) = true /\ user_by_zId (reg_zId userReg) st = None /\
  isEmail (toLowerCase (reg_email userReg)) = true /\
  user_by_email (toLowerCase (reg_email userReg)) st = None.

Lemma authRegister_unfold userReg salt st :
  register_checks userReg st ->
  authRegister userReg salt st =
  st_bind (user_create (registered_user userReg salt (firstUser st))) session_create st.
Proof.
  intros (H1 & H2 & H3 & H4 & H5 & H6). unfold authRegister. st_simpl.
  rewrite H1, H2, H3. st_simpl. rewrite H4. st_simpl. rewrite H5. st_simpl. rewrite H6. done.
Qed.

(** A run that returns a token passed every check. *)
Lemma authRegister_Done_checks userReg salt st tok st' :
  authRegister userReg salt st = Done tok st' -> register_checks userReg st.
Proof. unfold authRegister. intros Hr. st_inv Hr. by repeat split. Qed.

(** A registration whose checks pass writes the user at the next id
    and opens a session for it under a non-empty token. *)
Lemma authRegister_run userReg salt st :
  register_checks userReg st ->
  exists tok st',
    authRegister userReg salt st = Done tok st' /\
    users st' = <[next_user st := registered_user userReg salt (firstUser st)]> (users st) /\
    validateSession tok st' = Done (next_user st, registered_user userReg salt (firstUser st)) st' /\
    tok <> "".
Proof.
  intros Hc. rewrite (authRegister_unfold _ _ _ Hc).
  destruct Hc as (_ & _ & _ & Hz & _ & He).
  unfold st_bind, user_create. simpl. rewrite He, Hz.
  set (st1 := mkStore _ _ _ _ _ _ _ _ _ _ _ _ _ _).
  assert (Hu : users st1 !! next_user st = Some (registered_user userReg salt (firstUser st)))
    by apply lookup_insert_eq.
  destruct (session_create (next_user st) st1) as [tok st'|e st'] eqn:Hs.
  - exists tok, st'. split_and!; [done| | |by eapply session_create_nonempty].
    + by destruct (session_create_Done _ _ _ _ Hs) as [_ ->].
    + by eapply session_create_validates.
  - unfold session_create in Hs. rewrite bool_decide_eq_true_2 in Hs; [done|by rewrite Hu].
Qed.

(** A login with the registered password inserts one session row. *)
Lemma authLogin_run st uid u pw salt :
  wf st -> users st !! uid = Some u -> Store.password u = bcrypt_hash pw salt ->
  exists tok, authLogin (email u) pw st = Done tok (set_sessions (insert tok uid) st) /\
              sessions st !! tok = None /\ tok <> "".
Proof.
  intros Hwf Hu Hp. unfold authLogin. st_simpl.
  rewrite (user_by_email_unique _ _ _ Hwf Hu), Hp, bcrypt_compare_hash.
  destruct (session_create uid st) as [tok st'|e st'] eqn:Hs.
  - exists tok. destruct (session_create_Done _ _ _ _ Hs) as [Hfresh ->].
    split_and!; [done|done|]. by eapply session_create_nonempty.
  - unfold session_create in Hs. rewrite bool_decide_eq_true_2 in Hs; [done|by rewrite Hu].
Qed.

(** (C28) Registration succeeds when every check passes: the new user
    row is written at the next id with the lower-cased email and names,
    the zId as given and the admin flag exactly when the user table was
    empty; the returned token resolves to it, and logging in with the
    lower-cased email and the password of the request opens a session
    of the same user. *)
Theorem authRegister_success userReg salt st :
  wf st -> register_checks userReg st ->
  exists tok st' u,
    authRegister userReg salt st = Done tok st' /\
    users st' = <[next_user st := u]> (users st) /\
    validateSession tok st' = Done (next_user st, u) st' /\
    email u = toLowerCase (reg_email userReg) /\
    nameFirst u = toLowerCase (reg_nameFirst userReg) /\
    nameLast u = toLowerCase (reg_nameLast userReg) /\
    zId u = reg_zId userReg /\
    (isAdmin u = true <-> users st = ∅) /\
    exists tok2 st2, authLogin (toLowerCase (reg_email userReg)) (reg_password userReg) st' = Done tok2 st2 /\
                     validateSession tok2 st2 = Done (next_user st, u) st2.
Proof.
  intros Hwf Hc. destruct (authRegister_run userReg salt st Hc) as (tok & st' & Hr & Hu & Hv & _).
  exists tok, st', (registered_user userReg salt (firstUser st)).
  split_and!; try done; [apply firstUser_spec|].
  assert (Hl : users st' !! next_user st = Some (registered_user userReg salt (firstUser st)))
    by (rewrite Hu; apply lookup_insert_eq).
  destruct (authLogin_run st' (next_user st) (registered_user userReg salt (firstUser st)) (reg_password userReg) salt) as (tok2 & Hrun & Hfresh & _);
    [|exact Hl|done|].
  { pose proof (authRegister_preserves userReg salt st Hwf) as Hw. by rewrite Hr in Hw. }
  eexists _, _. split; [exact Hrun|]. apply validateSession_live; simpl; [by rewrite lookup_insert_eq|done].
Qed.

(** (C5) First user is admin: the user a registration creates is a
    site admin exactly when the user table was empty before it. *)
Theorem authRegister_first_user_admin userReg salt st tok st' :
  authRegister userReg salt st = Done tok st' ->
  exists uid u, validateSession tok st' = Done (uid, u) st' /\
                (isAdmin u = true <-> users st = ∅).
Proof.
  intros Hr. destruct (authRegister_run userReg salt st (authRegister_Done_checks _ _ _ _ _ Hr))
    as (tok' & st'' & Hrun & _ & Hv & _).
  rewrite Hr in Hrun. injection Hrun as <- <-.
  eexists _, _. split; [exact Hv|]. apply firstUser_spec.
Qed.

(** The zId is checked before the email: a registration whose
    names and zId format are valid but whose zId is taken fails with
    "Invalid zId", whatever its email, and writes nothing. *)
Theorem authRegister_zId_before_email userReg salt st p :
  nameRegex (reg_nameFirst userReg) = true -> nameRegex (reg_nameLast userReg) = true ->
  zIdRegex (reg_zId userReg) = true -> user_by_zId (reg_zId userReg) st = Some p ->
  authRegister userReg salt st = Fail (BadRequest "Invalid zId") st.
Proof.
  intros H1 H2 H3 H4. unfold authRegister. st_simpl.
  rewrite H1, H2, H3. st_simpl. by rewrite H4.
Qed.

(** ** Login *)

(** Login fails only with the one message "Invalid Credentials"
    and then writes nothing, both for an unknown email and for a
    wrong password. *)
Theorem authLogin_Fail email pw st e st' :
  authLogin email pw st = Fail e st' -> e = invalid_credentials /\ st' = st.
Proof.
  unfold authLogin. st_simpl.
  destruct (user_by_email email st) as [[uid u]|] eqn:Hu; [|by intros [= <- <-]].
  destruct (bcrypt_compare _ _); [|by intros [= <- <-]].
  apply user_by_email_Some in Hu as [Hu _].
  unfold session_create. rewrite bool_decide_eq_true_2; [done|by rewrite Hu].
Qed.

Lemma authLogin_unknown_email email pw st :
  user_by_email email st = None -> authLogin email pw st = Fail invalid_credentials st.
Proof. intros He. unfold authLogin. st_simpl. by rewrite He. Qed.

Lemma authLogin_wrong_password st uid u pw p0 salt :
  wf st -> users st !! uid = Some u -> Store.password u = bcrypt_hash p0 salt -> pw <> p0 ->
  authLogin (email u) pw st = Fail invalid_credentials st.
Proof.
  intros Hwf Hu Hp Hne. unfold authLogin. st_simpl.
  rewrite (user_by_email_unique _ _ _ Hwf Hu), Hp.
  destruct (bcrypt_compare pw _) eqn:Hc; [|done].
  by apply bcrypt_compare_inj in Hc.
Qed.

(** Login with the password a user registered opens a new
    session whose token resolves to that user. *)
Theorem authLogin_success st uid u pw salt :
  wf st -> users st !! uid = Some u -> Store.password u = bcrypt_hash pw salt ->
  exists tok st', authLogin (email u) pw st = Done tok st' /\
                  sessions st !! tok = None /\
                  validateSession tok st' = Done (uid, u) st'.
Proof.
  intros Hwf Hu Hp. destruct (authLogin_run st uid u pw salt) as (tok & Hrun & Hfresh & _); [done..|].
  exists tok, (set_sessions (insert tok uid) st). split_and!; [exact Hrun|done|].
  apply validateSession_live; simpl; [by rewrite lookup_insert_eq | done].
Qed.
End Auth.

(** ** Witnesses, with the demo email validator and hasher *)

Definition demo_registration : UserRegister :=
  mkUserRegister "Ada@Unsw.edu" "Ada" "Lovelace" "pw" "z1234567".

Lemma authRegister_first_user_admin_witness :
  exists tok st', authRegister demo_registration "salt" empty_store = Done tok st' /\
    exists uid u, validateSession tok st' = Done (uid, u) st' /\
                  (isAdmin u = true <-> users empty_store = ∅).
Proof.
  do 2 eexists. split; [reflexivity|].
  apply (authRegister_first_user_admin demo_registration "salt" empty_store). reflexivity.
Defined.

Definition dan_registration : UserRegister :=
  mkUserRegister "Dan@Unsw.edu" "Dan" "Brown" "pw" "z4444444".

Lemma authRegister_success_witness :
  exists tok st' u,
    authRegister dan_registration "salt" demo_store = Done tok st' /\
    users st' = <[next_user demo_store := u]> (users demo_store) /\
    validateSession tok st' = Done (next_user demo_store, u) st' /\
    email u = toLowerCase (reg_email dan_registration) /\
    nameFirst u = toLowerCase (reg_nameFirst dan_registration) /\
    nameLast u = toLowerCase (reg_nameLast dan_registration) /\
    zId u = reg_zId dan_registration /\
    (isAdmin u = true <-> users demo_store = ∅) /\
    exists tok2 st2, authLogin (toLowerCase (reg_email dan_registration)) (reg_password dan_registration) st' = Done tok2 st2 /\
                     validateSession tok2 st2 = Done (next_user demo_store, u) st2.
Proof.
  apply authRegister_success; [apply wfb_wf; vm_compute; reflexivity|].
  unfold register_checks. vm_compute. repeat split.
Defined.

(** A taken zId with a malformed email is reported as a zId error. *)
Lemma authRegister_zId_before_email_witness :
  authRegister (mkUserRegister "not an email" "Bob" "Ross" "pw" "z2222222") "salt" demo_store =
    Fail (BadRequest "Invalid zId") demo_store.
Proof.
  apply (authRegister_zId_before_email _ _ _ (2, mkUser "bob@unsw.edu" "bob" "ross" "hash:pw2" "z2222222" false));
    reflexivity.
Defined.

Lemma authLogin_Fail_witness :
  exists e st', authLogin "ghost@nowhere.com" "x" demo_store = Fail e st' /\
                e = invalid_credentials /\ st' = demo_store.
Proof. do 2 eexists. split; [reflexivity|]. apply (authLogin_Fail "ghost@nowhere.com" "x" demo_store). reflexivity. Defined.

Lemma authLogin_success_witness :
  exists tok st', authLogin "bob@unsw.edu" "pw2" demo_store = Done tok st' /\
                  sessions demo_store !! tok = None /\
                  validateSession tok st' =
                    Done (2, mkUser "bob@unsw.edu" "bob" "ross" "hash:pw2" "z2222222" false) st'.
Proof.
  apply (authLogin_success demo_store 2 (mkUser "bob@unsw.edu" "bob" "ross" "hash:pw2" "z2222222" false) "pw2" "salt");
    [apply wfb_wf; vm_compute | |]; reflexivity.
Defined.

(** Login does not lower-case the email it is given, while
    registration stores it lower-cased: a user who registered as
    "Ada@Unsw.edu" cannot log in with that same email and password. *)
Theorem authLogin_case_sensitive :
  exists tok st',
    authRegister demo_registration "salt" empty_store = Done tok st' /\
    authLogin "Ada@Unsw.edu" "pw" st' = Fail invalid_credentials st' /\
    error_of (authLogin "ada@unsw.edu" "pw" st') = None.
Proof. do 2 eexists. split; [reflexivity|]. split; reflexivity. Qed.

(** ** Effect on the user table *)

Section AuthUsers.
Context `{EmailValidator} `{PasswordHasher}.

(** Registration, successful or not, at most adds the registered user
    at the next id. *)
Lemma authRegister_users userReg salt st :
  users (state_of (authRegister userReg salt st)) = users st \/
  users (state_of (authRegister userReg salt st)) =
    <[next_user st := registered_user userReg salt (firstUser st)]> (users st).
Proof.
  unfold authRegister. st_simpl.
  destruct (nameRegex (reg_nameFirst userReg)); [|by left]. st_simpl.
  destruct (nameRegex (reg_nameLast userReg)); [|by left]. st_simpl.
  destruct (zIdRegex (reg_zId userReg)); [|by left]. st_simpl.
  destruct (user_by_zId (reg_zId userReg) st) eqn:Ez; [by left|]. st_simpl.
  destruct (isEmail _); [|by left]. st_simpl.
  destruct (user_by_email (toLowerCase (reg_email userReg)) st) eqn:Ee; [by left|]. st_simpl.
  unfold user_create. simpl. rewrite Ee, Ez. simpl.
  right. by apply session_create_keeps_users.
Qed.
End AuthUsers.
