(* ===== verification/Perm.v ===== *)
(** * Permission allocation

    [permSiteAllocate], [societyPermConverter], [societyPermReverter]
    and [permSocietyAllocate] of src/backend/src/perm.ts.  Society
    roles are stored as the strings 'admin', 'moderator' and 'member'
    and exposed as the levels 1, 2 and 3 (a lower level is more
    authority).

    Besides the handlers' behaviour on every branch, this file gives an
    abstract specification of society allocation in the form the
    specification recommends: roles as an enumeration [Role] with a
    [rank], and the rule "the actor is a site admin, or it is a member
    whose rank is at most the target's current rank and at most the
    requested level".  [permSocietyAllocate_refines] proves that on a
    well-formed store the handler, which works on strings and on
    numbers with defaults, computes exactly that decision. *)

From S2P Require Import Prelude Validation Store Session.

Open Scope Z_scope.

Definition ADMIN : Z := 1.
Definition MODERATOR : Z := 2.
Definition MEMBER : Z := 3.

(** ** Site level *)

Definition permSiteAllocate (token : string) (userId permLevel : Z) : ST Store unit :=
  session <- find_or (fun st => sessions st !! token) invalid_token ;;
  _ <- find_or (fun st => users st !! userId) (BadRequest "Invalid userId") ;;
  check ((permLevel =? 1) || (permLevel =? 2)) (BadRequest "Invalid permLevel") ;;;
  admin <- gets (fun st => users st !! session) ;;
  check (match admin with Some a => isAdmin a | None => false end)
    (Forbidden "User is not a site admin") ;;;
  user_update_isAdmin userId (permLevel =? 1) ;;;
  ret tt.

(** ** Society level *)

(** The number from the API to the string the database stores. *)
Definition societyPermConverter (permLevel : Z) : string :=
  if permLevel =? ADMIN then "admin"
  else if permLevel =? MODERATOR then "moderator"
  else "member".

(** The string from the database to the number of the API. *)
Definition societyPermReverter (permLevel : string) : Z :=
  if String.eqb permLevel "admin" then ADMIN
  else if String.eqb permLevel "moderator" then MODERATOR
  else MEMBER.

Definition permSocietyAllocate (token : string) (userId societyId permLevel : Z) : ST Store unit :=
  s <- validateSession token ;;
  let '(sessionUserId, sessionUser) := s in
  _ <- find_or (fun st => users st !! userId) (BadRequest "Invalid userId") ;;
  _ <- find_or (fun st => societies st !! societyId) (BadRequest "Invalid societyId") ;;
  check ((permLevel =? 1) || (permLevel =? 2) || (permLevel =? 3))
    (BadRequest "Invalid permLevel") ;;;
  societyMember <- find_or (fun st => members st !! (userId, societyId))
                     (BadRequest "User is not a member of the society") ;;
  (if negb (isAdmin sessionUser) then
     sessionSocietyMember <- find_or (fun st => members st !! (sessionUserId, societyId))
                               (Forbidden "Token user is not a member of the society") ;;
     let userPermLevel := societyPermReverter societyMember in
     let tokenPermLevel := societyPermReverter sessionSocietyMember in
     check (negb (tokenPermLevel >? userPermLevel))
       (Forbidden "Token user does not have permission to manage this user") ;;;
     check (negb (tokenPermLevel >? permLevel))
       (Forbidden "Token user does not have permission to manage this permLevel")
   else ret tt) ;;;
  member_update_role userId societyId (societyPermConverter permLevel) ;;;
  ret tt.

(** ** The abstract specification of society roles *)

Inductive Role := RAdmin | RModerator | RMember.

#[export] Instance Role_eq_dec : EqDecision Role.
Proof. solve_decision. Defined.

(** Lower rank, more authority. *)
Definition rank (r : Role) : Z :=
  match r with RAdmin => 1 | RModerator => 2 | RMember => 3 end.

Definition role_of_level (lvl : Z) : option Role :=
  if lvl =? 1 then Some RAdmin else if lvl =? 2 then Some RModerator
  else if lvl =? 3 then Some RMember else None.

Definition role_name (r : Role) : string :=
  match r with RAdmin => "admin" | RModerator => "moderator" | RMember => "member" end.

Definition role_of_name (s : string) : option Role :=
  if String.eqb s "admin" then Some RAdmin
  else if String.eqb s "moderator" then Some RModerator
  else if String.eqb s "member" then Some RMember else None.

(** The authority rule of the specification (section 4.3, steps 6 to
    9): [None] allows the change, [Some e] denies it with [e]. *)
Definition society_alloc_rule (actorIsAdmin : bool) (actorRole : option Role)
    (targetRole level : Role) : option HttpError :=
  if actorIsAdmin then None else
  match actorRole with
  | None => Some (Forbidden "Token user is not a member of the society")
  | Some a =>
      if rank a <=? rank targetRole then
        if rank a <=? rank level then None
        else Some (Forbidden "Token user does not have permission to manage this permLevel")
      else Some (Forbidden "Token user does not have permission to manage this user")
  end.

(** The whole decision of the specification: the existence checks in
    their order, then the rule; an allowed change writes the role. *)
Definition society_alloc_spec (token : string) (userId societyId lvl : Z) (st : Store)
    : outcome Store unit :=
  match sessions st !! token ≫= fun a => (fun u => (a, u)) <$> users st !! a with
  | None => Fail invalid_token st
  | Some (actor, actorUser) =>
      if bool_decide (users st !! userId = None) then Fail (BadRequest "Invalid userId") st
      else if bool_decide (societies st !! societyId = None) then Fail (BadRequest "Invalid societyId") st
      else match role_of_level lvl with
      | None => Fail (BadRequest "Invalid permLevel") st
      | Some level =>
          match members st !! (userId, societyId) ≫= role_of_name with
          | None => Fail (BadRequest "User is not a member of the society") st
          | Some target =>
              match society_alloc_rule (isAdmin actorUser)
                      (members st !! (actor, societyId) ≫= role_of_name) target level with
              | Some e => Fail e st
              | None => Done tt (set_members (insert (userId, societyId) (role_name level)) st)
              end
          end
      end
  end.

(** ** Level and role conversions *)

(** The converter always writes one of the three role strings. *)
Lemma societyPermConverter_valid lvl : valid_role (societyPermConverter lvl).
Proof.
  unfold societyPermConverter, valid_role.
  destruct (lvl =? ADMIN); [by left|]. destruct (lvl =? MODERATOR); [by right; left | by right; right].
Qed.

#[export] Hint Resolve societyPermConverter_valid : spark.

(** Round trip: reverting a converted level in 1..3 gives the
    level back, and converting a reverted stored role gives the role
    back. *)
Theorem societyPerm_roundtrip lvl s :
  (1 <= lvl <= 3 -> societyPermReverter (societyPermConverter lvl) = lvl) /\
  (valid_role s -> societyPermConverter (societyPermReverter s) = s).
Proof.
  split.
  - intros Hl. assert (lvl = 1 \/ lvl = 2 \/ lvl = 3) as [->|[->| ->]] by lia; reflexivity.
  - by intros [->|[->| ->]].
Qed.

(** A stored role parses to the enumeration, and the reverter computes
    its rank. *)
Lemma valid_role_parse s :
  valid_role s -> exists r, role_of_name s = Some r /\ societyPermReverter s = rank r.
Proof. intros [->|[->| ->]]; eexists; split; reflexivity. Qed.

Lemma role_of_level_Some lvl r :
  role_of_level lvl = Some r ->
  ((lvl =? 1) || (lvl =? 2) || (lvl =? 3)) = true /\ lvl = rank r /\
  societyPermConverter lvl = role_name r.
Proof.
  unfold role_of_level. intros Hr.
  destruct (Z.eqb_spec lvl 1) as [->|]; [by injection Hr as <-|].
  destruct (Z.eqb_spec lvl 2) as [->|]; [by injection Hr as <-|].
  destruct (Z.eqb_spec lvl 3) as [->|]; [by injection Hr as <-|done].
Qed.

Lemma role_of_level_None lvl :
  role_of_level lvl = None -> ((lvl =? 1) || (lvl =? 2) || (lvl =? 3)) = false.
Proof.
  unfold role_of_level. intros Hr.
  destruct (lvl =? 1), (lvl =? 2), (lvl =? 3); done.
Qed.

Lemma negb_gtb (x y : Z) : negb (x >? y) = (x <=? y).
Proof. rewrite Z.gtb_ltb, Z.leb_antisym. reflexivity. Qed.

(** ** Invariant *)

Lemma permSiteAllocate_preserves token uid lvl : Preserves wf (permSiteAllocate token uid lvl).
Proof. unfold permSiteAllocate. auto 20 with spark. Qed.

Lemma permSocietyAllocate_preserves token uid sid lvl :
  Preserves wf (permSocietyAllocate token uid sid lvl).
Proof.
  unfold permSocietyAllocate. apply preserves_bind; [auto with spark|]. intros [a u].
  auto 20 with spark.
Qed.

#[export] Hint Resolve permSiteAllocate_preserves permSocietyAllocate_preserves : spark.

(** ** Society allocation refines the specification *)

(** (C1) On a well-formed store, [permSocietyAllocate] computes the
    decision of [society_alloc_spec]: the same error in the same order
    of checks, and on success the same role written for the target. *)
Theorem permSocietyAllocate_refines token uid sid lvl st :
  wf st -> permSocietyAllocate token uid sid lvl st = society_alloc_spec token uid sid lvl st.
Proof.
  intros Hwf. unfold permSocietyAllocate, society_alloc_spec.
  destruct (sessions st !! token) as [actor|] eqn:Hs; simpl.
  2: { by rewrite (bind_Fail _ _ _ _ _ (validateSession_dead _ _ Hs)). }
  destruct (wf_sessions _ Hwf _ _ Hs) as [au Hau]. rewrite Hau. simpl.
  rewrite (bind_Done _ _ _ _ _ (validateSession_live _ _ _ _ Hs Hau)). st_simpl.
  destruct (users st !! uid) eqn:Hu; simpl; [|done].
  destruct (societies st !! sid) eqn:Hso; simpl; [|done].
  destruct (role_of_level lvl) as [level|] eqn:Hl.
  2: { by rewrite (role_of_level_None _ Hl). }
  destruct (role_of_level_Some _ _ Hl) as (Hc & -> & Hconv). rewrite Hc. st_simpl.
  destruct (members st !! (uid, sid)) as [tr|] eqn:Ht; simpl; [|done].
  destruct (valid_role_parse tr) as (t & Ht' & Hrt); [exact (proj2 (proj2 (wf_members _ Hwf _ _ Ht)))|].
  rewrite Ht'. simpl. unfold member_update_role.
  destruct (isAdmin au); simpl; [by rewrite Ht, Hconv|].
  destruct (members st !! (actor, sid)) as [ar|] eqn:Ha; simpl; [|done].
  destruct (valid_role_parse ar) as (a & Ha' & Hra); [exact (proj2 (proj2 (wf_members _ Hwf _ _ Ha)))|].
  rewrite Ha'. simpl. rewrite Hra, Hrt, !negb_gtb.
  destruct (rank a <=? rank t); simpl; [|done].
  destruct (rank a <=? rank level); simpl; [|done]. by rewrite Ht, Hconv.
Qed.

(** ** The rank rule and the site allocation *)

Lemma level_check_true lvl : 1 <= lvl <= 3 -> ((lvl =? 1) || (lvl =? 2) || (lvl =? 3)) = true.
Proof. intros Hl. assert (lvl = 1 \/ lvl = 2 \/ lvl = 3) as [->|[->| ->]] by lia; done. Qed.

(** (C2) Society rank monotonicity: when the actor is not a site admin
    and the target, the society, the level and both memberships are
    valid, the allocation succeeds (writing the requested role) exactly
    when the actor's level is at most the target's current level and at
    most the requested one; otherwise it fails with a 403 and writes
    nothing. *)
Theorem permSocietyAllocate_rank_rule token uid sid lvl st actor au tr ar :
  wf st -> sessions st !! token = Some actor -> users st !! actor = Some au ->
  isAdmin au = false -> is_Some (users st !! uid) -> is_Some (societies st !! sid) ->
  1 <= lvl <= 3 -> members st !! (uid, sid) = Some tr -> members st !! (actor, sid) = Some ar ->
  (societyPermReverter ar <= societyPermReverter tr /\ societyPermReverter ar <= lvl ->
   permSocietyAllocate token uid sid lvl st =
     Done tt (set_members (insert (uid, sid) (societyPermConverter lvl)) st)) /\
  (~ (societyPermReverter ar <= societyPermReverter tr /\ societyPermReverter ar <= lvl) ->
   exists msg, permSocietyAllocate token uid sid lvl st = Fail (Forbidden msg) st).
Proof.
  intros Hwf Hs Hau Hadm [u Hu] [so Hso] Hl Ht Ha.
  unfold permSocietyAllocate.
  rewrite (bind_Done _ _ _ _ _ (validateSession_live _ _ _ _ Hs Hau)). st_simpl.
  rewrite Hu, Hso, (level_check_true _ Hl). st_simpl. rewrite Ht, Hadm. st_simpl.
  rewrite Ha. st_simpl. rewrite !negb_gtb. unfold member_update_role.
  split.
  - intros [H1 H2]. apply Z.leb_le in H1, H2. rewrite H1, H2. st_simpl. by rewrite Ht.
  - intros Hn. destruct (Z.leb_spec (societyPermReverter ar) (societyPermReverter tr));
      [destruct (Z.leb_spec (societyPermReverter ar) lvl)|]; simpl; [lia|eauto|eauto].
Qed.

(** (C9) Site allocation: for a live token, an existing target and a
    level of 1 or 2, a site admin sets the target's admin flag to
    [permLevel === 1] (any target, the admin itself included), and any
    other user is refused with a 403. *)
Theorem permSiteAllocate_spec token uid lvl st actor au u :
  sessions st !! token = Some actor -> users st !! actor = Some au ->
  users st !! uid = Some u -> (lvl = 1 \/ lvl = 2) ->
  permSiteAllocate token uid lvl st =
    if isAdmin au then Done tt (set_users (insert uid (user_with_isAdmin (lvl =? 1) u)) st)
    else Fail (Forbidden "User is not a site admin") st.
Proof.
  intros Hs Hau Hu Hl. unfold permSiteAllocate. st_simpl. rewrite Hs, Hu.
  assert (Hc : ((lvl =? 1) || (lvl =? 2)) = true) by (destruct Hl as [->| ->]; done).
  rewrite Hc. st_simpl. rewrite Hau. destruct (isAdmin au); st_simpl; [|done].
  unfold user_update_isAdmin. by rewrite Hu.
Qed.

(** An invalid token is rejected with 401 before any other check,
    by both allocations, whatever the other arguments. *)
Theorem alloc_invalid_token_first token uid sid lvl st :
  sessions st !! token = None ->
  permSiteAllocate token uid lvl st = Fail invalid_token st /\
  permSocietyAllocate token uid sid lvl st = Fail invalid_token st.
Proof.
  intros Hs. split.
  - unfold permSiteAllocate. st_simpl. by rewrite Hs.
  - unfold permSocietyAllocate. by rewrite (bind_Fail _ _ _ _ _ (validateSession_dead _ _ Hs)).
Qed.

(** ** Witnesses *)

Lemma permSocietyAllocate_refines_witness :
  permSocietyAllocate "tok3" 3 1 1 demo_store = society_alloc_spec "tok3" 3 1 1 demo_store.
Proof. apply permSocietyAllocate_refines. apply wfb_wf. vm_compute. reflexivity. Defined.

(** The society admin (user 2) makes the member (user 3) a moderator. *)
Lemma permSocietyAllocate_rank_rule_witness :
  permSocietyAllocate "tok2" 3 1 2 demo_store =
    Done tt (set_members (insert (3, 1) (societyPermConverter 2)) demo_store).
Proof.
  refine (proj1 (permSocietyAllocate_rank_rule "tok2" 3 1 2 demo_store 2
                   (mkUser "bob@unsw.edu" "bob" "ross" "hash:pw2" "z2222222" false)
                   "member" "admin" _ _ _ _ _ _ _ _ _) _).
  - apply wfb_wf. vm_compute. reflexivity.
  - reflexivity.
  - reflexivity.
  - reflexivity.
  - eexists. reflexivity.
  - eexists. reflexivity.
  - lia.
  - reflexivity.
  - reflexivity.
  - vm_compute. split; discriminate.
Defined.

(** The site admin (user 1) promotes user 2 to site admin. *)
Lemma permSiteAllocate_spec_witness :
  permSiteAllocate "tok1" 2 1 demo_store =
    Done tt (set_users (insert 2 (user_with_isAdmin true
      (mkUser "bob@unsw.edu" "bob" "ross" "hash:pw2" "z2222222" false))) demo_store).
Proof.
  rewrite (permSiteAllocate_spec "tok1" 2 1 demo_store 1
             (mkUser "ada@unsw.edu" "ada" "lovelace" "hash:pw1" "z1111111" true)
             (mkUser "bob@unsw.edu" "bob" "ross" "hash:pw2" "z2222222" false));
    try reflexivity.
  by left.
Defined.

Lemma alloc_invalid_token_first_witness :
  permSiteAllocate "garbage" 2 1 demo_store = Fail invalid_token demo_store /\
  permSocietyAllocate "garbage" 2 1 1 demo_store = Fail invalid_token demo_store.
Proof. apply alloc_invalid_token_first. reflexivity. Defined.

(** ** Effect on the user table *)

(** Site allocation either leaves the user table alone or, called by a
    site admin, rewrites the target's admin flag to [permLevel =? 1]. *)
Lemma permSiteAllocate_users token uid lvl st :
  users (state_of (permSiteAllocate token uid lvl st)) = users st \/
  exists actor au u, sessions st !! token = Some actor /\ users st !! actor = Some au /\
    isAdmin au = true /\ users st !! uid = Some u /\
    users (state_of (permSiteAllocate token uid lvl st)) =
      <[uid := user_with_isAdmin (lvl =? 1) u]> (users st).
Proof.
  unfold permSiteAllocate. st_simpl.
  destruct (sessions st !! token) as [actor|] eqn:Hs; [|by left]. st_simpl.
  destruct (users st !! uid) as [u|] eqn:Hu; [|by left]. st_simpl.
  destruct ((lvl =? 1) || (lvl =? 2)); [|by left]. st_simpl.
  destruct (users st !! actor) as [au|] eqn:Hau; [|by left]. st_simpl.
  destruct (isAdmin au) eqn:Ha; [|by left]. st_simpl.
  unfold user_update_isAdmin. rewrite Hu. simpl. right. eauto 10.
Qed.

Lemma permSocietyAllocate_keeps_users token uid sid lvl :
  KeepsUsers (permSocietyAllocate token uid sid lvl).
Proof.
  intros U. unfold permSocietyAllocate. apply preserves_bind; [auto with spark|].
  intros [a u]. auto 20 with spark.
Qed.
