(* ===== verification/Admin.v ===== *)
(** * Site administration

    The handlers of src/backend/src/admin.ts: listing users, looking a
    user up by zId, deciding society applications and removing users.
    Every handler except [adminGetUserByZid] starts by validating the
    token and requires the caller's site-admin flag.

    An application's status is 'pending' when it is created; approval
    creates the society with the applicant as its only member, with
    role 'admin', and marks the application 'approved'; denial marks it
    'denied'.  The code refuses to approve an application that is
    already 'approved' and nothing else: the theorems below show that a
    denied application can still be approved and that an approved one
    can still be denied, which the specification forbids. *)

From S2P Require Import Prelude Validation Store Session.

Open Scope Z_scope.

(** The fields of a user the admin endpoints return (no password). *)
Record UserInfo := mkUserInfo {
  info_id : Z; info_email : string; info_nameFirst : string;
  info_nameLast : string; info_zId : string; info_isAdmin : bool
}.

Definition user_info (iu : Z * User) : UserInfo :=
  mkUserInfo iu.1 (email iu.2) (nameFirst iu.2) (nameLast iu.2) (zId iu.2) (isAdmin iu.2).

(** The fields of an application /admin/application/list returns. *)
Record ApplicationInfo := mkApplicationInfo {
  applicationId : Z; ai_name : string; ai_description : string;
  ai_applicantId : Z; ai_status : string
}.

Definition application_info (ia : Z * Application) : ApplicationInfo :=
  mkApplicationInfo ia.1 (app_name ia.2) (app_description ia.2) (applicantId ia.2) (status ia.2).

Definition not_site_admin : HttpError := Forbidden "User is not a site admin".

Definition adminGetUsers (token : string) : ST Store (list UserInfo) :=
  s <- validateSession token ;;
  check (isAdmin s.2) not_site_admin ;;;
  gets (fun st => user_info <$> map_to_list (users st)).

Definition adminGetUserByZid (zId : string) : ST Store UserInfo :=
  iu <- find_or (user_by_zId zId) (BadRequest "Invalid zId") ;;
  ret (user_info iu).

Definition adminApplicationApprove (token : string) (appId : Z) : ST Store Z :=
  s <- validateSession token ;;
  check (isAdmin s.2) not_site_admin ;;;
  application <- find_or (fun st => applications st !! appId) (BadRequest "Invalid applicationId") ;;
  check (negb (String.eqb (status application) "approved")) (BadRequest "Invalid applicationId") ;;;
  societyId <- society_create
                 (mkSociety (app_name application) (app_description application)
                    (app_photoURL application))
                 (applicantId application) "admin" ;;
  application_update_status appId "approved" ;;;
  ret societyId.

Definition adminApplicationDeny (token : string) (appId : Z) : ST Store unit :=
  s <- validateSession token ;;
  check (isAdmin s.2) not_site_admin ;;;
  catch_to (application_update_status appId "denied") (BadRequest "Invalid Application ID") ;;;
  ret tt.

Definition adminApplicationList (token : string) : ST Store (list ApplicationInfo) :=
  s <- validateSession token ;;
  check (isAdmin s.2) not_site_admin ;;;
  gets (fun st => application_info <$> map_to_list (applications st)).

Definition adminUserRemove (token : string) (userId : Z) : ST Store unit :=
  s <- validateSession token ;;
  _ <- find_or (fun st => users st !! userId) (BadRequest "Invalid userId") ;;
  check (isAdmin s.2) (Forbidden "Insufficient permissions") ;;;
  user_delete userId ;;;
  ret tt.

(** ** Invariant *)

Lemma valid_status_approved : valid_status "approved".
Proof. by right; left. Qed.
Lemma valid_status_denied : valid_status "denied".
Proof. by right; right. Qed.
Lemma valid_role_admin : valid_role "admin".
Proof. by left. Qed.

#[export] Hint Resolve valid_status_approved valid_status_denied valid_role_admin : spark.

Lemma adminApplicationApprove_preserves token aid : Preserves wf (adminApplicationApprove token aid).
Proof. unfold adminApplicationApprove. auto 20 with spark. Qed.

Lemma adminApplicationDeny_preserves token aid : Preserves wf (adminApplicationDeny token aid).
Proof. unfold adminApplicationDeny. auto 20 with spark. Qed.

Lemma adminUserRemove_preserves token uid : Preserves wf (adminUserRemove token uid).
Proof. unfold adminUserRemove. auto 20 with spark. Qed.

Lemma adminGetUsers_read_only token : ReadOnly (adminGetUsers token).
Proof. unfold adminGetUsers. auto 20 with spark. Qed.

Lemma adminApplicationList_read_only token : ReadOnly (adminApplicationList token).
Proof. unfold adminApplicationList. auto 20 with spark. Qed.

Lemma adminGetUserByZid_read_only z : ReadOnly (adminGetUserByZid z).
Proof. unfold adminGetUserByZid. auto 20 with spark. Qed.

#[export] Hint Resolve adminApplicationApprove_preserves adminApplicationDeny_preserves
  adminUserRemove_preserves adminGetUsers_read_only adminApplicationList_read_only
  adminGetUserByZid_read_only : spark.

(** ** Approval *)

(** The effect of a successful approval, read back from its run. *)
Lemma adminApplicationApprove_Done token aid st sid st' :
  adminApplicationApprove token aid st = Done sid st' ->
  exists actor au a,
    sessions st !! token = Some actor /\ users st !! actor = Some au /\ isAdmin au = true /\
    applications st !! aid = Some a /\ status a <> "approved" /\
    sid = next_society st /\ sessions st' = sessions st /\ users st' = users st /\
    societies st' = <[sid := mkSociety (app_name a) (app_description a) (app_photoURL a)]> (societies st) /\
    members st' = <[(applicantId a, sid) := "admin"]> (members st) /\
    applications st' = <[aid := application_with_status "approved" a]> (applications st).
Proof.
  unfold adminApplicationApprove, st_bind at 1.
  destruct (validateSession token st) as [[actor au] s1|] eqn:Hv; [|done].
  apply validateSession_Done in Hv as (-> & Hs & Hau). st_simpl.
  destruct (isAdmin au) eqn:Ha; [|done]. st_simpl.
  destruct (applications st !! aid) as [a|] eqn:Happ; [|done]. st_simpl.
  destruct (String.eqb (status a) "approved") eqn:Hst; [done|]. st_simpl.
  unfold society_create. destruct (society_by_name _ _); [done|].
  case_bool_decide; [|done]. simpl. unfold application_update_status. simpl. rewrite Happ.
  intros [= <- <-]. exists actor, au, a. apply String.eqb_neq in Hst. by repeat split.
Qed.

(** (C7) Approval by a site admin of an application that is not yet
    approved, whose name is free and whose applicant exists, creates the
    society at the next id with the applicant as its only member, with
    role 'admin', and marks the application 'approved'. *)
Theorem adminApplicationApprove_success token aid st actor au a :
  wf st -> sessions st !! token = Some actor -> users st !! actor = Some au ->
  isAdmin au = true -> applications st !! aid = Some a -> status a <> "approved" ->
  society_by_name (app_name a) st = None -> is_Some (users st !! applicantId a) ->
  exists st', adminApplicationApprove token aid st = Done (next_society st) st' /\
    societies st' !! next_society st =
      Some (mkSociety (app_name a) (app_description a) (app_photoURL a)) /\
    members st' !! (applicantId a, next_society st) = Some "admin" /\
    (forall u, u <> applicantId a -> members st' !! (u, next_society st) = None) /\
    applications st' !! aid = Some (application_with_status "approved" a).
Proof.
  intros Hwf Hs Hau Ha Happ Hst Hn Hu. unfold adminApplicationApprove.
  rewrite (bind_Done _ _ _ _ _ (validateSession_live _ _ _ _ Hs Hau)). st_simpl.
  rewrite Ha. st_simpl. rewrite Happ. st_simpl.
  apply String.eqb_neq in Hst. rewrite Hst. st_simpl.
  unfold society_create.
  rewrite (Hn : society_by_name (name (mkSociety (app_name a) (app_description a) (app_photoURL a))) st = None).
  rewrite bool_decide_eq_true_2 by done. simpl.
  unfold application_update_status. simpl. rewrite Happ.
  eexists. split; [reflexivity|]. simpl.
  split; [by rewrite lookup_insert_eq|]. split; [by rewrite lookup_insert_eq|]. split.
  - intros u Hne. rewrite lookup_insert_ne by congruence.
    destruct (members st !! (u, next_society st)) as [r|] eqn:Hm; [|done].
    destruct (wf_members _ Hwf _ _ Hm) as (_ & [so Hso] & _). simpl in Hso.
    by rewrite (lookup_counter_None _ _ (wf_society_ids _ Hwf)) in Hso.
  - by rewrite lookup_insert_eq.
Qed.

(** An approved application cannot be approved a second time:
    the second call fails with "Invalid applicationId". *)
Theorem adminApplicationApprove_twice token aid st sid st' :
  adminApplicationApprove token aid st = Done sid st' ->
  adminApplicationApprove token aid st' = Fail (BadRequest "Invalid applicationId") st'.
Proof.
  intros H. destruct (adminApplicationApprove_Done _ _ _ _ _ H)
    as (actor & au & a & Hs & Hau & Ha & Happ & _ & _ & Hs' & Hu' & _ & _ & Happ').
  unfold adminApplicationApprove.
  rewrite (bind_Done _ _ _ _ _ (validateSession_live st' token actor au
             ltac:(by rewrite Hs') ltac:(by rewrite Hu'))).
  st_simpl. rewrite Ha. st_simpl. rewrite Happ', lookup_insert_eq. reflexivity.
Qed.

(** Denial marks any existing application 'denied', whatever its
    status, approved included; an unknown id fails with "Invalid
    Application ID". *)
Theorem adminApplicationDeny_spec token aid st actor au :
  sessions st !! token = Some actor -> users st !! actor = Some au -> isAdmin au = true ->
  adminApplicationDeny token aid st =
    match applications st !! aid with
    | Some a => Done tt (set_applications (insert aid (application_with_status "denied" a)) st)
    | None => Fail (BadRequest "Invalid Application ID") st
    end.
Proof.
  intros Hs Hau Ha. unfold adminApplicationDeny.
  rewrite (bind_Done _ _ _ _ _ (validateSession_live _ _ _ _ Hs Hau)). st_simpl.
  rewrite Ha. st_simpl. unfold application_update_status.
  by destruct (applications st !! aid).
Qed.

(** The application and user endpoints refuse a caller who is
    not a site admin with a 403, and write nothing. *)
Theorem admin_endpoints_forbidden token st actor au aid :
  sessions st !! token = Some actor -> users st !! actor = Some au -> isAdmin au = false ->
  adminApplicationApprove token aid st = Fail not_site_admin st /\
  adminApplicationDeny token aid st = Fail not_site_admin st /\
  adminApplicationList token st = Fail not_site_admin st /\
  adminGetUsers token st = Fail not_site_admin st.
Proof.
  intros Hs Hau Ha.
  unfold adminApplicationApprove, adminApplicationDeny, adminApplicationList, adminGetUsers.
  rewrite !(bind_Done _ _ _ _ _ (validateSession_live _ _ _ _ Hs Hau)). st_simpl.
  by rewrite Ha.
Qed.

(** ** Removing a user *)

(** (C8) Removing a user deletes its row, kills every session it had
    (their tokens fail with 401) and drops all its memberships. *)
Theorem adminUserRemove_revokes token uid st st' :
  adminUserRemove token uid st = Done tt st' ->
  users st' !! uid = None /\
  (forall tok, sessions st !! tok = Some uid -> validateSession tok st' = Fail invalid_token st') /\
  (forall sid, members st' !! (uid, sid) = None).
Proof.
  unfold adminUserRemove, st_bind at 1.
  destruct (validateSession token st) as [[actor au] s1|] eqn:Hv; [|done].
  apply validateSession_Done in Hv as (-> & _ & _). st_simpl.
  destruct (users st !! uid) eqn:Hu; [|done]. st_simpl.
  destruct (isAdmin au); [|done]. st_simpl. unfold user_delete. rewrite Hu.
  intros [= <-]. simpl. split; [apply lookup_delete_eq|]. split.
  - intros tok Htok. apply validateSession_dead. simpl.
    apply map_lookup_filter_None. right. intros x Hx. simplify_eq. simpl. tauto.
  - intros sid. apply map_lookup_filter_None. right. intros r _. simpl. tauto.
Qed.

(** ** Findings: the application status is not a one-way machine *)

(** A denied application can still be approved: application 2
    of [demo_store] is 'denied', and the site admin's approval creates
    its society. *)
Theorem adminApplicationApprove_after_deny :
  option_map status (applications demo_store !! 2) = Some "denied" /\
  exists st', adminApplicationApprove "tok1" 2 demo_store = Done 2 st' /\
              option_map name (societies st' !! 2) = Some "Poker Club" /\
              option_map status (applications st' !! 2) = Some "approved".
Proof. split; [reflexivity|]. eexists. split; [reflexivity|]. split; reflexivity. Qed.

(** An approved application can then be denied: both decisions
    succeed on the same application, and the society the approval
    created stays. *)
Theorem adminApplicationDeny_after_approve :
  exists st1 st2,
    adminApplicationApprove "tok1" 1 demo_store = Done 2 st1 /\
    adminApplicationDeny "tok1" 1 st1 = Done tt st2 /\
    option_map status (applications st2 !! 1) = Some "denied" /\
    option_map name (societies st2 !! 2) = Some "Go Club".
Proof. do 2 eexists. split; [reflexivity|]. split; [reflexivity|]. split; reflexivity. Qed.

(** ** Witnesses *)

Definition ada : User := mkUser "ada@unsw.edu" "ada" "lovelace" "hash:pw1" "z1111111" true.
Definition bob : User := mkUser "bob@unsw.edu" "bob" "ross" "hash:pw2" "z2222222" false.
Definition go_club_application : Application := mkApplication "Go Club" "go" None 3 "pending".

Lemma adminApplicationApprove_success_witness :
  exists st', adminApplicationApprove "tok1" 1 demo_store = Done (next_society demo_store) st' /\
    societies st' !! next_society demo_store = Some (mkSociety "Go Club" "go" None) /\
    members st' !! (3, next_society demo_store) = Some "admin" /\
    (forall u, u <> 3 -> members st' !! (u, next_society demo_store) = None) /\
    applications st' !! 1 = Some (application_with_status "approved" go_club_application).
Proof.
  apply (adminApplicationApprove_success "tok1" 1 demo_store 1 ada go_club_application);
    try reflexivity.
  - apply wfb_wf. vm_compute. reflexivity.
  - discriminate.
  - eexists. reflexivity.
Defined.

Lemma adminApplicationApprove_twice_witness :
  exists st', adminApplicationApprove "tok1" 1 demo_store = Done 2 st' /\
    adminApplicationApprove "tok1" 1 st' = Fail (BadRequest "Invalid applicationId") st'.
Proof.
  eexists. split; [reflexivity|]. apply (adminApplicationApprove_twice "tok1" 1 demo_store 2).
  reflexivity.
Defined.

Lemma adminApplicationDeny_spec_witness :
  adminApplicationDeny "tok1" 1 demo_store =
    Done tt (set_applications (insert 1 (application_with_status "denied" go_club_application)) demo_store).
Proof. exact (adminApplicationDeny_spec "tok1" 1 demo_store 1 ada eq_refl eq_refl eq_refl). Defined.

Lemma admin_endpoints_forbidden_witness :
  adminApplicationApprove "tok2" 1 demo_store = Fail not_site_admin demo_store /\
  adminApplicationDeny "tok2" 1 demo_store = Fail not_site_admin demo_store /\
  adminApplicationList "tok2" demo_store = Fail not_site_admin demo_store /\
  adminGetUsers "tok2" demo_store = Fail not_site_admin demo_store.
Proof. exact (admin_endpoints_forbidden "tok2" demo_store 2 bob 1 eq_refl eq_refl eq_refl). Defined.

Lemma adminUserRemove_revokes_witness :
  exists st', adminUserRemove "tok1" 3 demo_store = Done tt st' /\
    users st' !! 3 = None /\
    (forall tok, sessions demo_store !! tok = Some 3 -> validateSession tok st' = Fail invalid_token st') /\
    (forall sid, members st' !! (3, sid) = None).
Proof.
  eexists. split; [reflexivity|]. apply (adminUserRemove_revokes "tok1" 3 demo_store). reflexivity.
Defined.

(** ** Effect on the user table *)

(** Removing a user at most deletes that user's row. *)
Lemma adminUserRemove_users token uid st :
  users (state_of (adminUserRemove token uid st)) = users st \/
  users (state_of (adminUserRemove token uid st)) = delete uid (users st).
Proof.
  unfold adminUserRemove. st_simpl.
  destruct (validateSession token st) as [[a au] s1|e s1] eqn:Hv.
  - apply validateSession_Done in Hv as (-> & _ & _). st_simpl.
    destruct (users st !! uid) eqn:Hu; [|by left]. st_simpl.
    destruct (isAdmin au); [|by left]. st_simpl.
    unfold user_delete. st_simpl. rewrite Hu. simpl. by right.
  - apply validateSession_Fail in Hv as [_ ->]. by left.
Qed.
