(* ===== verification/Society.v ===== *)
(** * Societies

    [validateSocietyName] of src/backend/src/utils.ts and the handlers
    of society.ts that read or write societies and memberships:
    [societyApply], [societyJoin], [societyView], [societyEdit],
    [societyMembers] and [societyDelete].  The listings
    [societyEvents] and [societyList] are in Listing.v.

    The theorems show that joining is idempotent and never changes an
    existing role, that a society name is accepted exactly when it has
    the right form and is free (or is the society's own name when it is
    edited), and which callers may edit and delete a society: the code
    lets only society admins and site admins edit, where the
    specification also lets moderators edit. *)

From S2P Require Import Prelude Validation Store Session.

Open Scope Z_scope.

Definition invalid_society_name : HttpError := BadRequest "Invalid society name".

(** [validateSocietyName(societyName, societyId?)]: a society keeping
    its own name is accepted at once; otherwise the name must have the
    right form and belong to no society. *)
Definition validateSocietyName (societyName : string) (societyId : option Z) : ST Store unit :=
  own <- gets (fun st => match societyId with
                         | Some sid => match societies st !! sid with
                                       | Some soc => String.eqb (name soc) societyName
                                       | None => false
                                       end
                         | None => false
                         end) ;;
  if own then ret tt
  else check (societyNameFormatOk societyName) invalid_society_name ;;;
       ensure_absent (society_by_name societyName) invalid_society_name.

Definition societyApply (token societyName description : string) : ST Store Z :=
  s <- validateSession token ;;
  validateSocietyName societyName None ;;;
  application_create societyName description s.1.

Definition societyJoin (token : string) (societyId : Z) : ST Store unit :=
  uid <- find_or (fun st => sessions st !! token) invalid_token ;;
  _ <- find_or (fun st => societies st !! societyId) (BadRequest "Invalid societyId") ;;
  member_upsert uid societyId ;;;
  ret tt.

(** The fields /society/view returns. *)
Record SocietyInfo := mkSocietyInfo {
  societyId : Z; societyName : string; si_description : string; si_photoURL : option string
}.

Definition societyView (sid : Z) : ST Store SocietyInfo :=
  soc <- find_or (fun st => societies st !! sid) (BadRequest "Invalid societyId") ;;
  ret (mkSocietyInfo sid (name soc) (description soc) (photoURL soc)).

Definition societyEdit (token : string) (sid : Z) (societyName description : string) : ST Store unit :=
  s <- validateSession token ;;
  _ <- find_or (fun st => societies st !! sid) (BadRequest "Society does not exist") ;;
  societyMember <- gets (fun st => members st !! (s.1, sid)) ;;
  check (isAdmin s.2 || match societyMember with
                         | Some role => String.eqb role "admin"
                         | None => false
                         end)
    (Forbidden "Insufficient permisisons") ;;;
  validateSocietyName societyName (Some sid) ;;;
  society_update sid societyName description ;;;
  ret tt.

(** One entry of /society/members. *)
Record SocMember := mkSocMember {
  sm_userId : Z; sm_zId : string; sm_nameFirst : string; sm_nameLast : string; sm_role : string
}.

Definition soc_member (st : Store) (kv : (Z * Z) * string) : option SocMember :=
  (fun u => mkSocMember kv.1.1 (zId u) (nameFirst u) (nameLast u) kv.2) <$> users st !! kv.1.1.

(** [prisma.societyMember.findMany({ where: { societyId }, include: { user } })]. *)
Definition societyMembers (sid : Z) : ST Store (list SocMember) :=
  gets (fun st => omap (soc_member st)
                    (map_to_list (filter (fun kv => kv.1.2 = sid) (members st)))).

Definition societyDelete (token : string) (sid : Z) : ST Store unit :=
  s <- validateSession token ;;
  _ <- find_or (fun st => societies st !! sid) (BadRequest "Invalid societyId") ;;
  check (isAdmin s.2) (Forbidden "Insufficient permissions") ;;;
  society_delete sid ;;;
  ret tt.

(** ** Invariant *)

Lemma validateSocietyName_read_only n o : ReadOnly (validateSocietyName n o).
Proof.
  unfold validateSocietyName. apply read_only_bind; [auto with spark|]. intros [|]; auto with spark.
Qed.

#[export] Hint Resolve validateSocietyName_read_only : spark.

Lemma societyApply_preserves token n d : Preserves wf (societyApply token n d).
Proof. unfold societyApply. auto 20 with spark. Qed.

Lemma societyJoin_preserves token sid : Preserves wf (societyJoin token sid).
Proof. unfold societyJoin. auto 20 with spark. Qed.

Lemma societyEdit_preserves token sid n d : Preserves wf (societyEdit token sid n d).
Proof. unfold societyEdit. auto 20 with spark. Qed.

Lemma societyDelete_preserves token sid : Preserves wf (societyDelete token sid).
Proof. unfold societyDelete. auto 20 with spark. Qed.

Lemma societyView_read_only sid : ReadOnly (societyView sid).
Proof. unfold societyView. auto with spark. Qed.

Lemma societyMembers_read_only sid : ReadOnly (societyMembers sid).
Proof. unfold societyMembers. auto with spark. Qed.

#[export] Hint Resolve societyApply_preserves societyJoin_preserves societyEdit_preserves
  societyDelete_preserves societyView_read_only societyMembers_read_only : spark.

(** ** Joining *)

(** Joining is idempotent: a live token joins an existing society
    with the default role 'member' when it was not a member, keeps its
    role when it was, touches no other membership, and joining again
    changes nothing. *)
Theorem societyJoin_idempotent token sid st uid :
  wf st -> sessions st !! token = Some uid -> is_Some (societies st !! sid) ->
  exists st', societyJoin token sid st = Done tt st' /\
    societyJoin token sid st' = Done tt st' /\
    members st' !! (uid, sid) = Some (default "member" (members st !! (uid, sid))) /\
    (forall k, k <> (uid, sid) -> members st' !! k = members st !! k).
Proof.
  intros Hwf Hs [soc Hso]. pose proof (wf_sessions _ Hwf _ _ Hs) as Hu.
  assert (Hjoin : forall st1, sessions st1 !! token = Some uid -> societies st1 !! sid = Some soc ->
            societyJoin token sid st1 = st_bind (member_upsert uid sid) (fun _ => ret tt) st1).
  { intros st1 H1 H2. unfold societyJoin. st_simpl. by rewrite H1, H2. }
  rewrite (Hjoin st Hs Hso). unfold member_upsert. st_simpl.
  destruct (members st !! (uid, sid)) as [r|] eqn:Hm.
  - exists st. split; [done|]. split; [rewrite (Hjoin st Hs Hso); unfold member_upsert; st_simpl; by rewrite Hm|].
    split; [by rewrite Hm|done].
  - rewrite bool_decide_eq_true_2 by done. rewrite bool_decide_eq_true_2 by (by exists soc). st_simpl.
    eexists. split; [reflexivity|]. split; [|split].
    + rewrite Hjoin by done. unfold member_upsert. st_simpl. by rewrite lookup_insert_eq.
    + simpl. by rewrite lookup_insert_eq.
    + intros k Hk. simpl. by rewrite lookup_insert_ne by congruence.
Qed.

(** ** Society names *)

(** [validateSocietyName] accepts a name exactly when it is the
    current name of the society being edited, or it has 1 to 100
    letters, digits and spaces and no society has it; it never writes. *)
Theorem validateSocietyName_spec n o st :
  wf st ->
  (error_of (validateSocietyName n o st) = None <->
   (exists sid soc, o = Some sid /\ societies st !! sid = Some soc /\ name soc = n) \/
   (societyNameFormatOk n = true /\ map_Forall (fun _ soc => name soc <> n) (societies st))).
Proof.
  intros Hwf. unfold validateSocietyName. st_simpl.
  destruct (match o with Some sid => match societies st !! sid with
            | Some soc => String.eqb (name soc) n | None => false end | None => false end) eqn:Hown.
  - simpl. split; [intros _|done]. left.
    destruct o as [sid|]; [|done]. destruct (societies st !! sid) as [soc|] eqn:Hso; [|done].
    apply String.eqb_eq in Hown. eauto.
  - assert (Hnot : ~ exists sid soc, o = Some sid /\ societies st !! sid = Some soc /\ name soc = n).
    { intros (sid & soc & -> & Hso & <-). rewrite Hso, String.eqb_refl in Hown. done. }
    destruct (societyNameFormatOk n) eqn:Hf; simpl.
    + destruct (society_by_name n st) as [[j w]|] eqn:Hb; simpl.
      * split; [done|]. intros [Hc|[_ Hall]]; [done|].
        apply map_find_Some in Hb as [Hj Hw]. apply String.eqb_eq in Hw. by destruct (Hall j w Hj).
      * split; [intros _; right|done]. split; [done|].
        apply map_find_None in Hb. intros j w Hj. apply String.eqb_neq. exact (Hb j w Hj).
    + split; [done|]. intros [Hc|[? _]]; [done|discriminate].
Qed.

(** ** Who may edit and delete a society *)

(** A society moderator who is not a site admin cannot edit the
    society: the code requires the role 'admin', while the
    specification lets moderators edit. *)
Theorem societyEdit_moderator_forbidden token sid n d st uid u :
  sessions st !! token = Some uid -> users st !! uid = Some u -> isAdmin u = false ->
  is_Some (societies st !! sid) -> members st !! (uid, sid) = Some "moderator" ->
  societyEdit token sid n d st = Fail (Forbidden "Insufficient permisisons") st.
Proof.
  intros Hs Hu Ha [soc Hso] Hm. unfold societyEdit.
  rewrite (bind_Done _ _ _ _ _ (validateSession_live _ _ _ _ Hs Hu)). st_simpl.
  by rewrite Hso, Hm, Ha.
Qed.

(** (C30) Only a site admin deletes a society: any other caller, the
    society's own admin included, gets a 403; a site admin's deletion
    removes the society and all its memberships. *)
Theorem societyDelete_site_admin_only token sid st uid u :
  sessions st !! token = Some uid -> users st !! uid = Some u -> is_Some (societies st !! sid) ->
  (isAdmin u = false -> societyDelete token sid st = Fail (Forbidden "Insufficient permissions") st) /\
  (isAdmin u = true -> exists st', societyDelete token sid st = Done tt st' /\
     societies st' !! sid = None /\ forall v, members st' !! (v, sid) = None).
Proof.
  intros Hs Hu [soc Hso]. unfold societyDelete.
  rewrite (bind_Done _ _ _ _ _ (validateSession_live _ _ _ _ Hs Hu)). st_simpl. rewrite Hso.
  split; intros Ha; rewrite Ha; simpl; [done|].
  unfold society_delete. rewrite Hso. eexists. split; [reflexivity|]. simpl.
  split; [apply lookup_delete_eq|]. intros v. apply map_lookup_filter_None. right. simpl. tauto.
Qed.

(** ** Applying *)

(** Applying with a well-formed free name creates a 'pending'
    application at the next id, with the caller as applicant. *)
Theorem societyApply_pending token n d st uid u :
  sessions st !! token = Some uid -> users st !! uid = Some u ->
  societyNameFormatOk n = true -> society_by_name n st = None ->
  societyApply token n d st =
    Done (next_application st)
      (mkStore (users st) (sessions st) (societies st) (members st)
         (<[next_application st := mkApplication n d None uid "pending"]> (applications st))
         (events st) (attending st) (attended st) (resetCodes st) (forms st)
         (next_user st) (next_society st) (next_application st + 1) (next_event st)).
Proof.
  intros Hs Hu Hf Hb. unfold societyApply.
  rewrite (bind_Done _ _ _ _ _ (validateSession_live _ _ _ _ Hs Hu)).
  unfold validateSocietyName. st_simpl. rewrite Hf. st_simpl. rewrite Hb. st_simpl. unfold application_create.
  rewrite bool_decide_eq_true_2 by (by rewrite Hu). reflexivity.
Qed.

(** ** Witnesses *)

Lemma societyJoin_idempotent_witness :
  exists st', societyJoin "tok1" 1 demo_store = Done tt st' /\
    societyJoin "tok1" 1 st' = Done tt st' /\
    members st' !! (1, 1) = Some (default "member" (members demo_store !! (1, 1))) /\
    (forall k, k <> (1, 1) -> members st' !! k = members demo_store !! k).
Proof.
  apply societyJoin_idempotent; [apply wfb_wf; vm_compute| |eexists]; reflexivity.
Defined.

Lemma validateSocietyName_spec_witness :
  error_of (validateSocietyName "Go Club" None demo_store) = None <->
  (exists sid soc, (None : option Z) = Some sid /\ societies demo_store !! sid = Some soc /\
                   name soc = "Go Club") \/
  (societyNameFormatOk "Go Club" = true /\
   map_Forall (fun _ soc => name soc <> "Go Club") (societies demo_store)).
Proof. apply validateSocietyName_spec. apply wfb_wf. vm_compute. reflexivity. Defined.

Lemma societyEdit_moderator_forbidden_witness :
  societyEdit "tok3" 1 "Chess Society" "chess" (set_members (insert (3, 1) "moderator") demo_store) =
    Fail (Forbidden "Insufficient permisisons") (set_members (insert (3, 1) "moderator") demo_store).
Proof.
  apply (societyEdit_moderator_forbidden _ _ _ _ _ 3
           (mkUser "cat@unsw.edu" "cat" "stevens" "hash:pw3" "z3333333" false));
    try reflexivity.
  eexists. reflexivity.
Defined.

Lemma societyDelete_site_admin_only_witness :
  societyDelete "tok2" 1 demo_store = Fail (Forbidden "Insufficient permissions") demo_store /\
  exists st', societyDelete "tok1" 1 demo_store = Done tt st' /\
    societies st' !! 1 = None /\ forall v, members st' !! (v, 1) = None.
Proof.
  split.
  - apply (societyDelete_site_admin_only "tok2" 1 demo_store 2
             (mkUser "bob@unsw.edu" "bob" "ross" "hash:pw2" "z2222222" false));
      try reflexivity. eexists. reflexivity.
  - apply (societyDelete_site_admin_only "tok1" 1 demo_store 1
             (mkUser "ada@unsw.edu" "ada" "lovelace" "hash:pw1" "z1111111" true));
      try reflexivity. eexists. reflexivity.
Defined.

Lemma societyApply_pending_witness :
  societyApply "tok3" "Go Club" "go" demo_store =
    Done (next_application demo_store)
      (mkStore (users demo_store) (sessions demo_store) (societies demo_store) (members demo_store)
         (<[next_application demo_store := mkApplication "Go Club" "go" None 3 "pending"]>
            (applications demo_store))
         (events demo_store) (attending demo_store) (attended demo_store) (resetCodes demo_store)
         (forms demo_store) (next_user demo_store) (next_society demo_store)
         (next_application demo_store + 1) (next_event demo_store)).
Proof.
  apply (societyApply_pending _ _ _ _ 3 (mkUser "cat@unsw.edu" "cat" "stevens" "hash:pw3" "z3333333" false));
    reflexivity.
Defined.
