(* ===== verification/Event.v ===== *)
(** * Events, attendance and attendance forms

    The handlers of src/backend/src/event.ts that read or write one
    event: [createEvent], [editEvent], [deleteEvent], [getEvent],
    [attendEvent], [unattendEvent], [eventStatus], [fillForm] and
    [generateCSV].  (The listing [getEvents] is in Listing.v.)  Each is
    written as the code runs it: the session check, the lookup of the
    event with its own 400 message, the permission test of the
    society's member list, then the ORM writes of Store.v.  The
    calendar files [generateICal] rewrites after a change are not
    modelled; [generateCSV] returns the text it writes to the file.

    The invariant [ev_wf] is the referential integrity of the event
    tables: every event belongs to an existing society and every
    attendance row to an existing user and event.  The theorems give
    each handler's behaviour, who may create, edit and delete events
    (the code's rules differ from the specification's in three
    places), the attendance round trip of attend, status and unattend,
    and the CSV export, which does not escape the fields a form
    submits. *)

From S2P Require Import Prelude Validation Query Store Session.

Open Scope Z_scope.

(** ** Shared checks *)

(** [member.role === 'admin' || member.role === 'moderator'] *)
Definition elevated_role (r : string) : bool :=
  String.eqb r "admin" || String.eqb r "moderator".

(** [society.members.find((member) => member.userId === user.id &&
    (member.role === 'admin' || member.role === 'moderator'))]: the
    membership rows are keyed by (userId, societyId), so the search
    finds the caller's row when its role is elevated. *)
Definition has_elevated_access (uid sid : Z) (st : Store) : bool :=
  match members st !! (uid, sid) with Some r => elevated_role r | None => false end.

Definition insufficient_permissions : HttpError := Forbidden "Insufficient permissions".

(** Reading [society.members] when [prisma.society.findUnique] returned
    [null]: a [TypeError], which the error middleware reports as 500. *)
Definition null_dereference : HttpError :=
  InternalServerError "Cannot read properties of null (reading 'members')".

(** What [getEvent] returns: [{ eventId, ...event }]. *)
Record EventInfo := mkEventInfo {
  info_eventId : Z;
  info_name : string;
  info_description : string;
  info_time : Z;
  info_location : string;
  info_societyId : Z
}.

Definition event_info (eid : Z) (e : Event) : EventInfo :=
  mkEventInfo eid (ev_name e) (ev_description e) (time e) (location e) (ev_societyId e).

(** ** Handlers *)

Definition createEvent (token : string) (societyId : Z) (name description : string)
    (time : Z) (location : string) : ST Store Z :=
  s <- validateSession token ;;
  let '(uid, user) := s in
  _ <- find_or (fun st => societies st !! societyId) (BadRequest "Society does not exist") ;;
  ok <- gets (has_elevated_access uid societyId) ;;
  check ok insufficient_permissions ;;;
  event_create (mkEvent societyId name description time location).

Definition editEvent (token : string) (eventId : Z) (name description : string)
    (time : Z) (location : string) : ST Store unit :=
  s <- validateSession token ;;
  let '(uid, user) := s in
  event <- find_or (fun st => events st !! eventId) (BadRequest "Invalid eventId") ;;
  _ <- find_or (fun st => societies st !! ev_societyId event) null_dereference ;;
  ok <- gets (has_elevated_access uid (ev_societyId event)) ;;
  check ok insufficient_permissions ;;;
  event_update eventId name description time location.

(** [!(user.isAdmin || society.members.find(...))]: a site admin
    short-circuits the test, and the society is not read. *)
Definition deleteEvent (token : string) (eventId : Z) : ST Store unit :=
  s <- validateSession token ;;
  let '(uid, user) := s in
  event <- find_or (fun st => events st !! eventId) (BadRequest "Invalid eventId") ;;
  (if isAdmin user then ret tt
   else _ <- find_or (fun st => societies st !! ev_societyId event) null_dereference ;;
        ok <- gets (has_elevated_access uid (ev_societyId event)) ;;
        check ok insufficient_permissions) ;;;
  event_delete eventId.

Definition getEvent (eventId : Z) : ST Store EventInfo :=
  event <- find_or (fun st => events st !! eventId) (BadRequest "eventId is invalid") ;;
  ret (event_info eventId event).

Definition attendEvent (token : string) (eventId : Z) : ST Store unit :=
  s <- validateSession token ;;
  _ <- find_or (fun st => events st !! eventId) (BadRequest "eventId is invalid") ;;
  attending_upsert s.1 eventId.

Definition unattendEvent (token : string) (eventId : Z) : ST Store unit :=
  s <- validateSession token ;;
  _ <- find_or (fun st => events st !! eventId) (BadRequest "eventId is invalid") ;;
  present <- gets (fun st => bool_decide ((s.1, eventId) ∈ attending st)) ;;
  check present (BadRequest "User is not attending") ;;;
  attending_delete s.1 eventId.

Definition eventStatus (token : string) (eventId : Z) : ST Store bool :=
  s <- validateSession token ;;
  _ <- find_or (fun st => events st !! eventId) (BadRequest "eventId is invalid") ;;
  gets (fun st => bool_decide ((s.1, eventId) ∈ attending st)).

Section Forms.
Context `{EmailValidator}.

(** [fillForm]: the form row is upserted (an unknown event is a foreign
    key error, uncaught); recording the attendance of the user with
    that zId is [.catch((err) => {})]: its failure is ignored. *)
Definition fillForm (eventId : Z) (nameFirst nameLast zId email : string) : ST Store unit :=
  check (isEmail email) (BadRequest "Invalid email") ;;;
  form_upsert eventId zId email nameFirst nameLast ;;;
  swallow (attended_create zId eventId).
End Forms.

(** ** The CSV export *)

(** [`${e.zId},${e.email},${e.nameFirst},${e.nameLast}`] *)
Definition csv_line (k : Z * string * string) (names : string * string) : string :=
  k.1.2 +:+ "," +:+ k.2 +:+ "," +:+ names.1 +:+ "," +:+ names.2.

Fixpoint join (sep : string) (l : list string) : string :=
  match l with
  | [] => ""
  | [x] => x
  | x :: l' => x +:+ sep +:+ join sep l'
  end.

(** The event's form rows, in the order of the table. *)
Definition event_forms (eid : Z) (st : Store) : list ((Z * string * string) * (string * string)) :=
  List.filter (fun kv => bool_decide (kv.1.1.1 = eid)) (map_to_list (forms st)).

Definition newline_char : Ascii.ascii := Ascii.ascii_of_nat 10.
Definition newline : string := String newline_char EmptyString.
Definition comma : Ascii.ascii := Eval cbv in Ascii.ascii_of_nat 44.

Definition csv_of (rows : list ((Z * string * string) * (string * string))) : string :=
  join newline (map (fun kv => csv_line kv.1 kv.2) rows).

(** [generateCSV]: returns the text the handler writes to
    [./attendance/event-<eventId>.csv]. *)
Definition generateCSV (token : string) (eventId : Z) : ST Store string :=
  s <- validateSession token ;;
  let '(uid, user) := s in
  event <- find_or (fun st => events st !! eventId) (BadRequest "EventId is invalid") ;;
  ok <- gets (has_elevated_access uid (ev_societyId event)) ;;
  check (isAdmin user || ok) (Forbidden "Invalid permissions") ;;;
  gets (fun st => csv_of (event_forms eventId st)).

(** ** Referential integrity of the event tables *)

Record ev_wf (st : Store) : Prop := {
  ev_wf_society : map_Forall (fun _ e => is_Some (societies st !! ev_societyId e)) (events st);
  ev_wf_attending : set_Forall (fun k => is_Some (users st !! k.1) /\ is_Some (events st !! k.2))
                      (attending st);
  ev_wf_ids : map_Forall (fun i _ => 1 <= i < next_event st) (events st);
  ev_wf_counter : 1 <= next_event st
}.

Definition ev_wfb (st : Store) : bool :=
  bool_decide (map_Forall (fun _ e => is_Some (societies st !! ev_societyId e)) (events st)) &&
  bool_decide (set_Forall (fun k => is_Some (users st !! k.1) /\ is_Some (events st !! k.2))
                 (attending st)) &&
  bool_decide (map_Forall (fun i _ => 1 <= i < next_event st) (events st)) &&
  bool_decide (1 <= next_event st).

Lemma ev_wfb_ev_wf st : ev_wfb st = true -> ev_wf st.
Proof.
  unfold ev_wfb. intros H. repeat (apply andb_prop in H as [H ?]).
  repeat match goal with Hb : bool_decide _ = true |- _ => apply bool_decide_eq_true in Hb end.
  by constructor.
Qed.

Lemma ev_wf_empty : ev_wf empty_store.
Proof. apply ev_wfb_ev_wf. vm_compute. reflexivity. Qed.

(** An operation that keeps the event tables and the event counter and
    removes no user and no society keeps the invariant. *)
Lemma ev_wf_frame st st' :
  dom (users st) ⊆ dom (users st') -> dom (societies st) ⊆ dom (societies st') ->
  events st' = events st -> attending st' = attending st -> next_event st' = next_event st ->
  ev_wf st -> ev_wf st'.
Proof.
  intros Hu Hs He Ha Hn [Hso Hat Hid Hc]. constructor; rewrite ?He, ?Ha, ?Hn; [|..|done|done].
  - intros i e Hi. apply elem_of_dom, Hs, elem_of_dom. exact (Hso i e Hi).
  - intros k Hk. destruct (Hat k Hk) as [Hk1 Hk2]. split; [|done].
    apply elem_of_dom, Hu, elem_of_dom, Hk1.
Qed.

Ltac ev_frame :=
  intros st Hinv; repeat (simpl; case_match); try case_bool_decide; simpl; try done;
  (eapply ev_wf_frame; [..|exact Hinv]); simpl; try done;
  rewrite ?dom_insert_L; set_solver.

Lemma user_create_ev_wf u : Preserves ev_wf (user_create u).
Proof. unfold user_create. ev_frame. Qed.
Lemma session_create_ev_wf uid : Preserves ev_wf (session_create uid).
Proof. unfold session_create. ev_frame. Qed.
Lemma session_delete_ev_wf tok : Preserves ev_wf (session_delete tok).
Proof. unfold session_delete. ev_frame. Qed.
Lemma user_update_isAdmin_ev_wf uid b : Preserves ev_wf (user_update_isAdmin uid b).
Proof. unfold user_update_isAdmin. ev_frame. Qed.
Lemma member_update_role_ev_wf uid sid r : Preserves ev_wf (member_update_role uid sid r).
Proof. unfold member_update_role. ev_frame. Qed.
Lemma member_upsert_ev_wf uid sid : Preserves ev_wf (member_upsert uid sid).
Proof. unfold member_upsert. ev_frame. Qed.
Lemma application_update_status_ev_wf aid s : Preserves ev_wf (application_update_status aid s).
Proof. unfold application_update_status. ev_frame. Qed.
Lemma society_create_ev_wf soc uid r : Preserves ev_wf (society_create soc uid r).
Proof. unfold society_create. ev_frame. Qed.
Lemma application_create_ev_wf n d uid : Preserves ev_wf (application_create n d uid).
Proof. unfold application_create. ev_frame. Qed.
Lemma society_update_ev_wf sid n d : Preserves ev_wf (society_update sid n d).
Proof. unfold society_update. ev_frame. Qed.
Lemma form_upsert_ev_wf eid z e nf nl : Preserves ev_wf (form_upsert eid z e nf nl).
Proof. unfold form_upsert. ev_frame. Qed.
Lemma attended_create_ev_wf z eid : Preserves ev_wf (attended_create z eid).
Proof. unfold attended_create. ev_frame. Qed.

Lemma reset_code_create_ev_wf code uid : Preserves ev_wf (reset_code_create code uid).
Proof. unfold reset_code_create. ev_frame. Qed.
Lemma user_update_password_ev_wf uid h : Preserves ev_wf (user_update_password uid h).
Proof. unfold user_update_password. ev_frame. Qed.
Lemma user_update_profile_ev_wf uid nf nl e : Preserves ev_wf (user_update_profile uid nf nl e).
Proof. unfold user_update_profile. ev_frame. Qed.

Lemma user_delete_ev_wf uid : Preserves ev_wf (user_delete uid).
Proof.
  intros st [Hso Hat Hid Hc]. unfold user_delete. destruct (users st !! uid); [|by constructor].
  constructor; simpl; auto.
  intros k [Hne Hk]%elem_of_filter. destruct (Hat k Hk). split; [|done].
  by rewrite lookup_delete_ne.
Qed.

Lemma society_delete_ev_wf sid : Preserves ev_wf (society_delete sid).
Proof.
  intros st [Hso Hat Hid Hc]. unfold society_delete. destruct (societies st !! sid); [|by constructor].
  constructor; simpl; auto.
  - intros i e [He Hne]%map_lookup_filter_Some. simpl in Hne.
    rewrite lookup_delete_ne by done. exact (Hso i e He).
  - intros k [Hout Hk]%elem_of_filter. destruct (Hat k Hk) as [Hu [e He]]. split; [done|].
    unfold event_outside in Hout. rewrite He in Hout.
    rewrite map_lookup_filter, He. simpl. by rewrite option_guard_True.
  - intros i e [He _]%map_lookup_filter_Some. exact (Hid i e He).
Qed.

Lemma event_create_ev_wf e : Preserves ev_wf (event_create e).
Proof.
  intros st [Hso Hat Hid Hc]. unfold event_create. case_bool_decide as Hs; [|by constructor].
  constructor; simpl.
  - apply map_Forall_insert_2; [done|]. exact Hso.
  - intros k Hk. destruct (Hat k Hk) as [Hu [e' He]]. split; [done|].
    rewrite lookup_insert_ne; [by eexists|]. intros Heq. rewrite <- Heq in He.
    specialize (Hid _ _ He). simpl in Hid. lia.
  - apply map_Forall_insert_2; [lia|]. intros i e' Hi. specialize (Hid i e' Hi). simpl in Hid. lia.
  - lia.
Qed.

Lemma event_update_ev_wf eid n d t l : Preserves ev_wf (event_update eid n d t l).
Proof.
  intros st [Hso Hat Hid Hc]. unfold event_update. destruct (events st !! eid) as [e|] eqn:He;
    [|by constructor].
  constructor; simpl.
  - apply map_Forall_insert_2; [exact (Hso eid e He)|exact Hso].
  - intros k Hk. destruct (Hat k Hk) as [Hu Hk2]. split; [done|].
    destruct (decide (k.2 = eid)) as [->|]; [by rewrite lookup_insert_eq|by rewrite lookup_insert_ne].
  - apply map_Forall_insert_2; [exact (Hid eid e He)|exact Hid].
  - done.
Qed.

Lemma event_delete_ev_wf eid : Preserves ev_wf (event_delete eid).
Proof.
  intros st [Hso Hat Hid Hc]. unfold event_delete. destruct (events st !! eid); [|by constructor].
  constructor; simpl.
  - by apply map_Forall_delete.
  - intros k [Hne Hk]%elem_of_filter. destruct (Hat k Hk). split; [done|].
    by rewrite lookup_delete_ne.
  - by apply map_Forall_delete.
  - done.
Qed.

Lemma attending_upsert_ev_wf uid eid : Preserves ev_wf (attending_upsert uid eid).
Proof.
  intros st [Hso Hat Hid Hc]. unfold attending_upsert.
  destruct (bool_decide (is_Some _)) eqn:Hu; [|by constructor].
  destruct (bool_decide (is_Some (events st !! eid))) eqn:He; [|by constructor].
  apply bool_decide_eq_true in Hu, He. constructor; simpl; auto.
  apply set_Forall_union; [|done]. by apply set_Forall_singleton.
Qed.

Lemma attending_delete_ev_wf uid eid : Preserves ev_wf (attending_delete uid eid).
Proof.
  intros st [Hso Hat Hid Hc]. unfold attending_delete. case_bool_decide; [|by constructor].
  constructor; simpl; auto. intros k [Hk _]%elem_of_difference. by apply Hat.
Qed.

#[export] Hint Resolve user_create_ev_wf session_create_ev_wf session_delete_ev_wf
  user_update_isAdmin_ev_wf member_update_role_ev_wf member_upsert_ev_wf
  application_update_status_ev_wf society_create_ev_wf application_create_ev_wf
  society_update_ev_wf form_upsert_ev_wf attended_create_ev_wf user_delete_ev_wf
  society_delete_ev_wf event_create_ev_wf event_update_ev_wf event_delete_ev_wf
  attending_upsert_ev_wf attending_delete_ev_wf reset_code_create_ev_wf
  user_update_password_ev_wf user_update_profile_ev_wf : spark.

(** ** The handlers keep every invariant their writes keep *)

Section HandlersPreserve.
Context `{EmailValidator} (I : Store -> Prop).
Hypothesis Hcreate : forall e, Preserves I (event_create e).
Hypothesis Hupdate : forall eid n d t l, Preserves I (event_update eid n d t l).
Hypothesis Hdelete : forall eid, Preserves I (event_delete eid).
Hypothesis Hattend : forall uid eid, Preserves I (attending_upsert uid eid).
Hypothesis Hunattend : forall uid eid, Preserves I (attending_delete uid eid).
Hypothesis Hform : forall eid z e nf nl, Preserves I (form_upsert eid z e nf nl).
Hypothesis Hattended : forall z eid, Preserves I (attended_create z eid).

#[local] Hint Resolve Hcreate Hupdate Hdelete Hattend Hunattend Hform Hattended : spark.

Ltac session_handler :=
  apply preserves_bind; [auto with spark|]; intros [uid u]; auto 20 with spark.

Lemma createEvent_pres token sid n d t l : Preserves I (createEvent token sid n d t l).
Proof. unfold createEvent. session_handler. Qed.
Lemma editEvent_pres token eid n d t l : Preserves I (editEvent token eid n d t l).
Proof. unfold editEvent. session_handler. Qed.
Lemma deleteEvent_pres token eid : Preserves I (deleteEvent token eid).
Proof. unfold deleteEvent. session_handler. Qed.
Lemma getEvent_pres eid : Preserves I (getEvent eid).
Proof. unfold getEvent. auto with spark. Qed.
Lemma attendEvent_pres token eid : Preserves I (attendEvent token eid).
Proof. unfold attendEvent. session_handler. Qed.
Lemma unattendEvent_pres token eid : Preserves I (unattendEvent token eid).
Proof. unfold unattendEvent. session_handler. Qed.
Lemma eventStatus_pres token eid : Preserves I (eventStatus token eid).
Proof. unfold eventStatus. session_handler. Qed.
Lemma fillForm_pres eid nf nl z e : Preserves I (fillForm eid nf nl z e).
Proof. unfold fillForm. auto 20 with spark. Qed.
Lemma generateCSV_pres token eid : Preserves I (generateCSV token eid).
Proof. unfold generateCSV. session_handler. Qed.
End HandlersPreserve.

#[export] Hint Resolve createEvent_pres editEvent_pres deleteEvent_pres getEvent_pres
  attendEvent_pres unattendEvent_pres eventStatus_pres fillForm_pres generateCSV_pres : spark.

(** ** Who may create, edit and delete events *)

(** (C29) [createEvent] succeeds exactly when the token's user holds an
    admin or moderator membership of the society, and then writes
    exactly the new event row; a site admin's flag gives no access. *)
Theorem createEvent_authorization st token sid n d t l eid st' :
  createEvent token sid n d t l st = Done eid st' <->
  exists uid u, sessions st !! token = Some uid /\ users st !! uid = Some u /\
    has_elevated_access uid sid st = true /\
    event_create (mkEvent sid n d t l) st = Done eid st'.
Proof.
  unfold createEvent. rewrite validateSession_bind.
  destruct (sessions st !! token) as [uid|] eqn:Hs; [|naive_solver].
  destruct (users st !! uid) as [u|] eqn:Hu; [|naive_solver].
  st_simpl. destruct (societies st !! sid) eqn:Hso.
  - destruct (has_elevated_access uid sid st) eqn:Ha; simpl.
    + split; [naive_solver|]. intros (? & ? & [= <-] & _ & _ & E). exact E.
    + split; [done|]. intros (? & ? & [= <-] & _ & Ha' & _). congruence.
  - split; [done|]. intros (? & ? & _ & _ & _ & E). unfold event_create in E.
    simpl in E. rewrite Hso in E. by rewrite bool_decide_false in E by (intros []; done).
Qed.

(** The site-admin flag does not open event creation: a site
    admin with no admin or moderator membership of an existing society
    is refused with 403, where the specification grants site admins
    access. *)
Theorem createEvent_site_admin_forbidden st token uid u sid n d t l :
  sessions st !! token = Some uid -> users st !! uid = Some u -> isAdmin u = true ->
  is_Some (societies st !! sid) -> has_elevated_access uid sid st = false ->
  createEvent token sid n d t l st = Fail insufficient_permissions st.
Proof.
  intros Hs Hu _ [soc Hso] Ha. unfold createEvent. rewrite validateSession_bind, Hs, Hu.
  st_simpl. by rewrite Hso, Ha.
Qed.

(** In a store with referential integrity the event's society exists,
    so the handlers never read the members of a missing society. *)
Lemma ev_wf_society_of st eid e : ev_wf st -> events st !! eid = Some e ->
  exists soc, societies st !! ev_societyId e = Some soc.
Proof. intros Hinv He. exact (ev_wf_society _ Hinv _ _ He). Qed.

(** [editEvent] succeeds exactly when the event exists and the token's
    user holds an admin or moderator membership of its society (the
    site-admin flag does not count); it rewrites the event's four
    fields and keeps its society. *)
Theorem editEvent_authorization st token eid n d t l st' :
  ev_wf st ->
  editEvent token eid n d t l st = Done tt st' <->
  exists uid u e, sessions st !! token = Some uid /\ users st !! uid = Some u /\
    events st !! eid = Some e /\ has_elevated_access uid (ev_societyId e) st = true /\
    st' = set_events (insert eid (mkEvent (ev_societyId e) n d t l)) st.
Proof.
  intros Hinv. unfold editEvent. rewrite validateSession_bind.
  destruct (sessions st !! token) as [uid|] eqn:Hs; [|naive_solver].
  destruct (users st !! uid) as [u|] eqn:Hu; [|naive_solver].
  st_simpl. destruct (events st !! eid) as [e|] eqn:He; [|naive_solver].
  destruct (ev_wf_society_of _ _ _ Hinv He) as [soc Hso]. rewrite Hso.
  destruct (has_elevated_access uid (ev_societyId e) st) eqn:Ha; simpl.
  - unfold event_update. rewrite He. split; [intros [= <-]; naive_solver|].
    intros (? & ? & ? & [= <-] & _ & [= <-] & _ & ->). done.
  - split; [done|]. intros (? & ? & ? & [= <-] & _ & [= <-] & Ha' & _). congruence.
Qed.

(** (C31) [deleteEvent] succeeds exactly when the event exists and the
    token's user is a site admin or holds an admin or moderator
    membership of the event's society; it then deletes the event with
    its attendance and forms. *)
Theorem deleteEvent_authorization st token eid st' :
  ev_wf st ->
  deleteEvent token eid st = Done tt st' <->
  exists uid u e, sessions st !! token = Some uid /\ users st !! uid = Some u /\
    events st !! eid = Some e /\
    (isAdmin u = true \/ has_elevated_access uid (ev_societyId e) st = true) /\
    event_delete eid st = Done tt st'.
Proof.
  intros Hinv. unfold deleteEvent. rewrite validateSession_bind.
  destruct (sessions st !! token) as [uid|] eqn:Hs; [|naive_solver].
  destruct (users st !! uid) as [u|] eqn:Hu; [|naive_solver].
  st_simpl. destruct (events st !! eid) as [e|] eqn:He; [|naive_solver].
  destruct (ev_wf_society_of _ _ _ Hinv He) as [soc Hso].
  destruct (isAdmin u) eqn:Hadm; simpl; [naive_solver|]. rewrite Hso.
  destruct (has_elevated_access uid (ev_societyId e) st) eqn:Ha; simpl; [naive_solver|].
  split; [done|]. intros (? & ? & ? & Hs' & Hu' & He' & Hor & _). simplify_eq.
  destruct Hor; congruence.
Qed.

(** A moderator of the event's society may delete the event,
    where the specification reserves deletion to site admins and
    society admins. *)
Theorem deleteEvent_moderator_allowed st token uid u eid e :
  ev_wf st -> sessions st !! token = Some uid -> users st !! uid = Some u ->
  events st !! eid = Some e -> members st !! (uid, ev_societyId e) = Some "moderator" ->
  exists st', deleteEvent token eid st = Done tt st'.
Proof.
  intros Hinv Hs Hu He Hm. unfold deleteEvent. rewrite validateSession_bind, Hs, Hu.
  destruct (ev_wf_society_of _ _ _ Hinv He) as [soc Hso].
  st_simpl. rewrite He. destruct (isAdmin u); simpl.
  - unfold event_delete. rewrite He. by eexists.
  - rewrite Hso. unfold has_elevated_access. rewrite Hm. simpl.
    unfold event_delete. rewrite He. by eexists.
Qed.

(** [editEvent] never fails with the 500 of a missing society in a
    store with referential integrity. *)
Lemma editEvent_no_null_dereference st token eid n d t l st' :
  ev_wf st -> editEvent token eid n d t l st <> Fail null_dereference st'.
Proof.
  intros Hinv. unfold editEvent. rewrite validateSession_bind.
  destruct (sessions st !! token) as [uid|]; [|done].
  destruct (users st !! uid) as [u|]; [|done].
  st_simpl. destruct (events st !! eid) as [e|] eqn:He; [|done].
  destruct (ev_wf_society_of _ _ _ Hinv He) as [soc ->].
  destruct (has_elevated_access _ _ _); simpl; [|done].
  unfold event_update. by rewrite He.
Qed.

(** ** Attendance *)

Lemma set_attending_id f st : f (attending st) = attending st -> set_attending f st = st.
Proof. destruct st as [? ? ? ? ? ? a]; unfold set_attending; simpl. by intros ->. Qed.

Lemma attendEvent_Done st token uid u eid e :
  sessions st !! token = Some uid -> users st !! uid = Some u -> events st !! eid = Some e ->
  attendEvent token eid st = Done tt (set_attending (union {[(uid, eid)]}) st).
Proof.
  intros Hs Hu He. unfold attendEvent. rewrite validateSession_bind, Hs, Hu.
  st_simpl. rewrite He. unfold attending_upsert. simpl.
  by rewrite !bool_decide_true by eauto.
Qed.

Lemma eventStatus_Done st token uid u eid e :
  sessions st !! token = Some uid -> users st !! uid = Some u -> events st !! eid = Some e ->
  eventStatus token eid st = Done (bool_decide ((uid, eid) ∈ attending st)) st.
Proof.
  intros Hs Hu He. unfold eventStatus. rewrite validateSession_bind, Hs, Hu.
  st_simpl. by rewrite He.
Qed.

Lemma unattendEvent_run st token uid u eid e :
  sessions st !! token = Some uid -> users st !! uid = Some u -> events st !! eid = Some e ->
  unattendEvent token eid st =
    if bool_decide ((uid, eid) ∈ attending st)
    then Done tt (set_attending (fun a => a ∖ {[(uid, eid)]}) st)
    else Fail (BadRequest "User is not attending") st.
Proof.
  intros Hs Hu He. unfold unattendEvent. rewrite validateSession_bind, Hs, Hu.
  st_simpl. rewrite He. simpl. unfold attending_delete.
  case_bool_decide; [|done]. simpl. by rewrite bool_decide_true.
Qed.

(** The attendance round trip: attending an event makes its
    status true and is idempotent; unattending then makes it false,
    removes exactly that row, and a second unattend fails with 400. *)
Theorem attendance_roundtrip st token uid u eid e :
  sessions st !! token = Some uid -> users st !! uid = Some u -> events st !! eid = Some e ->
  exists st1 st2,
    attendEvent token eid st = Done tt st1 /\ eventStatus token eid st1 = Done true st1 /\
    attendEvent token eid st1 = Done tt st1 /\
    unattendEvent token eid st1 = Done tt st2 /\ eventStatus token eid st2 = Done false st2 /\
    unattendEvent token eid st2 = Fail (BadRequest "User is not attending") st2 /\
    attending st2 = attending st ∖ {[(uid, eid)]}.
Proof.
  intros Hs Hu He.
  set (st1 := set_attending (union {[(uid, eid)]}) st).
  set (st2 := set_attending (fun a => a ∖ {[(uid, eid)]}) st1).
  exists st1, st2.
  assert (Hin : (uid, eid) ∈ attending st1) by (simpl; set_solver).
  assert (Hout : (uid, eid) ∉ attending st2) by (simpl; set_solver).
  split_and!.
  - exact (attendEvent_Done _ _ _ _ _ _ Hs Hu He).
  - rewrite (eventStatus_Done st1 _ _ _ _ _ Hs Hu He). by rewrite bool_decide_true.
  - rewrite (attendEvent_Done st1 _ _ _ _ _ Hs Hu He). f_equal.
    apply set_attending_id. set_solver.
  - rewrite (unattendEvent_run st1 _ _ _ _ _ Hs Hu He). by rewrite bool_decide_true.
  - rewrite (eventStatus_Done st2 _ _ _ _ _ Hs Hu He). by rewrite bool_decide_false.
  - rewrite (unattendEvent_run st2 _ _ _ _ _ Hs Hu He). by rewrite bool_decide_false.
  - simpl. set_solver.
Qed.

(** ** Reading the CSV back *)

Fixpoint has_char (c : Ascii.ascii) (s : string) : bool :=
  match s with EmptyString => false | String a s' => Ascii.eqb a c || has_char c s' end.

(** Splitting a text at every occurrence of a separator, the way a CSV
    reader splits lines and fields. *)
Fixpoint split_on (c : Ascii.ascii) (s : string) : list string :=
  match s with
  | EmptyString => [EmptyString]
  | String a s' =>
      let r := split_on c s' in
      if Ascii.eqb a c then EmptyString :: r
      else match r with x :: r' => String a x :: r' | [] => [String a EmptyString] end
  end.

Definition csv_parse (s : string) : list (list string) :=
  if String.eqb s "" then [] else map (split_on comma) (split_on newline_char s).

(** The four fields of a form row, in the order of the CSV line. *)
Definition row_fields (kv : (Z * string * string) * (string * string)) : list string :=
  [kv.1.1.2; kv.1.2; kv.2.1; kv.2.2].

(** A field the CSV can carry: no comma and no line break. *)
Definition clean_field (f : string) : bool := negb (has_char comma f) && negb (has_char newline_char f).

Lemma has_char_app c x y : has_char c (x +:+ y) = has_char c x || has_char c y.
Proof. induction x as [|a x IH]; simpl; [done|]. rewrite IH. apply orb_assoc. Qed.

Lemma split_on_free c x : has_char c x = false -> split_on c x = [x].
Proof.
  induction x as [|a x IH]; simpl; [done|]. intros [Ha Hx]%orb_false_iff.
  by rewrite Ha, IH.
Qed.

Lemma split_on_sep c x y : has_char c x = false -> split_on c (x +:+ String c y) = x :: split_on c y.
Proof.
  induction x as [|a x IH]; simpl.
  - by rewrite Ascii.eqb_refl.
  - intros [Ha Hx]%orb_false_iff. by rewrite Ha, IH.
Qed.

Lemma append_single c z : String c EmptyString +:+ z = String c z.
Proof. reflexivity. Qed.

Lemma split_on_join c l : l <> [] -> Forall (fun x => has_char c x = false) l ->
  split_on c (join (String c EmptyString) l) = l.
Proof.
  induction l as [|x [|y l] IH]; intros Hne Hl; [done| |].
  - inversion Hl. by apply split_on_free.
  - inversion Hl as [|? ? Hx Hl']; subst. change (join _ (x :: y :: l)) with
      (x +:+ String c EmptyString +:+ join (String c EmptyString) (y :: l)).
    rewrite append_single, split_on_sep by done. f_equal. by apply IH.
Qed.

Lemma csv_line_fields kv : clean_field kv.1.1.2 && clean_field kv.1.2 && clean_field kv.2.1 &&
  clean_field kv.2.2 = true ->
  has_char newline_char (csv_line kv.1 kv.2) = false /\
  split_on comma (csv_line kv.1 kv.2) = row_fields kv.
Proof.
  unfold clean_field, csv_line, comma in *. intros H.
  repeat match goal with
         | Hb : _ && _ = true |- _ => apply andb_prop in Hb as [? ?]
         | Hb : negb _ = true |- _ => apply negb_true_iff in Hb
         end.
  split.
  - rewrite !has_char_app. simpl.
    repeat match goal with Hf : has_char newline_char _ = false |- _ => rewrite Hf; clear Hf end.
    done.
  - rewrite !append_single, !split_on_sep by done. by rewrite split_on_free.
Qed.

Lemma has_char_join c sep x l : has_char c x = true -> has_char c (join sep (x :: l)) = true.
Proof. destruct l; simpl; [done|]. rewrite has_char_app. by intros ->. Qed.

Lemma csv_line_has_comma k n : has_char comma (csv_line k n) = true.
Proof. unfold csv_line, comma. rewrite has_char_app, append_single. simpl. apply orb_true_r. Qed.

(** A form row whose four fields the CSV can carry. *)
Definition clean_row (kv : (Z * string * string) * (string * string)) : bool :=
  clean_field kv.1.1.2 && clean_field kv.1.2 && clean_field kv.2.1 && clean_field kv.2.2.

(** The CSV export round trip: when no submitted field contains a
    comma or a line break, reading the exported text back line by line
    and field by field gives exactly the rows' zId, email, first and
    last name, in order. *)
Theorem csv_roundtrip rows :
  Forall (fun kv => clean_row kv = true) rows ->
  csv_parse (csv_of rows) = map row_fields rows.
Proof.
  intros Hrows. destruct rows as [|kv rows']; [done|].
  unfold csv_parse, csv_of. case_match eqn:E0; [apply String.eqb_eq in E0 as E|].
  { apply (f_equal (has_char comma)) in E. cbn [List.map] in E.
    by rewrite has_char_join in E by apply csv_line_has_comma. }
  rewrite split_on_join; [|done|].
  - rewrite map_map. apply map_ext_in. intros kv' Hin.
    rewrite Forall_forall in Hrows. apply list_elem_of_In, Hrows in Hin.
    exact (proj2 (csv_line_fields kv' Hin)).
  - apply Forall_map. eapply Forall_impl; [exact Hrows|]. intros kv' Hc.
    exact (proj1 (csv_line_fields kv' Hc)).
Qed.

(** The export does not quote fields: a first name containing a
    comma, which [fillForm] accepts, comes back from the CSV as a row of
    five fields, the name split in two. *)
Theorem csv_comma_splits_row :
  let st := set_events (insert 1 (mkEvent 1 "Opening Night" "First games" 1700000000000 "Library"))
              demo_store in
  exists st1 csv,
    fillForm 1 "Ada,Grace" "Lovelace" "z1111111" "ada@unsw.edu" st = Done tt st1 /\
    generateCSV "tok1" 1 st1 = Done csv st1 /\
    csv_parse csv = [["z1111111"; "ada@unsw.edu"; "Ada"; "Grace"; "Lovelace"]].
Proof. do 2 eexists. split; [reflexivity|]. split; [reflexivity|]. vm_compute. reflexivity. Qed.

(** ** Witnesses *)

(** The demo store with an event of the Chess Club that bob attends,
    and cat promoted to moderator of the club. *)
Definition opening_night : Event :=
  mkEvent 1 "Opening Night" "First games of the year" 1700000000000 "Library".

Definition event_demo : Store :=
  mkStore (users demo_store) (sessions demo_store) (societies demo_store)
    (<[(3, 1) := "moderator"]> (members demo_store)) (applications demo_store)
    {[1 := opening_night]} {[(2, 1)]} ∅ ∅ ∅ 4 2 3 2.

Lemma ev_wf_event_demo : ev_wf event_demo.
Proof. apply ev_wfb_ev_wf. vm_compute. reflexivity. Qed.

Lemma createEvent_site_admin_forbidden_witness :
  createEvent "tok1" 1 "Blitz" "Five minute games" 1700000600000 "Library" demo_store
    = Fail insufficient_permissions demo_store.
Proof.
  apply (createEvent_site_admin_forbidden demo_store "tok1" 1
           (mkUser "ada@unsw.edu" "ada" "lovelace" "hash:pw1" "z1111111" true)); try reflexivity.
  by eexists.
Defined.

Lemma deleteEvent_authorization_witness :
  deleteEvent "tok1" 1 event_demo = Done tt (state_of (event_delete 1 event_demo)) <->
  exists uid u e, sessions event_demo !! "tok1" = Some uid /\ users event_demo !! uid = Some u /\
    events event_demo !! 1 = Some e /\
    (isAdmin u = true \/ has_elevated_access uid (ev_societyId e) event_demo = true) /\
    event_delete 1 event_demo = Done tt (state_of (event_delete 1 event_demo)).
Proof. apply deleteEvent_authorization, ev_wf_event_demo. Defined.

Lemma deleteEvent_moderator_allowed_witness :
  exists st', deleteEvent "tok3" 1 event_demo = Done tt st'.
Proof.
  apply (deleteEvent_moderator_allowed event_demo "tok3" 3
           (mkUser "cat@unsw.edu" "cat" "stevens" "hash:pw3" "z3333333" false) 1 opening_night);
    [apply ev_wf_event_demo|reflexivity..].
Defined.

Lemma attendance_roundtrip_witness :
  exists st1 st2,
    attendEvent "tok3" 1 event_demo = Done tt st1 /\ eventStatus "tok3" 1 st1 = Done true st1 /\
    attendEvent "tok3" 1 st1 = Done tt st1 /\
    unattendEvent "tok3" 1 st1 = Done tt st2 /\ eventStatus "tok3" 1 st2 = Done false st2 /\
    unattendEvent "tok3" 1 st2 = Fail (BadRequest "User is not attending") st2 /\
    attending st2 = attending event_demo ∖ {[(3, 1)]}.
Proof.
  apply (attendance_roundtrip event_demo "tok3" 3
           (mkUser "cat@unsw.edu" "cat" "stevens" "hash:pw3" "z3333333" false) 1 opening_night);
    reflexivity.
Defined.

Lemma csv_roundtrip_witness :
  csv_parse (csv_of [((1, "z1111111", "ada@unsw.edu"), ("ada", "lovelace"));
                     ((1, "z2222222", "bob@unsw.edu"), ("bob", "ross"))]) =
  [["z1111111"; "ada@unsw.edu"; "ada"; "lovelace"]; ["z2222222"; "bob@unsw.edu"; "bob"; "ross"]].
Proof. apply (csv_roundtrip [((1, "z1111111", "ada@unsw.edu"), ("ada", "lovelace"));
                              ((1, "z2222222", "bob@unsw.edu"), ("bob", "ross"))]).
  repeat constructor. Defined.

Lemma editEvent_authorization_witness :
  editEvent "tok3" 1 "Opening Night" "Moved upstairs" 1700000000000 "Library" event_demo
    = Done tt (set_events (insert 1 (mkEvent 1 "Opening Night" "Moved upstairs" 1700000000000 "Library"))
                 event_demo) <->
  exists uid u e, sessions event_demo !! "tok3" = Some uid /\ users event_demo !! uid = Some u /\
    events event_demo !! 1 = Some e /\ has_elevated_access uid (ev_societyId e) event_demo = true /\
    set_events (insert 1 (mkEvent 1 "Opening Night" "Moved upstairs" 1700000000000 "Library")) event_demo
      = set_events (insert 1 (mkEvent (ev_societyId e) "Opening Night" "Moved upstairs" 1700000000000
                                "Library")) event_demo.
Proof. apply editEvent_authorization, ev_wf_event_demo. Defined.
