(* ===== verification/Listing.v ===== *)
(** * Listings: event search, a society's upcoming events, society search

    [getEvents] of src/backend/src/event.ts and [societyEvents] and
    [societyList] of society.ts are read-only queries: a filter built
    from the optional query parameters, an [orderBy] list, and for the
    two searches a [slice] of the result for pagination.  The database's
    ordering is modelled by stdpp's [merge_sort] on the lexicographic
    order of the [orderBy] columns (Query.v); since the last column is
    the unique id, the order is total on a table's rows and every
    sorted permutation of the matching rows is the same list, so the
    theorem [getEvents_order] shows that the model returns exactly what
    any implementation of the [ORDER BY] returns.  The theorem
    [getEvents_spec] states the search's answer without the model's
    filter and order: the matching events, each once, in ascending
    order of time, name, description and id.

    The query's date strings are taken as already parsed to
    milliseconds ([new Date(timeStart)]); an unparsable date, which
    Prisma rejects with a 500, is not modelled. *)

From S2P Require Import Prelude Validation Query Store Society Event.
From stdpp Require Import sorting.

Open Scope Z_scope.

(** ** Event search *)

(** [if (searchString)]: an absent or empty string adds no filter. *)
Definition search_filter (searchString : option string) (fields : list string) : bool :=
  match searchString with
  | Some s => if String.eqb s "" then true else existsb (fun f => like_contains f s) fields
  | None => true
  end.

(** The [where: { AND: filters }] of [getEvents]. *)
Definition event_matches (searchString : option string) (timeStart timeEnd : option Z)
    (e : Event) : bool :=
  search_filter searchString [ev_name e; ev_description e; location e] &&
  match timeStart with Some t => t <=? time e | None => true end &&
  match timeEnd with Some t => time e <=? t | None => true end.

(** [orderBy: [{ time }, { name }, { description }, { id }]], all
    ascending. *)
Definition event_key (ie : Z * Event) : Z * (string * (string * Z)) :=
  (time ie.2, (ev_name ie.2, (ev_description ie.2, ie.1))).

Definition event_le (x y : Z * Event) : Prop :=
  lex Z.lt (lex str_lt (lex str_lt Z.le)) (event_key x) (event_key y).

#[export] Instance event_le_dec : RelDecision event_le.
Proof. intros x y. unfold event_le. apply _. Defined.

Definition sorted_events (p : Event -> bool) (st : Store) : list (Z * Event) :=
  merge_sort event_le (List.filter (fun ie => p ie.2) (map_to_list (events st))).

Definition getEvents (searchString : option string) (timeStart timeEnd : option Z)
    (paginationStart paginationEnd : option Z) : ST Store (list EventInfo) :=
  gets (fun st => paginate paginationStart paginationEnd
                    (map (fun ie => event_info ie.1 ie.2)
                       (sorted_events (event_matches searchString timeStart timeEnd) st))).

(** [societyEvents(societyId)]: the society's events at or after the
    current time [now] ([new Date()]), in the same order. *)
Definition societyEvents (societyId now : Z) : ST Store (list EventInfo) :=
  _ <- find_or (fun st => societies st !! societyId) (BadRequest "Invalid SocietyId") ;;
  gets (fun st => map (fun ie => event_info ie.1 ie.2)
                    (sorted_events (fun e => bool_decide (ev_societyId e = societyId) &&
                                             (now <=? time e)) st)).

(** ** Society search *)

(** [orderBy: [{ name }, { description }, { id }]] *)
Definition society_key (ns : Z * Society) : string * (string * Z) :=
  (name ns.2, (description ns.2, ns.1)).

Definition society_le (x y : Z * Society) : Prop :=
  lex str_lt (lex str_lt Z.le) (society_key x) (society_key y).

#[export] Instance society_le_dec : RelDecision society_le.
Proof. intros x y. unfold society_le. apply _. Defined.

Definition societyList (searchString : option string) (paginationStart paginationEnd : option Z)
    : ST Store (list SocietyInfo) :=
  gets (fun st =>
    paginate paginationStart paginationEnd
      (map (fun ns => mkSocietyInfo ns.1 (name ns.2) (description ns.2) (photoURL ns.2))
         (merge_sort society_le
            (List.filter (fun ns => search_filter searchString [name ns.2; description ns.2])
               (map_to_list (societies st)))))).

(** ** The order is total, and fixes the result *)

#[export] Instance event_le_trans : Transitive event_le.
Proof. intros x y z Hxy Hyz. unfold event_le in *. by trans (event_key y). Qed.

#[export] Instance event_le_total : Total event_le.
Proof. intros x y. unfold event_le. apply total, _. Qed.

(** Two rows of the event table that the order cannot tell apart are
    the same row: the id column decides last. *)
Lemma event_le_antisym_on (m : gmap Z Event) x1 x2 :
  x1 ∈ map_to_list m -> x2 ∈ map_to_list m -> event_le x1 x2 -> event_le x2 x1 -> x1 = x2.
Proof.
  intros H1 H2 H12 H21. unfold event_le in *.
  pose proof (anti_symm _ _ _ H12 H21) as Hk.
  destruct x1 as [i1 e1], x2 as [i2 e2]. unfold event_key in Hk; simpl in Hk. simplify_eq.
  apply elem_of_map_to_list in H1, H2. congruence.
Qed.

Lemma elem_of_list_filter_bool {A} (f : A -> bool) l x : x ∈ List.filter f l -> x ∈ l.
Proof. rewrite !list_elem_of_In, filter_In. tauto. Qed.

(** The event search returns exactly what the database's
    [ORDER BY time, name, description, id] returns: every list that
    holds the matching events, each once, sorted by those columns, is
    the list [getEvents] answers with (before pagination). *)
Theorem getEvents_order st searchString timeStart timeEnd l :
  l ≡ₚ List.filter (fun ie => event_matches searchString timeStart timeEnd ie.2)
         (map_to_list (events st)) ->
  Sorted event_le l ->
  getEvents searchString timeStart timeEnd None None st
    = Done (map (fun ie => event_info ie.1 ie.2) l) st.
Proof.
  intros Hperm Hsorted. unfold getEvents, gets, paginate. do 3 f_equal.
  unfold sorted_events. apply (Sorted_unique_strong event_le).
  - intros x1 x2 Hx1 Hx2. apply (event_le_antisym_on (events st)).
    + apply elem_of_list_filter_bool with (f := fun ie => event_matches searchString timeStart timeEnd ie.2).
      by rewrite <- (merge_sort_Permutation event_le).
    + apply elem_of_list_filter_bool with (f := fun ie => event_matches searchString timeStart timeEnd ie.2).
      by rewrite <- Hperm.
  - apply Sorted_merge_sort, _.
  - done.
  - by rewrite merge_sort_Permutation.
Qed.

(** ** What the event search returns *)

Lemma sorted_events_elem p st ie :
  ie ∈ sorted_events p st <-> events st !! ie.1 = Some ie.2 /\ p ie.2 = true.
Proof.
  unfold sorted_events. rewrite merge_sort_Permutation, list_elem_of_In, filter_In, <- list_elem_of_In.
  destruct ie. by rewrite elem_of_map_to_list.
Qed.

Lemma sorted_events_NoDup p st : NoDup (sorted_events p st).
Proof.
  unfold sorted_events. rewrite merge_sort_Permutation. apply NoDup_ListNoDup, List.NoDup_filter, NoDup_ListNoDup, NoDup_map_to_list.
Qed.

(** The [where] clause, column by column. *)
Lemma event_matches_spec q ts te e :
  event_matches q ts te e = true <->
  (forall t, ts = Some t -> t <= time e) /\ (forall t, te = Some t -> time e <= t) /\
  (forall s, q = Some s -> s <> "" ->
     like_contains (ev_name e) s = true \/ like_contains (ev_description e) s = true \/
     like_contains (location e) s = true).
Proof.
  unfold event_matches, search_filter. rewrite !andb_true_iff.
  destruct q as [s|]; [destruct (String.eqb_spec s "") as [->|Hne]|];
    destruct ts, te; simpl; rewrite ?Z.leb_le, ?orb_false_r, ?orb_true_iff; naive_solver lia.
Qed.

#[export] Instance event_info_inj : Inj (=) (=) (fun ie : Z * Event => event_info ie.1 ie.2).
Proof. intros [i1 [] ] [i2 [] ] H. by injection H as -> -> -> -> -> ->. Qed.

Lemma StronglySorted_map_strict {A B} (R : relation A) (R' : relation B) (f : A -> B) l :
  StronglySorted R l -> NoDup l ->
  (forall x y, x ∈ l -> y ∈ l -> x <> y -> R x y -> R' (f x) (f y)) ->
  StronglySorted R' (map f l).
Proof.
  induction 1 as [|x l Hs IH Hall]; intros Hnd Hf; simpl; constructor.
  - apply NoDup_cons in Hnd as [_ Hnd]. apply IH; [done|]. intros; apply Hf; set_solver.
  - apply NoDup_cons in Hnd as [Hx _]. apply Forall_forall. intros y' Hy'. apply list_elem_of_In, in_map_iff in Hy' as (y & <- & Hy).
    apply list_elem_of_In in Hy. apply Hf; [set_solver|set_solver|set_solver|].
    by eapply Forall_forall in Hall.
Qed.

(** (C36) Without pagination the event search returns each event that
    satisfies the query once: those at or after [timeStart], at or
    before [timeEnd], and, for a non-empty search string, containing it
    (case-insensitively) in their name, description or location; in
    ascending order of time, then name, then description, then id. *)
Theorem getEvents_spec st q ts te :
  exists r, getEvents q ts te None None st = Done r st /\
    (forall i, i ∈ r <->
       exists e, events st !! info_eventId i = Some e /\ i = event_info (info_eventId i) e /\
         (forall t, ts = Some t -> t <= time e) /\ (forall t, te = Some t -> time e <= t) /\
         (forall s, q = Some s -> s <> "" ->
            like_contains (ev_name e) s = true \/ like_contains (ev_description e) s = true \/
            like_contains (location e) s = true)) /\
    NoDup r /\
    StronglySorted (fun x y => info_time x < info_time y \/
      (info_time x = info_time y /\ (str_lt (info_name x) (info_name y) \/
      (info_name x = info_name y /\ (str_lt (info_description x) (info_description y) \/
      (info_description x = info_description y /\ info_eventId x < info_eventId y)))))) r.
Proof.
  set (P := event_matches q ts te).
  exists (map (fun ie => event_info ie.1 ie.2) (sorted_events P st)). split_and!; [reflexivity| | |].
  - intros i. rewrite list_elem_of_In, in_map_iff. split.
    + intros ([eid e] & <- & Hin%list_elem_of_In). apply sorted_events_elem in Hin as [He Hp].
      apply event_matches_spec in Hp as (? & ? & ?). by exists e.
    + intros (e & He & Hi & Hc). exists (info_eventId i, e). split; [done|].
      apply list_elem_of_In, sorted_events_elem. split; [done|]. by apply event_matches_spec.
  - apply (NoDup_fmap_2 _), sorted_events_NoDup.
  - apply (StronglySorted_map_strict event_le); [|apply sorted_events_NoDup|].
    + apply Sorted_StronglySorted; [apply _|]. apply Sorted_merge_sort, _.
    + intros [i1 e1] [i2 e2] H1 H2 Hne Hle. apply sorted_events_elem in H1 as [H1 _], H2 as [H2 _].
      assert (i1 <> i2) by (intros <-; simpl in *; congruence).
      unfold event_le, lex, event_key in Hle; simpl in *.
      destruct Hle as [?|[? [?|[? [?|[? ?]]]]]]; [by left|right..]; (split; [done|]);
        [by left|right; split; [done|]..]; [by left|right; split; [done|lia]].
Qed.

(** Pagination of the event search: page [a..b] then page [b..c] is
    page [a..c]. *)
Theorem getEvents_pages st searchString timeStart timeEnd a b c la lb :
  0 <= a <= b -> b <= c ->
  getEvents searchString timeStart timeEnd (Some a) (Some b) st = Done la st ->
  getEvents searchString timeStart timeEnd (Some b) (Some c) st = Done lb st ->
  getEvents searchString timeStart timeEnd (Some a) (Some c) st = Done (la ++ lb) st.
Proof.
  intros Hab Hbc. unfold getEvents, gets, paginate.
  rewrite !(proj2 (Z.leb_le 0 a)), !(proj2 (Z.leb_le 0 b)), !(proj2 (Z.leb_le 0 c)) by lia.
  simpl. intros [= <-] [= <-]. by rewrite js_slice_app.
Qed.

(** ** Witnesses *)

Definition blitz : Event := mkEvent 1 "Blitz" "Five minute games" 1700000000000 "Library".
Definition simul : Event := mkEvent 1 "Simul" "One against many" 1600000000000 "Hall".

Definition listing_demo : Store :=
  set_events (fun _ => <[1 := blitz]> (<[2 := simul]> ∅)) demo_store.

Lemma getEvents_order_witness :
  getEvents (Some "GAMES") None None None None listing_demo = Done [event_info 1 blitz] listing_demo.
Proof.
  apply (getEvents_order listing_demo (Some "GAMES") None None [(1, blitz)]);
    apply (bool_decide_unpack _); vm_compute; reflexivity.
Defined.
