(* ===== verification/Reset.v ===== *)
(** * Password reset

    [authResetGenerate] and [authResetUse] of src/backend/src/reset.ts.
    The six-character code [customAlphabet(...)()] draws and the salt
    [bcrypt.genSalt()] draws are arguments of the model.  The chain
    [findUniqueOrThrow(...).then(create code; send mail).catch(log)]
    of [authResetGenerate] is not awaited: its writes happen after the
    response, and its failures are only logged; the model runs it
    within the request ([swallow]), which is the store it leaves once
    it has settled.  ResetFlow.v models the chain as a step of its
    own, interleaved with other requests, and the mail it sends.

    The theorems show that the answer of [authResetGenerate] depends on
    the email's syntax only (it does not reveal whether a user has that
    email), that a used code sets the password the next login checks,
    and that a code is not consumed by its use: the specification's
    lifecycle says it is. *)

From S2P Require Import Prelude Validation Store Session Auth.

Open Scope Z_scope.

Section Reset.
Context `{EmailValidator} `{PasswordHasher}.

Definition authResetGenerate (email code : string) : ST Store unit :=
  check (isEmail email) (BadRequest "Invalid email format") ;;;
  swallow (u <- find_or (user_by_email email) record_not_found ;;
           reset_code_create code u.1).

(** [authResetUse]: the [.catch] covers the lookup of the code and the
    update of the password alike. *)
Definition authResetUse (code password salt : string) : ST Store unit :=
  catch_to (uid <- find_or (fun st => resetCodes st !! code) record_not_found ;;
            user_update_password uid (bcrypt_hash password salt))
           (BadRequest "Invalid code").

Lemma authResetGenerate_preserves email code : Preserves wf (authResetGenerate email code).
Proof. unfold authResetGenerate. auto 20 with spark. Qed.

Lemma authResetUse_preserves code password salt : Preserves wf (authResetUse code password salt).
Proof. unfold authResetUse. auto 20 with spark. Qed.

(** [authResetGenerate] answers 400 exactly when the email is
    malformed and otherwise succeeds, whether or not a user has that
    email, so the answer reveals nothing about the user table. *)
Theorem authResetGenerate_no_leak email code st :
  error_of (authResetGenerate email code st) =
    if isEmail email then None else Some (BadRequest "Invalid email format").
Proof.
  unfold authResetGenerate. st_simpl. destruct (isEmail email); simpl; [|done].
  by repeat case_match.
Qed.

Lemma authResetUse_Done st code password salt uid u :
  resetCodes st !! code = Some uid -> users st !! uid = Some u ->
  authResetUse code password salt st =
    Done tt (set_users (insert uid (user_with_password (bcrypt_hash password salt) u)) st).
Proof.
  intros Hc Hu. unfold authResetUse. st_simpl. rewrite Hc. unfold user_update_password.
  by rewrite Hu.
Qed.

(** A reset code stays valid after its use: the same code resets
    the password a second time, to a new one, where the specification
    describes a code as consumed by its use. *)
Theorem authResetUse_reusable st code p1 p2 s1 s2 uid u :
  resetCodes st !! code = Some uid -> users st !! uid = Some u ->
  exists st1 st2, authResetUse code p1 s1 st = Done tt st1 /\
    authResetUse code p2 s2 st1 = Done tt st2 /\
    exists u2, users st2 !! uid = Some u2 /\ password u2 = bcrypt_hash p2 s2.
Proof.
  intros Hc Hu. rewrite (authResetUse_Done _ _ _ _ _ _ Hc Hu).
  eexists _, _. split; [reflexivity|].
  rewrite (authResetUse_Done _ _ _ _ uid (user_with_password (bcrypt_hash p1 s1) u)); simpl.
  - split; [reflexivity|]. eexists. split; [apply lookup_insert_eq|done].
  - done.
  - by rewrite lookup_insert_eq.
Qed.

(** A used reset code sets the password that login checks: after
    [authResetUse code p], logging in with the user's email and [p]
    creates a session of that user. *)
Lemma authResetUse_login st code p salt uid u st1 :
  wf st -> resetCodes st !! code = Some uid -> users st !! uid = Some u ->
  authResetUse code p salt st = Done tt st1 ->
  exists tok st2, authLogin (email u) p st1 = Done tok st2 /\
    validateSession tok st2 = Done (uid, user_with_password (bcrypt_hash p salt) u) st2.
Proof.
  intros Hwf Hc Hu Hrun. rewrite (authResetUse_Done _ _ _ _ _ _ Hc Hu) in Hrun.
  injection Hrun as <-. set (u' := user_with_password (bcrypt_hash p salt) u).
  assert (Hwf1 : wf (set_users (insert uid u') st)).
  { pose proof (user_update_password_preserves uid (bcrypt_hash p salt) st Hwf) as Hp.
    unfold user_update_password in Hp. by rewrite Hu in Hp. }
  assert (Hu1 : users (set_users (insert uid u') st) !! uid = Some u') by apply lookup_insert_eq.
  unfold authLogin. st_simpl. change (email u) with (email u').
  rewrite (user_by_email_unique _ _ _ Hwf1 Hu1). simpl. rewrite bcrypt_compare_hash.
  destruct (session_create uid _) as [tok st2|e st2] eqn:Hs.
  - exists tok, st2. split; [done|].
    exact (session_create_validates (set_users (insert uid u') st) uid u' tok st2 Hu1 Hs).
  - unfold session_create in Hs. rewrite bool_decide_eq_true_2 in Hs; [done|].
    exists u'. exact Hu1.
Qed.
End Reset.

(** ** Witnesses *)

Definition reset_demo : Store := set_resetCodes (insert "K7Q2ZD" 2) demo_store.

Lemma authResetUse_reusable_witness :
  exists st1 st2, authResetUse "K7Q2ZD" "new1" "s1" reset_demo = Done tt st1 /\
    authResetUse "K7Q2ZD" "new2" "s2" st1 = Done tt st2 /\
    exists u2, users st2 !! 2 = Some u2 /\ password u2 = bcrypt_hash "new2" "s2".
Proof.
  apply (authResetUse_reusable reset_demo "K7Q2ZD" "new1" "new2" "s1" "s2" 2
           (mkUser "bob@unsw.edu" "bob" "ross" "hash:pw2" "z2222222" false)); reflexivity.
Defined.
