(* ===== verification/Profile.v ===== *)
(** * Profiles

    The handlers of src/backend/src/profile.ts: [profileView],
    [profileEdit], [profileEvents] and [profileSocieties], with
    [webcalPath] of utils.ts.  Rows that [findMany] returns without an
    [orderBy] come in the table's order, here the order of the map.

    The theorems show what a profile lists (exactly the societies the
    user administers or moderates) and what an edit writes: the email
    as given, neither lower-cased nor checked to be an email, and the
    names unchecked, so an edit can give two accounts the same email up
    to case, against the specification's case-normalised unique email. *)

From S2P Require Import Prelude Validation Store Session Society Event.

Open Scope Z_scope.

(** [`/calendar/${zId}.ics`] *)
Definition webcalPath (zId : string) : string := "/calendar/" +:+ zId +:+ ".ics".

Record UserProfile := mkUserProfile {
  prof_userId : Z;
  prof_email : string;
  prof_nameFirst : string;
  prof_nameLast : string;
  prof_zId : string;
  prof_adminSocieties : list Z;
  prof_modSocieties : list Z;
  prof_isSiteAdmin : bool;
  prof_webcal : string
}.

(** [prisma.societyMember.findMany({ where: { userId, role }, select:
    { societyId: true } })).map((obj) => obj.societyId)] *)
Definition societies_with_role (uid : Z) (role : string) (st : Store) : list Z :=
  map (fun kv => kv.1.2)
    (List.filter (fun kv => bool_decide (kv.1.1 = uid) && String.eqb kv.2 role)
       (map_to_list (members st))).

Definition profileView (token : string) : ST Store UserProfile :=
  s <- validateSession token ;;
  let '(uid, user) := s in
  adminSocieties <- gets (societies_with_role uid "admin") ;;
  modSocieties <- gets (societies_with_role uid "moderator") ;;
  ret (mkUserProfile uid (email user) (nameFirst user) (nameLast user) (zId user)
         adminSocieties modSocieties (isAdmin user) (webcalPath (zId user))).

(** [profileEdit]: the update's failure, a unique violation on the
    email, becomes a 400; the edited profile is then read back. *)
Definition profileEdit (token nameFirst nameLast email : string) : ST Store UserProfile :=
  s <- validateSession token ;;
  catch_to (user_update_profile s.1 nameFirst nameLast email)
    (BadRequest "Invalid email address") ;;;
  profileView token.

(** The events of the user's rows of an attendance table, as
    [{ ...a.event, eventId: a.event.id }] without the [id] field. *)
Definition events_of (rows : gset (Z * Z)) (uid : Z) (st : Store) : list EventInfo :=
  omap (fun k => if bool_decide (k.1 = uid) then event_info k.2 <$> events st !! k.2 else None)
    (elements rows).

Definition profileEvents (token : string) : ST Store (list EventInfo * list EventInfo) :=
  s <- validateSession token ;;
  gets (fun st => (events_of (attending st) s.1 st, events_of (attended st) s.1 st)).

(** [user.societies.map((s) => ...)]: the user's memberships with their
    society, as [{ societyId, societyName, description, photoURL }]. *)
Definition profileSocieties (token : string) : ST Store (list SocietyInfo) :=
  s <- validateSession token ;;
  gets (fun st =>
    omap (fun kv => if bool_decide (kv.1.1 = s.1)
                    then (fun soc => mkSocietyInfo kv.1.2 (name soc) (description soc) (photoURL soc))
                           <$> societies st !! kv.1.2
                    else None)
      (map_to_list (members st))).

(** ** Invariants *)

Lemma profileView_read_only token : ReadOnly (profileView token).
Proof. unfold profileView. apply read_only_bind; [auto with spark|]. intros [uid u]. auto with spark. Qed.

#[export] Hint Resolve profileView_read_only : spark.

Lemma profileEdit_preserves token nf nl e : Preserves wf (profileEdit token nf nl e).
Proof. unfold profileEdit. auto 20 with spark. Qed.

Lemma profileEdit_ev_wf token nf nl e : Preserves ev_wf (profileEdit token nf nl e).
Proof. unfold profileEdit. auto 20 with spark. Qed.

#[export] Hint Resolve profileEdit_preserves profileEdit_ev_wf : spark.

(** ** What a profile lists *)

Lemma societies_with_role_spec uid role st sid :
  sid ∈ societies_with_role uid role st <-> members st !! (uid, sid) = Some role.
Proof.
  unfold societies_with_role. rewrite list_elem_of_fmap. split.
  - intros [[[u s] r] [-> Hin]]. apply list_elem_of_In, filter_In in Hin as [Hin Hb].
    apply list_elem_of_In, elem_of_map_to_list in Hin. simpl in *.
    apply andb_prop in Hb as [Hu%bool_decide_eq_true Hr%String.eqb_eq]. by subst.
  - intros Hm. exists ((uid, sid), role). split; [done|].
    apply list_elem_of_In, filter_In. split.
    + by apply list_elem_of_In, elem_of_map_to_list.
    + simpl. by rewrite bool_decide_eq_true_2, String.eqb_refl.
Qed.

(** A profile lists exactly the societies the user administers
    and exactly those it moderates, and the user's own row. *)
Theorem profileView_spec st token uid u :
  sessions st !! token = Some uid -> users st !! uid = Some u ->
  exists p, profileView token st = Done p st /\
    prof_userId p = uid /\ prof_email p = email u /\ prof_isSiteAdmin p = isAdmin u /\
    prof_webcal p = webcalPath (zId u) /\
    (forall sid, sid ∈ prof_adminSocieties p <-> members st !! (uid, sid) = Some "admin") /\
    (forall sid, sid ∈ prof_modSocieties p <-> members st !! (uid, sid) = Some "moderator").
Proof.
  intros Hs Hu. unfold profileView. rewrite validateSession_bind, Hs, Hu. st_simpl.
  eexists. split; [reflexivity|]. simpl. split_and!; try done; intros sid; apply societies_with_role_spec.
Qed.

(** [profileEdit] writes the email exactly as given: not
    lower-cased and not checked to be an email (only another user's
    identical email is refused), with the names unchecked too. *)
Theorem profileEdit_stores_verbatim st token uid u nf nl e :
  wf st -> sessions st !! token = Some uid -> users st !! uid = Some u ->
  (forall j w, users st !! j = Some w -> email w = e -> j = uid) ->
  exists p st', profileEdit token nf nl e st = Done p st' /\
    users st' !! uid = Some (user_with_profile nf nl e u) /\ prof_email p = e.
Proof.
  intros Hwf Hs Hu Hother. unfold profileEdit. rewrite validateSession_bind, Hs, Hu.
  assert (Hupd : user_update_profile uid nf nl e st =
                 Done tt (set_users (insert uid (user_with_profile nf nl e u)) st)).
  { unfold user_update_profile. rewrite Hu.
    destruct (user_by_email e st) as [[j w]|] eqn:Hj; [|done].
    apply user_by_email_Some in Hj as [Hj He]. by rewrite (Hother j w Hj He), bool_decide_eq_true_2. }
  st_simpl. rewrite Hupd. simpl. unfold profileView. rewrite validateSession_bind. simpl.
  rewrite Hs, lookup_insert_eq. st_simpl. do 2 eexists. split; [reflexivity|].
  split; [apply lookup_insert_eq|done].
Qed.

(** The events [profileEvents] lists from an attendance table: one
    per row of the user whose event exists. *)
Lemma events_of_elem rows uid st ev :
  ev ∈ events_of rows uid st <->
  exists eid e, (uid, eid) ∈ rows /\ events st !! eid = Some e /\ ev = event_info eid e.
Proof.
  unfold events_of. rewrite list_elem_of_omap. split.
  - intros ([i eid] & Hin & Hk). simpl in Hk. case_bool_decide as Hi; [|done]. subst i.
    destruct (events st !! eid) as [e|] eqn:E; [|done]. injection Hk as <-.
    exists eid, e. split_and!; [by apply elem_of_elements|done|done].
  - intros (eid & e & Hin & He & ->). exists (uid, eid). split; [by apply elem_of_elements|].
    simpl. rewrite bool_decide_true by done. by rewrite He.
Qed.

Lemma profileEvents_Done st token uid u :
  sessions st !! token = Some uid -> users st !! uid = Some u ->
  profileEvents token st = Done (events_of (attending st) uid st, events_of (attended st) uid st) st.
Proof. intros Hs Hu. unfold profileEvents. rewrite validateSession_bind, Hs, Hu. by st_simpl. Qed.

(** ** The calendar file *)

(** One [calendar.createEvent({ start, end, summary, description,
    location })]. *)
Record CalEvent := mkCalEvent {
  cal_start : Z;
  cal_end : Z;
  cal_summary : string;
  cal_description : string;
  cal_location : string
}.

(** [endTime.setHours(startTime.getHours() + 1)]: one hour later (the
    server's clock has no daylight-saving jump in the model). *)
Definition one_hour : Z := 3600000.

Definition cal_event (e : Event) (soc : Society) : CalEvent :=
  mkCalEvent (time e) (time e + one_hour) (ev_name e)
    (name soc +:+ ":" +:+ newline +:+ " " +:+ ev_description e) (location e).

(** [generateICal(userId)]: the file [./cals/<zId>.ics] and the
    calendar it holds, named [<zId>'s Events], one entry per event the
    user attends; [None] when the user is gone (the handlers do not
    await it, so its [TypeError] never reaches a response). *)
Definition generateICal (uid : Z) (st : Store) : option (string * string * list CalEvent) :=
  match users st !! uid with
  | None => None
  | Some u =>
      Some ("./cals/" +:+ zId u +:+ ".ics", zId u +:+ "'s Events",
            omap (fun k => if bool_decide (k.1 = uid)
                           then e ← events st !! k.2; soc ← societies st !! ev_societyId e;
                                Some (cal_event e soc)
                           else None)
              (elements (attending st)))
  end.

Fixpoint strip_prefix (p s : string) : option string :=
  match p, s with
  | EmptyString, _ => Some s
  | String a p', String b s' => if Ascii.eqb a b then strip_prefix p' s' else None
  | String _ _, EmptyString => None
  end.

Lemma strip_prefix_app p s : strip_prefix p (p +:+ s) = Some s.
Proof. induction p as [|a p IH]; simpl; [done|]. by rewrite Ascii.eqb_refl. Qed.

(** [app.use('/calendar', express.static('cals'))] (app.ts) serves the
    path [/calendar/<f>] from the file [./cals/<f>]. *)
Definition static_calendar_file (path : string) : option string :=
  (fun f => "./cals/" +:+ f) <$> strip_prefix "/calendar/" path.

(** The profile's calendar link is served from the file [generateICal]
    writes for that user. *)
Lemma webcal_serves_generated_file st uid u :
  users st !! uid = Some u ->
  exists f name evs, generateICal uid st = Some (f, name, evs) /\
    static_calendar_file (webcalPath (zId u)) = Some f.
Proof.
  intros Hu. unfold generateICal. rewrite Hu. do 3 eexists. split; [reflexivity|].
  unfold static_calendar_file, webcalPath. by rewrite strip_prefix_app.
Qed.

(** The calendar of a user holds one entry for each event the user
    attends, and nothing else. *)
Lemma generateICal_entries st uid u c :
  ev_wf st -> users st !! uid = Some u ->
  exists f n evs, generateICal uid st = Some (f, n, evs) /\
    (c ∈ evs <-> exists eid e soc, (uid, eid) ∈ attending st /\ events st !! eid = Some e /\
                                societies st !! ev_societyId e = Some soc /\ c = cal_event e soc).
Proof.
  intros Hinv Hu. unfold generateICal. rewrite Hu. do 3 eexists. split; [reflexivity|].
  rewrite list_elem_of_omap. split.
  - intros [[i eid] [Hin Hc]]. apply elem_of_elements in Hin. simpl in Hc.
    case_bool_decide; [subst i|done].
    destruct (events st !! eid) as [e|] eqn:He; [|done]. simpl in Hc.
    destruct (societies st !! _) as [soc|] eqn:Hso; [|done]. simpl in Hc. injection Hc as <-.
    eauto 10.
  - intros (eid & e & soc & Hin & He & Hso & ->). exists (uid, eid).
    split; [by apply elem_of_elements|]. simpl. rewrite bool_decide_eq_true_2 by done.
    by rewrite He; simpl; rewrite Hso.
Qed.

(** ** Findings *)

(** Editing a profile can give two accounts the same email up to
    case: bob takes "ADA@unsw.edu" while ada holds "ada@unsw.edu". *)
Theorem profileEdit_case_duplicate :
  exists p st', profileEdit "tok2" "bob" "ross" "ADA@unsw.edu" demo_store = Done p st' /\
    exists u1 u2, users st' !! 1 = Some u1 /\ users st' !! 2 = Some u2 /\
      toLowerCase (email u1) = toLowerCase (email u2).
Proof. do 2 eexists. split; [reflexivity|]. do 2 eexists. split_and!; reflexivity. Qed.

(** ** Witnesses *)

Lemma profileView_spec_witness :
  exists p, profileView "tok2" demo_store = Done p demo_store /\
    prof_userId p = 2 /\ prof_email p = "bob@unsw.edu" /\ prof_isSiteAdmin p = false /\
    prof_webcal p = webcalPath "z2222222" /\
    (forall sid, sid ∈ prof_adminSocieties p <-> members demo_store !! (2, sid) = Some "admin") /\
    (forall sid, sid ∈ prof_modSocieties p <-> members demo_store !! (2, sid) = Some "moderator").
Proof.
  apply (profileView_spec demo_store "tok2" 2
           (mkUser "bob@unsw.edu" "bob" "ross" "hash:pw2" "z2222222" false)); reflexivity.
Defined.

Lemma profileEdit_stores_verbatim_witness :
  exists p st', profileEdit "tok2" "Bob" "R0ss" "not an email" demo_store = Done p st' /\
    users st' !! 2 = Some (user_with_profile "Bob" "R0ss" "not an email"
                             (mkUser "bob@unsw.edu" "bob" "ross" "hash:pw2" "z2222222" false)) /\
    prof_email p = "not an email".
Proof.
  apply (profileEdit_stores_verbatim demo_store "tok2" 2
           (mkUser "bob@unsw.edu" "bob" "ross" "hash:pw2" "z2222222" false)); try reflexivity.
  - apply wfb_wf. vm_compute. reflexivity.
  - change (map_Forall (fun j w => email w = "not an email" -> j = 2) (users demo_store)).
    apply (bool_decide_unpack _). vm_compute. reflexivity.
Defined.
