(* ===== verification/System.v ===== *)
(** * The whole backend as a state machine

    Every route of src/backend/src/app.ts is one constructor of
    [Request] (grouped as app.ts groups its routes), carrying the body or query fields the
    route passes to its handler; [handle] dispatches a request to the
    handler the route calls and wraps its JSON result in [Response].
    Requests are served one at a time (the specification's
    single-writer model), so the backend is the transition system
    [state_of (handle req st)] over stores, and [reachable] is the set of
    stores some sequence of requests produces from the empty database.

    The theorems proved by induction on [reachable] hold of every store
    the running server can be in: the invariants [wf] and [ev_wf], and
    the rule that the site-admin flag is only ever set by registration
    into an empty user table or by a site admin's allocation.  Two
    behaviours the specification does not describe: in any store whose
    only user is a site admin, the first-user rule fires again once that
    admin removes itself ([first_user_rule_rearms]); and, on a concrete
    run, approving the second of two applications with the same name
    fails with an uncaught 500. *)

From S2P Require Import Prelude Validation Store Session Auth Perm Admin Society Event Listing Reset Profile.

Open Scope Z_scope.

(** The routes, grouped as app.ts groups them.  Each constructor
    carries the [req.body] or [req.query] fields its route reads, after
    the route's conversions ([parseInt], [new Date]); the random draws
    of a handler (a reset code, a bcrypt salt) and the clock of
    [societyEvents] are fields too. *)
Inductive AuthRequest :=
| RRegister (userReg : UserRegister) (salt : string)
| RLogin (email password : string)
| RLogout (token : string)
| RResetGenerate (email code : string)
| RResetUse (code password salt : string).

Inductive PermRequest :=
| RPermSite (token : string) (userId permLevel : Z)
| RPermSociety (token : string) (userId societyId permLevel : Z).

Inductive AdminRequest :=
| RAdminGetUserByZid (zId : string)
| RAdminApprove (token : string) (applicationId : Z)
| RAdminDeny (token : string) (applicationId : Z)
| RAdminUsers (token : string)
| RAdminApplicationList (token : string)
| RAdminUserRemove (token : string) (userId : Z).

Inductive SocietyRequest :=
| RSocietyApply (token societyName description : string)
| RSocietyJoin (token : string) (societyId : Z)
| RSocietyView (societyId : Z)
| RSocietyMembers (societyId : Z)
| RSocietyEdit (token : string) (societyId : Z) (societyName description : string)
| RSocietyEvents (societyId now : Z)
| RSocietyDelete (token : string) (societyId : Z)
| RSocietyList (searchString : option string) (paginationStart paginationEnd : option Z).

Inductive ProfileRequest :=
| RProfileView (token : string)
| RProfileEdit (token nameFirst nameLast email : string)
| RProfileSocieties (token : string)
| RProfileEvents (token : string).

Inductive EventRequest :=
| REventGet (eventId : Z)
| REventCreate (token : string) (societyId : Z) (name description : string) (time : Z)
    (location : string)
| REventEdit (token : string) (eventId : Z) (name description : string) (time : Z)
    (location : string)
| REventDelete (token : string) (eventId : Z)
| REventAttend (token : string) (eventId : Z)
| REventUnattend (token : string) (eventId : Z)
| REventStatus (token : string) (eventId : Z)
| REventList (searchString : option string) (timeStart timeEnd : option Z)
    (paginationStart paginationEnd : option Z)
| REventForm (eventId : Z) (nameFirst nameLast zId email : string)
| REventCSV (token : string) (eventId : Z).

Inductive Request :=
| RAuth (r : AuthRequest)
| RPerm (r : PermRequest)
| RAdmin (r : AdminRequest)
| RSociety (r : SocietyRequest)
| RProfile (r : ProfileRequest)
| REvent (r : EventRequest)
| RClear.

Inductive Response :=
| RespToken (token : string)
| RespEmpty
| RespUser (u : UserInfo)
| RespUsers (us : list UserInfo)
| RespSocietyId (societyId : Z)
| RespApplicationId (applicationId : Z)
| RespApplications (apps : list ApplicationInfo)
| RespSociety (soc : SocietyInfo)
| RespMembers (ms : list SocMember)
| RespEvents (evs : list EventInfo)
| RespSocieties (socs : list SocietyInfo)
| RespProfile (p : UserProfile)
| RespProfileEvents (attending attended : list EventInfo)
| RespEvent (ev : EventInfo)
| RespEventId (eventId : Z)
| RespAttending (attending : bool).

(** [clear] of data.ts: [deleteMany] on every model.  The
    auto-increment counters of SQLite are not reset. *)
Definition clear : ST Store unit :=
  fun st => Done tt (mkStore ∅ ∅ ∅ ∅ ∅ ∅ ∅ ∅ ∅ ∅
                       (next_user st) (next_society st) (next_application st) (next_event st)).

Section System.
Context `{EmailValidator} `{PasswordHasher}.

Definition respond {A} (c : ST Store A) (f : A -> Response) : ST Store Response :=
  a <- c ;; ret (f a).

Definition handle_auth (r : AuthRequest) : ST Store Response :=
  match r with
  | RRegister u salt => respond (authRegister u salt) RespToken
  | RLogin e p => respond (authLogin e p) RespToken
  | RLogout t => respond (authLogout t) (fun _ => RespEmpty)
  | RResetGenerate e c => respond (authResetGenerate e c) (fun _ => RespEmpty)
  | RResetUse c p salt => respond (authResetUse c p salt) (fun _ => RespEmpty)
  end.

Definition handle_perm (r : PermRequest) : ST Store Response :=
  match r with
  | RPermSite t u l => respond (permSiteAllocate t u l) (fun _ => RespEmpty)
  | RPermSociety t u s l => respond (permSocietyAllocate t u s l) (fun _ => RespEmpty)
  end.

Definition handle_admin (r : AdminRequest) : ST Store Response :=
  match r with
  | RAdminGetUserByZid z => respond (adminGetUserByZid z) RespUser
  | RAdminApprove t a => respond (adminApplicationApprove t a) RespSocietyId
  | RAdminDeny t a => respond (adminApplicationDeny t a) (fun _ => RespEmpty)
  | RAdminUsers t => respond (adminGetUsers t) RespUsers
  | RAdminApplicationList t => respond (adminApplicationList t) RespApplications
  | RAdminUserRemove t u => respond (adminUserRemove t u) (fun _ => RespEmpty)
  end.

Definition handle_society (r : SocietyRequest) : ST Store Response :=
  match r with
  | RSocietyApply t n d => respond (societyApply t n d) RespApplicationId
  | RSocietyJoin t s => respond (societyJoin t s) (fun _ => RespEmpty)
  | RSocietyView s => respond (societyView s) RespSociety
  | RSocietyMembers s => respond (societyMembers s) RespMembers
  | RSocietyEdit t s n d => respond (societyEdit t s n d) (fun _ => RespEmpty)
  | RSocietyEvents s now => respond (societyEvents s now) RespEvents
  | RSocietyDelete t s => respond (societyDelete t s) (fun _ => RespEmpty)
  | RSocietyList q a b => respond (societyList q a b) RespSocieties
  end.

Definition handle_profile (r : ProfileRequest) : ST Store Response :=
  match r with
  | RProfileView t => respond (profileView t) RespProfile
  | RProfileEdit t nf nl e => respond (profileEdit t nf nl e) RespProfile
  | RProfileSocieties t => respond (profileSocieties t) RespSocieties
  | RProfileEvents t => respond (profileEvents t) (fun r => RespProfileEvents r.1 r.2)
  end.

Definition handle_event (r : EventRequest) : ST Store Response :=
  match r with
  | REventGet e => respond (getEvent e) RespEvent
  | REventCreate t s n d tm l => respond (createEvent t s n d tm l) RespEventId
  | REventEdit t e n d tm l => respond (editEvent t e n d tm l) (fun _ => RespEmpty)
  | REventDelete t e => respond (deleteEvent t e) (fun _ => RespEmpty)
  | REventAttend t e => respond (attendEvent t e) (fun _ => RespEmpty)
  | REventUnattend t e => respond (unattendEvent t e) (fun _ => RespEmpty)
  | REventStatus t e => respond (eventStatus t e) RespAttending
  | REventList q ts te a b => respond (getEvents q ts te a b) RespEvents
  | REventForm e nf nl z em => respond (fillForm e nf nl z em) (fun _ => RespEmpty)
  | REventCSV t e => respond (generateCSV t e) (fun _ => RespEmpty)
  end.

Definition handle (req : Request) : ST Store Response :=
  match req with
  | RAuth r => handle_auth r
  | RPerm r => handle_perm r
  | RAdmin r => handle_admin r
  | RSociety r => handle_society r
  | RProfile r => handle_profile r
  | REvent r => handle_event r
  | RClear => respond clear (fun _ => RespEmpty)
  end.

(** One request served: the store after it, whether it succeeded or
    failed. *)
Inductive step : Store -> Request -> Store -> Prop :=
| step_serve st req : step st req (state_of (handle req st)).

(** The stores the server can reach from an empty database. *)
Inductive reachable : Store -> Prop :=
| reachable_init : reachable empty_store
| reachable_step st req st' : reachable st -> step st req st' -> reachable st'.

Lemma respond_preserves {A} (I : Store -> Prop) (c : ST Store A) f :
  Preserves I c -> Preserves I (respond c f).
Proof. unfold respond. auto with spark. Qed.

#[local] Hint Resolve respond_preserves : spark.

Lemma clear_preserves : Preserves wf clear.
Proof.
  intros st [_ _ _ _ _ _ _ _ _ Hc].
  constructor; simpl; try apply map_Forall_empty; auto using unique_on_empty.
Qed.

Lemma clear_ev_wf : Preserves ev_wf clear.
Proof. intros st [_ _ _ Hc]. by constructor. Qed.

#[local] Hint Resolve clear_ev_wf authResetGenerate_preserves
  authResetUse_preserves authRegister_preserves authLogin_preserves : spark.

Ltac handler_preserves :=
  unfold authRegister, authLogin, authLogout, permSiteAllocate, permSocietyAllocate,
    adminGetUserByZid, adminApplicationApprove, adminApplicationDeny, adminGetUsers,
    adminApplicationList, adminUserRemove, societyApply, societyJoin, societyView,
    societyMembers, societyEdit, societyDelete, validateSocietyName, societyEvents, societyList,
    authResetGenerate, authResetUse, profileView, profileEdit, profileSocieties, profileEvents,
    getEvents;
  preserves_tac.

Lemma handle_preserves req : Preserves wf (handle req).
Proof.
  destruct req as [[]|[]|[]|[]|[]|[]|]; apply respond_preserves; [handler_preserves..|apply clear_preserves].
Qed.

Lemma handle_ev_wf req : Preserves ev_wf (handle req).
Proof. destruct req as [[]|[]|[]|[]|[]|[]|]; apply respond_preserves; handler_preserves. Qed.

(** (C4) Every store the server can reach is well formed: sessions,
    memberships, events and attendance rows point to existing rows,
    roles and statuses are valid, emails, zIds and society names are
    unique and ids are below their counters. *)
Theorem reachable_wf st : reachable st -> wf st /\ ev_wf st.
Proof.
  induction 1 as [|st req st' _ [IH IHev] Hstep]; [split; [apply wf_empty|apply ev_wf_empty]|].
  inversion Hstep; subst. split; [by apply handle_preserves|by apply handle_ev_wf].
Qed.

(** ** Where the site-admin flag comes from *)

(** The requests whose handlers can set a user's site-admin flag. *)
Definition raises_flag (req : Request) : bool :=
  match req with
  | RAuth (RRegister _ _) | RPerm (RPermSite _ _ _) => true
  | _ => false
  end.

Lemma respond_state {A} (c : ST Store A) f st : state_of (respond c f st) = state_of (c st).
Proof. unfold respond, st_bind. by destruct (c st). Qed.

Lemma clear_no_raise : NoRaise clear.
Proof. intros F st HF i. unfold admin_flag. simpl. by rewrite lookup_empty. Qed.

#[local] Hint Resolve clear_no_raise : spark.

(** Every other request, whatever it does to the user table (remove a
    user, reset a password, edit a profile, clear the database), sets
    no flag. *)
Lemma handle_no_raise req : raises_flag req = false -> NoRaise (handle req).
Proof.
  intros Hr F. destruct req as [[]|[]|[]|[]|[]|[]|]; try discriminate; apply respond_preserves;
    handler_preserves.
Qed.

(** (C3) Privilege escalation: a request can make a user a site admin
    only by registering the first user into an empty user table, or by
    a site admin's [permSiteAllocate] with level 1 for that user; no
    other request, and no caller without the flag, sets it. *)
Theorem admin_flag_origin st req st' i :
  step st req st' -> admin_flag st' i = true ->
  admin_flag st i = true \/
  (users st = ∅ /\ exists r salt, req = RAuth (RRegister r salt)) \/
  (exists tok actor au, req = RPerm (RPermSite tok i 1) /\ sessions st !! tok = Some actor /\
                        users st !! actor = Some au /\ isAdmin au = true).
Proof.
  intros Hstep Hflag. inversion Hstep as [st0 req0]; subst.
  destruct (raises_flag req) eqn:Hr.
  2: { left. exact (handle_no_raise req Hr (admin_flag st) st (fun j H => H) i Hflag). }
  destruct req as [[]|[]|[]|[]|[]|[]|]; try discriminate; simpl in Hflag; rewrite respond_state in Hflag;
    unfold admin_flag in *.
  - destruct (authRegister_users userReg salt st) as [E|E]; rewrite E in Hflag; [by left|].
    destruct (decide (i = next_user st)) as [->|Hne].
    + rewrite lookup_insert_eq in Hflag. simpl in Hflag.
      right; left. split; [by apply firstUser_spec|eauto].
    + rewrite lookup_insert_ne in Hflag by congruence. by left.
  - destruct (permSiteAllocate_users token userId permLevel st)
      as [E|(actor & au & u & Hs & Hau & Ha & Hu & E)]; rewrite E in Hflag; [by left|].
    destruct (decide (i = userId)) as [->|Hne].
    + rewrite lookup_insert_eq in Hflag. simpl in Hflag. apply Z.eqb_eq in Hflag as ->.
      right; right. eauto 10.
    + rewrite lookup_insert_ne in Hflag by congruence. by left.
Qed.

(** ** The first-user rule re-arms *)

(** Removing the only user empties the user table. *)
Lemma adminUserRemove_last st tok a au :
  users st = {[a := au]} -> sessions st !! tok = Some a -> isAdmin au = true ->
  exists st2, handle (RAdmin (RAdminUserRemove tok a)) st = Done RespEmpty st2 /\
              users st2 = ∅ /\ next_user st2 = next_user st.
Proof.
  intros Hu Hs Ha. assert (Hua : users st !! a = Some au) by (rewrite Hu; apply lookup_singleton_eq).
  simpl. unfold respond, adminUserRemove, validateSession. st_simpl. rewrite Hs, Hua. st_simpl.
  rewrite Hua. st_simpl. rewrite Ha. st_simpl. unfold user_delete. rewrite Hua.
  eexists. split; [reflexivity|]. simpl. split; [|done]. rewrite Hu. apply delete_singleton_eq.
Qed.

Lemma find_user_by_no_users p st : users st = ∅ -> find_user_by p st = None.
Proof. unfold find_user_by, map_find. intros ->. by rewrite map_to_list_empty. Qed.

(** (C34) The first-user rule is not "the first user ever created": in
    any well-formed store whose only user is a site admin, once that
    admin removes itself the next registration with valid names, zId and
    email is made a site admin, although its id is not the first one the
    table issued. *)
Theorem first_user_rule_rearms st tok a au userReg salt :
  wf st -> users st = {[a := au]} -> sessions st !! tok = Some a -> isAdmin au = true ->
  nameRegex (reg_nameFirst userReg) = true -> nameRegex (reg_nameLast userReg) = true ->
  zIdRegex (reg_zId userReg) = true -> isEmail (toLowerCase (reg_email userReg)) = true ->
  exists st2 t st3,
    handle (RAdmin (RAdminUserRemove tok a)) st = Done RespEmpty st2 /\
    handle (RAuth (RRegister userReg salt)) st2 = Done (RespToken t) st3 /\
    a < next_user st2 /\ admin_flag st3 (next_user st2) = true.
Proof.
  intros Hwf Hu Hs Ha H1 H2 H3 H4.
  destruct (adminUserRemove_last st tok a au Hu Hs Ha) as (st2 & Hrm & Hu2 & Hn2).
  destruct (authRegister_run userReg salt st2) as (t & st3 & Hr & Hu3 & _).
  { unfold register_checks, user_by_zId, user_by_email. rewrite !find_user_by_no_users by done.
    split_and!; done. }
  exists st2, t, st3. split_and!; [done| | |].
  - simpl. unfold respond. by rewrite (bind_Done _ _ _ _ _ Hr).
  - rewrite Hn2. apply (wf_user_ids st Hwf a au). rewrite Hu. apply lookup_singleton_eq.
  - unfold admin_flag. rewrite Hu3, lookup_insert_eq. simpl. by apply firstUser_spec.
Qed.
End System.

(** ** Findings on a concrete run, with the demo email validator and hasher *)

(** Two applications may carry the same society name, since
    [societyApply] checks only existing societies; approving the second
    one then fails on the society table's unique name with an uncaught
    ORM error, a 500, instead of a 400. *)
Theorem duplicate_application_approval_500 :
  exists aid st1 st2,
    handle (RSociety (RSocietyApply "tok3" "Go Club" "again")) demo_store
      = Done (RespApplicationId aid) st1 /\
    handle (RAdmin (RAdminApprove "tok1" 1)) st1 = Done (RespSocietyId 2) st2 /\
    handle (RAdmin (RAdminApprove "tok1" aid)) st2 = Fail unique_violation st2 /\
    status_code unique_violation = 500.
Proof. do 3 eexists. repeat (split; [reflexivity|]). reflexivity. Qed.

(** ** Witnesses *)

Lemma reachable_wf_witness :
  let st := state_of (handle (RAuth (RRegister
                 (mkUserRegister "ada@unsw.edu" "Ada" "Lovelace" "pw" "z1111111") "s")) empty_store) in
  wf st /\ ev_wf st.
Proof.
  apply reachable_wf. econstructor; [apply reachable_init|]. constructor.
Defined.

Lemma admin_flag_origin_witness :
  admin_flag demo_store 2 = true \/
  (users demo_store = ∅ /\ exists r salt, RPerm (RPermSite "tok1" 2 1) = RAuth (RRegister r salt)) \/
  (exists tok actor au, RPerm (RPermSite "tok1" 2 1) = RPerm (RPermSite tok 2 1) /\
     sessions demo_store !! tok = Some actor /\ users demo_store !! actor = Some au /\ isAdmin au = true).
Proof.
  apply (admin_flag_origin demo_store (RPerm (RPermSite "tok1" 2 1))
           (state_of (handle (RPerm (RPermSite "tok1" 2 1)) demo_store)) 2); [constructor|reflexivity].
Defined.

(** The store after a first registration, with its token. *)
Definition ada_registration : UserRegister :=
  mkUserRegister "ada@unsw.edu" "Ada" "Lovelace" "pw" "z1111111".

Definition ada_store : Store := state_of (handle (RAuth (RRegister ada_registration "s")) empty_store).

Definition ada_token : string :=
  match handle (RAuth (RRegister ada_registration "s")) empty_store with
  | Done (RespToken t) _ => t
  | _ => ""
  end.

Lemma first_user_rule_rearms_witness :
  exists st2 t st3,
    handle (RAdmin (RAdminUserRemove ada_token 1)) ada_store = Done RespEmpty st2 /\
    handle (RAuth (RRegister (mkUserRegister "bob@unsw.edu" "Bob" "Ross" "pw" "z2222222") "s")) st2
      = Done (RespToken t) st3 /\
    1 < next_user st2 /\ admin_flag st3 (next_user st2) = true.
Proof.
  apply (first_user_rule_rearms ada_store ada_token 1
           (mkUser "ada@unsw.edu" "ada" "lovelace" (bcrypt_hash "pw" "s") "z1111111" true));
    first [apply wfb_wf; vm_compute; reflexivity | vm_compute; reflexivity].
Defined.
