(* ===== verification/ResetFlow.v ===== *)
(** * The reset mail, sent after the answer

    [authResetGenerate] of src/backend/src/reset.ts checks the email's
    syntax, then starts the chain
    [prisma.user.findUniqueOrThrow(...).then(create the code; send the
    mail).catch(log)] without awaiting it, and answers [{}] at once.
    The chain settles later, between or after other requests, and its
    failures are only logged.  Reset.v runs the chain within the
    request; this file models the interleaving: a [World] holds the
    store, the chains started and not yet settled, and the mails sent
    by transporter.ts's transporter ([sendMail]), and [world_step] is
    one answered reset request, the settling of one pending chain (in
    any order) or any other request of app.ts.

    The theorems show that the sequential model of Reset.v is the run
    in which the chain settles right after the answer; that the world
    keeps the store invariant; that a reset request for a registered
    email leads, once its chain settles, to a mail to that address
    whose code sets the password the next login checks; and that a
    user removed between the answer and the chain gets no mail and no
    code although the answer was a success.  Whether the SMTP server
    accepts the mail (production) or catches it (ethereal.email) is
    not modelled: [sendMail] is taken to succeed. *)

From S2P Require Import Prelude Validation Store Session Auth Admin Reset System.

(** [transporter.sendMail({ from, to, subject, text })]; the sender's
    display name is left out of [mail_from]. *)
Record Mail := mkMail {
  mail_from : string;
  mail_to : string;
  mail_subject : string;
  mail_text : string
}.

Section Flow.
Context `{EmailValidator} `{PasswordHasher}.

(** What the request does before it answers. *)
Definition authResetGenerate_answer (addr : string) : ST Store unit :=
  check (isEmail addr) (BadRequest "Invalid email format").

(** The chain, up to its [.catch]: the user looked up by the email, the
    code [code] (the draw of [customAlphabet]) stored for that user,
    then the mail to the user's address with the code as its text. *)
Definition authResetGenerate_chain (addr code : string) : ST Store Mail :=
  u <- find_or (user_by_email addr) record_not_found ;;
  reset_code_create code u.1 ;;;
  ret (mkMail "noreply@spark.li" (email u.2) "Reset Code" code).

Record World := mkWorld {
  w_store : Store;
  w_pending : list string;   (** the emails of the chains not yet settled *)
  w_outbox : list Mail
}.

(** The chain's [.catch(log)]: a failure keeps the writes made before
    it and sends nothing. *)
Definition settle_chain (w : World) (l : list string) (addr code : string) : World :=
  match authResetGenerate_chain addr code (w_store w) with
  | Done m st' => mkWorld st' l (w_outbox w ++ [m])%list
  | Fail _ st' => mkWorld st' l (w_outbox w)
  end.

Definition is_reset_generate (req : Request) : bool :=
  match req with RAuth (RResetGenerate _ _) => true | _ => false end.

Inductive world_step : World -> World -> Prop :=
| ws_request w addr :
    authResetGenerate_answer addr (w_store w) = Done tt (w_store w) ->
    world_step w (mkWorld (w_store w) (w_pending w ++ [addr])%list (w_outbox w))
| ws_settle w (l1 : list string) addr (l2 : list string) code :
    w_pending w = (l1 ++ addr :: l2)%list ->
    world_step w (settle_chain w (l1 ++ l2)%list addr code)
| ws_serve w req :
    is_reset_generate req = false ->
    world_step w (mkWorld (state_of (handle req (w_store w))) (w_pending w) (w_outbox w)).

Inductive world_reachable : World -> Prop :=
| wr_init : world_reachable (mkWorld empty_store [] [])
| wr_step w w' : world_reachable w -> world_step w w' -> world_reachable w'.

(** ** The chain *)

Lemma chain_user_missing addr code st :
  user_by_email addr st = None -> authResetGenerate_chain addr code st = Fail record_not_found st.
Proof. intros Hu. unfold authResetGenerate_chain. st_simpl. by rewrite Hu. Qed.

Lemma chain_code_taken addr code st uid u :
  user_by_email addr st = Some (uid, u) -> is_Some (resetCodes st !! code) ->
  authResetGenerate_chain addr code st = Fail unique_violation st.
Proof.
  intros Hu [x Hc]. unfold authResetGenerate_chain. st_simpl. rewrite Hu. simpl.
  unfold reset_code_create. by rewrite Hc.
Qed.

Lemma chain_Done st uid u code :
  wf st -> users st !! uid = Some u -> resetCodes st !! code = None ->
  authResetGenerate_chain (email u) code st =
    Done (mkMail "noreply@spark.li" (email u) "Reset Code" code) (set_resetCodes (insert code uid) st).
Proof.
  intros Hwf Hu Hc. unfold authResetGenerate_chain. st_simpl.
  rewrite (user_by_email_unique _ _ _ Hwf Hu). simpl. unfold reset_code_create. rewrite Hc.
  rewrite bool_decide_true by (rewrite Hu; eauto). reflexivity.
Qed.

Lemma chain_preserves addr code : Preserves wf (authResetGenerate_chain addr code).
Proof. unfold authResetGenerate_chain. auto 20 with spark. Qed.

Lemma settle_chain_wf w l addr code : wf (w_store w) -> wf (w_store (settle_chain w l addr code)).
Proof.
  intros Hwf. pose proof (chain_preserves addr code (w_store w) Hwf) as Hp.
  unfold settle_chain. destruct (authResetGenerate_chain addr code (w_store w)); exact Hp.
Qed.

(** ** The sequential model is one interleaving *)

(** [Reset.authResetGenerate], which runs the chain within the request,
    is the answer followed at once by the chain and its [.catch]. *)
Theorem authResetGenerate_sequential addr code st :
  authResetGenerate addr code st =
    (authResetGenerate_answer addr ;;; swallow (authResetGenerate_chain addr code ;;; ret tt)) st.
Proof.
  unfold authResetGenerate, authResetGenerate_answer, authResetGenerate_chain. st_simpl.
  destruct (isEmail addr); simpl; [|done]. destruct (user_by_email addr st) as [[uid u]|]; simpl; [|done].
  by destruct (reset_code_create code uid st) as [[] ?|? ?].
Qed.

(** Every world reachable from an empty database keeps the store
    invariant, whatever the order in which the chains settle. *)
Theorem world_reachable_wf w : world_reachable w -> wf (w_store w).
Proof.
  induction 1 as [|w w' _ IH Hs]; [apply wf_empty|].
  destruct Hs as [w addr _|w l1 addr l2 code _|w req _]; simpl; [done|by apply settle_chain_wf|].
  by apply handle_preserves.
Qed.

(** (C35) A reset request for a registered, well-formed email is
    answered with success and, once its chain settles with a code not
    yet in use, the outbox holds a mail to that address whose text is
    the code; using that code with a new password and logging in with
    the address and that password opens a session of the user. *)
Theorem reset_mail_roundtrip w uid u code :
  wf (w_store w) -> users (w_store w) !! uid = Some u -> isEmail (email u) = true ->
  resetCodes (w_store w) !! code = None ->
  exists w1 w2, world_step w w1 /\ world_step w1 w2 /\
    w_pending w2 = w_pending w /\
    w_outbox w2 = (w_outbox w ++ [mkMail "noreply@spark.li" (email u) "Reset Code" code])%list /\
    forall p salt, exists st3 tok st4,
      authResetUse code p salt (w_store w2) = Done tt st3 /\
      authLogin (email u) p st3 = Done tok st4 /\
      validateSession tok st4 = Done (uid, user_with_password (bcrypt_hash p salt) u) st4.
Proof.
  intros Hwf Hu He Hc.
  pose (w1 := mkWorld (w_store w) (w_pending w ++ [email u])%list (w_outbox w)).
  assert (Hs1 : world_step w w1).
  { apply ws_request. unfold authResetGenerate_answer, check. by rewrite He. }
  assert (Hs2 : world_step w1 (settle_chain w1 (w_pending w ++ [])%list (email u) code))
    by (by apply ws_settle).
  eexists _, _. split_and!; [exact Hs1|exact Hs2| | |].
  - unfold settle_chain. simpl. rewrite (chain_Done _ _ _ _ Hwf Hu Hc). simpl. apply app_nil_r.
  - unfold settle_chain. simpl. by rewrite (chain_Done _ _ _ _ Hwf Hu Hc).
  - intros p salt. unfold settle_chain. simpl. rewrite (chain_Done _ _ _ _ Hwf Hu Hc). simpl.
    pose proof (reset_code_create_preserves code uid (w_store w) Hwf) as Hwf1.
    unfold reset_code_create in Hwf1. rewrite Hc, bool_decide_true in Hwf1 by (rewrite Hu; eauto).
    assert (Hc1 : resetCodes (set_resetCodes (insert code uid) (w_store w)) !! code = Some uid)
      by apply lookup_insert_eq.
    assert (Hu1 : users (set_resetCodes (insert code uid) (w_store w)) !! uid = Some u) by exact Hu.
    rewrite (authResetUse_Done _ _ _ _ _ _ Hc1 Hu1).
    destruct (authResetUse_login _ code p salt uid u _ Hwf1 Hc1 Hu1 (authResetUse_Done _ _ _ _ _ _ Hc1 Hu1))
      as (tok & st4 & Hl & Hv).
    by eexists _, tok, st4.
Qed.

(** The chain fails in silence: when the code drawn is already
    in use, or when no user has the email any more by the time the
    chain settles (removed, or its email changed, by a request served
    in between), the request was answered with success, no mail is
    sent and the store is left as it was; the specification surfaces
    every failure of [requestReset] except the absence of the user. *)
Theorem reset_chain_silent_failures w l1 addr l2 code :
  w_pending w = (l1 ++ addr :: l2)%list ->
  (user_by_email addr (w_store w) = None \/
   exists uid u, user_by_email addr (w_store w) = Some (uid, u) /\ is_Some (resetCodes (w_store w) !! code)) ->
  world_step w (settle_chain w (l1 ++ l2)%list addr code) /\
  settle_chain w (l1 ++ l2)%list addr code = mkWorld (w_store w) (l1 ++ l2)%list (w_outbox w).
Proof.
  intros Hp Hcase. split; [by apply ws_settle|]. unfold settle_chain.
  destruct Hcase as [Hn | (uid & u & Hu & Hc)].
  - by rewrite chain_user_missing.
  - by rewrite (chain_code_taken _ _ _ _ _ Hu Hc).
Qed.

End Flow.

(** ** Witnesses *)

Definition bob : User := mkUser "bob@unsw.edu" "bob" "ross" "hash:pw2" "z2222222" false.

Lemma reset_mail_roundtrip_witness :
  exists w1 w2, world_step (mkWorld demo_store [] []) w1 /\ world_step w1 w2 /\
    w_pending w2 = [] /\
    w_outbox w2 = [mkMail "noreply@spark.li" "bob@unsw.edu" "Reset Code" "K7Q2ZD"] /\
    forall p salt, exists st3 tok st4,
      authResetUse "K7Q2ZD" p salt (w_store w2) = Done tt st3 /\
      authLogin "bob@unsw.edu" p st3 = Done tok st4 /\
      validateSession tok st4 = Done (2, user_with_password (bcrypt_hash p salt) bob) st4.
Proof.
  apply (reset_mail_roundtrip (mkWorld demo_store [] []) 2 bob "K7Q2ZD"); try reflexivity.
  apply wfb_wf. vm_compute. reflexivity.
Defined.

Lemma reset_chain_silent_failures_witness :
  world_step (mkWorld reset_demo ["bob@unsw.edu"] []) (settle_chain (mkWorld reset_demo ["bob@unsw.edu"] []) [] "bob@unsw.edu" "K7Q2ZD") /\
  settle_chain (mkWorld reset_demo ["bob@unsw.edu"] []) [] "bob@unsw.edu" "K7Q2ZD" = mkWorld reset_demo [] [].
Proof.
  apply (reset_chain_silent_failures (mkWorld reset_demo ["bob@unsw.edu"] []) [] "bob@unsw.edu" [] "K7Q2ZD");
    [reflexivity|]. right. exists 2, bob. split; [reflexivity|]. by eexists.
Defined.

(** The site admin removes bob between the answer to bob's reset
    request and the settling of its chain: bob was told the request
    succeeded, but no code is stored and no mail is sent. *)
Example reset_mail_lost_after_removal :
  let w1 := mkWorld demo_store ["bob@unsw.edu"] [] in
  let w2 := mkWorld (state_of (handle (RAdmin (RAdminUserRemove "tok1" 2)) demo_store)) ["bob@unsw.edu"] [] in
  let w3 := settle_chain w2 [] "bob@unsw.edu" "K7Q2ZD" in
  world_step (mkWorld demo_store [] []) w1 /\ world_step w1 w2 /\ world_step w2 w3 /\
  users (w_store w2) !! 2 = None /\ w_outbox w3 = [] /\ resetCodes (w_store w3) = resetCodes demo_store.
Proof.
  split_and!.
  - by apply (ws_request (mkWorld demo_store [] []) "bob@unsw.edu").
  - by apply (ws_serve (mkWorld demo_store ["bob@unsw.edu"] []) (RAdmin (RAdminUserRemove "tok1" 2))).
  - by apply (ws_settle _ [] "bob@unsw.edu" []).
  - vm_compute. reflexivity.
  - vm_compute. reflexivity.
  - vm_compute. reflexivity.
Qed.
