(* ===== verification/Client.v ===== *)
(** * The frontend's API client and the backend's routing

    src/frontend/src/api/ is the only way the single-page frontend talks
    to the backend: each exported function (auth.ts, society.ts,
    event.ts, profile.ts, admin/*.ts, perm/*.ts, clear.ts) calls
    [apiFetch(method, route, bodyParams)] of utils/fetch.ts, which
    drops the null and undefined fields ([removeNull]), sends the rest
    as a JSON body for POST and PUT or as URL query parameters for GET
    and DELETE, and turns the response into data or an [ApiError].  On
    the other side, each route of src/backend/src/app.ts reads named
    fields of [req.body] or [req.query], with [parseInt] on some query
    fields, and calls one handler.

    This file models the request [apiFetch] builds ([build_request]),
    every API function of the frontend ([client_request] on the
    inductive [ClientCall]), the backend's routing of an HTTP request to
    a [Request] of System.v ([route_request]), and the decoding of a
    response ([decode_response]).  JSON values are [JVal]; the URL
    encoding of query parameters and its decoding by Express cancel out
    and are not modelled.  The theorems show that every API function
    reaches the route and the handler its documentation names, with its
    own arguments (numbers survive the round trip through the query
    string), and that the client sees the backend's 4xx error messages. *)

From S2P Require Import Prelude Validation Store Auth Listing System.
From stdpp Require Import pretty.
From Stdlib Require Import Ascii.

Open Scope Z_scope.

(** ** JSON values *)

Inductive JVal :=
| JNull
| JUndefined
| JBool (b : bool)
| JNum (n : Z)
| JStr (s : string)
| JArr (l : list JVal)
| JObj (fields : list (string * JVal)).

(** [value != null]: false for [null] and [undefined] only. *)
Definition nullish (v : JVal) : bool :=
  match v with JNull | JUndefined => true | _ => false end.

(** [removeNull(obj)]: keeps the entries whose value is not nullish, and
    recurses into every value with [value === Object(value)], which
    holds of arrays as of objects; [Object.fromEntries(Object.entries
    (array))] turns an array into an object keyed by the indices of
    its kept elements. *)
Fixpoint removeNull_val (v : JVal) : JVal :=
  match v with
  | JObj fs =>
      JObj ((fix go (fs : list (string * JVal)) : list (string * JVal) :=
               match fs with
               | [] => []
               | (k, w) :: fs' => if nullish w then go fs' else (k, removeNull_val w) :: go fs'
               end) fs)
  | JArr l =>
      JObj ((fix go (i : nat) (l : list JVal) : list (string * JVal) :=
               match l with
               | [] => []
               | w :: l' => if nullish w then go (S i) l' else (pretty i, removeNull_val w) :: go (S i) l'
               end) 0%nat l)
  | _ => v
  end.

(** [removeNull] on the top-level parameters object. *)
Definition removeNull (fs : list (string * JVal)) : list (string * JVal) :=
  match removeNull_val (JObj fs) with JObj fs' => fs' | _ => [] end.

(** [String(value)], as [URLSearchParams] converts a record's values. *)
Fixpoint js_to_string (v : JVal) : string :=
  match v with
  | JNull => "null"
  | JUndefined => "undefined"
  | JBool b => if b then "true" else "false"
  | JNum n => pretty n
  | JStr s => s
  | JArr l =>
      (fix go (l : list JVal) : string :=
         match l with
         | [] => ""
         | [w] => if nullish w then "" else js_to_string w
         | w :: l' => (if nullish w then "" else js_to_string w) +:+ "," +:+ go l'
         end) l
  | JObj _ => "[object Object]"
  end.

(** ** [parseInt] on decimal strings *)

Definition digit_val (c : Ascii.ascii) : option N :=
  let n := Ascii.nat_of_ascii c in
  if (48 <=? n)%nat && (n <=? 57)%nat then Some (N.of_nat (n - 48)) else None.

Fixpoint parse_digits (acc : N) (s : string) : N :=
  match s with
  | String c s' => match digit_val c with Some d => parse_digits (acc * 10 + d)%N s' | None => acc end
  | EmptyString => acc
  end.

Definition starts_digit (s : string) : bool :=
  match s with String c _ => bool_decide (is_Some (digit_val c)) | EmptyString => false end.

Definition parse_unsigned (s : string) : option N :=
  if starts_digit s then Some (parse_digits 0 s) else None.

Fixpoint skip_spaces (s : string) : string :=
  match s with String c s' => if is_space c then skip_spaces s' else s | EmptyString => s end.

(** [parseInt(s)]: leading white space, an optional sign, then the
    longest run of decimal digits; [None] is [NaN] (no digit).  The
    hexadecimal prefix [0x] is not modelled. *)
Definition parseInt (s : string) : option Z :=
  match skip_spaces s with
  | String c s' =>
      if Ascii.eqb c "-"%char then (fun n => Z.opp (Z.of_N n)) <$> parse_unsigned s'
      else if Ascii.eqb c "+"%char then Z.of_N <$> parse_unsigned s'
      else Z.of_N <$> parse_unsigned (String c s')
  | EmptyString => None
  end.

Lemma digit_val_pretty_char x : (x < 10)%N -> digit_val (pretty_N_char x) = Some x.
Proof.
  intros Hx. assert (x = 0 \/ x = 1 \/ x = 2 \/ x = 3 \/ x = 4 \/ x = 5 \/ x = 6 \/ x = 7 \/
                     x = 8 \/ x = 9)%N as Hc by lia.
  by repeat destruct Hc as [->|Hc]; [..|subst].
Qed.

Lemma parse_digits_pretty_go x s : parse_digits 0 (pretty_N_go x s) = parse_digits x s.
Proof.
  revert s. induction (N.lt_wf_0 x) as [x _ IH]; intros s.
  destruct (decide (x = 0%N)) as [->|Hx]; [by rewrite pretty_N_go_0|].
  rewrite pretty_N_go_step by lia. rewrite IH by (apply N.div_lt; lia). simpl.
  rewrite digit_val_pretty_char by (apply N.mod_lt; lia). f_equal.
  pose proof (N.div_mod x 10). lia.
Qed.

Lemma starts_digit_pretty_go x s :
  (x = 0%N -> starts_digit s = true) -> starts_digit (pretty_N_go x s) = true.
Proof.
  revert s. induction (N.lt_wf_0 x) as [x _ IH]; intros s Hs.
  destruct (decide (x = 0%N)) as [->|Hx]; [rewrite pretty_N_go_0; by apply Hs|].
  rewrite pretty_N_go_step by lia. apply IH; [apply N.div_lt; lia|]. intros _. simpl.
  rewrite digit_val_pretty_char by (apply N.mod_lt; lia). done.
Qed.

Lemma parse_unsigned_pretty (x : N) : parse_unsigned (pretty x) = Some x.
Proof.
  unfold pretty, pretty_N. case_decide as Hx; [by subst|].
  unfold parse_unsigned. rewrite starts_digit_pretty_go by done.
  by rewrite parse_digits_pretty_go.
Qed.

Lemma skip_spaces_digit s : starts_digit s = true -> skip_spaces s = s.
Proof.
  destruct s as [|c s]; [done|]. simpl. intros H.
  destruct (is_space c) eqn:E; [|done]. apply Ascii.eqb_eq in E. by subst.
Qed.

(** [parseInt(String(n))] is [n]: an integer survives the query string. *)
Lemma parseInt_pretty (z : Z) : parseInt (pretty z) = Some z.
Proof.
  destruct z as [|p|p]; unfold parseInt.
  - done.
  - assert (Hs : starts_digit (pretty (Npos p)) = true).
    { unfold pretty, pretty_N. case_decide; [done|]. by apply starts_digit_pretty_go. }
    change (pretty (Zpos p)) with (pretty (Npos p)). rewrite skip_spaces_digit by done.
    destruct (pretty (Npos p)) as [|c s] eqn:E; [done|].
    assert (Hc : Ascii.eqb c "-"%char = false /\ Ascii.eqb c "+"%char = false).
    { simpl in Hs. revert Hs. unfold digit_val. by destruct c as [[] [] [] [] [] [] [] []]. }
    destruct Hc as [-> ->]. rewrite <- E, parse_unsigned_pretty. done.
  - change (pretty (Zneg p)) with ("-" +:+ pretty (Npos p)). simpl.
    change ("" +:+ pretty (Npos p)) with (pretty (Npos p)). by rewrite parse_unsigned_pretty.
Qed.

(** ** The characters of a number *)

Definition number_chars : list ascii := Eval cbv in map ascii_of_nat (45 :: seq 48 10)%nat.

Definition number_char (c : ascii) : bool := existsb (Ascii.eqb c) number_chars.

Fixpoint all_chars (f : ascii -> bool) (s : string) : bool :=
  match s with EmptyString => true | String c s' => f c && all_chars f s' end.

(** A segment written by [`${id}`] for a number [id]. *)
Definition numeric (s : string) : bool :=
  match s with EmptyString => false | String c s' => number_char c && all_chars number_char s' end.

Lemma pretty_N_char_number x : number_char (pretty_N_char x) = true.
Proof. unfold pretty_N_char. repeat case_match; reflexivity. Qed.

Lemma pretty_N_go_number x s :
  all_chars number_char s = true -> all_chars number_char (pretty_N_go x s) = true.
Proof.
  revert s. induction x as [x IH] using (well_founded_induction N.lt_wf_0); intros s Hs.
  destruct (decide (0 < x)%N) as [Hx|Hx].
  - rewrite pretty_N_go_step by done. apply IH; [apply N.div_lt; lia|].
    simpl. by rewrite pretty_N_char_number, Hs.
  - by replace x with 0%N by lia.
Qed.

Lemma pretty_Z_numeric (n : Z) : numeric (pretty n) = true.
Proof.
  assert (Hpos : forall p, numeric (pretty (N.pos p)) = true).
  { intros p. unfold pretty, pretty_N. case_decide; [done|].
    rewrite pretty_N_go_step by lia. pose proof (pretty_N_go_number (N.pos p `div` 10)
      (String (pretty_N_char (N.pos p `mod` 10)) "") ltac:(simpl; by rewrite pretty_N_char_number)) as Hgo.
    destruct (pretty_N_go _ _) as [|c s] eqn:E; [|exact Hgo].
    by apply pretty_N_go_nonempty in E. }
  destruct n as [|p|p]; [done|apply Hpos|]. unfold pretty at 1, pretty_Z. simpl.
  change (@pretty positive _ p) with (pretty (N.pos p)).
  pose proof (Hpos p) as Hp. destruct (pretty (N.pos p)) as [|c s]; [done|].
  cbn -[number_char] in *. exact Hp.
Qed.

(** [parseInt] stops at the first character that is not a digit: a
    trailing [Z] does not change what it reads. *)
Lemma parse_digits_app_Z acc s : parse_digits acc (s +:+ "Z") = parse_digits acc s.
Proof. revert acc. induction s as [|c s IH]; intros acc; [done|]. simpl. by case_match. Qed.

Lemma parse_unsigned_app_Z s : parse_unsigned (s +:+ "Z") = parse_unsigned s.
Proof.
  destruct s as [|c s]; [done|]. unfold parse_unsigned.
  change (String c s +:+ "Z") with (String c (s +:+ "Z")). cbn [starts_digit]. case_match; [|done].
  f_equal. cbn [parse_digits]. case_match; [apply parse_digits_app_Z|done].
Qed.

Lemma parseInt_pretty_Z (z : Z) : parseInt (pretty z +:+ "Z") = Some z.
Proof.
  rewrite <- (parseInt_pretty z). pose proof (pretty_Z_numeric z) as Hn.
  destruct (pretty z) as [|c s] eqn:E; [done|]. unfold parseInt.
  assert (Hsp : is_space c = false).
  { simpl in Hn. apply andb_prop in Hn as [Hc _]. revert Hc. unfold number_char.
    by destruct c as [[] [] [] [] [] [] [] []]. }
  simpl. rewrite Hsp. change (String c (s +:+ "Z")) with (String c s +:+ "Z").
  by rewrite !parse_unsigned_app_Z.
Qed.

(** ** The request [apiFetch] sends *)

Inductive HttpVerb := GET | POST | PUT | DELETE.

#[export] Instance HttpVerb_eq_dec : EqDecision HttpVerb.
Proof. solve_decision. Defined.

(** What the backend's Express app sees of a request: the method, the
    path, [req.body] as parsed by [express.json()] and [req.query] as
    parsed from the URL. *)
Record HttpRequest := mkHttpRequest {
  req_method : HttpVerb;
  req_route : string;
  req_body : list (string * JVal);
  req_query : list (string * string)
}.

(** The request part of [apiFetch(method, route, bodyParams)]: POST and
    PUT send [JSON.stringify(bodyParams)] as the body; GET and DELETE
    send [new URLSearchParams(bodyParams)] after the route and no body,
    which [express.json()] reads as [{}]. *)
Definition build_request (method : HttpVerb) (route : string)
    (bodyParams : option (list (string * JVal))) : HttpRequest :=
  let params := match bodyParams with None => [] | Some fs => removeNull fs end in
  match method with
  | POST | PUT => mkHttpRequest method route params []
  | GET | DELETE => mkHttpRequest method route [] (map (fun kv => (kv.1, js_to_string kv.2)) params)
  end.

(** ** Reading a request on the backend *)

Definition field {V} (k : string) (fs : list (string * V)) : option V :=
  snd <$> List.find (fun kv => String.eqb kv.1 k) fs.

(** [req.body.k as string] and [req.body.k as number], for a field of
    that type; another value is outside the model ([None]). *)
Definition body_str (k : string) (r : HttpRequest) : option string :=
  match field k (req_body r) with Some (JStr s) => Some s | _ => None end.

Definition body_num (k : string) (r : HttpRequest) : option Z :=
  match field k (req_body r) with Some (JNum n) => Some n | _ => None end.

(** [req.query.k as string]: present, or [undefined] ([None]). *)
Definition query_str (k : string) (r : HttpRequest) : option string := field k (req_query r).

(** [parseInt(req.query.k as string)]: [NaN] ([None]) when absent. *)
Definition query_int (k : string) (r : HttpRequest) : option Z := query_str k r ≫= parseInt.

(** The draws a request's handler makes: the salt of [bcrypt.genSalt()],
    the reset code of [customAlphabet(...)()], the time of [new Date()]. *)
Record Draws := mkDraws { draw_salt : string; draw_code : string; draw_now : Z }.

Section Routing.
(** [new Date(s)], milliseconds since the epoch, [None] for an
    [Invalid Date] (which the model does not follow further). *)
Context (parse_date : string -> option Z).

(** [if (timeStart) filters.push({ time: { gte: new Date(timeStart) } })]:
    an absent or empty string is no filter. *)
Definition date_filter (o : option string) : option (option Z) :=
  match o with
  | None => Some None
  | Some s => if String.eqb s "" then Some None else Some <$> parse_date s
  end.

Definition is_route (m : HttpVerb) (path : string) (r : HttpRequest) : bool :=
  bool_decide (req_method r = m) && String.eqb (req_route r) path.

Definition route_auth (d : Draws) (r : HttpRequest) : option Request :=
  if is_route POST "/auth/register" r then
    e ← body_str "email" r; nf ← body_str "nameFirst" r; nl ← body_str "nameLast" r;
    p ← body_str "password" r; z ← body_str "zId" r;
    Some (RAuth (RRegister (mkUserRegister e nf nl p z) (draw_salt d)))
  else if is_route POST "/auth/login" r then
    e ← body_str "email" r; p ← body_str "password" r; Some (RAuth (RLogin e p))
  else if is_route PUT "/auth/logout" r then
    t ← body_str "token" r; Some (RAuth (RLogout t))
  else if is_route GET "/auth/reset" r then
    e ← query_str "email" r; Some (RAuth (RResetGenerate e (draw_code d)))
  else if is_route POST "/auth/reset" r then
    c ← body_str "code" r; p ← body_str "password" r; Some (RAuth (RResetUse c p (draw_salt d)))
  else None.

Definition route_perm (r : HttpRequest) : option Request :=
  if is_route POST "/perm/site/allocate" r then
    t ← body_str "token" r; u ← body_num "userId" r; l ← body_num "permLevel" r;
    Some (RPerm (RPermSite t u l))
  else if is_route POST "/perm/society/allocate" r then
    t ← body_str "token" r; u ← body_num "userId" r; s ← body_num "societyId" r;
    l ← body_num "permLevel" r; Some (RPerm (RPermSociety t u s l))
  else None.

Definition route_admin (r : HttpRequest) : option Request :=
  if is_route GET "/admin/user/get" r then
    z ← query_str "zId" r; Some (RAdmin (RAdminGetUserByZid z))
  else if is_route PUT "/admin/application/approve" r then
    t ← body_str "token" r; a ← body_num "applicationId" r; Some (RAdmin (RAdminApprove t a))
  else if is_route PUT "/admin/application/deny" r then
    t ← body_str "token" r; a ← body_num "applicationId" r; Some (RAdmin (RAdminDeny t a))
  else if is_route GET "/admin/users" r then
    t ← query_str "token" r; Some (RAdmin (RAdminUsers t))
  else if is_route GET "/admin/application/list" r then
    t ← query_str "token" r; Some (RAdmin (RAdminApplicationList t))
  else if is_route DELETE "/admin/user/remove" r then
    t ← query_str "token" r; u ← query_int "userId" r; Some (RAdmin (RAdminUserRemove t u))
  else None.

Definition route_society (d : Draws) (r : HttpRequest) : option Request :=
  if is_route POST "/society/apply" r then
    t ← body_str "token" r; n ← body_str "societyName" r; de ← body_str "description" r;
    Some (RSociety (RSocietyApply t n de))
  else if is_route POST "/society/join" r then
    t ← body_str "token" r; s ← body_num "societyId" r; Some (RSociety (RSocietyJoin t s))
  else if is_route GET "/society/view" r then
    s ← query_int "societyId" r; Some (RSociety (RSocietyView s))
  else if is_route GET "/society/members" r then
    s ← query_int "societyId" r; Some (RSociety (RSocietyMembers s))
  else if is_route PUT "/society/edit" r then
    t ← body_str "token" r; s ← body_num "societyId" r; n ← body_str "societyName" r;
    de ← body_str "description" r; Some (RSociety (RSocietyEdit t s n de))
  else if is_route GET "/society/events" r then
    s ← query_int "societyId" r; Some (RSociety (RSocietyEvents s (draw_now d)))
  else if is_route DELETE "/society" r then
    t ← query_str "token" r; s ← query_int "societyId" r; Some (RSociety (RSocietyDelete t s))
  else if is_route GET "/society/list" r then
    Some (RSociety (RSocietyList (query_str "searchString" r) (query_int "paginationStart" r)
                      (query_int "paginationEnd" r)))
  else None.

Definition route_profile (r : HttpRequest) : option Request :=
  if is_route GET "/profile/view" r then
    t ← query_str "token" r; Some (RProfile (RProfileView t))
  else if is_route PUT "/profile/edit" r then
    t ← body_str "token" r; nf ← body_str "nameFirst" r; nl ← body_str "nameLast" r;
    e ← body_str "email" r; Some (RProfile (RProfileEdit t nf nl e))
  else if is_route GET "/profile/societies" r then
    t ← query_str "token" r; Some (RProfile (RProfileSocieties t))
  else if is_route GET "/profile/events" r then
    t ← query_str "token" r; Some (RProfile (RProfileEvents t))
  else None.

Definition route_event (r : HttpRequest) : option Request :=
  if is_route GET "/event" r then
    e ← query_int "eventId" r; Some (REvent (REventGet e))
  else if is_route POST "/event" r then
    t ← body_str "token" r; s ← body_num "societyId" r; n ← body_str "name" r;
    de ← body_str "description" r; tm ← body_str "time" r ≫= parse_date;
    l ← body_str "location" r; Some (REvent (REventCreate t s n de tm l))
  else if is_route PUT "/event/edit" r then
    t ← body_str "token" r; e ← body_num "eventId" r; n ← body_str "name" r;
    de ← body_str "description" r; tm ← body_str "time" r ≫= parse_date;
    l ← body_str "location" r; Some (REvent (REventEdit t e n de tm l))
  else if is_route DELETE "/event" r then
    t ← query_str "token" r; e ← query_int "eventId" r; Some (REvent (REventDelete t e))
  else if is_route PUT "/event/attend" r then
    t ← body_str "token" r; e ← body_num "eventId" r; Some (REvent (REventAttend t e))
  else if is_route DELETE "/event/attend" r then
    t ← query_str "token" r; e ← query_int "eventId" r; Some (REvent (REventUnattend t e))
  else if is_route GET "/event/status" r then
    t ← query_str "token" r; e ← query_int "eventId" r; Some (REvent (REventStatus t e))
  else if is_route GET "/event/list" r then
    ts ← date_filter (query_str "timeStart" r); te ← date_filter (query_str "timeEnd" r);
    Some (REvent (REventList (query_str "searchString" r) ts te (query_int "paginationStart" r)
                    (query_int "paginationEnd" r)))
  else if is_route POST "/event/form" r then
    e ← body_num "eventId" r; nf ← body_str "nameFirst" r; nl ← body_str "nameLast" r;
    z ← body_str "zId" r; em ← body_str "email" r; Some (REvent (REventForm e nf nl z em))
  else if is_route POST "/event/generateCSV" r then
    t ← body_str "token" r; e ← body_num "eventId" r; Some (REvent (REventCSV t e))
  else None.

(** The app: the first route whose method and path match. *)
Definition route_request (d : Draws) (r : HttpRequest) : option Request :=
  if is_route DELETE "/clear" r then Some RClear
  else route_auth d r ∪ route_perm r ∪ route_admin r ∪ route_society d r ∪ route_profile r ∪
       route_event r.
End Routing.

(** ** The frontend's API functions *)

(** An optional argument: [undefined] when absent. *)
Definition opt_str (o : option string) : JVal := match o with Some s => JStr s | None => JUndefined end.
Definition opt_num (o : option Z) : JVal := match o with Some n => JNum n | None => JUndefined end.

(** api/auth.ts, [BASE_URL = '/auth']. *)
Inductive AuthCall :=
| CRegister (email password nameFirst nameLast zId : string)
| CLogin (email password : string)
| CLogout (token : string)
| CGetCode (email : string)
| CPostCode (code password : string).

Definition auth_request (c : AuthCall) : HttpRequest :=
  match c with
  | CRegister e p nf nl z =>
      build_request POST ("/auth" +:+ "/register")
        (Some [("email", JStr e); ("password", JStr p); ("nameFirst", JStr nf);
               ("nameLast", JStr nl); ("zId", JStr z)])
  | CLogin e p => build_request POST ("/auth" +:+ "/login") (Some [("email", JStr e); ("password", JStr p)])
  | CLogout t => build_request PUT ("/auth" +:+ "/logout") (Some [("token", JStr t)])
  | CGetCode e => build_request GET ("/auth" +:+ "/reset") (Some [("email", JStr e)])
  | CPostCode c p => build_request POST ("/auth" +:+ "/reset") (Some [("code", JStr c); ("password", JStr p)])
  end.

(** api/society.ts, [BASE_URL = '/society']. *)
Inductive SocietyCall :=
| CApply (token societyName description : string) (tags : list string)
| CSocietyEdit (token : string) (societyId : Z) (societyName description : string)
| CSocietyView (societyId : Z)
| CSocietyList (searchString : option string) (paginationStart paginationEnd : option Z)
| CSocietyJoin (token : string) (societyId : Z)
| CSocietyMembers (societyId : Z)
| CSocietyRemove (token : string) (societyId : Z)
| CSocietyEvents (societyId : Z).

Definition society_request (c : SocietyCall) : HttpRequest :=
  match c with
  | CApply t n d tags =>
      build_request POST ("/society" +:+ "/apply")
        (Some [("token", JStr t); ("societyName", JStr n); ("description", JStr d);
               ("tags", JArr (map JStr tags))])
  | CSocietyEdit t s n d =>
      build_request PUT ("/society" +:+ "/edit")
        (Some [("token", JStr t); ("societyId", JNum s); ("societyName", JStr n); ("description", JStr d)])
  | CSocietyView s => build_request GET ("/society" +:+ "/view") (Some [("societyId", JNum s)])
  | CSocietyList q a b =>
      build_request GET ("/society" +:+ "/list")
        (Some [("searchString", opt_str q); ("paginationStart", opt_num a); ("paginationEnd", opt_num b)])
  | CSocietyJoin t s => build_request POST ("/society" +:+ "/join") (Some [("token", JStr t); ("societyId", JNum s)])
  | CSocietyMembers s => build_request GET ("/society" +:+ "/members") (Some [("societyId", JNum s)])
  | CSocietyRemove t s => build_request DELETE "/society" (Some [("token", JStr t); ("societyId", JNum s)])
  | CSocietyEvents s => build_request GET ("/society" +:+ "/events") (Some [("societyId", JNum s)])
  end.

(** api/event.ts, [BASE_URL = '/event']. *)
Inductive EventCall :=
| CEventCreate (token : string) (societyId : Z) (name description time location : string)
| CEventEdit (token : string) (eventId : Z) (name description time location : string)
| CEventGet (eventId : Z)
| CEventAttend (token : string) (eventId : Z)
| CEventUnattend (token : string) (eventId : Z)
| CEventStatus (token : string) (eventId : Z)
| CEventRemove (token : string) (eventId : Z)
| CEventForm (eventId : Z) (nameFirst nameLast zId email : string)
| CEventList (searchString timeStart timeEnd : option string) (paginationStart paginationEnd : option Z)
| CEventCSV (token : string) (eventId : Z).

Definition event_request (c : EventCall) : HttpRequest :=
  match c with
  | CEventCreate t s n d tm l =>
      build_request POST "/event"
        (Some [("token", JStr t); ("societyId", JNum s); ("name", JStr n); ("description", JStr d);
               ("time", JStr tm); ("location", JStr l)])
  | CEventEdit t e n d tm l =>
      build_request PUT ("/event" +:+ "/edit")
        (Some [("token", JStr t); ("eventId", JNum e); ("name", JStr n); ("description", JStr d);
               ("time", JStr tm); ("location", JStr l)])
  | CEventGet e => build_request GET "/event" (Some [("eventId", JNum e)])
  | CEventAttend t e => build_request PUT ("/event" +:+ "/attend") (Some [("token", JStr t); ("eventId", JNum e)])
  | CEventUnattend t e => build_request DELETE ("/event" +:+ "/attend") (Some [("token", JStr t); ("eventId", JNum e)])
  | CEventStatus t e => build_request GET ("/event" +:+ "/status") (Some [("token", JStr t); ("eventId", JNum e)])
  | CEventRemove t e => build_request DELETE "/event" (Some [("token", JStr t); ("eventId", JNum e)])
  | CEventForm e nf nl z em =>
      build_request POST ("/event" +:+ "/form")
        (Some [("eventId", JNum e); ("nameFirst", JStr nf); ("nameLast", JStr nl); ("zId", JStr z);
               ("email", JStr em)])
  | CEventList q ts te a b =>
      build_request GET ("/event" +:+ "/list")
        (Some [("searchString", opt_str q); ("timeStart", opt_str ts); ("timeEnd", opt_str te);
               ("paginationStart", opt_num a); ("paginationEnd", opt_num b)])
  | CEventCSV t e => build_request POST ("/event" +:+ "/generateCSV") (Some [("token", JStr t); ("eventId", JNum e)])
  end.

(** api/profile.ts, [BASE_URL = '/profile']. *)
Inductive ProfileCall :=
| CProfileView (token : string)
| CProfileEdit (token email nameFirst nameLast : string)
| CProfileEvents (token : string)
| CProfileSocieties (token : string).

Definition profile_request (c : ProfileCall) : HttpRequest :=
  match c with
  | CProfileView t => build_request GET ("/profile" +:+ "/view") (Some [("token", JStr t)])
  | CProfileEdit t e nf nl =>
      build_request PUT ("/profile" +:+ "/edit")
        (Some [("token", JStr t); ("email", JStr e); ("nameFirst", JStr nf); ("nameLast", JStr nl)])
  | CProfileEvents t => build_request GET ("/profile" +:+ "/events") (Some [("token", JStr t)])
  | CProfileSocieties t => build_request GET ("/profile" +:+ "/societies") (Some [("token", JStr t)])
  end.

(** api/admin/application.ts, [BASE_URL = '/admin/application']. *)
Inductive ApplicationCall :=
| CApplicationList (token : string)
| CApplicationApprove (token : string) (applicationId : Z)
| CApplicationDeny (token : string) (applicationId : Z).

Definition application_request (c : ApplicationCall) : HttpRequest :=
  match c with
  | CApplicationList t => build_request GET ("/admin/application" +:+ "/list") (Some [("token", JStr t)])
  | CApplicationApprove t a =>
      build_request PUT ("/admin/application" +:+ "/approve") (Some [("token", JStr t); ("applicationId", JNum a)])
  | CApplicationDeny t a =>
      build_request PUT ("/admin/application" +:+ "/deny") (Some [("token", JStr t); ("applicationId", JNum a)])
  end.

(** api/admin/user.ts [remove] and api/admin/users.ts [users]. *)
Definition user_remove_request (token : string) (userId : Z) : HttpRequest :=
  build_request DELETE ("/admin/user" +:+ "/remove") (Some [("token", JStr token); ("userId", JNum userId)]).

Definition users_request (token : string) : HttpRequest :=
  build_request GET "/admin/users" (Some [("token", JStr token)]).

(** api/perm/site.ts and api/perm/society.ts [allocate]. *)
Definition perm_site_request (token : string) (userId permLevel : Z) : HttpRequest :=
  build_request POST ("/perm/site" +:+ "/allocate")
    (Some [("token", JStr token); ("userId", JNum userId); ("permLevel", JNum permLevel)]).

Definition perm_society_request (token : string) (userId societyId permLevel : Z) : HttpRequest :=
  build_request POST ("/perm/society" +:+ "/allocate")
    (Some [("token", JStr token); ("userId", JNum userId); ("societyId", JNum societyId);
           ("permLevel", JNum permLevel)]).

(** api/clear.ts *)
Definition clear_request : HttpRequest := build_request DELETE "/clear" (Some []).

(** The API object of api/index.ts and api/admin/index.ts. *)
Inductive ClientCall :=
| CAuth (c : AuthCall)
| CSociety (c : SocietyCall)
| CEvent (c : EventCall)
| CProfile (c : ProfileCall)
| CApplication (c : ApplicationCall)
| CUserRemove (token : string) (userId : Z)
| CUsers (token : string)
| CPermSite (token : string) (userId permLevel : Z)
| CPermSociety (token : string) (userId societyId permLevel : Z)
| CClear.

Definition client_request (c : ClientCall) : HttpRequest :=
  match c with
  | CAuth a => auth_request a
  | CSociety a => society_request a
  | CEvent a => event_request a
  | CProfile a => profile_request a
  | CApplication a => application_request a
  | CUserRemove t u => user_remove_request t u
  | CUsers t => users_request t
  | CPermSite t u l => perm_site_request t u l
  | CPermSociety t u s l => perm_society_request t u s l
  | CClear => clear_request
  end.

(** ** The client-server contract *)

Section Contract.
Context (parse_date : string -> option Z).

(** The backend request each API function's documentation names: the
    handler of that route, with the function's own arguments (the
    backend's draws aside). *)
Definition intended (d : Draws) (c : ClientCall) : option Request :=
  match c with
  | CAuth (CRegister e p nf nl z) => Some (RAuth (RRegister (mkUserRegister e nf nl p z) (draw_salt d)))
  | CAuth (CLogin e p) => Some (RAuth (RLogin e p))
  | CAuth (CLogout t) => Some (RAuth (RLogout t))
  | CAuth (CGetCode e) => Some (RAuth (RResetGenerate e (draw_code d)))
  | CAuth (CPostCode c p) => Some (RAuth (RResetUse c p (draw_salt d)))
  | CSociety (CApply t n de _) => Some (RSociety (RSocietyApply t n de))
  | CSociety (CSocietyEdit t s n de) => Some (RSociety (RSocietyEdit t s n de))
  | CSociety (CSocietyView s) => Some (RSociety (RSocietyView s))
  | CSociety (CSocietyList q a b) => Some (RSociety (RSocietyList q a b))
  | CSociety (CSocietyJoin t s) => Some (RSociety (RSocietyJoin t s))
  | CSociety (CSocietyMembers s) => Some (RSociety (RSocietyMembers s))
  | CSociety (CSocietyRemove t s) => Some (RSociety (RSocietyDelete t s))
  | CSociety (CSocietyEvents s) => Some (RSociety (RSocietyEvents s (draw_now d)))
  | CEvent (CEventCreate t s n de tm l) => (fun time => REvent (REventCreate t s n de time l)) <$> parse_date tm
  | CEvent (CEventEdit t e n de tm l) => (fun time => REvent (REventEdit t e n de time l)) <$> parse_date tm
  | CEvent (CEventGet e) => Some (REvent (REventGet e))
  | CEvent (CEventAttend t e) => Some (REvent (REventAttend t e))
  | CEvent (CEventUnattend t e) => Some (REvent (REventUnattend t e))
  | CEvent (CEventStatus t e) => Some (REvent (REventStatus t e))
  | CEvent (CEventRemove t e) => Some (REvent (REventDelete t e))
  | CEvent (CEventForm e nf nl z em) => Some (REvent (REventForm e nf nl z em))
  | CEvent (CEventList q ts te a b) =>
      ts' ← date_filter parse_date ts; te' ← date_filter parse_date te;
      Some (REvent (REventList q ts' te' a b))
  | CEvent (CEventCSV t e) => Some (REvent (REventCSV t e))
  | CProfile (CProfileView t) => Some (RProfile (RProfileView t))
  | CProfile (CProfileEdit t e nf nl) => Some (RProfile (RProfileEdit t nf nl e))
  | CProfile (CProfileEvents t) => Some (RProfile (RProfileEvents t))
  | CProfile (CProfileSocieties t) => Some (RProfile (RProfileSocieties t))
  | CApplication (CApplicationList t) => Some (RAdmin (RAdminApplicationList t))
  | CApplication (CApplicationApprove t a) => Some (RAdmin (RAdminApprove t a))
  | CApplication (CApplicationDeny t a) => Some (RAdmin (RAdminDeny t a))
  | CUserRemove t u => Some (RAdmin (RAdminUserRemove t u))
  | CUsers t => Some (RAdmin (RAdminUsers t))
  | CPermSite t u l => Some (RPerm (RPermSite t u l))
  | CPermSociety t u s l => Some (RPerm (RPermSociety t u s l))
  | CClear => Some RClear
  end.

Theorem client_routes d c : route_request parse_date d (client_request c) = intended d c.
Proof.
  destruct c as [[]|[]|[]|[]|[]| | | | |]; repeat match goal with o : option _ |- _ => destruct o end;
    cbv -[parseInt pretty date_filter]; repeat (rewrite parseInt_pretty; cbv -[parseInt pretty date_filter]);
    repeat match goal with
           | |- context [parse_date ?s] => destruct (parse_date s)
           | |- context [date_filter ?p ?o] => destruct (date_filter p o)
           end;
    reflexivity.
Qed.
End Contract.

(** [removeNull] turns an array into an object keyed by the indices of
    its kept elements: the [tags] of [society.apply] reach the backend as
    an object, not the documented [string[]]. *)
Lemma removeNull_array_becomes_object :
  field "tags" (req_body (society_request (CApply "tok" "Go Club" "go" ["board"; "strategy"]))) =
    Some (JObj [("0", JStr "board"); ("1", JStr "strategy")]) /\
  removeNull [("tags", JArr [JStr "a"; JNull; JStr "c"])] =
    [("tags", JObj [("0", JStr "a"); ("2", JStr "c")])].
Proof. split; vm_compute; reflexivity. Qed.

(** ** The response the client sees *)

(** The error middleware's answer to a thrown [HttpError]: its status
    and [{ error: message }]. *)
Definition error_message (e : HttpError) : string :=
  match e with
  | BadRequest m | Unauthorized m | Forbidden m | InternalServerError m => m
  end.

Definition error_response (e : HttpError) : Z * JVal :=
  (status_code e, JObj [("error", JStr (error_message e))]).

(** What [apiFetch] resolves to or rejects with. *)
Inductive ApiResult :=
| ApiOk (json : JVal)
| ApiError (code : option Z) (error : JVal).

(** [(json as { error }).error]: [undefined] when the body has none. *)
Definition error_field (j : JVal) : JVal :=
  match j with
  | JObj fs => match field "error" fs with Some v => v | None => JUndefined end
  | _ => JUndefined
  end.

(** The decoding half of [apiFetch], given the status and the parsed
    body ([None] when [res.json()] fails). *)
Definition decode_response (status : Z) (json : option JVal) : ApiResult :=
  match json with
  | None => ApiError None (JStr "JSON parse error")
  | Some j =>
      if bool_decide (status ∈ [400; 401; 403]) then ApiError (Some status) (error_field j)
      else if bool_decide (status ∈ [200; 304]) then ApiOk j
      else ApiError (Some status) (JStr ("Request got status code " +:+ pretty status))
  end.

(** The client sees the backend's status and message for every 400,
    401 and 403, and only the status for a 500. *)
Theorem client_sees_errors e :
  decode_response (error_response e).1 (Some (error_response e).2) =
    match e with
    | InternalServerError _ => ApiError (Some 500) (JStr "Request got status code 500")
    | _ => ApiError (Some (status_code e)) (JStr (error_message e))
    end.
Proof. destruct e; vm_compute; reflexivity. Qed.
