(* ===== verification/UI.v ===== *)
(** * The frontend's permission logic

    The React components decide from the backend's answers which menu
    entries and controls a user sees, and turn the user's choices into
    API calls.  This file models that logic on top of the handlers:

    - helper.ts: [getAuthenticatedToken] and [isGuest];
    - types/user.ts: the site and society permission enumerations and
      their conversions to the levels the perm endpoints take;
    - EventView/AdminMenu.tsx: [getPerms] and the menu's handlers;
    - Home/EventCardMenu.tsx and Home/HomeMenu.tsx: the event card's
      Edit Post entry and the home drawer's admin entries;
    - SocietyView/SocietyMenu.tsx: [getPerms], [handleJoinSociety] and
      [handleDeleteSociety];
    - EventView/AttendanceButton.tsx: the attending flag, its fetch and
      the click handler;
    - User/MemberList.tsx with MemberCard.tsx, and User/UserList.tsx:
      the permission tables and their Save buttons.

    An API call is the handler it reaches (Client.v shows that each API
    function reaches its handler with its arguments); a rejected call
    is the [ApiError] the client builds from the backend's answer.  A
    [useEffect] that throws leaves the component's state at its
    [useState] value.

    The theorems compare what the menus offer with what the backend
    allows: the event menu's Delete and Attendance Data entries are
    backed by the handlers, its Edit entry is not for a site admin, the
    event card agrees with the event menu, the home drawer's admin
    entries appear exactly for the users the admin endpoints accept,
    and the society menu offers entries the backend refuses.  The
    permission tables store what they show, and the attendance button
    stays in step with the backend over any number of clicks. *)

From S2P Require Import Prelude Validation Store Session Society Event Perm Admin Profile Client.
From stdpp Require Import pretty.
From Stdlib Require Import Ascii.

Open Scope Z_scope.

(** ** helper.ts *)

(** [localStorage.getItem(TOKEN_ACCESS_KEY)] is [None] for [null];
    [if (!authUserToken) return '']. *)
Definition getAuthenticatedToken (stored : option string) : string :=
  match stored with
  | Some t => if String.eqb t "" then "" else t
  | None => ""
  end.

(** [token === null] on the string [getAuthenticatedToken] returns. *)
Definition is_null (token : string) : bool := false.

Definition isGuest (token : string) : bool := String.eqb token "" || is_null token.

(** ** types/user.ts *)

Inductive Permission := SITE_ADMIN | MEMBER_P.

#[export] Instance Permission_eq_dec : EqDecision Permission.
Proof. solve_decision. Defined.

Definition permissionToPermissionLevel (p : Permission) : Z :=
  match p with SITE_ADMIN => 1 | MEMBER_P => 2 end.

Inductive SocietyPermission := SP_ADMIN | SP_MODERATOR | SP_MEMBER.

#[export] Instance SocietyPermission_eq_dec : EqDecision SocietyPermission.
Proof. solve_decision. Defined.

(** [None] is the [throw new Error('Invalid society permission value')]. *)
Definition stringToSocietyPermission (permission : string) : option SocietyPermission :=
  if String.eqb permission "admin" then Some SP_ADMIN
  else if String.eqb permission "moderator" then Some SP_MODERATOR
  else if String.eqb permission "member" then Some SP_MEMBER
  else None.

Definition societyPermissionToPermissionLevel (p : SocietyPermission) : Z :=
  match p with SP_ADMIN => 1 | SP_MODERATOR => 2 | SP_MEMBER => 3 end.

(** ** What the user sees of a failed call *)

(** [new ApiError(code, error)].message, [`ApiError: [${code}] ${error}`]. *)
Definition api_error_message (r : ApiResult) : string :=
  match r with
  | ApiOk _ => ""
  | ApiError code err =>
      "ApiError: [" +:+ match code with Some c => pretty c | None => "null" end +:+ "] " +:+
      js_to_string err
  end.

(** The message a [catch (err)] block shows for a handler's error. *)
Definition failure_text (e : HttpError) : string :=
  api_error_message (decode_response (error_response e).1 (Some (error_response e).2)).

(** The visible result of a click. *)
Inductive UiEffect :=
| Navigate (path : string)
| ShowError (msg : string)
| OpenDialog
| Confirmation
| Download (file : string).

(** [try { await call; ... } catch (err) { setErrorMsg(err.message);
    setShowError(true) }]. *)
Definition on_api {A} (c : ST Store A) (k : A -> UiEffect) : ST Store UiEffect :=
  fun st => match c st with
            | Done a st' => Done (k a) st'
            | Fail e st' => Done (ShowError (failure_text e)) st'
            end.

(** [try { ... } catch (err) { setErrorMsg(err.message); setShowError(true) }]
    in a page: the settled state on either path. *)
Definition settle {A B} (c : ST Store A) (ok : A -> B) (err : string -> B) : ST Store B :=
  fun st => match c st with
            | Done a st' => Done (ok a) st'
            | Fail e st' => Done (err (failure_text e)) st'
            end.

(** ** EventView/AdminMenu.tsx *)

Record MenuPerms := mkMenuPerms { canEdit : bool; canDelete : bool }.

Definition no_perms : MenuPerms := mkMenuPerms false false.

(** [arr.find((sid) => sid === id)] in a condition: the found number,
    falsy when it is [0], or [undefined]. *)
Definition find_truthy (l : list Z) (id : Z) : bool :=
  match List.find (fun sid => Z.eqb sid id) l with
  | Some sid => negb (Z.eqb sid 0)
  | None => false
  end.

Definition event_menu_perms (isSiteAdmin : bool) (userDetails : UserProfile) (numSocietyId : Z)
    : MenuPerms :=
  let isModerator := find_truthy (prof_modSocieties userDetails) numSocietyId in
  let isSocAdmin := find_truthy (prof_adminSocieties userDetails) numSocietyId in
  if isSiteAdmin || isSocAdmin then mkMenuPerms true true
  else if isModerator then mkMenuPerms true false
  else no_perms.

(** [getPerms]: the event, then the profile twice. *)
Definition adminMenu_getPerms (token : string) (eventId : Z) : ST Store MenuPerms :=
  if isGuest token then ret no_perms else
  ev <- getEvent eventId ;;
  p <- profileView token ;;
  userDetails <- profileView token ;;
  ret (event_menu_perms (prof_isSiteAdmin p) userDetails (info_societyId ev)).

(** The [canEdit]/[canDelete] state once [getPerms] has settled. *)
Definition settled_perms (o : outcome Store MenuPerms) : MenuPerms :=
  match o with Done p _ => p | Fail _ _ => no_perms end.

Definition adminMenu_perms (token : string) (eventId : Z) (st : Store) : MenuPerms :=
  settled_perms (adminMenu_getPerms token eventId st).

Definition handleEditEvent (token : string) (eventId : Z) : ST Store UiEffect :=
  if isGuest token then ret (ShowError "Guest users cannot edit events")
  else ret (Navigate ("/event/" +:+ pretty eventId +:+ "/edit")).

(** [handleAttendanceData]: once the CSV is written, the browser
    downloads [/attendance/event-<eventId>.csv]. *)
Definition handleAttendanceData (token : string) (eventId : Z) : ST Store UiEffect :=
  on_api (generateCSV token eventId)
    (fun _ => Download ("/attendance/event-" +:+ pretty eventId +:+ ".csv")).

Definition handleDeleteEvent (token : string) (eventId : Z) : ST Store UiEffect :=
  on_api (deleteEvent token eventId) (fun _ => Navigate "/home").

Definition handleOpenDeleteConfirmation (token : string) : ST Store UiEffect :=
  if isGuest token then ret (ShowError "Guest users cannot delete an event.")
  else ret OpenDialog.

(** The entries the menu renders, in order. *)
Definition adminMenu_items (perms : MenuPerms) : list string :=
  (if canEdit perms then ["Edit Event"] else []) ++
  ["Attendance Form"; "QR Code"] ++
  (if canEdit perms then ["Attendance Data"] else []) ++
  (if canDelete perms then ["Delete Event"] else []).

(** ** Home/EventCardMenu.tsx *)

(** [getPerms] of the event card: [canEdit] only. *)
Definition eventCardMenu_getPerms (token : string) (eventId : Z) : ST Store bool :=
  if isGuest token then ret false else
  ev <- getEvent eventId ;;
  p <- profileView token ;;
  userDetails <- profileView token ;;
  ret (prof_isSiteAdmin p || find_truthy (prof_modSocieties userDetails) (info_societyId ev) ||
       find_truthy (prof_adminSocieties userDetails) (info_societyId ev)).

Definition eventCardMenu_canEdit (token : string) (eventId : Z) (st : Store) : bool :=
  match eventCardMenu_getPerms token eventId st with Done b _ => b | Fail _ _ => false end.

Definition handleEditPost (eventId : Z) : UiEffect :=
  Navigate ("/event/" +:+ pretty eventId +:+ "/edit").

(** ** Home/HomeMenu.tsx *)

(** [fetchApplcations]: the [isAdmin] state and the error shown. *)
Definition homeMenu_fetch (token : string) : ST Store (bool * option string) :=
  if isGuest token then ret (false, None) else
  fun st => match profileView token st with
            | Done p st' => Done (prof_isSiteAdmin p, None) st'
            | Fail e st' => Done (false, Some (failure_text e)) st'
            end.

Definition homeMenu_isAdmin (token : string) (st : Store) : bool :=
  match homeMenu_fetch token st with Done (b, _) _ => b | Fail _ _ => false end.

(** The drawer's entries. *)
Definition homeMenu_items (token : string) (isAdmin : bool) : list string :=
  ["Home"] ++ (if isGuest token then [] else ["Create"]) ++ ["Societies"; "Events"] ++
  (if isAdmin then ["Users"; "Applications"] else []).

(** ** SocietyView/SocietyMenu.tsx *)

Definition society_menu_perms (isSiteAdmin : bool) (userDetails : UserProfile) (societyId : Z)
    : MenuPerms :=
  let isModerator := find_truthy (prof_modSocieties userDetails) societyId in
  let isSocAdmin := find_truthy (prof_adminSocieties userDetails) societyId in
  mkMenuPerms (isSiteAdmin || isModerator || isSocAdmin) (isSiteAdmin || isSocAdmin).

Definition societyMenu_getPerms (token : string) (societyId : Z) : ST Store MenuPerms :=
  if isGuest token then ret no_perms else
  p <- profileView token ;;
  userDetails <- profileView token ;;
  ret (society_menu_perms (prof_isSiteAdmin p) userDetails societyId).

Definition societyMenu_perms (token : string) (societyId : Z) (st : Store) : MenuPerms :=
  settled_perms (societyMenu_getPerms token societyId st).

Definition handleJoinSociety (token : string) (societyId : Z) : ST Store UiEffect :=
  if is_null token then ret (ShowError "Guest user cannot join a scoiety")
  else on_api (societyJoin token societyId) (fun _ => Confirmation).

(** [api.society.remove] reaches [societyDelete]; on success the
    confirmation opens and the page moves home. *)
Definition handleDeleteSociety (token : string) (societyId : Z) : ST Store UiEffect :=
  if is_null token then ret (ShowError "Guest user cannot delete a scoiety")
  else on_api (societyDelete token societyId) (fun _ => Navigate "/home").

Definition societyMenu_items (perms : MenuPerms) : list string :=
  ["Join Society"; "View Members"] ++
  (if canEdit perms then ["Create Event"; "Edit Society"] else []) ++
  (if canDelete perms then ["Delete Society"] else []).

(** ** User/MemberList.tsx and User/MemberCard.tsx *)

Record MemberToDisplay := mkMemberToDisplay {
  md_userId : Z; md_name : string; md_zId : string;
  md_permissions : SocietyPermission; md_originalPermissions : SocietyPermission
}.

Definition display_member (m : SocMember) : option MemberToDisplay :=
  perm ← stringToSocietyPermission (sm_role m);
  Some (mkMemberToDisplay (sm_userId m) (sm_nameFirst m +:+ " " +:+ sm_nameLast m) (sm_zId m) perm perm).

(** [fetchData]: a role that does not convert throws, and the list
    stays at its initial [[]]. *)
Definition memberList_fetchData (numSocietyId : Z) : ST Store (list MemberToDisplay) :=
  members <- societyMembers numSocietyId ;;
  ret (default [] (mapM display_member members)).

(** [fetchPermissions] computes the state [isSocietyAdmin], which holds
    the negation of its name: [true] hides the controls. *)
Definition memberList_fetchPermissions (token : string) (numSocietyId : Z) : ST Store bool :=
  if isGuest token then ret true else
  userDetails <- profileView token ;;
  ret (negb (prof_isSiteAdmin userDetails || find_truthy (prof_adminSocieties userDetails) numSocietyId)).

(** The state once [fetchPermissions] has settled: a failed profile
    read leaves [useState(false)]. *)
Definition memberList_isSocietyAdmin (token : string) (numSocietyId : Z) (st : Store) : bool :=
  match memberList_fetchPermissions token numSocietyId st with Done b _ => b | Fail _ _ => false end.

(** What a MemberCard renders beside the member's name. *)
Definition memberCard_controls (isSocietyAdmin : bool) : list string :=
  if isSocietyAdmin then [] else ["Permission"; "Reset"; "Save"].

Definition handleChangePermission (membersList : list MemberToDisplay)
    (updatedPermission : SocietyPermission) (userId : Z) : list MemberToDisplay :=
  map (fun user => if Z.eqb (md_userId user) userId
                   then mkMemberToDisplay (md_userId user) (md_name user) (md_zId user)
                          updatedPermission (md_originalPermissions user)
                   else user) membersList.

(** [handleResetPermission]: in a deep copy of the list, the first row
    with that id gets its original permission back. *)
Fixpoint handleResetPermission (membersList : list MemberToDisplay) (userId : Z) : list MemberToDisplay :=
  match membersList with
  | [] => []
  | user :: rest =>
      if Z.eqb (md_userId user) userId
      then mkMemberToDisplay (md_userId user) (md_name user) (md_zId user)
             (md_originalPermissions user) (md_originalPermissions user) :: rest
      else user :: handleResetPermission rest userId
  end.

(** [handleSavePermission] returns whether the "Permissions Saved"
    modal opens.  The call [api.perm.society.allocate] is not awaited:
    its writes happen and its rejection is ignored. *)
Definition handleSavePermission (token : string) (numSocietyId : Z)
    (membersList : list MemberToDisplay) (userId : Z) : ST Store bool :=
  if isGuest token then ret false else
  match List.find (fun u => Z.eqb (md_userId u) userId) membersList with
  | None => ret false
  | Some userToChange =>
      swallow (permSocietyAllocate token userId numSocietyId
                 (societyPermissionToPermissionLevel (md_permissions userToChange))) ;;;
      ret true
  end.

(** ** User/UserList.tsx *)

Record UserToDisplay := mkUserToDisplay {
  ud_id : Z; ud_name : string; ud_zId : string; ud_email : string;
  ud_permissions : Permission; ud_originalPermissions : Permission
}.

Definition display_user (u : UserInfo) : UserToDisplay :=
  let perm := if info_isAdmin u then SITE_ADMIN else MEMBER_P in
  mkUserToDisplay (info_id u) (info_nameFirst u +:+ " " +:+ info_nameLast u) (info_zId u)
    (info_email u) perm perm.

(** [fetchData]; on an error the list stays [[]]. *)
Definition userList_fetchData (authUserToken : string) : ST Store (list UserToDisplay) :=
  fun st => match adminGetUsers authUserToken st with
            | Done users st' => Done (map display_user users) st'
            | Fail _ st' => Done [] st'
            end.

Definition userList_handleChangePermission (userList : list UserToDisplay)
    (updatedPermission : Permission) (userId : Z) : list UserToDisplay :=
  map (fun user => if Z.eqb (ud_id user) userId
                   then mkUserToDisplay (ud_id user) (ud_name user) (ud_zId user) (ud_email user)
                          updatedPermission (ud_originalPermissions user)
                   else user) userList.

Fixpoint userList_handleResetPermission (userList : list UserToDisplay) (userId : Z) : list UserToDisplay :=
  match userList with
  | [] => []
  | user :: rest =>
      if Z.eqb (ud_id user) userId
      then mkUserToDisplay (ud_id user) (ud_name user) (ud_zId user) (ud_email user)
             (ud_originalPermissions user) (ud_originalPermissions user) :: rest
      else user :: userList_handleResetPermission rest userId
  end.

Definition userList_handleSavePermission (authUserToken : string) (userList : list UserToDisplay)
    (userId : Z) : ST Store bool :=
  match List.find (fun u => Z.eqb (ud_id u) userId) userList with
  | None => ret false
  | Some userToChange =>
      swallow (permSiteAllocate authUserToken userId
                 (permissionToPermissionLevel (ud_permissions userToChange))) ;;;
      ret true
  end.

(** [handleConfirmRemoveUser]: the list without the removed user, or
    the error popup. *)
Definition userList_handleConfirmRemoveUser (authUserToken : string) (userList : list UserToDisplay)
    (userToRemove : UserToDisplay) : ST Store (list UserToDisplay * option string) :=
  fun st => match adminUserRemove authUserToken (ud_id userToRemove) st with
            | Done _ st' => Done (List.filter (fun user => negb (Z.eqb (ud_id user) (ud_id userToRemove))) userList, None) st'
            | Fail e st' => Done (userList, Some (failure_text e)) st'
            end.

(** ** EventView/AttendanceButton.tsx *)

Record AttendanceButtonState := mkAttendanceButtonState {
  ab_attending : bool; ab_errorMsg : string; ab_showError : bool
}.

Definition attendanceButton_initial : AttendanceButtonState := mkAttendanceButtonState false "" false.

Definition with_error (e : HttpError) (s : AttendanceButtonState) : AttendanceButtonState :=
  mkAttendanceButtonState (ab_attending s) (failure_text e) true.

(** [try { await call; setAttending(!attending) } catch ...] *)
Definition toggle_after (c : ST Store unit) (s : AttendanceButtonState) : ST Store AttendanceButtonState :=
  fun st => match c st with
            | Done _ st' => Done (mkAttendanceButtonState (negb (ab_attending s)) (ab_errorMsg s) (ab_showError s)) st'
            | Fail e st' => Done (with_error e s) st'
            end.

Definition attendanceButton_attendEvent (token : string) (eventId : Z) (s : AttendanceButtonState) :=
  toggle_after (attendEvent token eventId) s.

Definition attendanceButton_unattendEvent (token : string) (eventId : Z) (s : AttendanceButtonState) :=
  toggle_after (unattendEvent token eventId) s.

Definition fetchAttendingStatus (token : string) (eventId : Z) (s : AttendanceButtonState)
    : ST Store AttendanceButtonState :=
  if isGuest token then ret (mkAttendanceButtonState false (ab_errorMsg s) (ab_showError s)) else
  fun st => match eventStatus token eventId st with
            | Done b st' => Done (mkAttendanceButtonState b (ab_errorMsg s) (ab_showError s)) st'
            | Fail e st' => Done (with_error e s) st'
            end.

Definition attendanceButton_handleClick (token : string) (eventId : Z) (s : AttendanceButtonState)
    : ST Store AttendanceButtonState :=
  if ab_attending s then attendanceButton_unattendEvent token eventId s
  else attendanceButton_attendEvent token eventId s.

(** The UTF-8 bytes of the label's emoji. *)
Definition check_mark : string :=
  Eval cbv in String (ascii_of_nat 226) (String (ascii_of_nat 156) (String (ascii_of_nat 133) EmptyString)).
Definition cross_mark : string :=
  Eval cbv in String (ascii_of_nat 226) (String (ascii_of_nat 157) (String (ascii_of_nat 140) EmptyString)).

Definition attendanceButton_label (s : AttendanceButtonState) : string :=
  (if ab_attending s then check_mark else cross_mark) +:+ " Attending".

(** [n] clicks, each waiting for the previous call to settle. *)
Fixpoint attendanceButton_clicks (n : nat) (token : string) (eventId : Z) (s : AttendanceButtonState)
    : ST Store AttendanceButtonState :=
  match n with
  | O => ret s
  | S n' => s' <- attendanceButton_handleClick token eventId s ;; attendanceButton_clicks n' token eventId s'
  end.

(** ** pages/ReviewApplicationsPage.tsx and Application/ApplicationDialog.tsx *)

Record ReviewPageState := mkReviewPageState {
  rp_applications : option (list ApplicationInfo);
  rp_selected : option ApplicationInfo;
  rp_modalOpen : bool;
  rp_errorMsg : string;
  rp_showError : bool
}.

(** [applications] starts [undefined] ("Loading data..."). *)
Definition reviewPage_initial : ReviewPageState := mkReviewPageState None None false "" false.

(** [fetchApplcations]: the list, newest first by [.reverse()]. *)
Definition reviewPage_fetch (authUserToken : string) (s : ReviewPageState) : ST Store ReviewPageState :=
  fun st => match adminApplicationList authUserToken st with
            | Done apps st' =>
                Done (mkReviewPageState (Some (rev apps)) (rp_selected s) (rp_modalOpen s)
                        (rp_errorMsg s) (rp_showError s)) st'
            | Fail e st' =>
                Done (mkReviewPageState (rp_applications s) (rp_selected s) (rp_modalOpen s)
                        (failure_text e) true) st'
            end.

Definition handleApplicationClick (application : ApplicationInfo) (s : ReviewPageState) : ReviewPageState :=
  mkReviewPageState (rp_applications s) (Some application) true (rp_errorMsg s) (rp_showError s).

Definition handleCloseModal (s : ReviewPageState) : ReviewPageState :=
  mkReviewPageState (rp_applications s) None false (rp_errorMsg s) (rp_showError s).

Record ApplicationDialogState := mkApplicationDialogState { ad_errorMsg : string; ad_showError : bool }.

(** [handleDeny] and [handleApprove]: the call, then
    [window.location.reload()] ([true]) or the error state. *)
Definition dialog_call {A} (c : ST Store A) (d : ApplicationDialogState)
    : ST Store (bool * ApplicationDialogState) :=
  fun st => match c st with
            | Done _ st' => Done (true, d) st'
            | Fail e st' => Done (false, mkApplicationDialogState (failure_text e) true) st'
            end.

Definition applicationDialog_handleApprove (authUserToken : string) (application : ApplicationInfo)
    (d : ApplicationDialogState) : ST Store (bool * ApplicationDialogState) :=
  dialog_call (adminApplicationApprove authUserToken (applicationId application)) d.

Definition applicationDialog_handleDeny (authUserToken : string) (application : ApplicationInfo)
    (d : ApplicationDialogState) : ST Store (bool * ApplicationDialogState) :=
  dialog_call (adminApplicationDeny authUserToken (applicationId application)) d.

(** A click on Approve ([true]) or Deny in the open dialog: the
    handler, then its [onClose()], the page's [handleCloseModal]. *)
Definition reviewPage_decide (approve : bool) (authUserToken : string) (s : ReviewPageState)
    (d : ApplicationDialogState) : ST Store (bool * ReviewPageState * ApplicationDialogState) :=
  match rp_selected s with
  | None => ret (false, s, d)
  | Some application =>
      r <- (if approve then applicationDialog_handleApprove authUserToken application d
            else applicationDialog_handleDeny authUserToken application d) ;;
      ret (r.1, handleCloseModal s, r.2)
  end.

(** The error popups on screen: the page's, and the dialog's while
    the modal is open with an application (ApplicationFormDialog
    renders nothing when it is closed). *)
Definition reviewPage_visible_errors (s : ReviewPageState) (d : ApplicationDialogState) : list string :=
  (if rp_showError s then [rp_errorMsg s] else []) ++
  (if rp_modalOpen s && bool_decide (is_Some (rp_selected s)) && ad_showError d then [ad_errorMsg d] else []).

(** ** What the menus show *)

Definition role_is (st : Store) (uid sid : Z) (r : string) : bool :=
  bool_decide (members st !! (uid, sid) = Some r).

Lemma find_eqb l id : List.find (fun sid => Z.eqb sid id) l = if bool_decide (id ∈ l) then Some id else None.
Proof.
  induction l as [|x l IH]; simpl; [done|]. rewrite IH.
  destruct (Z.eqb_spec x id) as [->|Hne].
  - rewrite bool_decide_true; [done|]. apply elem_of_cons. by left.
  - apply (f_equal (fun b : bool => if b then Some id else None)), bool_decide_ext.
    rewrite elem_of_cons. naive_solver.
Qed.

Lemma find_truthy_spec l id : id <> 0 -> find_truthy l id = bool_decide (id ∈ l).
Proof.
  intros Hid. unfold find_truthy. rewrite find_eqb.
  case_bool_decide; [by apply negb_true_iff, Z.eqb_neq|done].
Qed.

Lemma society_id_nonzero st sid soc : wf st -> societies st !! sid = Some soc -> sid <> 0.
Proof. intros Hwf Hs. pose proof (wf_society_ids _ Hwf _ _ Hs) as H. simpl in H. lia. Qed.

Lemma isGuest_false token : token <> "" -> isGuest token = false.
Proof. intros Ht. unfold isGuest, is_null. by rewrite (proj2 (String.eqb_neq _ _) Ht). Qed.

(** The profile's lists, searched for a society id, tell the caller's
    role in that society. *)
Lemma profile_find_roles st token uid u sid :
  wf st -> sessions st !! token = Some uid -> users st !! uid = Some u -> is_Some (societies st !! sid) ->
  exists p, profileView token st = Done p st /\ prof_isSiteAdmin p = isAdmin u /\
    find_truthy (prof_adminSocieties p) sid = role_is st uid sid "admin" /\
    find_truthy (prof_modSocieties p) sid = role_is st uid sid "moderator".
Proof.
  intros Hwf Hs Hu [soc Hso].
  destruct (profileView_spec st token uid u Hs Hu) as (p & Hp & _ & _ & Hadm & _ & HA & HM).
  exists p. rewrite !find_truthy_spec by exact (society_id_nonzero _ _ _ Hwf Hso).
  split_and!; [done|done|apply bool_decide_ext, HA|apply bool_decide_ext, HM].
Qed.

(** The two role tests in terms of the stored role. *)
Lemma role_flags st uid sid :
  wf st -> is_Some (societies st !! sid) ->
  (role_is st uid sid "admin" || role_is st uid sid "moderator" = has_elevated_access uid sid st) /\
  (role_is st uid sid "admin" = true -> has_elevated_access uid sid st = true).
Proof.
  intros _ _. unfold role_is, has_elevated_access, elevated_role.
  destruct (members st !! (uid, sid)) as [r|]; [|done].
  split; [|intros ?%bool_decide_eq_true; simplify_eq; done].
  destruct (String.eqb_spec r "admin"), (String.eqb_spec r "moderator"); subst; simpl;
    repeat case_bool_decide; simplify_eq; done.
Qed.

(** The event menu's state: Edit Event and Attendance Data for site
    admins and the society's admins and moderators, Delete Event for
    site admins and the society's admins. *)
Lemma adminMenu_perms_spec st token uid u eid e :
  wf st -> ev_wf st -> token <> "" -> sessions st !! token = Some uid -> users st !! uid = Some u ->
  events st !! eid = Some e ->
  adminMenu_perms token eid st =
    mkMenuPerms (isAdmin u || has_elevated_access uid (ev_societyId e) st)
                (isAdmin u || role_is st uid (ev_societyId e) "admin").
Proof.
  intros Hwf Hev Ht Hs Hu He. destruct (ev_wf_society_of _ _ _ Hev He) as [soc Hso].
  destruct (profile_find_roles st token uid u (ev_societyId e) Hwf Hs Hu) as (p & Hp & Hadm & HA & HM);
    [by eexists|].
  destruct (role_flags st uid (ev_societyId e) Hwf) as [Hel Hai]; [by eexists|].
  unfold adminMenu_perms, adminMenu_getPerms. rewrite isGuest_false by done.
  unfold getEvent. st_simpl. rewrite He. simpl. rewrite Hp. simpl. rewrite Hp. simpl.
  unfold event_menu_perms. rewrite Hadm, HA, HM, <- Hel.
  destruct (isAdmin u), (role_is st uid (ev_societyId e) "admin"),
    (role_is st uid (ev_societyId e) "moderator"); reflexivity.
Qed.

Lemma adminMenu_items_In perms :
  (In "Edit Event" (adminMenu_items perms) <-> canEdit perms = true) /\
  (In "Attendance Data" (adminMenu_items perms) <-> canEdit perms = true) /\
  (In "Delete Event" (adminMenu_items perms) <-> canDelete perms = true).
Proof. destruct perms as [[] []]; cbn; intuition (try discriminate). Qed.

(** A caller the backend lets delete an event deletes it. *)
Lemma deleteEvent_permitted st token uid u eid e :
  ev_wf st -> sessions st !! token = Some uid -> users st !! uid = Some u -> events st !! eid = Some e ->
  isAdmin u || has_elevated_access uid (ev_societyId e) st = true ->
  exists st', deleteEvent token eid st = Done tt st'.
Proof.
  intros Hev Hs Hu He Hok. destruct (ev_wf_society_of _ _ _ Hev He) as [soc Hso].
  unfold deleteEvent. rewrite validateSession_bind, Hs, Hu. st_simpl. rewrite He.
  unfold event_delete. destruct (isAdmin u); simpl in *.
  - rewrite He. by eexists.
  - rewrite Hso, Hok. simpl. rewrite He. by eexists.
Qed.

Lemma generateCSV_permitted st token uid u eid e :
  sessions st !! token = Some uid -> users st !! uid = Some u -> events st !! eid = Some e ->
  isAdmin u || has_elevated_access uid (ev_societyId e) st = true ->
  generateCSV token eid st = Done (csv_of (event_forms eid st)) st.
Proof.
  intros Hs Hu He Hok. unfold generateCSV. rewrite validateSession_bind, Hs, Hu. st_simpl.
  rewrite He. simpl. by rewrite Hok.
Qed.

(** (C10) The event menu's entries are backed by the backend: when the menu
    shows Delete Event, the deletion succeeds and leads home; when it
    shows Attendance Data, the CSV is written and downloaded. *)
Theorem adminMenu_entries_backed st token uid u eid e :
  wf st -> ev_wf st -> token <> "" -> sessions st !! token = Some uid -> users st !! uid = Some u ->
  events st !! eid = Some e ->
  (In "Delete Event" (adminMenu_items (adminMenu_perms token eid st)) ->
     exists st', handleDeleteEvent token eid st = Done (Navigate "/home") st') /\
  (In "Attendance Data" (adminMenu_items (adminMenu_perms token eid st)) ->
     handleAttendanceData token eid st =
       Done (Download ("/attendance/event-" +:+ pretty eid +:+ ".csv")) st).
Proof.
  intros Hwf Hev Ht Hs Hu He. rewrite (adminMenu_perms_spec st token uid u eid e) by done.
  destruct (role_flags st uid (ev_societyId e) Hwf) as [_ Hai];
    [exact (ev_wf_society_of _ _ _ Hev He)|].
  destruct (adminMenu_items_In (mkMenuPerms (isAdmin u || has_elevated_access uid (ev_societyId e) st)
                                (isAdmin u || role_is st uid (ev_societyId e) "admin")))
    as (_ & HA & HD).
  split; intros Hin%HA || intros Hin%HD; simpl in Hin.
  - assert (Hok : isAdmin u || has_elevated_access uid (ev_societyId e) st = true).
    { destruct (isAdmin u); [done|]. by apply Hai. }
    destruct (deleteEvent_permitted st token uid u eid e Hev Hs Hu He Hok) as [st' Hd].
    exists st'. unfold handleDeleteEvent, on_api. by rewrite Hd.
  - unfold handleAttendanceData, on_api. by rewrite (generateCSV_permitted st token uid u eid e).
Qed.

(** The event menu shows Edit Event to every site admin, and
    [editEvent] refuses a site admin who holds no admin or moderator
    membership of the event's society with 403: the edit form the entry
    opens cannot be saved. *)
Theorem adminMenu_edit_unbacked st token uid u eid e :
  wf st -> ev_wf st -> token <> "" -> sessions st !! token = Some uid -> users st !! uid = Some u ->
  isAdmin u = true -> events st !! eid = Some e -> has_elevated_access uid (ev_societyId e) st = false ->
  In "Edit Event" (adminMenu_items (adminMenu_perms token eid st)) /\
  handleEditEvent token eid st = Done (Navigate ("/event/" +:+ pretty eid +:+ "/edit")) st /\
  forall n d t l, editEvent token eid n d t l st = Fail insufficient_permissions st.
Proof.
  intros Hwf Hev Ht Hs Hu Ha He Hno. rewrite (adminMenu_perms_spec st token uid u eid e) by done.
  rewrite Ha. split_and!; [by apply adminMenu_items_In|unfold handleEditEvent; by rewrite isGuest_false|].
  intros n d t l. destruct (ev_wf_society_of _ _ _ Hev He) as [soc Hso].
  unfold editEvent. rewrite validateSession_bind, Hs, Hu. st_simpl. by rewrite He, Hso, Hno.
Qed.

(** The event card offers Edit Post exactly to the users the event
    page's menu offers Edit Event: the two components agree. *)
Theorem eventCardMenu_agrees_with_adminMenu st token uid u eid e :
  wf st -> ev_wf st -> token <> "" -> sessions st !! token = Some uid -> users st !! uid = Some u ->
  events st !! eid = Some e ->
  eventCardMenu_canEdit token eid st = canEdit (adminMenu_perms token eid st).
Proof.
  intros Hwf Hev Ht Hs Hu He. rewrite (adminMenu_perms_spec st token uid u eid e) by done.
  destruct (ev_wf_society_of _ _ _ Hev He) as [soc Hso].
  destruct (profile_find_roles st token uid u (ev_societyId e) Hwf Hs Hu) as (p & Hp & Hadm & HA & HM);
    [by eexists|].
  destruct (role_flags st uid (ev_societyId e) Hwf) as [Hel _]; [by eexists|].
  unfold eventCardMenu_canEdit, eventCardMenu_getPerms. rewrite isGuest_false by done.
  unfold getEvent. st_simpl. rewrite He. simpl. rewrite Hp. simpl. rewrite Hp. simpl.
  rewrite Hadm, HA, HM, <- Hel. simpl.
  destruct (isAdmin u), (role_is st uid (ev_societyId e) "admin"),
    (role_is st uid (ev_societyId e) "moderator"); reflexivity.
Qed.

Lemma homeMenu_items_In token b : token <> "" ->
  (In "Users" (homeMenu_items token b) <-> b = true) /\
  (In "Applications" (homeMenu_items token b) <-> b = true).
Proof.
  intros Ht. unfold homeMenu_items. rewrite isGuest_false by done.
  destruct b; cbn; intuition (try discriminate).
Qed.

(** The home drawer shows its Users and Applications entries exactly
    when the admin endpoints they lead to accept the token. *)
Theorem homeMenu_admin_entries_exact st token :
  wf st -> token <> "" ->
  (In "Users" (homeMenu_items token (homeMenu_isAdmin token st)) <-> error_of (adminGetUsers token st) = None) /\
  (In "Applications" (homeMenu_items token (homeMenu_isAdmin token st)) <->
     error_of (adminApplicationList token st) = None).
Proof.
  intros Hwf Ht. destruct (homeMenu_items_In token (homeMenu_isAdmin token st) Ht) as [-> ->].
  unfold homeMenu_isAdmin, homeMenu_fetch. rewrite isGuest_false by done. cbv beta iota.
  unfold adminGetUsers, adminApplicationList, profileView. rewrite !validateSession_bind.
  destruct (sessions st !! token) as [uid|] eqn:Hs; [|done].
  destruct (wf_sessions _ Hwf _ _ Hs) as [u Hu]. rewrite Hu. st_simpl.
  by destruct (isAdmin u).
Qed.

(** ** The society menu *)

Lemma societyMenu_items_In perms :
  (In "Create Event" (societyMenu_items perms) <-> canEdit perms = true) /\
  (In "Edit Society" (societyMenu_items perms) <-> canEdit perms = true) /\
  (In "Delete Society" (societyMenu_items perms) <-> canDelete perms = true).
Proof. destruct perms as [[] []]; cbn; intuition (try discriminate). Qed.

(** The society menu's state: Create Event and Edit Society for site
    admins and the society's admins and moderators, Delete Society for
    site admins and the society's admins. *)
Lemma societyMenu_perms_spec st token uid u sid :
  wf st -> token <> "" -> sessions st !! token = Some uid -> users st !! uid = Some u ->
  is_Some (societies st !! sid) ->
  societyMenu_perms token sid st =
    mkMenuPerms (isAdmin u || has_elevated_access uid sid st) (isAdmin u || role_is st uid sid "admin").
Proof.
  intros Hwf Ht Hs Hu Hso.
  destruct (profile_find_roles st token uid u sid Hwf Hs Hu Hso) as (p & Hp & Hadm & HA & HM).
  destruct (role_flags st uid sid Hwf Hso) as [Hel _].
  unfold societyMenu_perms, societyMenu_getPerms. rewrite isGuest_false by done.
  st_simpl. rewrite Hp. simpl. rewrite Hp. simpl.
  unfold society_menu_perms. rewrite Hadm, HA, HM, <- Hel.
  destruct (isAdmin u), (role_is st uid sid "admin"), (role_is st uid sid "moderator"); reflexivity.
Qed.

(** The society menu shows Delete Society to the society's own admins,
    and confirming it as an admin who is not a site admin shows the
    backend's 403 and deletes nothing: [societyDelete] is for site
    admins only. *)
Theorem societyMenu_delete_unbacked st token uid u sid :
  wf st -> token <> "" -> sessions st !! token = Some uid -> users st !! uid = Some u ->
  isAdmin u = false -> is_Some (societies st !! sid) -> members st !! (uid, sid) = Some "admin" ->
  In "Delete Society" (societyMenu_items (societyMenu_perms token sid st)) /\
  handleDeleteSociety token sid st =
    Done (ShowError (failure_text (Forbidden "Insufficient permissions"))) st.
Proof.
  intros Hwf Ht Hs Hu Ha [soc Hso] Hm.
  rewrite (societyMenu_perms_spec st token uid u sid) by (done || by eexists).
  split.
  - apply societyMenu_items_In. simpl. unfold role_is. rewrite Ha, Hm. by rewrite bool_decide_true.
  - unfold handleDeleteSociety, is_null, on_api, societyDelete. rewrite validateSession_bind, Hs, Hu.
    st_simpl. by rewrite Hso, Ha.
Qed.

(** The society menu shows Edit Society to the society's moderators,
    and [societyEdit] refuses a moderator who is not a site admin with
    403: only the role 'admin' may edit. *)
Theorem societyMenu_edit_unbacked st token uid u sid n d :
  wf st -> token <> "" -> sessions st !! token = Some uid -> users st !! uid = Some u ->
  isAdmin u = false -> is_Some (societies st !! sid) -> members st !! (uid, sid) = Some "moderator" ->
  In "Edit Society" (societyMenu_items (societyMenu_perms token sid st)) /\
  societyEdit token sid n d st = Fail (Forbidden "Insufficient permisisons") st.
Proof.
  intros Hwf Ht Hs Hu Ha [soc Hso] Hm.
  rewrite (societyMenu_perms_spec st token uid u sid) by (done || by eexists).
  split.
  - apply societyMenu_items_In. simpl. unfold has_elevated_access. by rewrite Ha, Hm.
  - unfold societyEdit. rewrite validateSession_bind, Hs, Hu. st_simpl. by rewrite Hso, Hm, Ha.
Qed.

(** The guard [token === null] of [handleJoinSociety] never fires: a
    logged-out user's token is [''], which [isGuest] recognises, but
    the click sends it to [societyJoin] and shows the backend's 401
    instead of the guard's message. *)
Theorem guest_join_reaches_backend st sid :
  sessions st !! "" = None ->
  isGuest (getAuthenticatedToken None) = true /\
  handleJoinSociety (getAuthenticatedToken None) sid st = Done (ShowError (failure_text invalid_token)) st.
Proof.
  intros Hs. split; [done|]. unfold handleJoinSociety, is_null, on_api, societyJoin. simpl.
  st_simpl. by rewrite Hs.
Qed.

(** ** The permission tables *)

Lemma societyPermReverter_ge1 s : 1 <= societyPermReverter s.
Proof. unfold societyPermReverter, ADMIN, MODERATOR, MEMBER. repeat case_match; lia. Qed.

Lemma societyPermissionToPermissionLevel_range sp : 1 <= societyPermissionToPermissionLevel sp <= 3.
Proof. destruct sp; simpl; lia. Qed.

(** A site admin, or an admin of the society, sets any member's level. *)
Lemma permSocietyAllocate_by_admin st token uid u target sid lvl r :
  sessions st !! token = Some uid -> users st !! uid = Some u -> is_Some (users st !! target) ->
  is_Some (societies st !! sid) -> members st !! (target, sid) = Some r ->
  isAdmin u || role_is st uid sid "admin" = true -> 1 <= lvl <= 3 ->
  permSocietyAllocate token target sid lvl st =
    Done tt (set_members (insert (target, sid) (societyPermConverter lvl)) st).
Proof.
  intros Hs Hu [tu Htu] [soc Hso] Hm Hok Hl. unfold permSocietyAllocate.
  rewrite validateSession_bind, Hs, Hu. st_simpl. rewrite Htu, Hso, level_check_true by done.
  simpl. rewrite Hm. simpl. unfold member_update_role. destruct (isAdmin u); simpl.
  - by rewrite Hm.
  - unfold role_is in Hok. apply bool_decide_eq_true in Hok. rewrite Hok. simpl.
    rewrite !negb_gtb. change (societyPermReverter "admin") with 1.
    rewrite (proj2 (Z.leb_le 1 (societyPermReverter r)) (societyPermReverter_ge1 r)),
      (proj2 (Z.leb_le 1 lvl) (proj1 Hl)). simpl. by rewrite Hm.
Qed.

(** [list.find((u) => u.id === id)] after [handleChangePermission]'s
    [list.map]: the first row with that id, updated. *)
Lemma find_updated {A} (key : A -> Z) (upd : A -> A) l k :
  (forall x, key (upd x) = key x) -> (exists x, In x l /\ key x = k) ->
  exists x, key x = k /\
    List.find (fun y => Z.eqb (key y) k) (map (fun y => if Z.eqb (key y) k then upd y else y) l) = Some (upd x).
Proof.
  intros Hkey (m & Hin & Hid). induction l as [|x l IH]; [done|]. simpl.
  destruct (Z.eqb_spec (key x) k) as [Hx|Hx]; simpl.
  - rewrite Hkey, Hx, Z.eqb_refl. by exists x.
  - destruct (Z.eqb_spec (key x) k); [done|]. apply IH. destruct Hin as [->|]; done.
Qed.

Lemma find_changed ml sp target :
  (exists m, In m ml /\ md_userId m = target) ->
  exists m', List.find (fun u => Z.eqb (md_userId u) target) (handleChangePermission ml sp target) = Some m' /\
    md_permissions m' = sp.
Proof.
  intros Hml. destruct (find_updated md_userId
    (fun user => mkMemberToDisplay (md_userId user) (md_name user) (md_zId user) sp (md_originalPermissions user))
    ml target (fun _ => eq_refl) Hml) as (x & _ & Hf).
  by eexists.
Qed.

Lemma find_changed_user ul p target :
  (exists x, In x ul /\ ud_id x = target) ->
  exists x', List.find (fun u => Z.eqb (ud_id u) target) (userList_handleChangePermission ul p target) = Some x' /\
    ud_permissions x' = p.
Proof.
  intros Hul. destruct (find_updated ud_id
    (fun user => mkUserToDisplay (ud_id user) (ud_name user) (ud_zId user) (ud_email user) p
                   (ud_originalPermissions user))
    ul target (fun _ => eq_refl) Hul) as (x & _ & Hf).
  by eexists.
Qed.

(** The member table's controls: shown to site admins and the
    society's admins, hidden from everyone else. *)
Lemma memberList_isSocietyAdmin_spec st token uid u sid :
  wf st -> token <> "" -> sessions st !! token = Some uid -> users st !! uid = Some u ->
  is_Some (societies st !! sid) ->
  memberList_isSocietyAdmin token sid st = negb (isAdmin u || role_is st uid sid "admin").
Proof.
  intros Hwf Ht Hs Hu Hso.
  destruct (profile_find_roles st token uid u sid Hwf Hs Hu Hso) as (p & Hp & Hadm & HA & _).
  unfold memberList_isSocietyAdmin, memberList_fetchPermissions. rewrite isGuest_false by done.
  st_simpl. rewrite Hp. simpl. by rewrite Hadm, HA.
Qed.

(** (C14) Saving a member's level from the member table stores the role the
    table then shows: when the controls are shown to the logged-in
    user and the chosen member belongs to the society, the save opens
    the "Permissions Saved" modal, the backend writes the role, and that
    role converts back to the permission chosen in the table. *)
Theorem memberList_save_roundtrip st token uid u sid ml target r sp :
  wf st -> token <> "" -> sessions st !! token = Some uid -> users st !! uid = Some u ->
  is_Some (societies st !! sid) -> members st !! (target, sid) = Some r ->
  memberCard_controls (memberList_isSocietyAdmin token sid st) <> [] ->
  (exists m, In m ml /\ md_userId m = target) ->
  exists st', handleSavePermission token sid (handleChangePermission ml sp target) target st = Done true st' /\
    exists r', members st' !! (target, sid) = Some r' /\ stringToSocietyPermission r' = Some sp.
Proof.
  intros Hwf Ht Hs Hu Hso Hm Hc Hml.
  rewrite (memberList_isSocietyAdmin_spec st token uid u sid) in Hc by done.
  assert (Hok : isAdmin u || role_is st uid sid "admin" = true).
  { by destruct (isAdmin u || role_is st uid sid "admin"). }
  destruct (find_changed ml sp target Hml) as (m' & Hf & Hp).
  unfold handleSavePermission. rewrite isGuest_false, Hf by done. st_simpl.
  rewrite (permSocietyAllocate_by_admin st token uid u target sid _ r); try done.
  - eexists. split; [reflexivity|]. simpl. rewrite lookup_insert_eq. eexists. split; [done|].
    subst sp. by destruct (md_permissions m').
  - exact (proj1 (wf_members _ Hwf _ _ Hm)).
  - apply societyPermissionToPermissionLevel_range.
Qed.

(** With a stale token (one the backend no longer knows) the member
    table shows its controls, since the failed profile read leaves the
    state at [false]; saving then opens the "Permissions Saved" modal
    although the backend refused the change and the store is unchanged. *)
Theorem memberList_stale_token_fail_open st token sid ml target :
  token <> "" -> sessions st !! token = None ->
  (exists m, In m ml /\ md_userId m = target) ->
  memberCard_controls (memberList_isSocietyAdmin token sid st) = ["Permission"; "Reset"; "Save"] /\
  forall sp, handleSavePermission token sid (handleChangePermission ml sp target) target st = Done true st.
Proof.
  intros Ht Hs Hml. split.
  - unfold memberList_isSocietyAdmin, memberList_fetchPermissions, profileView.
    rewrite isGuest_false by done. unfold validateSession. st_simpl. by rewrite Hs.
  - intros sp. destruct (find_changed ml sp target Hml) as (m' & Hf & _).
    unfold handleSavePermission. rewrite isGuest_false, Hf by done. st_simpl.
    unfold permSocietyAllocate, validateSession. st_simpl. by rewrite Hs.
Qed.

(** Reset undoes a change: in a freshly loaded member table (every row
    shows its original permission, one row per user), changing a
    member's permission and then pressing Reset gives the table back. *)
Theorem memberList_reset_undoes_change ml sp target :
  NoDup (md_userId <$> ml) -> Forall (fun m => md_permissions m = md_originalPermissions m) ml ->
  handleResetPermission (handleChangePermission ml sp target) target = ml.
Proof.
  induction ml as [|[i n z p o] ml IH]; intros Hnd Hf; [done|].
  rewrite fmap_cons in Hnd. apply NoDup_cons in Hnd as [Hni Hnd].
  apply Forall_cons in Hf as [Hp Hf]. cbn in Hp, Hni.
  unfold handleChangePermission in *. cbn [map handleResetPermission md_userId].
  destruct (Z.eqb_spec i target) as [->|Hne]; cbn [handleResetPermission md_userId].
  - rewrite Z.eqb_refl. cbn. rewrite Hp. f_equal. rewrite <- (map_id ml) at 2.
    apply map_ext_in. intros [i' n' z' p' o'] Hin. cbn.
    destruct (Z.eqb_spec i' target) as [->|]; [|done].
    destruct Hni. apply list_elem_of_fmap. exists (mkMemberToDisplay target n' z' p' o').
    split; [done|]. by apply list_elem_of_In.
  - rewrite (proj2 (Z.eqb_neq _ _) Hne). f_equal. by apply IH.
Qed.

(** Saving a user's permission from the site's user table stores the
    flag the table then shows: for a site admin, the save opens the
    "Permissions Saved" modal and the reloaded row of the user shows
    the permission chosen. *)
Theorem userList_save_roundtrip st token uid u ul target tu p :
  sessions st !! token = Some uid -> users st !! uid = Some u -> isAdmin u = true ->
  users st !! target = Some tu -> (exists x, In x ul /\ ud_id x = target) ->
  exists st', userList_handleSavePermission token (userList_handleChangePermission ul p target) target st =
      Done true st' /\
    exists tu', users st' !! target = Some tu' /\ ud_permissions (display_user (user_info (target, tu'))) = p.
Proof.
  intros Hs Hu Ha Ht Hul. destruct (find_changed_user ul p target Hul) as (x & Hf & Hp).
  unfold userList_handleSavePermission. rewrite Hf. unfold permSiteAllocate. st_simpl.
  rewrite Hs, Ht. subst p.
  destruct (ud_permissions x); simpl; rewrite Hu, Ha; simpl; unfold user_update_isAdmin; rewrite Ht;
    (eexists; split; [reflexivity|]); simpl; (eexists; split; [apply lookup_insert_eq|done]).
Qed.

(** The frontend's society permissions and the backend's levels agree:
    a role the backend stores converts to the permission whose level
    the backend's [societyPermReverter] gives, and a permission saved
    through its level reads back as itself. *)
Theorem society_levels_agree :
  (forall r, valid_role r -> exists sp, stringToSocietyPermission r = Some sp /\
     societyPermissionToPermissionLevel sp = societyPermReverter r) /\
  (forall sp, stringToSocietyPermission (societyPermConverter (societyPermissionToPermissionLevel sp)) = Some sp).
Proof.
  split.
  - intros r [->|[->| ->]]; eexists; split; reflexivity.
  - by intros [].
Qed.

(** ** The attendance button *)

(** The button agrees with the backend: its flag is the stored
    attendance and no error is shown. *)
Definition ab_synced (token : string) (eventId : Z) (st : Store) (s : AttendanceButtonState) : Prop :=
  eventStatus token eventId st = Done (ab_attending s) st /\ ab_showError s = false.

Lemma attendanceButton_click_synced st token uid u eid e s :
  sessions st !! token = Some uid -> users st !! uid = Some u -> events st !! eid = Some e ->
  ab_synced token eid st s ->
  exists s' st', attendanceButton_handleClick token eid s st = Done s' st' /\
    sessions st' = sessions st /\ users st' = users st /\ events st' = events st /\
    ab_synced token eid st' s'.
Proof.
  intros Hs Hu He [Hst Herr]. rewrite (eventStatus_Done st _ _ _ _ _ Hs Hu He) in Hst.
  injection Hst as Hst.
  unfold attendanceButton_handleClick, attendanceButton_unattendEvent, attendanceButton_attendEvent,
    toggle_after.
  destruct (ab_attending s) eqn:Ha.
  - assert (Hin : (uid, eid) ∈ attending st) by exact (bool_decide_eq_true_1 _ Hst).
    rewrite (unattendEvent_run st _ _ _ _ _ Hs Hu He), bool_decide_true by done.
    do 2 eexists. split; [reflexivity|].
    split_and!; try done. split; [|done]. cbn [ab_attending negb].
    rewrite (eventStatus_Done (set_attending _ st) token uid u eid e Hs Hu He).
    by rewrite bool_decide_false by (simpl; set_solver).
  - rewrite (attendEvent_Done st _ _ _ _ _ Hs Hu He). do 2 eexists. split; [reflexivity|].
    split_and!; try done. split; [|done]. cbn [ab_attending negb].
    rewrite (eventStatus_Done (set_attending _ st) token uid u eid e Hs Hu He).
    by rewrite bool_decide_true by (simpl; set_solver).
Qed.

Lemma attendanceButton_clicks_synced n st token uid u eid e s :
  sessions st !! token = Some uid -> users st !! uid = Some u -> events st !! eid = Some e ->
  ab_synced token eid st s ->
  exists s' st', attendanceButton_clicks n token eid s st = Done s' st' /\ ab_synced token eid st' s'.
Proof.
  revert st s. induction n as [|n IH]; intros st s Hs Hu He Hsync; [by exists s, st|].
  destruct (attendanceButton_click_synced st token uid u eid e s Hs Hu He Hsync)
    as (s1 & st1 & Hc & Hs1 & Hu1 & He1 & Hsync1).
  simpl. unfold st_bind. rewrite Hc.
  apply (IH st1 s1); [by rewrite Hs1|by rewrite Hu1|by rewrite He1|done].
Qed.

(** (C33) The attendance button never goes out of step with the backend for a
    logged-in user on an existing event: after the status is fetched
    and after any number of clicks, the button shows exactly what
    [eventStatus] answers, and no click shows an error. *)
Theorem attendanceButton_in_sync st token uid u eid e n :
  token <> "" -> sessions st !! token = Some uid -> users st !! uid = Some u -> events st !! eid = Some e ->
  exists s' st',
    (s0 <- fetchAttendingStatus token eid attendanceButton_initial ;;
     attendanceButton_clicks n token eid s0) st = Done s' st' /\
    eventStatus token eid st' = Done (ab_attending s') st' /\ ab_showError s' = false.
Proof.
  intros Ht Hs Hu He. unfold fetchAttendingStatus. rewrite isGuest_false by done.
  unfold st_bind. cbv beta iota. rewrite (eventStatus_Done st _ _ _ _ _ Hs Hu He).
  apply (attendanceButton_clicks_synced n st token uid u eid e); [done..|].
  split; [|done]. simpl. apply (eventStatus_Done st _ _ _ _ _ Hs Hu He).
Qed.

(** ** The application review *)

(** A refused decision is never shown: when the backend refuses the
    approval of the selected application, the dialog records the error
    but its [onClose()] unmounts it with its popup, and the page does
    not reload, so the admin sees no error and no change. *)
Theorem review_refusal_hidden token s d application st e :
  rp_selected s = Some application -> rp_showError s = false ->
  adminApplicationApprove token (applicationId application) st = Fail e st ->
  exists s' d', reviewPage_decide true token s d st = Done (false, s', d') st /\
    ad_showError d' = true /\ ad_errorMsg d' = failure_text e /\ reviewPage_visible_errors s' d' = [].
Proof.
  intros Hsel Herr Hfail. unfold reviewPage_decide. rewrite Hsel.
  unfold applicationDialog_handleApprove, dialog_call, st_bind. rewrite Hfail.
  do 2 eexists. split; [reflexivity|]. split_and!; [done|done|].
  unfold reviewPage_visible_errors. simpl. by rewrite Herr.
Qed.

(** ** Witnesses *)

Lemma wf_event_demo : wf event_demo.
Proof. apply wfb_wf. vm_compute. reflexivity. Qed.

Definition cat_row : MemberToDisplay :=
  mkMemberToDisplay 3 "cat stevens" "z3333333" SP_MEMBER SP_MEMBER.

Definition bob_row : UserToDisplay :=
  mkUserToDisplay 2 "bob ross" "z2222222" "bob@unsw.edu" MEMBER_P MEMBER_P.

Lemma adminMenu_entries_backed_witness :
  (In "Delete Event" (adminMenu_items (adminMenu_perms "tok2" 1 event_demo)) ->
     exists st', handleDeleteEvent "tok2" 1 event_demo = Done (Navigate "/home") st') /\
  (In "Attendance Data" (adminMenu_items (adminMenu_perms "tok2" 1 event_demo)) ->
     handleAttendanceData "tok2" 1 event_demo =
       Done (Download ("/attendance/event-" +:+ pretty 1%Z +:+ ".csv")) event_demo).
Proof.
  apply (adminMenu_entries_backed event_demo "tok2" 2 bob 1 opening_night);
    [exact wf_event_demo|exact ev_wf_event_demo|discriminate|reflexivity..].
Defined.

Lemma adminMenu_edit_unbacked_witness :
  In "Edit Event" (adminMenu_items (adminMenu_perms "tok1" 1 event_demo)) /\
  handleEditEvent "tok1" 1 event_demo = Done (Navigate ("/event/" +:+ pretty 1%Z +:+ "/edit")) event_demo /\
  forall n d t l, editEvent "tok1" 1 n d t l event_demo = Fail insufficient_permissions event_demo.
Proof.
  apply (adminMenu_edit_unbacked event_demo "tok1" 1 ada 1 opening_night);
    [exact wf_event_demo|exact ev_wf_event_demo|discriminate|reflexivity..].
Defined.

Lemma societyMenu_delete_unbacked_witness :
  In "Delete Society" (societyMenu_items (societyMenu_perms "tok2" 1 demo_store)) /\
  handleDeleteSociety "tok2" 1 demo_store =
    Done (ShowError (failure_text (Forbidden "Insufficient permissions"))) demo_store.
Proof.
  apply (societyMenu_delete_unbacked demo_store "tok2" 2 bob 1);
    [exact wf_demo_store|discriminate|reflexivity|reflexivity|reflexivity|by eexists|reflexivity].
Defined.

Lemma societyMenu_edit_unbacked_witness :
  In "Edit Society" (societyMenu_items (societyMenu_perms "tok3" 1 event_demo)) /\
  societyEdit "tok3" 1 "Chess Club" "chess" event_demo =
    Fail (Forbidden "Insufficient permisisons") event_demo.
Proof.
  apply (societyMenu_edit_unbacked event_demo "tok3" 3
           (mkUser "cat@unsw.edu" "cat" "stevens" "hash:pw3" "z3333333" false) 1);
    [exact wf_event_demo|discriminate|reflexivity|reflexivity|reflexivity|by eexists|reflexivity].
Defined.

Lemma guest_join_reaches_backend_witness :
  isGuest (getAuthenticatedToken None) = true /\
  handleJoinSociety (getAuthenticatedToken None) 1 demo_store =
    Done (ShowError "ApiError: [401] Invalid token") demo_store.
Proof.
  destruct (guest_join_reaches_backend demo_store 1) as [Hg Hj]; [reflexivity|].
  split; [exact Hg|]. rewrite Hj. vm_compute. reflexivity.
Defined.

Lemma memberList_save_roundtrip_witness :
  exists st', handleSavePermission "tok2" 1 (handleChangePermission [cat_row] SP_ADMIN 3) 3 demo_store
      = Done true st' /\
    exists r', members st' !! (3, 1) = Some r' /\ stringToSocietyPermission r' = Some SP_ADMIN.
Proof.
  apply (memberList_save_roundtrip demo_store "tok2" 2 bob 1 [cat_row] 3 "member" SP_ADMIN);
    [exact wf_demo_store|discriminate|reflexivity|reflexivity|by eexists|reflexivity|
     vm_compute; discriminate|exists cat_row; split; [left|]; reflexivity].
Defined.

Lemma memberList_stale_token_fail_open_witness :
  memberCard_controls (memberList_isSocietyAdmin "expired" 1 demo_store) = ["Permission"; "Reset"; "Save"] /\
  forall sp, handleSavePermission "expired" 1 (handleChangePermission [cat_row] sp 3) 3 demo_store
    = Done true demo_store.
Proof.
  apply (memberList_stale_token_fail_open demo_store "expired" 1 [cat_row] 3);
    [discriminate|reflexivity|exists cat_row; split; [left|]; reflexivity].
Defined.

Lemma userList_save_roundtrip_witness :
  exists st', userList_handleSavePermission "tok1" (userList_handleChangePermission [bob_row] SITE_ADMIN 2) 2
      demo_store = Done true st' /\
    exists tu', users st' !! 2 = Some tu' /\ ud_permissions (display_user (user_info (2, tu'))) = SITE_ADMIN.
Proof.
  apply (userList_save_roundtrip demo_store "tok1" 1 ada [bob_row] 2 bob SITE_ADMIN);
    [reflexivity..|exists bob_row; split; [left|]; reflexivity].
Defined.

Lemma society_levels_agree_witness :
  (exists sp, stringToSocietyPermission "moderator" = Some sp /\
     societyPermissionToPermissionLevel sp = societyPermReverter "moderator") /\
  stringToSocietyPermission (societyPermConverter (societyPermissionToPermissionLevel SP_MODERATOR))
    = Some SP_MODERATOR.
Proof.
  split; [apply (proj1 society_levels_agree); right; left; reflexivity|apply (proj2 society_levels_agree)].
Defined.

Lemma memberList_reset_undoes_change_witness :
  handleResetPermission (handleChangePermission [cat_row] SP_ADMIN 3) 3 = [cat_row].
Proof.
  apply memberList_reset_undoes_change; [simpl; apply NoDup_singleton|repeat constructor].
Defined.

Lemma attendanceButton_in_sync_witness :
  exists s' st',
    (s0 <- fetchAttendingStatus "tok3" 1 attendanceButton_initial ;;
     attendanceButton_clicks 3 "tok3" 1 s0) event_demo = Done s' st' /\
    eventStatus "tok3" 1 st' = Done (ab_attending s') st' /\ ab_showError s' = false.
Proof.
  apply (attendanceButton_in_sync event_demo "tok3" 3
           (mkUser "cat@unsw.edu" "cat" "stevens" "hash:pw3" "z3333333" false) 1 opening_night 3);
    [discriminate|reflexivity..].
Defined.

Lemma eventCardMenu_agrees_with_adminMenu_witness :
  eventCardMenu_canEdit "tok1" 1 event_demo = canEdit (adminMenu_perms "tok1" 1 event_demo).
Proof.
  apply (eventCardMenu_agrees_with_adminMenu event_demo "tok1" 1 ada 1 opening_night);
    [exact wf_event_demo|exact ev_wf_event_demo|discriminate|reflexivity..].
Defined.

Lemma homeMenu_admin_entries_exact_witness :
  (In "Users" (homeMenu_items "tok2" (homeMenu_isAdmin "tok2" demo_store)) <->
     error_of (adminGetUsers "tok2" demo_store) = None) /\
  (In "Applications" (homeMenu_items "tok2" (homeMenu_isAdmin "tok2" demo_store)) <->
     error_of (adminApplicationList "tok2" demo_store) = None).
Proof. apply homeMenu_admin_entries_exact; [exact wf_demo_store|discriminate]. Defined.

(** The demo store after the Go Club's application is approved. *)
Definition approved_demo : Store := state_of (adminApplicationApprove "tok1" 1 demo_store).

Definition go_club_info : ApplicationInfo := mkApplicationInfo 1 "Go Club" "go" 3 "approved".

Lemma review_refusal_hidden_witness :
  exists s' d',
    reviewPage_decide true "tok1" (handleApplicationClick go_club_info reviewPage_initial)
      (mkApplicationDialogState "" false) approved_demo = Done (false, s', d') approved_demo /\
    ad_showError d' = true /\ ad_errorMsg d' = failure_text (BadRequest "Invalid applicationId") /\
    reviewPage_visible_errors s' d' = [].
Proof.
  apply (review_refusal_hidden "tok1" (handleApplicationClick go_club_info reviewPage_initial)
           (mkApplicationDialogState "" false) go_club_info approved_demo); reflexivity.
Defined.
