(* ===== verification/AuthPages.v ===== *)
(** * The authentication pages and the stored token

    The browser keeps the session token in [localStorage] under the
    key ["token"] (helper.ts); every page reads it with
    [getAuthenticatedToken] and tests it with [isGuest].  This file
    models that storage next to the backend's store, as the pair
    [Browser], and the components that write it:

    - Auth/LoginForm.tsx: [login] and the GUEST ACCESS button;
    - Auth/RegisterForm.tsx: [register];
    - Home/ProfileMenu.tsx: [handleLogout] and [handleProfileView];
    - Auth/RecoverForm.tsx and Auth/ResetForm.tsx: the password reset
      forms, whose calls are not awaited.

    [browser_step] is one of these user actions; [browser_reachable]
    its reflexive-transitive closure (stdpp [rtc]).  The theorems show
    that a login followed by a logout gives back the backend's store
    and leaves the browser a guest, that the token a page reads is a
    live session or the guest's empty string in every reachable
    browser, and that the reset form sends the user to the login page
    without a word when the backend refuses the code. *)

From S2P Require Import Prelude Validation Store Session Auth Reset Profile Client UI.

Open Scope Z_scope.

(** ** The browser's storage beside the backend *)

Record Browser := mkBrowser {
  stored_token : option string;  (** [localStorage.getItem('token')] *)
  server : Store
}.

(** What [getAuthenticatedToken()] returns in this browser. *)
Definition current_token (b : Browser) : string := getAuthenticatedToken (stored_token b).

(** A call to the backend: the browser's storage is untouched. *)
Definition on_server {A} (c : ST Store A) : ST Browser A :=
  fun b => match c (server b) with
           | Done a s => Done a (mkBrowser (stored_token b) s)
           | Fail e s => Fail e (mkBrowser (stored_token b) s)
           end.

Definition setAuthenticatedToken (token : string) : ST Browser unit :=
  modify (fun b => mkBrowser (Some token) (server b)).

Definition removeAuthenticatedToken : ST Browser unit :=
  modify (fun b => mkBrowser None (server b)).

(** [try { ... } catch (err) { setErrorMsg(err.message); setShowError(true) }]. *)
Definition try_catch {A} (c : ST Browser A) (k : A -> ST Browser UiEffect) : ST Browser UiEffect :=
  fun b => match c b with
           | Done a b' => k a b'
           | Fail e b' => Done (ShowError (failure_text e)) b'
           end.

Section Pages.
Context `{EmailValidator} `{PasswordHasher}.

(** ** Auth/LoginForm.tsx *)

Definition loginForm_login (email password : string) : ST Browser UiEffect :=
  try_catch (on_server (authLogin email password))
    (fun token => setAuthenticatedToken token ;;; ret (Navigate "/home")).

(** The GUEST ACCESS button. *)
Definition loginForm_guest : ST Browser UiEffect :=
  removeAuthenticatedToken ;;; ret (Navigate "/home").

(** ** Auth/RegisterForm.tsx; [salt] is [bcrypt.genSalt()]'s draw. *)

Definition registerForm_register (email password nameFirst nameLast zId salt : string)
    : ST Browser UiEffect :=
  try_catch (on_server (authRegister (mkUserRegister email nameFirst nameLast password zId) salt))
    (fun token => setAuthenticatedToken token ;;; ret (Navigate "/home")).

(** ** Home/ProfileMenu.tsx; [token] is read when the menu renders.
    [api.auth.logout(token)] is not awaited and its rejection is not
    caught: the store it leaves is the store once it has settled. *)

Definition profileMenu_handleLogout (token : string) : ST Browser UiEffect :=
  (if negb (isGuest token)
   then removeAuthenticatedToken ;;; on_server (swallow (authLogout token))
   else ret tt) ;;;
  ret (Navigate "/auth/login").

Definition profileMenu_handleProfileView (token : string) : UiEffect :=
  if negb (isGuest token) then Navigate "/profile/view"
  else ShowError "Guest accounts do not have a profile.".

(** ** Auth/RecoverForm.tsx and Auth/ResetForm.tsx: [handleSubmit]
    fires the unawaited request and navigates; [code] is the code the
    backend draws. *)

Definition recoverForm_handleSubmit (email code : string) : ST Browser UiEffect :=
  on_server (swallow (authResetGenerate email code)) ;;; ret (Navigate "/auth/reset").

Definition resetForm_handleSubmit (resetCode password salt : string) : ST Browser UiEffect :=
  on_server (swallow (authResetUse resetCode password salt)) ;;; ret (Navigate "/auth/login").

(** ** The user's actions *)

Inductive BrowserAction :=
| ALogin (email password : string)
| AGuest
| ARegister (email password nameFirst nameLast zId salt : string)
| ALogout
| AProfileView
| ARecover (email code : string)
| AReset (resetCode password salt : string).

Definition browser_run (a : BrowserAction) : ST Browser UiEffect :=
  match a with
  | ALogin e p => loginForm_login e p
  | AGuest => loginForm_guest
  | ARegister e p nf nl z s => registerForm_register e p nf nl z s
  | ALogout => fun b => profileMenu_handleLogout (current_token b) b
  | AProfileView => fun b => Done (profileMenu_handleProfileView (current_token b)) b
  | ARecover e c => recoverForm_handleSubmit e c
  | AReset c p s => resetForm_handleSubmit c p s
  end.

Inductive browser_step : relation Browser :=
| browser_step_run a b eff b' : browser_run a b = Done eff b' -> browser_step b b'.

Definition browser_reachable : relation Browser := rtc browser_step.

(** The token every page reads: the guest's [""] when nothing is
    stored, otherwise a live session of the backend. *)
Definition token_live (b : Browser) : Prop :=
  match stored_token b with
  | None => True
  | Some t => t <> "" /\ is_Some (sessions (server b) !! t)
  end.

(** ** The backend's part *)

Lemma authLogin_Done_live email pw st tok st' :
  authLogin email pw st = Done tok st' -> tok <> "" /\ is_Some (sessions st' !! tok).
Proof.
  unfold authLogin. intros Hr. st_inv Hr.
  destruct (session_create_live _ _ _ _ Hr) as [? ->]. eauto.
Qed.

Lemma authRegister_Done_live userReg salt st tok st' :
  authRegister userReg salt st = Done tok st' -> tok <> "" /\ is_Some (sessions st' !! tok).
Proof.
  unfold authRegister. intros Hr. st_inv Hr.
  destruct (session_create_live _ _ _ _ Hr) as [? ->]. eauto.
Qed.

Lemma authLogin_keeps_session t email pw : KeepsSession t (authLogin email pw).
Proof. unfold authLogin. preserves_tac. Qed.
Lemma authRegister_keeps_session t userReg salt : KeepsSession t (authRegister userReg salt).
Proof. unfold authRegister. preserves_tac. Qed.
Lemma authResetGenerate_keeps_session t email code : KeepsSession t (authResetGenerate email code).
Proof. unfold authResetGenerate. preserves_tac. Qed.
Lemma authResetUse_keeps_session t code pw salt : KeepsSession t (authResetUse code pw salt).
Proof. unfold authResetUse. preserves_tac. Qed.

(** ** The browser's invariant *)

Lemma on_server_state {A} (c : ST Store A) b :
  server (state_of (on_server c b)) = state_of (c (server b)) /\
  stored_token (state_of (on_server c b)) = stored_token b.
Proof. unfold on_server. by destruct (c (server b)). Qed.

(** A backend call that keeps [wf] and every live session keeps the
    browser's invariant, whatever it returns. *)
Lemma on_server_inv {A} (c : ST Store A) b :
  Preserves wf c -> (forall t, KeepsSession t c) -> wf (server b) -> token_live b ->
  wf (server (state_of (on_server c b))) /\ token_live (state_of (on_server c b)).
Proof.
  intros Hw Hk Hb Ht. destruct (on_server_state c b) as [Hsv Hs].
  unfold token_live in *. rewrite Hs, Hsv. split; [by apply Hw|].
  destruct (stored_token b); [|done]. destruct Ht as [? Ht]. split; [done|]. by apply Hk.
Qed.

(** The login and register forms: a token the backend returns is
    stored, a refusal leaves the storage as it was. *)
Lemma sign_in_inv (c : ST Store string) b eff b' :
  (forall st tok st', c st = Done tok st' -> tok <> "" /\ is_Some (sessions st' !! tok)) ->
  Preserves wf c -> (forall t, KeepsSession t c) ->
  try_catch (on_server c) (fun token => setAuthenticatedToken token ;;; ret (Navigate "/home")) b
    = Done eff b' ->
  wf (server b) -> token_live b -> wf (server b') /\ token_live b'.
Proof.
  intros Hlive Hw Hk Hrun Hb Ht. destruct (on_server_inv c b Hw Hk Hb Ht) as [Hb1 Ht1].
  unfold try_catch in Hrun. destruct (on_server c b) as [tok b1|e b1] eqn:E; st_simpl.
  - injection Hrun as <- <-. split; [done|]. unfold on_server in E. simpl in *.
    destruct (c (server b)) as [tok' s|] eqn:Ec; [|done]. injection E as <- <-.
    by apply (Hlive (server b)).
  - by injection Hrun as <- <-.
Qed.

(** The reset forms: an unawaited call, then a navigation. *)
Lemma fire_and_navigate_inv (c : ST Store unit) path b eff b' :
  Preserves wf c -> (forall t, KeepsSession t c) ->
  (on_server (swallow c) ;;; ret (Navigate path)) b = Done eff b' ->
  wf (server b) -> token_live b -> wf (server b') /\ token_live b'.
Proof.
  intros Hw Hk Hrun Hb Ht.
  pose proof (on_server_inv (swallow c) b (preserves_swallow _ _ Hw)
                (fun t => preserves_swallow _ _ (Hk t)) Hb Ht) as Hi.
  unfold st_bind, ret in Hrun. destruct (on_server (swallow c) b); [|done].
  by injection Hrun as <- <-.
Qed.

Lemma logout_inv token b eff b' :
  profileMenu_handleLogout token b = Done eff b' ->
  wf (server b) -> token_live b -> wf (server b') /\ token_live b'.
Proof.
  unfold profileMenu_handleLogout. intros Hrun Hb Ht. destruct (negb _); st_simpl;
    [|by injection Hrun as <- <-].
  unfold on_server in Hrun. simpl in Hrun. pose proof (authLogout_preserves token (server b) Hb) as Hw.
  destruct (authLogout token (server b)) as [[] s|e s]; injection Hrun as <- <-; done.
Qed.

Lemma browser_step_inv b b' :
  browser_step b b' -> wf (server b) -> token_live b -> wf (server b') /\ token_live b'.
Proof.
  intros [a b0 eff b1 Hrun] Hb Ht. destruct a; simpl in Hrun.
  - eapply sign_in_inv; eauto using authLogin_Done_live, authLogin_keeps_session, authLogin_preserves.
  - unfold loginForm_guest in Hrun. st_simpl. by injection Hrun as <- <-.
  - eapply sign_in_inv; eauto using authRegister_Done_live, authRegister_keeps_session, authRegister_preserves.
  - eapply logout_inv; eauto.
  - by injection Hrun as <- <-.
  - eapply fire_and_navigate_inv; eauto using authResetGenerate_keeps_session, authResetGenerate_preserves.
  - eapply fire_and_navigate_inv; eauto using authResetUse_keeps_session, authResetUse_preserves.
Qed.

Lemma browser_reachable_inv b b' :
  browser_reachable b b' -> wf (server b) -> token_live b -> wf (server b') /\ token_live b'.
Proof.
  induction 1 as [|b1 b2 b3 Hstep _ IH]; [done|].
  intros Hb Ht. destruct (browser_step_inv _ _ Hstep Hb Ht). by apply IH.
Qed.

(** What a page sees of a browser that keeps the invariant. *)
Lemma token_live_current b :
  wf (server b) -> token_live b ->
  (isGuest (current_token b) = true <-> stored_token b = None) /\
  (stored_token b <> None ->
   exists uid u, validateSession (current_token b) (server b) = Done (uid, u) (server b)).
Proof.
  unfold token_live, current_token, getAuthenticatedToken. intros Hb Ht.
  destruct (stored_token b) as [t|]; [|done]. destruct Ht as [Hne [uid Hs]].
  rewrite (proj2 (String.eqb_neq _ _) Hne), isGuest_false by done.
  split; [done|]. intros _. destruct (wf_sessions _ Hb _ _ Hs) as [u Hu].
  exists uid, u. by apply validateSession_live.
Qed.

(** (C15) In every browser reached from a fresh one by logins,
    registrations, guest access, logouts, profile views and the reset
    forms, the backend's store is well formed, a page takes the user
    for a guest exactly when no token is stored, and a stored token
    names a live session of the backend. *)
Theorem browser_tokens_live b0 b :
  wf (server b0) -> stored_token b0 = None -> browser_reachable b0 b ->
  wf (server b) /\ (isGuest (current_token b) = true <-> stored_token b = None) /\
  (stored_token b <> None ->
   exists uid u, validateSession (current_token b) (server b) = Done (uid, u) (server b)).
Proof.
  intros Hb0 Hs0 Hr. destruct (browser_reachable_inv _ _ Hr Hb0) as [Hb Ht];
    [by unfold token_live; rewrite Hs0|].
  split; [done|]. by apply token_live_current.
Qed.

(** (C16) Logging in with the registered password stores a token the
    pages accept and the backend resolves to the user; logging out
    from the profile menu then clears the storage, kills the token and
    gives back exactly the store the login started from. *)
Theorem login_logout_roundtrip st uid u pw salt stored :
  wf st -> users st !! uid = Some u -> Store.password u = bcrypt_hash pw salt ->
  exists b1,
    loginForm_login (email u) pw (mkBrowser stored st) = Done (Navigate "/home") b1 /\
    isGuest (current_token b1) = false /\
    validateSession (current_token b1) (server b1) = Done (uid, u) (server b1) /\
    profileMenu_handleLogout (current_token b1) b1 = Done (Navigate "/auth/login") (mkBrowser None st) /\
    validateSession (current_token b1) st = Fail invalid_token st.
Proof.
  intros Hwf Hu Hp. destruct (authLogin_run st uid u pw salt) as (tok & Hrun & Hfresh & Hne); [done..|].
  assert (Hcur : current_token (mkBrowser (Some tok) (set_sessions (insert tok uid) st)) = tok)
    by (unfold current_token, getAuthenticatedToken; simpl; by rewrite (proj2 (String.eqb_neq _ _) Hne)).
  exists (mkBrowser (Some tok) (set_sessions (insert tok uid) st)). rewrite Hcur.
  unfold loginForm_login, try_catch, on_server. simpl. rewrite Hrun.
  split; [done|]. split; [by apply isGuest_false|]. split.
  { apply validateSession_live; simpl; [by rewrite lookup_insert_eq | done]. }
  split; [|by apply validateSession_dead].
  unfold profileMenu_handleLogout. rewrite isGuest_false by done. st_simpl. unfold on_server. simpl.
  rewrite (authLogout_live _ _ uid u); simpl; [|by rewrite lookup_insert_eq|done].
  by rewrite set_sessions_delete_insert.
Qed.

(** The reset forms never report a refusal: a reset code the
    backend does not know, or a malformed email, is refused with 400,
    yet the form navigates on as after a success and changes neither
    the storage nor the store. *)
Theorem reset_forms_silent b code pw salt email draw :
  resetCodes (server b) !! code = None -> isEmail email = false ->
  authResetUse code pw salt (server b) = Fail (BadRequest "Invalid code") (server b) /\
  resetForm_handleSubmit code pw salt b = Done (Navigate "/auth/login") b /\
  authResetGenerate email draw (server b) = Fail (BadRequest "Invalid email format") (server b) /\
  recoverForm_handleSubmit email draw b = Done (Navigate "/auth/reset") b.
Proof.
  intros Hc He. destruct b as [s st]; simpl in *.
  assert (Hu : authResetUse code pw salt st = Fail (BadRequest "Invalid code") st)
    by (unfold authResetUse; st_simpl; by rewrite Hc).
  assert (Hg : authResetGenerate email draw st = Fail (BadRequest "Invalid email format") st)
    by (unfold authResetGenerate; st_simpl; by rewrite He).
  unfold resetForm_handleSubmit, recoverForm_handleSubmit, on_server. st_simpl.
  by rewrite Hu, Hg.
Qed.

End Pages.

(** ** Witnesses, with the demo email validator and hasher *)

Definition bob : User := mkUser "bob@unsw.edu" "bob" "ross" "hash:pw2" "z2222222" false.

Lemma browser_tokens_live_witness :
  let b1 := state_of (browser_run (ALogin "bob@unsw.edu" "pw2") (mkBrowser None demo_store)) in
  wf (server b1) /\ (isGuest (current_token b1) = true <-> stored_token b1 = None) /\
  (stored_token b1 <> None ->
   exists uid u, validateSession (current_token b1) (server b1) = Done (uid, u) (server b1)).
Proof.
  apply (browser_tokens_live (mkBrowser None demo_store)); [apply wfb_wf; vm_compute; reflexivity|reflexivity|].
  apply rtc_once. apply (browser_step_run (ALogin "bob@unsw.edu" "pw2") _ (Navigate "/home")).
  vm_compute. reflexivity.
Defined.

Lemma login_logout_roundtrip_witness :
  exists b1,
    loginForm_login "bob@unsw.edu" "pw2" (mkBrowser None demo_store) = Done (Navigate "/home") b1 /\
    isGuest (current_token b1) = false /\
    validateSession (current_token b1) (server b1) = Done (2, bob) (server b1) /\
    profileMenu_handleLogout (current_token b1) b1 = Done (Navigate "/auth/login") (mkBrowser None demo_store) /\
    validateSession (current_token b1) demo_store = Fail invalid_token demo_store.
Proof.
  apply (login_logout_roundtrip demo_store 2 bob "pw2" "salt" None); [apply wfb_wf; vm_compute | |]; reflexivity.
Defined.

Lemma reset_forms_silent_witness :
  let b := mkBrowser (Some "tok2") demo_store in
  authResetUse "NOPE12" "new" "salt" (server b) = Fail (BadRequest "Invalid code") (server b) /\
  resetForm_handleSubmit "NOPE12" "new" "salt" b = Done (Navigate "/auth/login") b /\
  authResetGenerate "not an email" "K7Q2ZD" (server b) = Fail (BadRequest "Invalid email format") (server b) /\
  recoverForm_handleSubmit "not an email" "K7Q2ZD" b = Done (Navigate "/auth/reset") b.
Proof. apply reset_forms_silent; reflexivity. Defined.
