(* ===== verification/Pages.v ===== *)
(** * The listing pages

    The pages that page through the backend's listings:

    - pages/SocietyListPage.tsx: [fetchData], the Previous and Next
      buttons and [searchSocieties];
    - pages/EventListPage.tsx: the infinite scroll ([handleScroll] and
      [loadMorePosts]), [searchEvents] and [doSearch];
    - pages/HomePage.tsx: [loadFeed], the events of the user's
      societies;
    - pages/ProfileViewPage.tsx: the three fetches of the profile page.

    A page's state is a record of its [useState] hooks.  A handler is
    a function from the state it closes over to the state its setters
    leave, in the store monad when it calls the backend.  A [useEffect]
    whose dependencies change runs after the handler that changed
    them.  An answer's setters update the state current when it
    arrives (a function [State -> State]), and when two requests are in
    flight a boolean says whose answer arrives last.

    The society list shows the listing nine rows at a time, with Next
    enabled exactly when rows follow.  Paging through it therefore
    shows every society once and in order.  A search from the first
    page, however, leaves Next disabled whatever the number of matches:
    the [splice] that cuts the first page mutates the array whose
    length then decides [isMore].  The event list's infinite scroll
    shows after [n] loads exactly what one request for the first
    [9 + 9n] events answers.  A search after scrolling races with the
    reload it triggers, and may keep events that do not match.  The
    home feed holds exactly the upcoming events of the user's
    societies. *)

From S2P Require Import Prelude Query Store Session Society Event Listing Profile Client UI.
From stdpp Require Import sorting.

Open Scope Z_scope.

(** ** pages/SocietyListPage.tsx *)

Module SocietyListPage.

Record SocietyListState := mkState {
  societies : list SocietyInfo;
  paginationStart : Z;
  paginationEnd : Z;
  searchString : option string;
  isMore : bool;
  errorMsg : option string   (** [showError] with its [errorMsg] *)
}.

Definition societyList_initial : SocietyListState := mkState [] 0 9 None false None.

Definition societyList_set_error (s : SocietyListState) (msg : string) : SocietyListState :=
  mkState (societies s) (paginationStart s) (paginationEnd s) (searchString s) (isMore s) (Some msg).

(** [fetchData] of the render whose state is [c]: it reads [c]'s
    search string and pagination, and its setters
    [setIsMore(newSocs.length === 10)] and
    [setSocieties(newSocs.splice(0, 9))] (the first nine) update the
    state current when the answer arrives. *)
Definition fetchData_from (c : SocietyListState) : ST Store (SocietyListState -> SocietyListState) :=
  settle (societyList (searchString c) (Some (paginationStart c)) (Some (paginationEnd c + 1)))
    (fun newSocs t => mkState (take 9 newSocs) (paginationStart t) (paginationEnd t) (searchString t)
                        (Nat.eqb (length newSocs) 10) (errorMsg t))
    (fun msg t => societyList_set_error t msg).

Definition fetchData (s : SocietyListState) : ST Store SocietyListState := f <- fetchData_from s ;; ret (f s).

(** The page as it mounts: the effect runs [fetchData]. *)
Definition societyList_mount : ST Store SocietyListState := fetchData societyList_initial.

Definition handlePreviousPage (s : SocietyListState) : SocietyListState :=
  mkState (societies s) (paginationStart s - 9) (paginationStart s) (searchString s) (isMore s) (errorMsg s).

Definition handleNextPage (s : SocietyListState) : SocietyListState :=
  mkState (societies s) (paginationEnd s) (paginationEnd s + 9) (searchString s) (isMore s) (errorMsg s).

(** A click, then the effect its change of pagination triggers. *)
Definition previous (s : SocietyListState) : ST Store SocietyListState := fetchData (handlePreviousPage s).
Definition next (s : SocietyListState) : ST Store SocietyListState := fetchData (handleNextPage s).

Fixpoint nexts (n : nat) (s : SocietyListState) : ST Store SocietyListState :=
  match n with
  | O => ret s
  | S n' => s' <- next s ;; nexts n' s'
  end.

(** [searchSocieties(q)] with the pagination it closes over:
    [setSocieties(temp.splice(0, 9))] removes the first nine rows from
    [temp.societies], and [setIsMore(temp.societies.length === 10)]
    then measures what is left. *)
Definition search_result (q : option string) (s : SocietyListState) (temp : list SocietyInfo) : SocietyListState :=
  mkState (take 9 temp) (paginationStart s) (paginationEnd s) q
    (Nat.eqb (length (drop 9 temp)) 10) (errorMsg s).

(** [setSocieties([]); setPaginationStart(0); setPaginationEnd(9)]. *)
Definition search_reset (s : SocietyListState) : SocietyListState :=
  mkState [] 0 9 (searchString s) (isMore s) (errorMsg s).

(** The whole search.  From the first page the reset changes nothing
    and no effect runs.  From another page the reset triggers
    [fetchData] on the first page of the old search string, concurrent
    with the search's own request; [effect_last] says which answer
    arrives last. *)
Definition searchSocieties (q : option string) (effect_last : bool) (s : SocietyListState) : ST Store SocietyListState :=
  let s1 := search_reset s in
  let search := settle (societyList q (Some (paginationStart s)) (Some (paginationEnd s + 1)))
                  (fun temp t => search_result q t temp) (fun msg t => societyList_set_error t msg) in
  if Z.eqb (paginationStart s) 0 && Z.eqb (paginationEnd s) 9 then
    f <- search ;; ret (f s1)
  else if effect_last then
    f <- search ;; g <- fetchData_from s1 ;; ret (g (f s1))
  else
    g <- fetchData_from s1 ;; f <- search ;; ret (f (g s1)).

(** What a user sees clicking Next [n] times: the rows of each page
    in turn, and whether Next is still enabled on the last. *)
Fixpoint seen (n : nat) (s : SocietyListState) : ST Store (list SocietyInfo * bool) :=
  match n with
  | O => ret (societies s, isMore s)
  | S n' => s' <- next s ;; r <- seen n' s' ;; ret (societies s ++ r.1, r.2)
  end.

(** ** The listing, nine rows at a time *)

(** The whole listing the pages cut. *)
Definition societies_listing (q : option string) (st : Store) : list SocietyInfo :=
  match societyList q None None st with Done l _ => l | Fail _ _ => [] end.

(** The [k]-th page of the listing [L] of the search [q]. *)
Definition society_page (q : option string) (L : list SocietyInfo) (k : nat) : SocietyListState :=
  let a := 9 * Z.of_nat k in
  mkState (js_slice L a (a + 9)) a (a + 9) q (bool_decide (a + 10 <= Z.of_nat (length L))) None.

Lemma societyList_slice q a b st :
  0 <= a -> 0 <= b -> societyList q (Some a) (Some b) st = Done (js_slice (societies_listing q st) a b) st.
Proof.
  intros Ha Hb. unfold societyList, societies_listing, gets, paginate. simpl.
  by rewrite (proj2 (Z.leb_le 0 a) Ha), (proj2 (Z.leb_le 0 b) Hb).
Qed.

Lemma take_js_slice {A} (L : list A) a :
  0 <= a -> take 9 (js_slice L a (a + 1 + 9)) = js_slice L a (a + 9).
Proof.
  intros Ha. unfold js_slice. rewrite take_take. f_equal. lia.
Qed.

Lemma js_slice_full {A} (L : list A) a :
  0 <= a -> Nat.eqb (length (js_slice L a (a + 1 + 9))) 10 = bool_decide (a + 10 <= Z.of_nat (length L)).
Proof.
  intros Ha. rewrite js_slice_length.
  match goal with |- Nat.eqb ?x 10 = _ => destruct (Nat.eqb_spec x 10) end;
    case_bool_decide; done || lia.
Qed.

Lemma fetchData_page q L k st :
  L = societies_listing q st -> fetchData (society_page q L k) st = Done (society_page q L k) st /\
  forall s, paginationStart s = 9 * Z.of_nat k -> paginationEnd s = 9 * Z.of_nat k + 9 ->
            searchString s = q -> errorMsg s = None -> fetchData s st = Done (society_page q L k) st.
Proof.
  intros ->. assert (H : forall s, paginationStart s = 9 * Z.of_nat k -> paginationEnd s = 9 * Z.of_nat k + 9 ->
            searchString s = q -> errorMsg s = None -> fetchData s st = Done (society_page q (societies_listing q st) k) st).
  { intros s Ha Hb Hq He. unfold fetchData, fetchData_from, settle, st_bind, ret.
    rewrite Ha, Hb, Hq, societyList_slice by lia. destruct s; simpl in *; subst.
    replace (9 * Z.of_nat k + 9 + 1) with (9 * Z.of_nat k + 1 + 9) by lia.
    rewrite take_js_slice, js_slice_full by lia. done. }
  split; [apply H|exact H]; done.
Qed.

Lemma next_page q L k st :
  L = societies_listing q st -> next (society_page q L k) st = Done (society_page q L (S k)) st.
Proof.
  intros HL. apply (fetchData_page q L (S k) st HL); simpl; try done; lia.
Qed.

Lemma nexts_page q L k n st :
  L = societies_listing q st -> nexts n (society_page q L k) st = Done (society_page q L (k + n)) st.
Proof.
  intros HL. revert k. induction n as [|n IH]; intros k; simpl.
  - by rewrite Nat.add_0_r.
  - unfold st_bind. rewrite (next_page _ _ _ _ HL), IH. by rewrite Nat.add_succ_r.
Qed.

Lemma mount_page st : societyList_mount st = Done (society_page None (societies_listing None st) 0) st.
Proof. apply (fetchData_page None _ 0 st eq_refl); done. Qed.

Lemma seen_page q L k n st :
  L = societies_listing q st ->
  seen n (society_page q L k) st =
    Done (js_slice L (9 * Z.of_nat k) (9 * Z.of_nat (k + n) + 9), isMore (society_page q L (k + n))) st.
Proof.
  intros HL. revert k. induction n as [|n IH]; intros k; simpl.
  - by rewrite Nat.add_0_r.
  - unfold st_bind. rewrite (next_page _ _ _ _ HL), IH. simpl. rewrite Nat.add_succ_r.
    replace (9 * Z.of_nat (S k)) with (9 * Z.of_nat k + 9) by lia.
    f_equal. f_equal. apply js_slice_app; lia.
Qed.

Lemma page_isMore q L k :
  isMore (society_page q L k) = true <-> (9 * k + 10 <= length L)%nat.
Proof. simpl. rewrite bool_decide_eq_true. lia. Qed.

Lemma js_slice_all {A} (L : list A) e : (length L <= Z.to_nat e)%nat -> js_slice L 0 e = L.
Proof. intros He. unfold js_slice. simpl. rewrite Nat.sub_0_r. by apply take_ge. Qed.

(** (C17) After the page mounts and Next is clicked [n] times, the page
    asks for rows [9n] to [9n+10], shows row [9n+i] of the listing as
    its [i]-th card for [i < 9] and nothing past the ninth, and
    enables Next exactly when the listing has a row [9n+9]. *)
Theorem societyListPage_bounds st n :
  exists s, (s0 <- societyList_mount ;; nexts n s0) st = Done s st /\
    paginationStart s = 9 * Z.of_nat n /\ paginationEnd s = 9 * Z.of_nat n + 9 /\
    (forall i, societies s !! i =
               if decide (i < 9)%nat then societies_listing None st !! (9 * n + i)%nat else None) /\
    (isMore s = true <-> (9 * n + 10 <= length (societies_listing None st))%nat).
Proof.
  exists (society_page None (societies_listing None st) n). unfold st_bind. rewrite mount_page, nexts_page by done.
  split_and!; [done|done|done| |apply page_isMore].
  intros i. simpl. rewrite js_slice_lookup by lia.
  do 2 case_decide; try lia; [|done]. f_equal. lia.
Qed.

(** (C18) Paging through the societies ends: for some [n], Next is
    enabled on each of the first [n] pages and disabled on the next,
    and the pages shown until then are the whole listing, each
    society once and in the listing's order. *)
Theorem societyListPage_paging_complete st :
  exists n,
    (forall k, (k < n)%nat -> exists s, (s0 <- societyList_mount ;; nexts k s0) st = Done s st /\ isMore s = true) /\
    (s0 <- societyList_mount ;; seen n s0) st = Done (societies_listing None st, false) st.
Proof.
  set (L := societies_listing None st).
  pose proof (Nat.div_mod (length L - 1) 9 ltac:(lia)). pose proof (Nat.mod_upper_bound (length L - 1) 9 ltac:(lia)).
  set (n := ((length L - 1) / 9)%nat) in *. clearbody n. exists n. split.
  - intros k Hk. exists (society_page None L k). unfold st_bind. rewrite mount_page, nexts_page by done.
    split; [done|]. apply page_isMore. lia.
  - unfold st_bind. rewrite mount_page, seen_page by done. simpl. fold L.
    rewrite js_slice_all by lia. f_equal. f_equal. apply bool_decide_eq_false_2. lia.
Qed.

(** (C39) From the first page, a search with ten matches or more shows
    the first nine matches but leaves Next disabled: [splice(0, 9)]
    has removed them from the array whose length then sets [isMore],
    so the matches after the ninth cannot be reached. *)
Theorem societyListPage_search_disables_next st q effect_last :
  (10 <= length (societies_listing q st))%nat ->
  exists s, (s0 <- societyList_mount ;; searchSocieties q effect_last s0) st = Done s st /\
    searchString s = q /\ societies s = take 9 (societies_listing q st) /\ isMore s = false.
Proof.
  intros Hl. unfold st_bind at 1. rewrite mount_page. unfold searchSocieties, settle.
  change (paginationStart (society_page None (societies_listing None st) 0)) with 0.
  change (paginationEnd (society_page None (societies_listing None st) 0)) with 9. cbv beta iota zeta.
  change (Z.eqb 0 0 && Z.eqb 9 9) with true. cbv iota.
  unfold st_bind, ret. rewrite societyList_slice by lia.
  eexists. split; [reflexivity|]. simpl. split; [done|]. unfold js_slice. simpl.
  rewrite take_take. split; [done|].
  apply Nat.eqb_neq. rewrite length_drop, length_take. lia.
Qed.

End SocietyListPage.

(** ** pages/EventListPage.tsx *)

Module EventListPage.

(** The search bar's dates are held as the instants [new Date(...)]
    gives the backend's filter. *)
Record EventListState := mkState {
  eventPosts : list EventInfo;
  paginationStart : Z;
  paginationEnd : Z;
  searchString : option string;
  timeStart : option Z;
  timeEnd : option Z;
  errorMsg : option string
}.

Definition eventList_initial : EventListState := mkState [] 0 9 None None None None.

Definition set_posts (t : EventListState) (l : list EventInfo) : EventListState :=
  mkState l (paginationStart t) (paginationEnd t) (searchString t) (timeStart t) (timeEnd t) (errorMsg t).

Definition eventList_set_error (t : EventListState) (msg : string) : EventListState :=
  mkState (eventPosts t) (paginationStart t) (paginationEnd t) (searchString t) (timeStart t) (timeEnd t)
    (Some msg).

(** [events.filter((e) => !eventPosts.some((ev) => ev.eventId === e.eventId))] *)
Definition newEvents (eventPosts events : list EventInfo) : list EventInfo :=
  List.filter (fun e => negb (existsb (fun ev => Z.eqb (info_eventId ev) (info_eventId e)) eventPosts))
    events.

(** [loadMorePosts] of the render whose state is [c]: it appends to
    [c]'s posts the events of [c]'s query that are not among them. *)
Definition loadMorePosts_from (c : EventListState) : ST Store (EventListState -> EventListState) :=
  settle (getEvents (searchString c) (timeStart c) (timeEnd c)
            (Some (paginationStart c)) (Some (paginationEnd c)))
    (fun events t => set_posts t (eventPosts c ++ newEvents (eventPosts c) events))
    (fun msg t => eventList_set_error t msg).

(** [doSearch]: the first nine events of [c]'s query replace the posts. *)
Definition doSearch_from (c : EventListState) : ST Store (EventListState -> EventListState) :=
  settle (getEvents (searchString c) (timeStart c) (timeEnd c) (Some 0) (Some 9))
    (fun events t => set_posts t events) (fun msg t => eventList_set_error t msg).

(** On mounting both effects run. *)
Definition eventList_mount : ST Store EventListState :=
  f <- loadMorePosts_from eventList_initial ;; g <- doSearch_from eventList_initial ;; ret (g (f eventList_initial)).

(** [handleScroll] at the bottom of the page:
    [setPaginationEnd(paginationEnd + 9)], then the effect on
    [paginationEnd]. *)
Definition handleScroll (s : EventListState) : EventListState :=
  mkState (eventPosts s) (paginationStart s) (paginationEnd s + 9) (searchString s) (timeStart s)
    (timeEnd s) (errorMsg s).

Definition scroll (s : EventListState) : ST Store EventListState :=
  let s1 := handleScroll s in f <- loadMorePosts_from s1 ;; ret (f s1).

Fixpoint scrolls (n : nat) (s : EventListState) : ST Store EventListState :=
  match n with
  | O => ret s
  | S n' => s' <- scroll s ;; scrolls n' s'
  end.

(** [searchEvents(ss, ts, te)]: the new filters and pagination [0..9]. *)
Definition searchEvents (ss : option string) (ts te : option Z) (s : EventListState) : EventListState :=
  mkState (eventPosts s) 0 9 ss ts te (errorMsg s).

(** A search and the effects it triggers: [loadMorePosts] when
    [paginationEnd] changes, [doSearch] when a filter changes, both
    closing over the render after the search; [loadMore_last] says
    which answer arrives last. *)
Definition search (ss : option string) (ts te : option Z) (loadMore_last : bool) (s : EventListState)
    : ST Store EventListState :=
  let s1 := searchEvents ss ts te s in
  f <- (if Z.eqb (paginationEnd s) 9 then ret id else loadMorePosts_from s1) ;;
  g <- (if bool_decide ((ss, ts, te) = (searchString s, timeStart s, timeEnd s)) then ret id
        else doSearch_from s1) ;;
  ret (if loadMore_last then f (g s1) else g (f s1)).

(** ** Loading more equals loading once *)

Definition events_listing (q : option string) (ts te : option Z) (st : Store) : list EventInfo :=
  match getEvents q ts te None None st with Done l _ => l | Fail _ _ => [] end.

Lemma getEvents_slice q ts te a b st :
  0 <= a -> 0 <= b -> getEvents q ts te (Some a) (Some b) st = Done (js_slice (events_listing q ts te st) a b) st.
Proof.
  intros Ha Hb. unfold getEvents, events_listing, gets, paginate.
  by rewrite (proj2 (Z.leb_le 0 a) Ha), (proj2 (Z.leb_le 0 b) Hb).
Qed.

Lemma NoDup_map_fst_filter {A B} (f : A * B -> bool) (l : list (A * B)) :
  NoDup (map fst l) -> NoDup (map fst (List.filter f l)).
Proof.
  induction l as [|x l IH]; simpl; [done|]. rewrite NoDup_cons. intros [Hx Hl].
  destruct (f x); simpl; [|by apply IH]. rewrite NoDup_cons. split; [|by apply IH].
  intros Hin. apply Hx. apply list_elem_of_In in Hin. apply list_elem_of_In.
  apply in_map_iff in Hin as (y & <- & Hy). apply in_map. by apply filter_In in Hy as [].
Qed.

(** Event ids are keys of the event table: a listing repeats none. *)
Lemma listing_NoDup q ts te st : NoDup (map info_eventId (events_listing q ts te st)).
Proof.
  unfold events_listing, getEvents, gets, paginate, sorted_events. simpl. rewrite map_map. simpl.
  rewrite (Permutation_map fst (merge_sort_Permutation event_le _)).
  apply NoDup_map_fst_filter. apply NoDup_fst_map_to_list.
Qed.

Lemma newEvents_known (P l : list EventInfo) :
  (forall x, In x l -> In x P) -> newEvents P l = [].
Proof.
  induction l as [|x l IH]; intros Hl; simpl; [done|].
  assert (Hx : existsb (fun ev => Z.eqb (info_eventId ev) (info_eventId x)) P = true).
  { apply existsb_exists. exists x. split; [apply Hl; by left | apply Z.eqb_refl]. }
  rewrite Hx. simpl. apply IH. intros y Hy. apply Hl. by right.
Qed.

Lemma newEvents_fresh (P l : list EventInfo) :
  (forall x y, In x P -> In y l -> info_eventId x <> info_eventId y) -> newEvents P l = l.
Proof.
  induction l as [|y l IH]; intros Hd; simpl; [done|].
  assert (Hy : existsb (fun ev => Z.eqb (info_eventId ev) (info_eventId y)) P = false).
  { apply Bool.not_true_iff_false. intros (x & Hx & Heq)%existsb_exists.
    apply Z.eqb_eq in Heq. by apply (Hd x y); [|left|]. }
  rewrite Hy. simpl. f_equal. apply IH. intros x z Hx Hz. apply Hd; [done|by right].
Qed.

Lemma newEvents_app P l1 l2 : newEvents P (l1 ++ l2) = newEvents P l1 ++ newEvents P l2.
Proof. apply List.filter_app. Qed.

(** The page's de-duplicating append of a longer prefix of a listing
    to a shorter one is the longer prefix. *)
Lemma newEvents_prefix (L : list EventInfo) k m :
  NoDup (map info_eventId L) -> (k <= m)%nat -> take k L ++ newEvents (take k L) (take m L) = take m L.
Proof.
  intros Hnd Hkm.
  assert (Hs : take m L = take k L ++ take (m - k) (drop k L))
    by (rewrite take_take_drop; f_equal; lia).
  rewrite Hs. f_equal. rewrite newEvents_app, newEvents_known by done. simpl. apply newEvents_fresh.
  intros x y Hx Hy Heq. rewrite <- (take_drop k L), map_app in Hnd.
  apply NoDup_app in Hnd as (_ & Hdis & _).
  assert (Hy' : In y (drop k L)).
  { rewrite <- (take_drop (m - k) (drop k L)). apply in_or_app. by left. }
  apply (Hdis (info_eventId x)); apply list_elem_of_In; [by apply in_map|].
  rewrite Heq. by apply in_map.
Qed.

(** The page after [n] loads of the listing [L] of the filters. *)
Definition loaded (q : option string) (ts te : option Z) (L : list EventInfo) (n : nat) : EventListState :=
  mkState (take (9 + 9 * n) L) 0 (9 + 9 * Z.of_nat n) q ts te None.

Lemma js_slice_0 {A} (L : list A) b : js_slice L 0 b = take (Z.to_nat b) L.
Proof. unfold js_slice. simpl. by rewrite Nat.sub_0_r. Qed.

Lemma newEvents_nil l : newEvents [] l = l.
Proof. by apply newEvents_fresh. Qed.

Lemma mount_loaded st : eventList_mount st = Done (loaded None None None (events_listing None None None st) 0) st.
Proof.
  unfold eventList_mount, loadMorePosts_from, doSearch_from, settle, st_bind, ret. cbn [paginationStart paginationEnd eventList_initial searchString timeStart timeEnd eventPosts errorMsg handleScroll loaded searchEvents].
  rewrite getEvents_slice by lia. unfold loaded. simpl. by rewrite js_slice_0.
Qed.

Lemma scroll_loaded q ts te L n st :
  L = events_listing q ts te st -> scroll (loaded q ts te L n) st = Done (loaded q ts te L (S n)) st.
Proof.
  intros HL. unfold scroll, loadMorePosts_from, settle, st_bind, ret. cbn [paginationStart paginationEnd eventList_initial searchString timeStart timeEnd eventPosts errorMsg handleScroll loaded searchEvents].
  rewrite getEvents_slice by lia. rewrite <- HL, js_slice_0. unfold loaded, set_posts. simpl.
  replace (Z.to_nat (9 + 9 * Z.of_nat n + 9)) with (9 + 9 * S n)%nat by lia.
  rewrite newEvents_prefix by (try (rewrite HL; apply listing_NoDup); lia).
  do 2 f_equal. lia.
Qed.

Lemma scrolls_loaded q ts te L n k st :
  L = events_listing q ts te st -> scrolls k (loaded q ts te L n) st = Done (loaded q ts te L (n + k)) st.
Proof.
  intros HL. revert n. induction k as [|k IH]; intros n; simpl.
  - by rewrite Nat.add_0_r.
  - unfold st_bind. rewrite (scroll_loaded _ _ _ _ _ _ HL), IH. by rewrite Nat.add_succ_r.
Qed.

(** (C19) Infinite scrolling shows what one request shows: after the
    page mounts and loads [n] more times, its posts are exactly the
    answer of a single request for the events up to its current
    [paginationEnd], [9 + 9n]: no event lost, repeated or out of
    order, although each load re-fetches from the start and appends
    only the events it has not shown. *)
Theorem eventListPage_scroll_equiv st n :
  exists s, (s0 <- eventList_mount ;; scrolls n s0) st = Done s st /\
    paginationEnd s = 9 + 9 * Z.of_nat n /\
    getEvents None None None (Some 0) (Some (paginationEnd s)) st = Done (eventPosts s) st.
Proof.
  exists (loaded None None None (events_listing None None None st) n).
  unfold st_bind. rewrite mount_loaded, scrolls_loaded by done. simpl.
  split; [done|]. split; [done|]. rewrite getEvents_slice, js_slice_0 by lia. do 2 f_equal. lia.
Qed.

(** (C40) A search after scrolling races with the reload its reset of
    [paginationEnd] triggers.  When the search's answer arrives last
    the page shows the first nine matches; when the reload's answer
    arrives last it shows every event shown before the search,
    matching or not, followed by the matches not among them. *)
Theorem eventListPage_search_race st n ss ts te :
  (1 <= n)%nat -> (ss, ts, te) <> (None, None, None) ->
  exists s, (s0 <- eventList_mount ;; scrolls n s0) st = Done s st /\
    (exists s', search ss ts te false s st = Done s' st /\
                eventPosts s' = take 9 (events_listing ss ts te st)) /\
    (exists s', search ss ts te true s st = Done s' st /\
                eventPosts s' = eventPosts s ++ newEvents (eventPosts s) (take 9 (events_listing ss ts te st))).
Proof.
  intros Hn Hf. set (s := loaded None None None (events_listing None None None st) n).
  exists s. split; [unfold st_bind; by rewrite mount_loaded, scrolls_loaded|].
  assert (He : Z.eqb (paginationEnd s) 9 = false) by (apply Z.eqb_neq; simpl; lia).
  assert (Hq : bool_decide ((ss, ts, te) = (searchString s, timeStart s, timeEnd s)) = false)
    by (apply bool_decide_eq_false_2; exact Hf).
  unfold search. rewrite He, Hq. unfold loadMorePosts_from, doSearch_from, settle, st_bind, ret.
  cbn [paginationStart paginationEnd eventList_initial searchString timeStart timeEnd eventPosts errorMsg handleScroll loaded searchEvents]. rewrite getEvents_slice by lia. rewrite js_slice_0. simpl.
  split; eexists; split; reflexivity.
Qed.

End EventListPage.

(** ** pages/HomePage.tsx *)

Module HomePage.

Record HomeState := mkHomeState {
  hp_eventPosts : list EventInfo;
  hp_errorMsg : option string
}.

Definition home_initial : HomeState := mkHomeState [] None.

(** [for (const society of societies) newEventPosts.push(...(await
    api.society.events(society.societyId)).events)]; [now_of sid] is
    the clock the request for society [sid] reads. *)
Fixpoint feed_loop (now_of : Z -> Z) (societies : list SocietyInfo) : ST Store (list EventInfo) :=
  match societies with
  | [] => ret []
  | society :: rest =>
      events <- societyEvents (societyId society) (now_of (societyId society)) ;;
      more <- feed_loop now_of rest ;;
      ret (events ++ more)
  end.

(** [loadFeed]: nothing for a guest; the feed, or the error. *)
Definition loadFeed (now_of : Z -> Z) (token : string) : ST Store HomeState :=
  if isGuest token then ret home_initial else
  settle (societies <- profileSocieties token ;; feed_loop now_of societies)
    (fun newEventPosts => mkHomeState newEventPosts None)
    (fun msg => mkHomeState [] (Some msg)).

(** *** The feed *)

Lemma societyEvents_Done sid now soc st :
  societies st !! sid = Some soc ->
  societyEvents sid now st =
    Done (map (fun ie => event_info ie.1 ie.2)
            (sorted_events (fun e => bool_decide (ev_societyId e = sid) && (now <=? time e)) st)) st.
Proof. intros Hs. unfold societyEvents. st_simpl. by rewrite Hs. Qed.

(** The events a society contributes to the feed. *)
Lemma society_feed_elem sid now st ei :
  ei ∈ map (fun ie => event_info ie.1 ie.2)
         (sorted_events (fun e => bool_decide (ev_societyId e = sid) && (now <=? time e)) st) <->
  exists eid e, events st !! eid = Some e /\ ei = event_info eid e /\ ev_societyId e = sid /\ now <= time e.
Proof.
  rewrite list_elem_of_fmap. split.
  - intros ([eid e] & -> & Hin). apply sorted_events_elem in Hin as [He Hp]. simpl in *.
    apply andb_prop in Hp as [Hs%bool_decide_eq_true Ht%Z.leb_le]. eauto 10.
  - intros (eid & e & He & -> & Hs & Ht). exists (eid, e). split; [done|].
    apply sorted_events_elem. split; [done|]. simpl. rewrite bool_decide_eq_true_2 by done.
    by apply Z.leb_le.
Qed.

Lemma feed_loop_elem now_of l st :
  Forall (fun soc => is_Some (societies st !! societyId soc)) l ->
  exists posts, feed_loop now_of l st = Done posts st /\
    forall ei, ei ∈ posts <-> exists soc, soc ∈ l /\ exists eid e, events st !! eid = Some e /\
      ei = event_info eid e /\ ev_societyId e = societyId soc /\ now_of (societyId soc) <= time e.
Proof.
  induction l as [|soc l IH]; intros Hl; simpl.
  - exists []. split; [done|]. intros ei. split; [by intros ?%elem_of_nil|]. by intros (? & ?%elem_of_nil & _).
  - apply Forall_cons in Hl as [[s Hs] Hl]. destruct (IH Hl) as (posts & Hrun & Hposts).
    unfold st_bind. rewrite (societyEvents_Done _ _ s _ Hs), Hrun.
    eexists. split; [reflexivity|]. intros ei. rewrite elem_of_app, society_feed_elem, Hposts.
    split.
    + intros [H|(soc' & ? & H)]; [exists soc; split; [left|]; done|exists soc'; split; [by right|done]].
    + intros (soc' & [->|Hin]%elem_of_cons & H); [by left|right; eauto].
Qed.

(** The societies [profileSocieties] lists: one per membership of the
    user whose society exists. *)
Lemma profileSocieties_Done st token uid u :
  sessions st !! token = Some uid -> users st !! uid = Some u ->
  exists l, profileSocieties token st = Done l st /\
    Forall (fun soc => is_Some (societies st !! societyId soc)) l /\
    forall sid, (exists soc, soc ∈ l /\ societyId soc = sid) <->
                is_Some (members st !! (uid, sid)) /\ is_Some (societies st !! sid).
Proof.
  intros Hs Hu. unfold profileSocieties. rewrite validateSession_bind, Hs, Hu. st_simpl.
  eexists. split; [reflexivity|]. split.
  - apply Forall_forall. intros soc Hin. apply list_elem_of_omap in Hin.
    destruct Hin as ([[i sid] r] & _ & Hsoc). simpl in Hsoc. case_bool_decide; [|done].
    destruct (societies st !! sid) eqn:E; [|done]. injection Hsoc as <-. simpl. by rewrite E.
  - intros sid. setoid_rewrite list_elem_of_omap. split.
    + intros (soc & ([[i sid'] r] & Hin & Hsoc) & <-). simpl in Hsoc. case_bool_decide; [|done].
      destruct (societies st !! sid') eqn:E; [|done]. injection Hsoc as <-. simpl in *. subst.
      apply elem_of_map_to_list in Hin. split; [by eexists|by rewrite E].
    + intros [[r Hm] [soc Hsoc]]. eexists. split; [exists ((uid, sid), r)|]; simpl.
      * split; [by apply elem_of_map_to_list|]. rewrite bool_decide_eq_true_2 by done. by rewrite Hsoc.
      * done.
Qed.

(** (C22) The home feed of a logged-in user holds exactly the events of
    the societies the user belongs to that have not started when
    their society's request is served. *)
Theorem homePage_feed st token uid u now_of :
  wf st -> token <> "" -> sessions st !! token = Some uid -> users st !! uid = Some u ->
  exists s, loadFeed now_of token st = Done s st /\ hp_errorMsg s = None /\
    forall ei, ei ∈ hp_eventPosts s <->
      exists eid e, events st !! eid = Some e /\ ei = event_info eid e /\
        is_Some (members st !! (uid, ev_societyId e)) /\ now_of (ev_societyId e) <= time e.
Proof.
  intros Hwf Hne Hs Hu. destruct (profileSocieties_Done st token uid u Hs Hu) as (l & Hl & Hall & Hsids).
  destruct (feed_loop_elem now_of l st Hall) as (posts & Hrun & Hposts).
  exists (mkHomeState posts None). unfold loadFeed. rewrite isGuest_false by done.
  unfold settle, st_bind. rewrite Hl, Hrun. split; [done|]. split; [done|].
  intros ei. simpl. rewrite Hposts. split.
  - intros (soc & Hin & eid & e & He & -> & Hsid & Ht). exists eid, e. split_and!; try done.
    + destruct (proj1 (Hsids (societyId soc)) (ex_intro _ soc (conj Hin eq_refl))) as [Hm _].
      by rewrite Hsid.
    + by rewrite Hsid.
  - intros (eid & e & He & -> & [r Hm] & Ht).
    destruct (wf_members _ Hwf _ _ Hm) as (_ & Hsoc & _). simpl in Hsoc.
    destruct (proj2 (Hsids (ev_societyId e)) (conj (ex_intro _ r Hm) Hsoc)) as (soc & Hin & Hsid).
    exists soc. split; [done|]. exists eid, e. by rewrite Hsid.
Qed.

End HomePage.

(** ** pages/ProfileViewPage.tsx *)

Module ProfileViewPage.

Record ProfileViewState := mkProfileViewState {
  pv_user : option UserProfile;
  pv_societies : option (list SocietyInfo);
  pv_events : option (list EventInfo * list EventInfo);
  pv_errorMsg : option string;
  pv_navigated : option string
}.

Definition profileView_initial : ProfileViewState := mkProfileViewState None None None None None.

(** [fetchUserInfo]: a guest is sent home, and the profile is still
    requested. *)
Definition fetchUserInfo (token : string) (s : ProfileViewState) : ST Store ProfileViewState :=
  let s1 := if isGuest token
            then mkProfileViewState (pv_user s) (pv_societies s) (pv_events s) (pv_errorMsg s) (Some "/home")
            else s in
  settle (profileView token)
    (fun data => mkProfileViewState (Some data) (pv_societies s1) (pv_events s1) (pv_errorMsg s1) (pv_navigated s1))
    (fun msg => mkProfileViewState (pv_user s1) (pv_societies s1) (pv_events s1) (Some msg) (pv_navigated s1)).

Definition fetchSocieties (token : string) (s : ProfileViewState) : ST Store ProfileViewState :=
  if isGuest token then ret s else
  settle (profileSocieties token)
    (fun data => mkProfileViewState (pv_user s) (Some data) (pv_events s) (pv_errorMsg s) (pv_navigated s))
    (fun msg => mkProfileViewState (pv_user s) (pv_societies s) (pv_events s) (Some msg) (pv_navigated s)).

Definition fetchEvents (token : string) (s : ProfileViewState) : ST Store ProfileViewState :=
  if isGuest token then ret s else
  settle (profileEvents token)
    (fun data => mkProfileViewState (pv_user s) (pv_societies s) (Some data) (pv_errorMsg s) (pv_navigated s))
    (fun msg => mkProfileViewState (pv_user s) (pv_societies s) (pv_events s) (Some msg) (pv_navigated s)).

(** The effect: the three fetches, which set disjoint hooks. *)
Definition profileViewPage_mount (token : string) : ST Store ProfileViewState :=
  s1 <- fetchUserInfo token profileView_initial ;;
  s2 <- fetchSocieties token s1 ;;
  fetchEvents token s2.

End ProfileViewPage.

(** ** Witnesses *)

(** Twelve chess clubs. *)
Definition clubs_store : Store :=
  set_societies (fun _ => list_to_map
    (map (fun n => (Z.of_nat n + 1, mkSociety ("Chess Club " +:+ pretty (Z.of_nat n)) "Plays chess" None))
       (seq 0 12))) empty_store.

Lemma societyListPage_search_disables_next_witness :
  (10 <= length (SocietyListPage.societies_listing (Some "chess") clubs_store))%nat /\
  exists s, (s0 <- SocietyListPage.societyList_mount ;; SocietyListPage.searchSocieties (Some "chess") false s0) clubs_store
              = Done s clubs_store /\
    SocietyListPage.searchString s = Some "chess" /\
    SocietyListPage.societies s = take 9 (SocietyListPage.societies_listing (Some "chess") clubs_store) /\
    SocietyListPage.isMore s = false.
Proof.
  assert (H : (10 <= length (SocietyListPage.societies_listing (Some "chess") clubs_store))%nat)
    by (vm_compute; lia).
  split; [exact H|]. apply SocietyListPage.societyListPage_search_disables_next. exact H.
Defined.

Lemma eventListPage_search_race_witness :
  (1 <= 1)%nat /\ (Some "Blitz", @None Z, @None Z) <> (None, None, None) /\
  exists s, (s0 <- EventListPage.eventList_mount ;; EventListPage.scrolls 1 s0) listing_demo = Done s listing_demo /\
    (exists s', EventListPage.search (Some "Blitz") None None false s listing_demo = Done s' listing_demo /\
                EventListPage.eventPosts s' = take 9 (EventListPage.events_listing (Some "Blitz") None None listing_demo)) /\
    (exists s', EventListPage.search (Some "Blitz") None None true s listing_demo = Done s' listing_demo /\
                EventListPage.eventPosts s' = EventListPage.eventPosts s ++
                  EventListPage.newEvents (EventListPage.eventPosts s)
                    (take 9 (EventListPage.events_listing (Some "Blitz") None None listing_demo))).
Proof.
  split; [lia|]. split; [discriminate|].
  apply EventListPage.eventListPage_search_race; [lia|discriminate].
Defined.

Lemma homePage_feed_witness :
  exists s, HomePage.loadFeed (fun _ => 0) "tok3" event_demo = Done s event_demo /\
    HomePage.hp_errorMsg s = None /\
    forall ei, ei ∈ HomePage.hp_eventPosts s <->
      exists eid e, events event_demo !! eid = Some e /\ ei = event_info eid e /\
        is_Some (members event_demo !! (3, ev_societyId e)) /\ 0 <= time e.
Proof.
  apply (HomePage.homePage_feed event_demo "tok3" 3
           (mkUser "cat@unsw.edu" "cat" "stevens" "hash:pw3" "z3333333" false) (fun _ => 0));
    [apply wf_event_demo|discriminate|reflexivity..].
Defined.
