(* ===== verification/Forms.v ===== *)
(** * The form pages

    The pages that prefill a form from the backend and send it back:

    - pages/EventAttendanceFormPage.tsx: the event's title and the
      user's profile prefill the attendance form, [submitForm] sends it;
    - pages/ProfileEditPage.tsx: the profile prefills the form,
      [editProfile] saves it;
    - components/Forms/EventEditForm.tsx: the event prefills the form,
      its time cut to [time.slice(0, -1)];
    - components/Forms/EventCreationForm.tsx,
      components/Forms/SocietyApplicationForm.tsx and
      pages/SocietyEditPage.tsx: the submissions.

    A form's state is a record of its [useState] hooks; its fetch is
    the [useEffect] run on mounting, and a submission is the handler
    with its API call, which is the handler the call reaches (Client.v).

    JavaScript's dates are the interface [JsDate]: [toISOString] writes
    an instant as UTC with a trailing [Z], and [new Date(s)] reads a
    date-time without an offset as the server's local time
    (ECMA-262, Date Time String Format), [tz_offset] milliseconds ahead
    of UTC.

    The theorems show that a user who submits the prefilled attendance
    form is recorded as attending, that saving the prefilled profile
    form changes nothing, and that saving the prefilled event form
    moves the event by the server's offset from UTC. *)

From S2P Require Import Prelude Validation Store Session Society Event Profile Client UI.
From Stdlib Require Import Ascii.

Open Scope Z_scope.

(** ** JavaScript dates *)

Class JsDate := {
  toISOString : Z -> string;
  date_parse : string -> option Z;   (** [new Date(s)]; [None] for an Invalid Date *)
  tz_offset : Z;
  (** [toISOString] ends in [Z]; without it the string is read as local time. *)
  toISOString_local t : exists s, toISOString t = s +:+ "Z" /\ date_parse s = Some (t - tz_offset);
  (** [new Date(d.toISOString())] is [d]. *)
  toISOString_parse t : date_parse (toISOString t) = Some t
}.

(** [s.slice(0, -1)]: the string without its last character. *)
Definition drop_last (s : string) : string := String.substring 0 (String.length s - 1) s.

(** Prisma refuses an Invalid Date; the error is not caught. *)
Definition invalid_date : HttpError := InternalServerError "Invalid Date".

Section Forms.
Context `{EmailValidator} `{JsDate}.

(** [new Date(req.body.time)] in the /event and /event/edit routes. *)
Definition with_date {A} (time : string) (k : Z -> ST Store A) : ST Store A :=
  match date_parse time with Some t => k t | None => throw invalid_date end.

(** ** pages/EventAttendanceFormPage.tsx *)

Record AttendanceFormState := mkAttendanceFormState {
  af_eventTitle : string;
  af_nameFirst : string;
  af_nameLast : string;
  af_zId : string;
  af_email : string;
  af_showSuccessModal : bool;
  af_errorMsg : option string;
  af_navigated : option string   (** a [navigate] the effect made *)
}.

Definition attendanceForm_initial : AttendanceFormState :=
  mkAttendanceFormState "" "" "" "" "" false None None.

(** [loadEvent]: the title, or [navigate('/home')] on an error. *)
Definition attendanceForm_loadEvent (eventId : Z) (s : AttendanceFormState) : ST Store AttendanceFormState :=
  settle (getEvent eventId)
    (fun event => mkAttendanceFormState (info_name event) (af_nameFirst s) (af_nameLast s) (af_zId s)
                    (af_email s) (af_showSuccessModal s) (af_errorMsg s) (af_navigated s))
    (fun _ => mkAttendanceFormState (af_eventTitle s) (af_nameFirst s) (af_nameLast s) (af_zId s)
                (af_email s) (af_showSuccessModal s) (af_errorMsg s) (Some "/home")).

(** [getProfile]: the four fields, or a fixed message. *)
Definition attendanceForm_getProfile (userToken : string) (s : AttendanceFormState)
    : ST Store AttendanceFormState :=
  settle (profileView userToken)
    (fun profile => mkAttendanceFormState (af_eventTitle s) (prof_nameFirst profile) (prof_nameLast profile)
                      (prof_zId profile) (prof_email profile) (af_showSuccessModal s) (af_errorMsg s)
                      (af_navigated s))
    (fun _ => mkAttendanceFormState (af_eventTitle s) (af_nameFirst s) (af_nameLast s) (af_zId s)
                (af_email s) (af_showSuccessModal s)
                (Some "Could not grab user profile info to prefill the form") (af_navigated s)).

(** The effect on mounting: [loadEvent(); getProfile()]. *)
Definition attendanceForm_mount (eventId : Z) (userToken : string) : ST Store AttendanceFormState :=
  s <- attendanceForm_loadEvent eventId attendanceForm_initial ;;
  attendanceForm_getProfile userToken s.

Definition attendanceForm_submitForm (eventIdNum : Z) (s : AttendanceFormState)
    : ST Store AttendanceFormState :=
  settle (fillForm eventIdNum (af_nameFirst s) (af_nameLast s) (af_zId s) (af_email s))
    (fun _ => mkAttendanceFormState (af_eventTitle s) (af_nameFirst s) (af_nameLast s) (af_zId s)
                (af_email s) true (af_errorMsg s) (af_navigated s))
    (fun msg => mkAttendanceFormState (af_eventTitle s) (af_nameFirst s) (af_nameLast s) (af_zId s)
                  (af_email s) (af_showSuccessModal s) (Some msg) (af_navigated s)).

(** [closeModal]: [navigate(`/event/${eventId}`)]. *)
Definition attendanceForm_closeModal (eventId : Z) : UiEffect :=
  Navigate ("/event/" +:+ pretty eventId).

(** ** pages/ProfileEditPage.tsx *)

Record ProfileEditState := mkProfileEditState {
  pe_nameFirst : string;
  pe_nameLast : string;
  pe_email : string;
  pe_errorMsg : option string
}.

Definition profileEdit_initial : ProfileEditState := mkProfileEditState "" "" "" None.

(** [if (isGuest(userToken)) navigate('/home')] while rendering. *)
Definition profileEdit_guard (userToken : string) : option UiEffect :=
  if isGuest userToken then Some (Navigate "/home") else None.

Definition profileEdit_fetchUserInfo (userToken : string) (s : ProfileEditState) : ST Store ProfileEditState :=
  settle (profileView userToken)
    (fun data => mkProfileEditState (prof_nameFirst data) (prof_nameLast data) (prof_email data) (pe_errorMsg s))
    (fun msg => mkProfileEditState (pe_nameFirst s) (pe_nameLast s) (pe_email s) (Some msg)).

(** [api.profile.edit(userToken, email, nameFirst, nameLast)] reaches
    [profileEdit(token, nameFirst, nameLast, email)]. *)
Definition profileEdit_editProfile (userToken : string) (s : ProfileEditState) : ST Store UiEffect :=
  on_api (profileEdit userToken (pe_nameFirst s) (pe_nameLast s) (pe_email s))
    (fun _ => Navigate "/profile/view").

(** ** components/Forms/EventEditForm.tsx *)

Record EventEditState := mkEventEditState {
  ee_eventId : Z;
  ee_eventName : string;
  ee_eventTime : string;
  ee_eventDescription : string;
  ee_eventLocation : string;
  ee_errorMsg : option string
}.

Definition eventEdit_initial (eventIdNum : Z) : EventEditState :=
  mkEventEditState eventIdNum "" "" "" "" None.

(** [loadEvent]: the answer's [time] is the JSON of a [Date],
    [toISOString]; the form keeps [time.slice(0, -1)]. *)
Definition eventEdit_loadEvent (eventIdNum : Z) (s : EventEditState) : ST Store EventEditState :=
  settle (getEvent eventIdNum)
    (fun ev => mkEventEditState (info_eventId ev) (info_name ev) (drop_last (toISOString (info_time ev)))
                 (info_description ev) (info_location ev) (ee_errorMsg s))
    (fun msg => mkEventEditState (ee_eventId s) (ee_eventName s) (ee_eventTime s) (ee_eventDescription s)
                  (ee_eventLocation s) (Some msg)).

Definition eventEdit_handleFormSubmit (token : string) (s : EventEditState) : ST Store UiEffect :=
  on_api (with_date (ee_eventTime s) (fun time =>
            editEvent token (ee_eventId s) (ee_eventName s) (ee_eventDescription s) time (ee_eventLocation s)))
    (fun _ => Navigate "/home").

(** ** components/Forms/EventCreationForm.tsx *)

Definition eventCreation_guard (token : string) : option UiEffect :=
  if isGuest token then Some (Navigate "/home") else None.

Definition eventCreation_handleFormSubmit (token : string) (societyId : Z)
    (eventName eventTime eventDescription eventLocation : string) : ST Store UiEffect :=
  on_api (with_date eventTime (fun time =>
            createEvent token societyId eventName eventDescription time eventLocation))
    (fun _ => Navigate "/home").

(** ** components/Forms/SocietyApplicationForm.tsx; the [tags] the call
    sends are ignored by the route. *)

Definition societyApplication_guard (token : string) : option UiEffect :=
  if isGuest token then Some (Navigate "/home") else None.

Definition societyApplication_societyApply (token name description : string) : ST Store UiEffect :=
  on_api (societyApply token name description) (fun _ => Navigate "/home").

(** ** pages/SocietyEditPage.tsx *)

Record SocietyEditState := mkSocietyEditState {
  se_name : string;
  se_description : string;
  se_errorMsg : option string
}.

Definition societyEdit_fetchSociety (societyId : Z) (s : SocietyEditState) : ST Store SocietyEditState :=
  settle (societyView societyId)
    (fun soc => mkSocietyEditState (societyName soc) (si_description soc) (se_errorMsg s))
    (fun msg => mkSocietyEditState (se_name s) (se_description s) (Some msg)).

Definition societyEdit_handleFormSubmit (token : string) (societyId : Z) (s : SocietyEditState)
    : ST Store UiEffect :=
  on_api (societyEdit token societyId (se_name s) (se_description s))
    (fun _ => Navigate ("/society/" +:+ pretty societyId)).

(** ** The prefilled forms sent back *)

Lemma length_append_Z s : String.length (s +:+ "Z") = S (String.length s).
Proof. induction s as [|c s IH]; simpl; auto. Qed.

Lemma drop_last_Z s : drop_last (s +:+ "Z") = s.
Proof.
  unfold drop_last. rewrite length_append_Z. simpl. rewrite Nat.sub_0_r.
  induction s as [|c s IH]; simpl; [done|]. by rewrite IH.
Qed.

Lemma getEvent_Done st eid e : events st !! eid = Some e -> getEvent eid st = Done (event_info eid e) st.
Proof. intros He. unfold getEvent. st_simpl. by rewrite He. Qed.

(** (C37) Saving the event form unchanged moves the event: the form
    keeps the answer's ISO time without its [Z], the backend reads
    that as the server's local time, and an editor who opens the form
    and saves it at once sets the event's time to [time - tz_offset],
    every other field unchanged. *)
Theorem eventEdit_unchanged_save_shifts st token uid u eid e :
  ev_wf st -> sessions st !! token = Some uid -> users st !! uid = Some u ->
  events st !! eid = Some e -> has_elevated_access uid (ev_societyId e) st = true ->
  exists s, eventEdit_loadEvent eid (eventEdit_initial eid) st = Done s st /\
    eventEdit_handleFormSubmit token s st =
      Done (Navigate "/home")
        (set_events (insert eid (mkEvent (ev_societyId e) (ev_name e) (ev_description e)
                                   (time e - tz_offset) (location e))) st).
Proof.
  intros Hinv Hs Hu He Ha. destruct (toISOString_local (time e)) as (str & Hiso & Hparse).
  eexists. split.
  { unfold eventEdit_loadEvent, settle. rewrite (getEvent_Done _ _ _ He). reflexivity. }
  unfold eventEdit_handleFormSubmit, on_api, with_date. simpl.
  rewrite Hiso, drop_last_Z, Hparse.
  match goal with |- context [editEvent ?t ?i ?n ?d ?tm ?l st] =>
    assert (Hed : editEvent t i n d tm l st =
              Done tt (set_events (insert eid (mkEvent (ev_societyId e) n d tm l)) st))
      by (apply editEvent_authorization; [done|]; eauto 10) end.
  by rewrite Hed.
Qed.

(** (C20) A logged-in user who opens the attendance form of an existing
    event and submits the prefilled fields sees the success dialog,
    has an attendance-form row under the event, the user's zId and
    email, and is recorded as having attended. *)
Theorem attendanceForm_prefill_records st token uid u eid e :
  wf st -> sessions st !! token = Some uid -> users st !! uid = Some u ->
  events st !! eid = Some e -> isEmail (email u) = true ->
  exists s s' st', attendanceForm_mount eid token st = Done s st /\
    af_eventTitle s = ev_name e /\ af_errorMsg s = None /\
    attendanceForm_submitForm eid s st = Done s' st' /\ af_showSuccessModal s' = true /\
    is_Some (forms st' !! (eid, zId u, email u)) /\ (uid, eid) ∈ attended st'.
Proof.
  intros Hwf Hs Hu He Hem. destruct (profileView_spec st token uid u Hs Hu) as (p & Hp & _ & Hpe & _).
  assert (Hpv : profileView token st =
    Done (mkUserProfile uid (email u) (nameFirst u) (nameLast u) (zId u)
            (societies_with_role uid "admin" st) (societies_with_role uid "moderator" st)
            (isAdmin u) (webcalPath (zId u))) st).
  { unfold profileView. rewrite validateSession_bind, Hs, Hu. reflexivity. }
  unfold attendanceForm_mount, attendanceForm_loadEvent, attendanceForm_getProfile, settle, st_bind.
  rewrite (getEvent_Done _ _ _ He), Hpv. simpl.
  set (st1 := if forms st !! (eid, zId u, email u) is Some _ then st else
                mkStore (users st) (sessions st) (societies st) (members st) (applications st)
                  (events st) (attending st) (attended st) (resetCodes st)
                  (<[(eid, zId u, email u) := (nameFirst u, nameLast u)]> (forms st))
                  (next_user st) (next_society st) (next_application st) (next_event st)).
  assert (Hf : form_upsert eid (zId u) (email u) (nameFirst u) (nameLast u) st = Done tt st1).
  { unfold form_upsert, st1. destruct (forms st !! _); [done|]. rewrite bool_decide_eq_true_2; [done|]. rewrite He. by eexists. }
  assert (Hz : user_by_zId (zId u) st1 = Some (uid, u))
    by (unfold st1; destruct (forms st !! _); apply (user_by_zId_unique _ _ _ Hwf Hu)).
  assert (He1 : events st1 !! eid = Some e) by (unfold st1; by destruct (forms st !! _)).
  do 3 eexists. split; [reflexivity|]. split; [done|]. split; [done|].
  unfold attendanceForm_submitForm, settle, fillForm. st_simpl. rewrite Hem. simpl. rewrite Hf.
  unfold attended_create. rewrite Hz, He1. rewrite bool_decide_eq_true_2 by (by eexists).
  split; [reflexivity|]. simpl. split; [done|]. split; [|set_solver].
  unfold st1. destruct (forms st !! _) eqn:E; simpl; [by rewrite E|by rewrite lookup_insert_eq].
Qed.

(** Saving the prefilled profile form changes nothing: a logged-in
    user who opens the edit page and saves at once is sent to the
    profile page and the store is exactly as before. *)
Theorem profileEdit_unchanged_save_noop st token uid u :
  wf st -> token <> "" -> sessions st !! token = Some uid -> users st !! uid = Some u ->
  exists s, profileEdit_guard token = None /\
    profileEdit_fetchUserInfo token profileEdit_initial st = Done s st /\
    profileEdit_editProfile token s st = Done (Navigate "/profile/view") st.
Proof.
  intros Hwf Hne Hs Hu.
  assert (Hpv : forall st', sessions st' !! token = Some uid -> users st' !! uid = Some u ->
    profileView token st' =
    Done (mkUserProfile uid (email u) (nameFirst u) (nameLast u) (zId u)
            (societies_with_role uid "admin" st') (societies_with_role uid "moderator" st')
            (isAdmin u) (webcalPath (zId u))) st').
  { intros st' Hs' Hu'. unfold profileView. rewrite validateSession_bind, Hs', Hu'. reflexivity. }
  eexists. split; [unfold profileEdit_guard; by rewrite isGuest_false|].
  split; [unfold profileEdit_fetchUserInfo, settle; rewrite (Hpv st Hs Hu); reflexivity|].
  assert (Hup : user_update_profile uid (nameFirst u) (nameLast u) (email u) st = Done tt st).
  { unfold user_update_profile. rewrite Hu, (user_by_email_unique _ _ _ Hwf Hu), bool_decide_eq_true_2 by done.
    f_equal. destruct u, st; unfold set_users, user_with_profile; simpl in *. by rewrite insert_id. }
  unfold profileEdit_editProfile, on_api, profileEdit. simpl.
  rewrite validateSession_bind, Hs, Hu. st_simpl. rewrite Hup. simpl. by rewrite (Hpv st Hs Hu).
Qed.

End Forms.

(** ** Witnesses *)

Lemma has_char_app_Z s : has_char "Z" (s +:+ "Z") = true.
Proof. induction s as [|c s IH]; simpl; [done|]. by rewrite IH, orb_true_r. Qed.

Lemma has_char_pretty_Z (t : Z) : has_char "Z" (pretty t) = false.
Proof.
  pose proof (pretty_Z_numeric t) as Hn. destruct (pretty t) as [|c s]; [done|].
  simpl in Hn. apply andb_prop in Hn as [Hc Hs]. cbn [has_char].
  apply orb_false_iff. split; [revert Hc; unfold number_char; by destruct c as [[] [] [] [] [] [] [] []]|].
  induction s as [|c' s IH]; [done|]. simpl in Hs. apply andb_prop in Hs as [Hc' Hs]. cbn [has_char].
  apply orb_false_iff. split; [revert Hc'; unfold number_char; by destruct c' as [[] [] [] [] [] [] [] []]|].
  by apply IH.
Qed.

(** A demonstration [JsDate]: instants written as their number of
    milliseconds; a string ending in [Z] is read as UTC, any other as
    the local time of a server ten hours ahead of UTC. *)
Definition demo_js_date : JsDate.
Proof.
  refine {| toISOString t := pretty t +:+ "Z";
            date_parse s := if has_char "Z" s then parseInt s else (fun n => n - 36000000) <$> parseInt s;
            tz_offset := 36000000 |}.
  - intros t. exists (pretty t). split; [done|]. by rewrite has_char_pretty_Z, parseInt_pretty.
  - intros t. by rewrite has_char_app_Z, parseInt_pretty_Z.
Defined.
#[local] Existing Instance demo_js_date.

Definition cat : User := mkUser "cat@unsw.edu" "cat" "stevens" "hash:pw3" "z3333333" false.

Lemma eventEdit_unchanged_save_shifts_witness :
  exists s, eventEdit_loadEvent 1 (eventEdit_initial 1) event_demo = Done s event_demo /\
    eventEdit_handleFormSubmit "tok3" s event_demo =
      Done (Navigate "/home")
        (set_events (insert 1 (mkEvent 1 "Opening Night" "First games of the year"
                                 (1700000000000 - tz_offset) "Library")) event_demo).
Proof.
  apply (eventEdit_unchanged_save_shifts event_demo "tok3" 3 cat 1 opening_night);
    [apply ev_wf_event_demo|reflexivity..].
Defined.

Lemma attendanceForm_prefill_records_witness :
  exists s s' st', attendanceForm_mount 1 "tok3" event_demo = Done s event_demo /\
    af_eventTitle s = "Opening Night" /\ af_errorMsg s = None /\
    attendanceForm_submitForm 1 s event_demo = Done s' st' /\ af_showSuccessModal s' = true /\
    is_Some (forms st' !! (1, "z3333333", "cat@unsw.edu")) /\ (3, 1) ∈ attended st'.
Proof.
  apply (attendanceForm_prefill_records event_demo "tok3" 3 cat 1 opening_night);
    [apply wf_event_demo|reflexivity..].
Defined.

Lemma profileEdit_unchanged_save_noop_witness :
  exists s, profileEdit_guard "tok2" = None /\
    profileEdit_fetchUserInfo "tok2" profileEdit_initial demo_store = Done s demo_store /\
    profileEdit_editProfile "tok2" s demo_store = Done (Navigate "/profile/view") demo_store.
Proof.
  apply (profileEdit_unchanged_save_noop demo_store "tok2" 2
           (mkUser "bob@unsw.edu" "bob" "ross" "hash:pw2" "z2222222" false));
    [apply wfb_wf; vm_compute; reflexivity|discriminate|reflexivity..].
Defined.
