(* ===== verification/Routes.v ===== *)
(** * The frontend's routes

    src/frontend/src/App.tsx declares the pages of the application as
    react-router routes: a path pattern, whose [:name] segments match
    any non-empty segment, and the page it renders; the pattern ["*"]
    matches every path and redirects to the login page.  react-router
    ranks the patterns that match a path by [computeScore]: the number
    of segments of the pattern, [-2] for a splat, [+10] per static
    segment, [+3] per [:param] and [+1] per empty segment; the first of
    the best-scored routes wins.  [resolve] is that choice, with the
    patterns and their order as App.tsx has them.

    The theorems show that every path the frontend navigates to, with
    any number as its id, renders the page it names, so no link falls
    through to the catch-all redirect, and that every navigation the
    modelled handlers make is to such a path. *)

From S2P Require Import Prelude Validation Store Event Client UI AuthPages Forms.
From Stdlib Require Import Ascii.

Open Scope Z_scope.

Inductive Page :=
| RedirectToLogin
| LoginPage | RegisterPage | PasswordRecoverPage | PasswordResetPage
| HomePage | UsersPage | ProfileViewPage | ProfileEditPage
| ApplySocietyPage | ReviewApplicationsPage
| SocietyListPage | SocietyViewPage | SocietyEditPage | SocietyMembersPage
| EventListPage | EventViewPage | EventEditPage | EventQrCodePage | EventAttendanceFormPage
| EventCreationPage.

#[export] Instance Page_eq_dec : EqDecision Page.
Proof. solve_decision. Defined.

(** The [<Route path=... element=...>] children of [<Routes>], in order. *)
Definition app_routes : list (string * Page) :=
  [("*", RedirectToLogin);
   ("/auth/login", LoginPage); ("/auth/register", RegisterPage);
   ("/auth/recover", PasswordRecoverPage); ("/auth/reset", PasswordResetPage);
   ("/home", HomePage); ("/users", UsersPage);
   ("/profile/view", ProfileViewPage); ("/profile/edit", ProfileEditPage);
   ("/apply", ApplySocietyPage); ("/applications/review", ReviewApplicationsPage);
   ("/society/list", SocietyListPage); ("/society/:societyId", SocietyViewPage);
   ("/society/:societyId/edit", SocietyEditPage); ("/society/:societyId/members", SocietyMembersPage);
   ("/event/list", EventListPage); ("/event/:eventId", EventViewPage);
   ("/event/:eventId/edit", EventEditPage); ("/event/:eventId/qrcode", EventQrCodePage);
   ("/event/:eventId/form", EventAttendanceFormPage); ("/event/:societyId/create", EventCreationPage)].

Definition slash : ascii := Eval cbv in ascii_of_nat 47.
Definition colon : ascii := Eval cbv in ascii_of_nat 58.

Definition is_splat (seg : string) : bool := String.eqb seg "*".

Definition is_param (seg : string) : bool :=
  match seg with String c _ => Ascii.eqb c colon | EmptyString => false end.

(** [computeScore(path, index)] of react-router for a non-index route. *)
Definition computeScore (path : string) : Z :=
  let segments := split_on slash path in
  let initialScore := Z.of_nat (length segments) + (if existsb is_splat segments then -2 else 0) in
  fold_left (fun score segment =>
               score + (if is_param segment then 3 else if String.eqb segment "" then 1 else 10))
    (List.filter (fun s => negb (is_splat s)) segments) initialScore.

(** The segments of a path, without the empty ones its slashes leave. *)
Definition segments_of (path : string) : list string :=
  List.filter (fun s => negb (String.eqb s "")) (split_on slash path).

(** A pattern matches a path segment by segment, case-insensitively; a
    [:param] matches any segment, a splat all that is left. *)
Fixpoint match_segments (pattern path : list string) : bool :=
  match pattern, path with
  | [], [] => true
  | p :: ps, _ =>
      if is_splat p then true else
      match path with
      | [] => false
      | s :: ss => (is_param p || String.eqb (toLowerCase p) (toLowerCase s)) && match_segments ps ss
      end
  | [], _ :: _ => false
  end.

Definition matchPath (pattern path : string) : bool :=
  match_segments (segments_of pattern) (segments_of path).

(** The best-scored first route among those [m] accepts. *)
Definition best_route (m : string -> bool) : Page :=
  match fold_left (fun best r =>
          if m r.1 then
            match best with
            | Some (sc, _) => if Z.ltb sc (computeScore r.1) then Some (computeScore r.1, r.2) else best
            | None => Some (computeScore r.1, r.2)
            end
          else best) app_routes None with
  | Some (_, page) => page
  | None => RedirectToLogin
  end.

(** The page react-router renders for [path]. *)
Definition resolve (path : string) : Page := best_route (fun pattern => matchPath pattern path).

(** ** Numbers in paths *)

(** A static segment of App.tsx starts with a letter. *)
Definition letter_led (s : string) : bool :=
  match s with EmptyString => false | String c _ => negb (number_char c) end.

Lemma char_to_lower_number c : number_char (char_to_lower c) = number_char c.
Proof. destruct c as [[] [] [] [] [] [] [] []]; reflexivity. Qed.

Lemma static_ne_numeric t a :
  letter_led t = true -> numeric a = true -> String.eqb (toLowerCase t) (toLowerCase a) = false.
Proof.
  destruct t as [|c t], a as [|d a]; try done. intros Ht Ha. simpl in Ht, Ha. cbn [toLowerCase].
  apply andb_prop in Ha as [Hd _]. apply String.eqb_neq. intros [= Hcd _].
  rewrite <- (char_to_lower_number c), Hcd, char_to_lower_number, Hd in Ht. done.
Qed.

(** A pattern segment a numeric segment cannot tell from another. *)
Definition blind_seg (p : string) : bool := is_splat p || is_param p || letter_led p.

Lemma match_segments_numeric pat (l1 l2 : list string) a b :
  forallb blind_seg pat = true -> numeric a = true -> numeric b = true ->
  match_segments pat (l1 ++ a :: l2)%list = match_segments pat (l1 ++ b :: l2)%list.
Proof.
  revert l1. induction pat as [|p pat IH]; intros l1 Hpat Ha Hb.
  - by destruct l1.
  - cbn [forallb] in Hpat. apply andb_prop in Hpat as [Hp Hpat]. cbn [match_segments].
    destruct (is_splat p) eqn:Es; [done|].
    destruct l1 as [|s l1]; cbn [app].
    + f_equal. unfold blind_seg in Hp. rewrite Es in Hp.
      destruct (is_param p); [done|]. cbn [orb] in *. by rewrite !static_ne_numeric.
    + by rewrite (IH l1 Hpat Ha Hb).
Qed.

Lemma best_route_ext m1 m2 :
  (forall r, In r app_routes -> m1 r.1 = m2 r.1) -> best_route m1 = best_route m2.
Proof.
  intros Hm. unfold best_route. f_equal. generalize (@None (Z * Page)).
  induction app_routes as [|r rs IH]; intros acc; simpl; [done|].
  rewrite Hm by (by left). apply IH. intros r' Hr'. apply Hm. by right.
Qed.

Lemma app_routes_blind : forallb (fun r => forallb blind_seg (segments_of r.1)) app_routes = true.
Proof. vm_compute. reflexivity. Qed.

(** Two paths that differ in one numeric segment render the same page. *)
Lemma resolve_numeric p1 p2 (l1 l2 : list string) a b :
  segments_of p1 = (l1 ++ a :: l2)%list -> segments_of p2 = (l1 ++ b :: l2)%list ->
  numeric a = true -> numeric b = true -> resolve p1 = resolve p2.
Proof.
  intros H1 H2 Ha Hb. unfold resolve. apply best_route_ext. intros r Hr. unfold matchPath.
  rewrite H1, H2. apply match_segments_numeric; [|done..].
  pose proof app_routes_blind as Hall. rewrite forallb_forall in Hall. by apply Hall.
Qed.

(** ** Paths built from segments *)

(** ["/" + s1 + "/" + s2 ...]: a template literal of the code. *)
Fixpoint path_of_segments (ss : list string) : string :=
  match ss with
  | [] => ""
  | [s] => String slash s
  | s :: ss' => String slash (s +:+ path_of_segments ss')
  end.

Definition plain_seg (s : string) : Prop := s <> "" /\ has_char slash s = false.

Lemma split_on_app c x y : has_char c x = false -> split_on c (x +:+ String c y) = x :: split_on c y.
Proof.
  induction x as [|a x IH]; intros Hx; simpl in *; [by rewrite Ascii.eqb_refl|].
  apply orb_false_iff in Hx as [Ha Hx]. rewrite Ha, IH by done. done.
Qed.

Lemma split_on_none c x : has_char c x = false -> split_on c x = [x].
Proof.
  induction x as [|a x IH]; intros Hx; simpl in *; [done|].
  apply orb_false_iff in Hx as [Ha Hx]. rewrite Ha, IH by done. done.
Qed.

Lemma segments_of_slash x : segments_of (String slash x) = segments_of x.
Proof. unfold segments_of. simpl. by rewrite ?Ascii.eqb_refl. Qed.

Lemma segments_of_seg s rest :
  plain_seg s -> segments_of (s +:+ String slash rest) = s :: segments_of rest.
Proof.
  intros [Hne Hs]. unfold segments_of. rewrite split_on_app by done. simpl.
  by rewrite (proj2 (String.eqb_neq _ _) Hne).
Qed.

Lemma segments_of_last s : plain_seg s -> segments_of s = [s].
Proof.
  intros [Hne Hs]. unfold segments_of. rewrite split_on_none by done. simpl.
  by rewrite (proj2 (String.eqb_neq _ _) Hne).
Qed.

Lemma segments_of_path ss : Forall plain_seg ss -> segments_of (path_of_segments ss) = ss.
Proof.
  induction ss as [|s ss IH]; intros Hss; [done|].
  apply Forall_cons in Hss as [Hs Hss]. destruct ss as [|s' ss'].
  - cbn [path_of_segments]. rewrite segments_of_slash. by apply segments_of_last.
  - assert (Hp : exists rest, path_of_segments (s' :: ss') = String slash rest)
      by (destruct ss'; eexists; reflexivity).
    destruct Hp as [rest Hp].
    change (path_of_segments (s :: s' :: ss')) with (String slash (s +:+ path_of_segments (s' :: ss'))).
    rewrite segments_of_slash, Hp, segments_of_seg by done. f_equal.
    rewrite <- segments_of_slash, <- Hp. by apply IH.
Qed.

Lemma numeric_plain s : numeric s = true -> plain_seg s.
Proof.
  destruct s as [|c s]; [done|]. intros Hn. split; [done|]. revert c Hn.
  induction s as [|d s IH]; intros c Hn; simpl in *;
    apply andb_prop in Hn as [Hc Hn];
    (assert (Ascii.eqb c slash = false) as -> by (destruct (Ascii.eqb_spec c slash); [subst; done|done])).
  - done.
  - simpl. apply (IH d). exact Hn.
Qed.

(** A link with a number in it renders the page of the link with [0]
    in its place. *)
Lemma resolve_param (l1 l2 : list string) (n : Z) :
  Forall plain_seg (l1 ++ l2) ->
  resolve (path_of_segments (l1 ++ pretty n :: l2)) = resolve (path_of_segments (l1 ++ "0" :: l2)).
Proof.
  intros Hl. apply Forall_app in Hl as [H1 H2].
  assert (Hn : numeric (pretty n) = true) by apply pretty_Z_numeric.
  assert (H0 : numeric "0" = true) by reflexivity.
  apply (resolve_numeric _ _ l1 l2 (pretty n) "0"); try done;
    apply segments_of_path, Forall_app; (split; [done|]); constructor; try done; by apply numeric_plain.
Qed.

Ltac plain_segs := repeat (constructor; [split; [discriminate|reflexivity]|]); constructor.

(** Every link of the code, with any number for its id, renders the
    page it names. *)
Lemma app_links_resolve (n : Z) :
  resolve ("/event/" +:+ pretty n) = EventViewPage /\
  resolve ("/event/" +:+ pretty n +:+ "/edit") = EventEditPage /\
  resolve ("/event/" +:+ pretty n +:+ "/form") = EventAttendanceFormPage /\
  resolve ("/event/" +:+ pretty n +:+ "/qrcode") = EventQrCodePage /\
  resolve ("/event/" +:+ pretty n +:+ "/create") = EventCreationPage /\
  resolve ("/society/" +:+ pretty n) = SocietyViewPage /\
  resolve ("/society/" +:+ pretty n +:+ "/edit") = SocietyEditPage /\
  resolve ("/society/" +:+ pretty n +:+ "/members") = SocietyMembersPage.
Proof.
  split_and!;
  lazymatch goal with
  | |- resolve (?pre +:+ pretty n +:+ ?post) = _ =>
      change (pre +:+ pretty n +:+ post) with
        (path_of_segments ([String.substring 1 (String.length pre - 2) pre] ++ pretty n ::
                           [String.substring 1 (String.length post - 1) post]));
      rewrite resolve_param by plain_segs
  | |- resolve (?pre +:+ pretty n) = _ =>
      change (pre +:+ pretty n) with
        (path_of_segments ([String.substring 1 (String.length pre - 2) pre] ++ pretty n :: []));
      rewrite resolve_param by plain_segs
  end; vm_compute; reflexivity.
Qed.

(** ** Path parameters *)

(** The values the [:name] segments of a pattern bind in a path
    ([match.params] of react-router). *)
Fixpoint match_params (pattern path : list string) : list (string * string) :=
  match pattern, path with
  | p :: ps, s :: ss =>
      ((if is_param p then [(String.substring 1 (String.length p - 1) p, s)] else []) ++
       match_params ps ss)%list
  | _, _ => []
  end.

(** The pattern of the route that renders [page]; App.tsx has one route
    per page. *)
Definition route_pattern (page : Page) : option string :=
  fst <$> List.find (fun r => bool_decide (r.2 = page)) app_routes.

(** [useParams()[key]] in the page rendered at [path]. *)
Definition useParams (path key : string) : option string :=
  pattern ← route_pattern (resolve path);
  field key (match_params (segments_of pattern) (segments_of path)).

Lemma segments_of_link pre (n : Z) :
  plain_seg pre -> segments_of ("/" +:+ pre +:+ "/" +:+ pretty n) = [pre; pretty n].
Proof.
  intros Hpre. change ("/" +:+ pre +:+ "/" +:+ pretty n) with (path_of_segments [pre; pretty n]).
  apply segments_of_path. repeat constructor; try apply Hpre; apply numeric_plain, pretty_Z_numeric.
Qed.

Lemma segments_of_link_post pre (n : Z) post :
  plain_seg pre -> plain_seg post ->
  segments_of ("/" +:+ pre +:+ "/" +:+ pretty n +:+ "/" +:+ post) = [pre; pretty n; post].
Proof.
  intros Hpre Hpost.
  change ("/" +:+ pre +:+ "/" +:+ pretty n +:+ "/" +:+ post) with (path_of_segments [pre; pretty n; post]).
  apply segments_of_path. repeat constructor; try apply Hpre; try apply Hpost.
  all: apply numeric_plain, pretty_Z_numeric.
Qed.

(** The page behind a link reads back, as its parameter, the number the
    link was built from. *)
Lemma useParams_links (n : Z) :
  useParams ("/event/" +:+ pretty n) "eventId" = Some (pretty n) /\
  useParams ("/event/" +:+ pretty n +:+ "/qrcode") "eventId" = Some (pretty n) /\
  useParams ("/event/" +:+ pretty n +:+ "/form") "eventId" = Some (pretty n) /\
  useParams ("/society/" +:+ pretty n) "societyId" = Some (pretty n) /\
  useParams ("/event/" +:+ pretty n +:+ "/edit") "eventId" = Some (pretty n) /\
  useParams ("/event/" +:+ pretty n +:+ "/create") "societyId" = Some (pretty n) /\
  useParams ("/society/" +:+ pretty n +:+ "/edit") "societyId" = Some (pretty n) /\
  useParams ("/society/" +:+ pretty n +:+ "/members") "societyId" = Some (pretty n).
Proof.
  destruct (app_links_resolve n) as (Hv & He & Hf & Hq & Hc & Hs & Hse & Hsm).
  unfold useParams. rewrite Hv, He, Hf, Hq, Hc, Hs, Hse, Hsm.
  change ("/event/" +:+ pretty n) with ("/" +:+ "event" +:+ "/" +:+ pretty n).
  change ("/society/" +:+ pretty n) with ("/" +:+ "society" +:+ "/" +:+ pretty n).
  change ("/event/" +:+ pretty n +:+ ?post) with ("/" +:+ "event" +:+ "/" +:+ pretty n +:+ post).
  change ("/society/" +:+ pretty n +:+ ?post) with ("/" +:+ "society" +:+ "/" +:+ pretty n +:+ post).
  change "/qrcode" with ("/" +:+ "qrcode"). change "/form" with ("/" +:+ "form").
  change "/edit" with ("/" +:+ "edit"). change "/create" with ("/" +:+ "create").
  change "/members" with ("/" +:+ "members").
  rewrite !segments_of_link, !segments_of_link_post by (split; [discriminate|reflexivity]).
  split_and!; reflexivity.
Qed.

(** ** The navigations of the handlers *)

Lemma on_api_Navigate {A} (c : ST Store A) k st p st' :
  on_api c k st = Done (Navigate p) st' -> exists a, k a = Navigate p.
Proof. unfold on_api. destruct (c st); intros [= Hk _]; eauto. Qed.

Lemma bind_ret_Done {S A B} (c : ST S A) (e e' : B) s s' : (c ;;; ret e) s = Done e' s' -> e' = e.
Proof. unfold st_bind, ret. destruct (c s); by intros [= <- _]. Qed.

Lemma try_catch_sign_in c b p b' :
  try_catch c (fun token => setAuthenticatedToken token ;;; ret (Navigate "/home")) b = Done (Navigate p) b' ->
  p = "/home".
Proof.
  unfold try_catch. destruct (c b); [|done]. intros H. apply bind_ret_Done in H. by injection H.
Qed.

Ltac nav_inv H :=
  repeat match type of H with
  | on_api _ _ _ = Done (Navigate _) _ => apply on_api_Navigate in H as [? H]
  | (_ ;;; ret _) _ = Done _ _ => apply bind_ret_Done in H
  | try_catch _ _ _ = Done (Navigate _) _ => apply try_catch_sign_in in H
  | Navigate _ = Navigate _ => injection H as H; subst
  | Some _ = Some _ => injection H as H; subst
  | ret _ _ = Done _ _ => injection H as H; subst
  end.

Section Navigations.
Context `{EmailValidator} `{PasswordHasher} `{JsDate}.

(** (C23) Every page the modelled handlers navigate to is a route of
    App.tsx that renders the page the handler means, whatever the ids,
    tokens and answers: no navigation falls through to the catch-all
    redirect. *)
Theorem handler_navigations_resolve token eid sid st b s_pe s_ee s_se email pw nf nl z salt code
    name desc time loc :
  (forall p st', handleEditEvent token eid st = Done (Navigate p) st' -> resolve p = EventEditPage) /\
  (forall p, handleEditPost eid = Navigate p -> resolve p = EventEditPage) /\
  (forall p st', handleDeleteEvent token eid st = Done (Navigate p) st' -> resolve p = HomePage) /\
  (forall p st', handleDeleteSociety token sid st = Done (Navigate p) st' -> resolve p = HomePage) /\
  (forall p b', loginForm_login email pw b = Done (Navigate p) b' -> resolve p = HomePage) /\
  (forall p b', loginForm_guest b = Done (Navigate p) b' -> resolve p = HomePage) /\
  (forall p b', registerForm_register email pw nf nl z salt b = Done (Navigate p) b' -> resolve p = HomePage) /\
  (forall p b', profileMenu_handleLogout token b = Done (Navigate p) b' -> resolve p = LoginPage) /\
  (forall p, profileMenu_handleProfileView token = Navigate p -> resolve p = ProfileViewPage) /\
  (forall p b', recoverForm_handleSubmit email code b = Done (Navigate p) b' -> resolve p = PasswordResetPage) /\
  (forall p b', resetForm_handleSubmit code pw salt b = Done (Navigate p) b' -> resolve p = LoginPage) /\
  (forall p, attendanceForm_closeModal eid = Navigate p -> resolve p = EventViewPage) /\
  (forall p, profileEdit_guard token = Some (Navigate p) -> resolve p = HomePage) /\
  (forall p st', profileEdit_editProfile token s_pe st = Done (Navigate p) st' -> resolve p = ProfileViewPage) /\
  (forall p st', eventEdit_handleFormSubmit token s_ee st = Done (Navigate p) st' -> resolve p = HomePage) /\
  (forall p, eventCreation_guard token = Some (Navigate p) -> resolve p = HomePage) /\
  (forall p st', eventCreation_handleFormSubmit token sid name time desc loc st = Done (Navigate p) st' ->
                 resolve p = HomePage) /\
  (forall p, societyApplication_guard token = Some (Navigate p) -> resolve p = HomePage) /\
  (forall p st', societyApplication_societyApply token name desc st = Done (Navigate p) st' ->
                 resolve p = HomePage) /\
  (forall p st', societyEdit_handleFormSubmit token sid s_se st = Done (Navigate p) st' ->
                 resolve p = SocietyViewPage).
Proof.
  destruct (app_links_resolve eid) as (?&?&?&?&?&?&?&?).
  destruct (app_links_resolve sid) as (?&?&?&?&?&?&?&?).
  split_and!; intros * Hrun;
  unfold handleEditEvent, handleEditPost, handleDeleteEvent, handleDeleteSociety, loginForm_login,
    loginForm_guest, registerForm_register, profileMenu_handleLogout, profileMenu_handleProfileView,
    recoverForm_handleSubmit, resetForm_handleSubmit, attendanceForm_closeModal, profileEdit_guard,
    profileEdit_editProfile, eventEdit_handleFormSubmit, eventCreation_guard,
    eventCreation_handleFormSubmit, societyApplication_guard, societyApplication_societyApply,
    societyEdit_handleFormSubmit in Hrun;
  repeat match type of Hrun with
  | context [if ?c then _ else _] => destruct c
  end; nav_inv Hrun; subst; try discriminate; first [assumption | vm_compute; reflexivity].
Qed.

End Navigations.

(** A witness: the edit link of event 7 that the home page's card menu
    follows renders the event edit page. *)
Lemma handler_navigations_resolve_witness :
  handleEditPost 7 = Navigate "/event/7/edit" /\ resolve "/event/7/edit" = EventEditPage.
Proof.
  split; [reflexivity|].
  apply (proj1 (proj2 (@handler_navigations_resolve _ _ demo_js_date "" 7 7 empty_store
    (mkBrowser None empty_store) profileEdit_initial (eventEdit_initial 7) (mkSocietyEditState "" "" None)
    "" "" "" "" "" "" "" "" "" "" ""))).
  reflexivity.
Defined.

