(* ===== verification/Seed.v ===== *)
(** * The development seed

    src/backend/prisma/seed.ts fills an empty database through the
    handlers themselves: it registers a site admin, a society admin, a
    moderator and [BASE_USERS] plain users, files [SOCIETIES]
    applications that the site admin approves and as many that it
    denies, makes the third user a moderator of every new society, and
    creates [EVENTS_PER_SOC] events in each.  The script's constants
    are Definitions here, its loops are [st_mapM] over the lists the
    loops walk, and each [await handler(...)] is the handler of the
    component files.  The draws of the run ([bcrypt.genSalt()] and
    [Date.now()]) are arguments.

    The theorem [seed_completes] runs the script on the empty store
    under any password hasher, salt and clock, and any email validator
    that accepts the script's six emails: every call succeeds, and the
    store it leaves is well formed and holds exactly the users,
    societies, memberships and events the comments of the script
    announce.  Only the registrations read the validator
    ([seed_main_validator_ext]), and the run never inspects a hash, so
    the computation that checks it leaves the hasher abstract. *)

From S2P Require Import Prelude Validation Store Session Auth Perm Admin Society Event Listing Profile.
From stdpp Require Import pretty.
From Stdlib Require Import Ascii.

Open Scope Z_scope.

(** [for (const x of xs) results.push(await f(x))]. *)
Fixpoint st_mapM {S A B} (f : A -> ST S B) (xs : list A) : ST S (list B) :=
  match xs with
  | [] => ret []
  | x :: xs' => y <- f x ;; ys <- st_mapM f xs' ;; ret (y :: ys)
  end.

Definition BASE_USERS : nat := 3.
Definition SOCIETIES : nat := 10.
Definition SITE_ADMIN_IS_SOC_ADMIN : bool := false.
Definition EVENTS_PER_SOC : nat := 15.
Definition socAdminIndex : nat := if SITE_ADMIN_IS_SOC_ADMIN then 0 else 1.

(** [s.padStart(len, c)] *)
Definition padStart (len : nat) (c : ascii) (s : string) : string :=
  String.concat "" (repeat (String c EmptyString) (len - String.length s)) +:+ s.

Definition zero_char : ascii := Eval cbv in ascii_of_nat 48.

Definition seed_users : list UserRegister :=
  [mkUserRegister "admin@test.io" "site" "admin" "password" "z0000000";
   mkUserRegister "socadmin@test.io" "soc" "admin" "password" "z5111111";
   mkUserRegister "socmod@test.io" "soc" "mod" "password" "z5222222"] ++
  map (fun n => mkUserRegister ("user" +:+ pretty (Z.of_nat n) +:+ "@test.io") "user" "name" "password"
                  ("z5" +:+ padStart 6 zero_char (pretty (Z.of_nat n))))
    (seq 0 BASE_USERS).

Definition socNames : list string :=
  ["CSESoc"; "Comp Club"; "SecSoc"; "Tea and Coffee Society"; "MechSoc";
   "EngineersWithoutBorders"; "Thing Soc"; "That Soc"; "DocSoc"; "SockSoc"; "SocketSoc"].

(** [{ token, societyName, description }] *)
Definition approveApps (tokens : list string) : list (string * string * string) :=
  map (fun n => let nm := nth n socNames "" in
                (nth socAdminIndex tokens "", nm, nm +:+ " is the best society!!!"))
    (seq 0 SOCIETIES).

Definition denyApps (tokens : list string) : list (string * string * string) :=
  map (fun n => (nth 2 tokens "", "Another Valid Society Name " +:+ pretty (Z.of_nat n),
                 "Another Valid Society Description!"))
    (seq 0 SOCIETIES).

(** One hour in milliseconds, [60 * 60 * 1000]. *)
Definition hour : Z := 3600000.

(** The inner loop of the event creation: [uniq] counts with [i]. *)
Definition seed_events (token : string) (now : Z) (societyId : Z) : ST Store (list Z) :=
  st_mapM (fun i =>
    soc <- societyView societyId ;;
    createEvent token societyId ("Event " +:+ pretty (Z.of_nat i))
      (societyName soc +:+ "'s Event Description")
      (now + (Z.of_nat i + 1) * 100 * hour) "Top Secret Location")
    (seq 0 EVENTS_PER_SOC).

Section Seed.
Context `{EmailValidator} `{PasswordHasher}.

(** [main()]; the [console.log] reads are kept as reads. *)
Definition seed_main (salt : string) (now : Z) : ST Store unit :=
  tokens <- st_mapM (fun u => authRegister u salt) seed_users ;;
  apprAppIds <- st_mapM (fun a => societyApply a.1.1 a.1.2 a.2) (approveApps tokens) ;;
  denyAppIds <- st_mapM (fun a => societyApply a.1.1 a.1.2 a.2) (denyApps tokens) ;;
  societyIds <- st_mapM (adminApplicationApprove (nth 0 tokens "")) apprAppIds ;;
  st_mapM (adminApplicationDeny (nth 0 tokens "")) denyAppIds ;;;
  societyList None None None ;;;
  p <- profileView (nth 2 tokens "") ;;
  let socModId := prof_userId p in
  st_mapM (fun societyId =>
    societyJoin (nth 2 tokens "") societyId ;;;
    permSocietyAllocate (nth socAdminIndex tokens "") socModId societyId 2) societyIds ;;;
  st_mapM (seed_events (nth socAdminIndex tokens "") now) societyIds ;;;
  st_mapM (fun societyId => societyEvents societyId now) societyIds ;;;
  ret tt.
End Seed.

(** ** What the seed leaves *)

(** The database the script's comments describe: six users of whom
    the first alone is a site admin, [SOCIETIES] societies each with the
    second user as admin and the third as moderator and no other
    member, [EVENTS_PER_SOC] events per society, and the approved and
    denied applications. *)
Definition seeded (st : Store) : Prop :=
  map_Forall (fun i u => isAdmin u = bool_decide (i = 1)) (users st) /\
  size (users st) = (3 + BASE_USERS)%nat /\
  size (societies st) = SOCIETIES /\
  map_Forall (fun sid _ => members st !! (2, sid) = Some "admin" /\
                          members st !! (3, sid) = Some "moderator") (societies st) /\
  size (members st) = (2 * SOCIETIES)%nat /\
  map_Forall (fun _ e => size (filter (fun ie => ev_societyId ie.2 = ev_societyId e) (events st))
                         = EVENTS_PER_SOC) (events st) /\
  size (events st) = (SOCIETIES * EVENTS_PER_SOC)%nat /\
  size (filter (fun ia => status ia.2 = "approved") (applications st)) = SOCIETIES /\
  size (filter (fun ia => status ia.2 = "denied") (applications st)) = SOCIETIES.

#[local] Instance seeded_dec st : Decision (seeded st).
Proof. unfold seeded. apply _. Defined.

(** ** Running the script *)

Lemma st_mapM_ext {S A B} (f g : A -> ST S B) xs st :
  (forall x st, x ∈ xs -> f x st = g x st) -> st_mapM f xs st = st_mapM g xs st.
Proof.
  revert st. induction xs as [|x xs IH]; intros st Hfg; [done|]. simpl. unfold st_bind.
  rewrite Hfg by set_solver. destruct (g x st) as [y st1|]; [|done].
  rewrite IH by (intros; apply Hfg; set_solver). done.
Qed.

(** Registration reads the email validator only on the request's
    lower-cased email. *)
Lemma authRegister_validator_ext (V1 V2 : EmailValidator) `{PasswordHasher} u salt st :
  @isEmail V1 (toLowerCase (reg_email u)) = @isEmail V2 (toLowerCase (reg_email u)) ->
  @authRegister V1 _ u salt st = @authRegister V2 _ u salt st.
Proof. intros E. unfold authRegister. by rewrite E. Qed.

(** Only the registrations of the script read the validator, so two
    validators that agree on the script's emails give the same run. *)
Lemma seed_main_validator_ext (V1 V2 : EmailValidator) `{PasswordHasher} salt now st :
  Forall (fun u => @isEmail V1 (toLowerCase (reg_email u)) = @isEmail V2 (toLowerCase (reg_email u)))
    seed_users ->
  @seed_main V1 _ salt now st = @seed_main V2 _ salt now st.
Proof.
  intros Hv. unfold seed_main, st_bind at 1.
  rewrite (st_mapM_ext _ (fun u => @authRegister V2 _ u salt)); [done|].
  intros u st' Hu. apply authRegister_validator_ext. by eapply Forall_forall in Hv.
Qed.

(** (C27) The seed script runs to the end on an empty database, for
    every password hasher, salt and clock and every email validator
    that accepts the script's six emails: no handler it calls throws,
    and the database it leaves satisfies both invariants and is the one
    its comments describe. *)
Theorem seed_completes `{V : EmailValidator} `{Hh : PasswordHasher} salt now :
  Forall (fun u => isEmail (toLowerCase (reg_email u)) = true) seed_users ->
  exists st, seed_main salt now empty_store = Done tt st /\ wf st /\ ev_wf st /\ seeded st.
Proof.
  intros Hv. rewrite (seed_main_validator_ext V demo_email_validator).
  2:{ assert (Hd : Forall (fun u => @isEmail demo_email_validator (toLowerCase (reg_email u)) = true)
                     seed_users) by (vm_compute; repeat constructor).
      apply (Forall_impl (fun u => isEmail (toLowerCase (reg_email u)) = true /\
                                   @isEmail demo_email_validator (toLowerCase (reg_email u)) = true));
        [by apply Forall_and|]. by intros u [-> ->]. }
  assert (Hrun : match @seed_main demo_email_validator Hh salt now empty_store with
                 | Done _ st => wfb st && ev_wfb st && bool_decide (seeded st)
                 | Fail _ _ => false
                 end = true) by (vm_compute; reflexivity).
  destruct (@seed_main demo_email_validator Hh salt now empty_store) as [[] st|]; [|done].
  apply andb_prop in Hrun as [[Hwf Hev]%andb_prop Hs%bool_decide_eq_true].
  exists st. split_and!; [done|by apply wfb_wf|by apply ev_wfb_ev_wf|done].
Qed.

(** ** Witnesses *)

Lemma seed_completes_witness :
  exists st, @seed_main demo_email_validator demo_hasher "salt" 1700000000000 empty_store = Done tt st /\
             wf st /\ ev_wf st /\ seeded st.
Proof.
  apply (@seed_completes demo_email_validator demo_hasher "salt" 1700000000000).
  vm_compute. repeat constructor.
Defined.
