(* ===== verification/Wire.v ===== *)
(** * Response bodies against the frontend's interfaces

    Each route of src/backend/src/app.ts answers [res.json(result)],
    where [result] is the object the handler's [return] statement
    builds.  The frontend casts every response of an API function to
    the interface its signature names ([as Promise<Profile>] and so on),
    declared in src/frontend/src/api/utils/interfaces.ts.  TypeScript
    does not check these casts at run time.

    This file models the JSON each handler's return statement produces
    ([response_json], with the field names and object spreads of the
    code), the interfaces as TypeScript types ([TsType]), structural
    conformance of a JSON value to a type ([conforms]: every declared
    field present with its type, extra fields allowed), and the
    interface each API function declares ([api_interface]).  A [Date]
    becomes a string by [Date.prototype.toJSON] ([date_json], a
    parameter).

    The theorems show which API functions always receive what they
    declare, and that four interfaces do not describe what the backend
    sends: the profile has [userId], not [id]; the user list lacks the
    profile fields [User] declares; [applicantId] is a number, not a
    string; and a society without a photo has [photoURL: null]. *)

From S2P Require Import Prelude Validation Store Session Admin Society Event Profile System Client.

Open Scope Z_scope.

(** ** interfaces.ts *)

Inductive TsType :=
| TNumber
| TString
| TBoolean
| TArray (t : TsType)
| TObject (fields : list (string * TsType))
(** [Record<string, never>]: an object with no field. *)
| TEmpty.

(** A JSON value has a TypeScript type: numbers, strings and booleans
    by their kind, arrays element-wise, an object when each declared
    field is present with its type (other fields are allowed). *)
Fixpoint conforms (v : JVal) (t : TsType) {struct t} : bool :=
  match t, v with
  | TNumber, JNum _ | TString, JStr _ | TBoolean, JBool _ => true
  | TArray t', JArr vs => forallb (fun w => conforms w t') vs
  | TObject fs, JObj kvs =>
      (fix go (fs : list (string * TsType)) : bool :=
         match fs with
         | [] => true
         | (k, t') :: fs' =>
             match field k kvs with Some w => conforms w t' | None => false end && go fs'
         end) fs
  | TEmpty, JObj [] => true
  | _, _ => false
  end.

Definition ts_TokenInfo : TsType := TObject [("token", TString)].
Definition ts_ApplicationInfo : TsType := TObject [("applicationId", TNumber)].
Definition ts_Application : TsType :=
  TObject [("applicationId", TNumber); ("name", TString); ("status", TString);
           ("description", TString); ("applicantId", TString)].
Definition ts_ApplicationsListInfo : TsType := TObject [("applications", TArray ts_Application)].
Definition ts_SocietyInfo : TsType := TObject [("societyId", TNumber)].
Definition ts_Society : TsType :=
  TObject [("societyId", TNumber); ("societyName", TString); ("description", TString);
           ("photoURL", TString)].
Definition ts_SocietyListInfo : TsType := TObject [("societies", TArray ts_Society)].
Definition ts_Profile : TsType :=
  TObject [("id", TNumber); ("email", TString); ("nameFirst", TString); ("nameLast", TString);
           ("zId", TString); ("adminSocieties", TArray TNumber); ("modSocieties", TArray TNumber);
           ("isSiteAdmin", TBoolean); ("webcal", TString)].
Definition ts_User : TsType :=
  TObject [("id", TNumber); ("email", TString); ("nameFirst", TString); ("nameLast", TString);
           ("zId", TString); ("adminSocieties", TArray TNumber); ("modSocieties", TArray TNumber);
           ("isAdmin", TBoolean); ("webcal", TString)].
Definition ts_UserListInfo : TsType := TObject [("users", TArray ts_User)].
Definition ts_SocietyMember : TsType :=
  TObject [("userId", TNumber); ("zId", TString); ("nameFirst", TString); ("nameLast", TString);
           ("role", TString)].
Definition ts_SocietyMemberListInfo : TsType := TObject [("members", TArray ts_SocietyMember)].
Definition ts_EventInfo : TsType := TObject [("eventId", TNumber)].
Definition ts_Event : TsType :=
  TObject [("eventId", TNumber); ("name", TString); ("description", TString); ("time", TString);
           ("location", TString); ("societyId", TNumber)].
Definition ts_Events : TsType := TObject [("events", TArray ts_Event)].
Definition ts_AttendingStatus : TsType := TObject [("attending", TBoolean)].
Definition ts_ProfileEvents : TsType :=
  TObject [("attending", TArray ts_Event); ("attended", TArray ts_Event)].
Definition ts_ProfileSocieties : TsType := TObject [("societies", TArray ts_Society)].

(** ** The interface each API function declares *)

Definition api_interface (c : ClientCall) : TsType :=
  match c with
  | CAuth (CRegister _ _ _ _ _) | CAuth (CLogin _ _) => ts_TokenInfo
  | CAuth _ => TEmpty
  | CSociety (CApply _ _ _ _) => ts_ApplicationInfo
  | CSociety (CSocietyView _) => ts_Society
  | CSociety (CSocietyList _ _ _) => ts_SocietyListInfo
  | CSociety (CSocietyMembers _) => ts_SocietyMemberListInfo
  | CSociety (CSocietyEvents _) => ts_Events
  | CSociety _ => TEmpty
  | CEvent (CEventCreate _ _ _ _ _ _) => ts_EventInfo
  | CEvent (CEventGet _) => ts_Event
  | CEvent (CEventStatus _ _) => ts_AttendingStatus
  | CEvent (CEventList _ _ _ _ _) => ts_Events
  | CEvent _ => TEmpty
  | CProfile (CProfileView _) | CProfile (CProfileEdit _ _ _ _) => ts_Profile
  | CProfile (CProfileEvents _) => ts_ProfileEvents
  | CProfile (CProfileSocieties _) => ts_ProfileSocieties
  | CApplication (CApplicationList _) => ts_ApplicationsListInfo
  | CApplication (CApplicationApprove _ _) => ts_SocietyInfo
  | CApplication (CApplicationDeny _ _) => TEmpty
  | CUsers _ => ts_UserListInfo
  | CUserRemove _ _ | CPermSite _ _ _ | CPermSociety _ _ _ _ | CClear => TEmpty
  end.

(** ** The JSON of each handler's result *)

Section Wire.
(** [Date.prototype.toJSON]: the ISO string of a time in milliseconds. *)
Context (date_json : Z -> string).

Definition json_photo (o : option string) : JVal :=
  match o with Some s => JStr s | None => JNull end.

(** [prisma.user.findMany({ select: { id, email, nameFirst, nameLast,
    zId, isAdmin } })] and [adminGetUserByZid]'s object. *)
Definition json_user_info (u : UserInfo) : JVal :=
  JObj [("id", JNum (info_id u)); ("email", JStr (info_email u)); ("nameFirst", JStr (info_nameFirst u));
        ("nameLast", JStr (info_nameLast u)); ("zId", JStr (info_zId u)); ("isAdmin", JBool (info_isAdmin u))].

Definition json_application (a : ApplicationInfo) : JVal :=
  JObj [("applicationId", JNum (applicationId a)); ("name", JStr (ai_name a));
        ("description", JStr (ai_description a)); ("applicantId", JNum (ai_applicantId a));
        ("status", JStr (ai_status a))].

(** [societyView]: [{ societyId, societyName, description, photoURL }]. *)
Definition json_society_view (s : SocietyInfo) : JVal :=
  JObj [("societyId", JNum (societyId s)); ("societyName", JStr (societyName s));
        ("description", JStr (si_description s)); ("photoURL", json_photo (si_photoURL s))].

(** [societyList]: [{ societyId: x.id, societyName: x.name, ...x }]. *)
Definition json_society_listed (s : SocietyInfo) : JVal :=
  JObj [("societyId", JNum (societyId s)); ("societyName", JStr (societyName s));
        ("id", JNum (societyId s)); ("name", JStr (societyName s));
        ("description", JStr (si_description s)); ("photoURL", json_photo (si_photoURL s))].

(** [profileSocieties]: [{ id, name, ...ret } = { ...s.society,
    societyId, societyName }]. *)
Definition json_society_joined (s : SocietyInfo) : JVal :=
  JObj [("description", JStr (si_description s)); ("photoURL", json_photo (si_photoURL s));
        ("societyId", JNum (societyId s)); ("societyName", JStr (societyName s))].

Definition json_member (m : SocMember) : JVal :=
  JObj [("userId", JNum (sm_userId m)); ("zId", JStr (sm_zId m)); ("nameFirst", JStr (sm_nameFirst m));
        ("nameLast", JStr (sm_nameLast m)); ("role", JStr (sm_role m))].

(** The columns of an event row after its [id]. *)
Definition json_event_columns (e : EventInfo) : list (string * JVal) :=
  [("name", JStr (info_name e)); ("description", JStr (info_description e));
   ("time", JStr (date_json (info_time e))); ("location", JStr (info_location e));
   ("societyId", JNum (info_societyId e))].

(** [getEvent] and [getEvents]: [{ eventId, ...event }], the row's
    [id] included. *)
Definition json_event_spread (e : EventInfo) : JVal :=
  JObj (("eventId", JNum (info_eventId e)) :: ("id", JNum (info_eventId e)) :: json_event_columns e).

(** [societyEvents]: the six fields written out. *)
Definition json_event_listed (e : EventInfo) : JVal :=
  JObj (("eventId", JNum (info_eventId e)) :: json_event_columns e).

(** [profileEvents]: [{ id, ...ret } = { ...a.event, eventId }]. *)
Definition json_event_of_user (e : EventInfo) : JVal :=
  JObj (json_event_columns e ++ [("eventId", JNum (info_eventId e))]).

Definition json_profile (p : UserProfile) : JVal :=
  JObj [("userId", JNum (prof_userId p)); ("email", JStr (prof_email p));
        ("nameFirst", JStr (prof_nameFirst p)); ("nameLast", JStr (prof_nameLast p));
        ("zId", JStr (prof_zId p)); ("adminSocieties", JArr (map JNum (prof_adminSocieties p)));
        ("modSocieties", JArr (map JNum (prof_modSocieties p)));
        ("isSiteAdmin", JBool (prof_isSiteAdmin p)); ("webcal", JStr (prof_webcal p))].

(** [res.json(result)] for the request's route. *)
Definition response_json (req : Request) (r : Response) : JVal :=
  match r with
  | RespToken t => JObj [("token", JStr t)]
  | RespEmpty => JObj []
  | RespUser u => json_user_info u
  | RespUsers us => JObj [("users", JArr (map json_user_info us))]
  | RespSocietyId s => JObj [("societyId", JNum s)]
  | RespApplicationId a => JObj [("applicationId", JNum a)]
  | RespApplications l => JObj [("applications", JArr (map json_application l))]
  | RespSociety s => json_society_view s
  | RespMembers ms => JObj [("members", JArr (map json_member ms))]
  | RespEvents evs =>
      match req with
      | RSociety (RSocietyEvents _ _) => JObj [("events", JArr (map json_event_listed evs))]
      | _ => JObj [("events", JArr (map json_event_spread evs))]
      end
  | RespSocieties socs =>
      match req with
      | RProfile _ => JObj [("societies", JArr (map json_society_joined socs))]
      | _ => JObj [("societies", JArr (map json_society_listed socs))]
      end
  | RespProfile p => json_profile p
  | RespProfileEvents a b =>
      JObj [("attending", JArr (map json_event_of_user a)); ("attended", JArr (map json_event_of_user b))]
  | RespEvent e => json_event_spread e
  | RespEventId e => JObj [("eventId", JNum e)]
  | RespAttending b => JObj [("attending", JBool b)]
  end.
End Wire.

(** ** Which responses match their interface *)

(** The API functions whose declared interface describes every
    successful response: all but the profile, the user list, the
    application list and the three society listings. *)
Definition always_conforms (c : ClientCall) : bool :=
  match c with
  | CProfile (CProfileView _) | CProfile (CProfileEdit _ _ _ _) | CProfile (CProfileSocieties _)
  | CUsers _ | CApplication (CApplicationList _)
  | CSociety (CSocietyView _) | CSociety (CSocietyList _ _ _) => false
  | _ => true
  end.

Lemma forallb_map_true {A B} (P : B -> bool) (f : A -> B) l :
  (forall x, P (f x) = true) -> forallb P (map f l) = true.
Proof. intros H. induction l as [|x l IH]; simpl; [done|]. by rewrite H, IH. Qed.

(** [respond c f] succeeds with [f a] when [c] returns [a]. *)
Lemma respond_Done {A} (c : ST Store A) f st r st' :
  respond c f st = Done r st' -> exists a, c st = Done a st' /\ r = f a.
Proof. unfold respond, st_bind, ret. destruct (c st); intros [= <- <-]; eauto. Qed.

Ltac wire_case :=
  match goal with
  | H : respond _ _ _ = Done _ _ |- _ => apply respond_Done in H as (? & _ & ->)
  end;
  simpl; rewrite ?andb_true_r;
  repeat (apply andb_true_intro; split);
  try (apply forallb_map_true; intros; reflexivity); try reflexivity.

Section Conformance.
Context (parse_date : string -> option Z) (date_json : Z -> string).

(** (C32) Every successful response of an API function outside the seven
    above has the type its signature declares. *)
Theorem responses_conform d c req st r st' :
  always_conforms c = true -> intended parse_date d c = Some req -> handle req st = Done r st' ->
  conforms (response_json date_json req r) (api_interface c) = true.
Proof.
  intros Hc Hi Hh.
  destruct c as [[]|[]|[]|[]|[]| | | | |]; simpl in Hc; try discriminate; simpl in Hi;
    repeat match type of Hi with
           | context [parse_date ?s] => destruct (parse_date s)
           | context [date_filter parse_date ?o] => destruct (date_filter parse_date o)
           end; simpl in Hi; try discriminate; injection Hi as <-; simpl in Hh; wire_case.
Qed.
End Conformance.

(** Four interfaces do not describe what the backend sends: the
    profile has [userId] where [Profile] declares [id]; every entry of
    the user list lacks the [adminSocieties], [modSocieties] and
    [webcal] that [User] declares; every application's [applicantId] is
    a number where [Application] declares a string; and a society
    without a photo has [photoURL: null] where [Society] declares a
    string. *)
Theorem interface_mismatches p us apps s :
  conforms (json_profile p) ts_Profile = false /\
  conforms (JObj [("users", JArr (map json_user_info us))]) ts_UserListInfo = bool_decide (us = []) /\
  conforms (JObj [("applications", JArr (map json_application apps))]) ts_ApplicationsListInfo =
    bool_decide (apps = []) /\
  conforms (json_society_view s) ts_Society = bool_decide (is_Some (si_photoURL s)).
Proof.
  split_and!; [reflexivity|destruct us|destruct apps|destruct s as [? ? ? []]]; reflexivity.
Qed.

(** ** Witnesses *)

Lemma responses_conform_witness :
  conforms (response_json (fun _ => "2023-11-14T22:13:20.000Z") (REvent (REventGet 1))
              (RespEvent (event_info 1 opening_night)))
           (api_interface (CEvent (CEventGet 1))) = true.
Proof.
  apply (responses_conform (fun _ => None) (fun _ => "2023-11-14T22:13:20.000Z")
           (mkDraws "salt" "K7Q2ZD" 1700000000000) (CEvent (CEventGet 1)) (REvent (REventGet 1))
           event_demo (RespEvent (event_info 1 opening_night)) event_demo); reflexivity.
Defined.
