(* ===== verification/Views.v ===== *)
(** * The view pages and the links to them

    pages/EventViewPage.tsx, pages/SocietyViewPage.tsx and
    pages/EventQrCodePage.tsx read the id of what they show from the
    URL ([useParams], then [parseInt] or helper.ts's [getUrlParamsId])
    and load it when they mount ([useEffect]); when a request fails they
    send the user to [/home].  Home/EventCard.tsx and
    SocietyView/SocietyPostCard.tsx are the links to these pages.  A
    page's state is a Record of its [useState] hooks, and a load
    returns the state it leaves with the navigation it makes, if any.
    The edit, creation, attendance form, society edit and member pages
    read their id the same way; [page_id] gathers, for each routed
    page, the id and the redirect its render takes from the path.
    The display format of a date ([formatTimeToPrettyString], which
    depends on the browser's locale) and the banner picture are
    variables of the section.

    The theorems compose the router of Routes.v with the pages: a click
    on an event card opens the event's page, which reads the event's id
    back from the URL and, on a store with referential integrity, shows
    the event and its society without a redirect; a click on a society
    opens the society's page with its upcoming events; an id that names
    nothing sends the user home; the QR code of an event leads to the
    attendance form of that event. *)

From S2P Require Import Prelude Store Society Event Listing Client UI Forms Pages Routes.

(** [getUrlParamsId(paramName, navigate)]: [parseInt] answers [NaN],
    here [None], for a parameter that is not a number. *)
Definition getUrlParamsId (paramName : option string) : option UiEffect * option Z :=
  match paramName with
  | None => (Some (Navigate "/auth/login"), Some 0)
  | Some p => (None, parseInt p)
  end.

(** ** Home/EventCard.tsx and SocietyView/SocietyPostCard.tsx *)

Definition eventCard_handleSocietyClick (societyId : Z) : UiEffect :=
  Navigate ("/society/" +:+ pretty societyId).

Definition eventCard_handleEventClick (eventId : Z) : UiEffect :=
  Navigate ("/event/" +:+ pretty eventId).

Definition societyPostCard_handleEventClick (eventId : Z) : UiEffect :=
  Navigate ("/event/" +:+ pretty eventId).

(** ** The other links to these pages *)

(** Profile/EventsAttendingList.tsx: a listed event. *)
Definition eventsAttendingList_onClick (eventId : Z) : UiEffect :=
  Navigate ("/event/" +:+ pretty eventId).

(** Profile/SocietiesJoinedGrid.tsx: a joined society. *)
Definition societiesJoinedGrid_onClick (societyId : Z) : UiEffect :=
  Navigate ("/society/" +:+ pretty societyId).

(** SocietyListComponents/SocietyThumbnail.tsx: a society of the list. *)
Definition societyThumbnail_onClick (societyId : Z) : UiEffect :=
  Navigate ("/society/" +:+ pretty societyId).

(** EventView/EventDetails.tsx: the society of the event shown. *)
Definition eventDetails_onClick (societyId : Z) : UiEffect :=
  Navigate ("/society/" +:+ pretty societyId).

(** ** pages/EventViewPage.tsx *)

Record EventViewState := mkEventViewState {
  ev_view_societyId : Z;
  eventTitle : string;
  eventDate : string;
  eventLocation : string;
  eventDescription : string;
  ev_view_societyName : string;
  bannerImage : string
}.

Definition eventView_initial : EventViewState := mkEventViewState (-1) "" "" "" "" "" "".

(** ** pages/SocietyViewPage.tsx *)

Record SocietyViewState := mkSocietyViewState {
  curSoc : SocietyInfo;
  societyPosts : list EventInfo
}.

Definition societyView_initial : SocietyViewState :=
  mkSocietyViewState (mkSocietyInfo (-1) "" "" (Some "")) [].

(** The render's [if (!societyIdStr) navigate('/auth/login')] and
    [parseInt(societyIdStr as string)]. *)
Definition login_if_falsy (param : option string) : option UiEffect :=
  match param with
  | None | Some EmptyString => Some (Navigate "/auth/login")
  | Some _ => None
  end.

Definition societyViewPage_societyId (societyIdStr : option string) : option UiEffect * option Z :=
  (login_if_falsy societyIdStr, societyIdStr ≫= parseInt).

(** ** The other pages that read an id from their path

    [parseInt(x as string)] of a missing parameter parses ["undefined"],
    which is [NaN]: here [None] in both cases. *)

(** pages/EventEditPage.tsx: [eventIdNum], the prop of [EventEditForm]. *)
Definition eventEditPage_eventIdNum (eventId : option string) : option Z := eventId ≫= parseInt.

(** pages/EventCreatePage.tsx: [societyIdNum], the prop of [EventCreationForm]. *)
Definition eventCreationPage_societyIdNum (societyId : option string) : option Z := societyId ≫= parseInt.

(** pages/EventQrCodePage.tsx: [eventIdNum], the id [loadEvent] fetches. *)
Definition eventQrCodePage_eventIdNum (eventId : option string) : option Z := eventId ≫= parseInt.

(** pages/EventAttendanceFormPage.tsx: [eventIdNum], the id [submitForm]
    sends; [loadEvent] reads the same parameter with [getUrlParamsId]. *)
Definition eventAttendanceFormPage_eventIdNum (eventId : option string) : option Z := eventId ≫= parseInt.

(** pages/SocietyEditPage.tsx: [getUrlParamsId(params.societyId, navigate)]. *)
Definition societyEditPage_societyId (societyId : option string) : option UiEffect * option Z :=
  getUrlParamsId societyId.

(** User/MemberList.tsx (the body of SocietyMembersPage):
    [if (!societyId) navigate('/auth/login')] and [numSocietyId]. *)
Definition memberList_numSocietyId (societyId : option string) : option UiEffect * option Z :=
  (login_if_falsy societyId, societyId ≫= parseInt).

(** The redirect and the id the page a route renders works on, for the
    pages whose route has a parameter: each reads its parameter as its
    own source does. *)
Definition page_id (pg : Page) (path : string) : option UiEffect * option Z :=
  match pg with
  | EventViewPage => getUrlParamsId (useParams path "eventId")
  | EventEditPage => (None, eventEditPage_eventIdNum (useParams path "eventId"))
  | EventQrCodePage => (None, eventQrCodePage_eventIdNum (useParams path "eventId"))
  | EventAttendanceFormPage => (None, eventAttendanceFormPage_eventIdNum (useParams path "eventId"))
  | EventCreationPage => (None, eventCreationPage_societyIdNum (useParams path "societyId"))
  | SocietyViewPage => societyViewPage_societyId (useParams path "societyId")
  | SocietyEditPage => societyEditPage_societyId (useParams path "societyId")
  | SocietyMembersPage => memberList_numSocietyId (useParams path "societyId")
  | _ => (None, None)
  end.

(** [loadSociety]: [setCurSoc] runs before the events are fetched, so a
    failure of the second request leaves the society shown. *)
Definition societyViewPage_loadSociety (now societyId : Z) (s : SocietyViewState)
    : ST Store (SocietyViewState * option UiEffect) :=
  r <- settle (societyView societyId) inl (fun _ => inr tt) ;;
  match r with
  | inr _ => ret (s, Some (Navigate "/home"))
  | inl tempSoc =>
      settle (societyEvents societyId now)
        (fun tempPosts => (mkSocietyViewState tempSoc tempPosts, None))
        (fun _ => (mkSocietyViewState tempSoc (societyPosts s), Some (Navigate "/home")))
  end.

(** ** pages/EventQrCodePage.tsx *)

Definition qrCode_loadEvent (eventIdNum : Z) (eventName : string) : ST Store (string * option UiEffect) :=
  settle (getEvent eventIdNum) (fun ev => (info_name ev, None)) (fun _ => (eventName, Some (Navigate "/home"))).

(** [{eventName && eventName + ' Attendance Form'}] *)
Definition qrCode_heading (eventName : string) : string :=
  if String.eqb eventName "" then "" else eventName +:+ " Attendance Form".

(** The text of the QR code, [`http://localhost:5173/event/${eventId}/form`],
    with the raw URL parameter; [qrCode_path] is its path. *)
Definition qrCode_path (eventId : string) : string := "/event/" +:+ eventId +:+ "/form".

Definition qrCode_value (eventId : string) : string := "http://localhost:5173" +:+ qrCode_path eventId.

Section Views.
Context (formatTimeToPrettyString : Z -> string) (eventBanner : string).

(** [loadEvent] of EventViewPage: the event, then its society's name;
    the setters run only when both answered. *)
Definition eventViewPage_loadEvent (eventIdNum : Z) (s : EventViewState)
    : ST Store (EventViewState * option UiEffect) :=
  settle (tempEvent <- getEvent eventIdNum ;;
          soc <- societyView (info_societyId tempEvent) ;;
          ret (tempEvent, societyName soc))
    (fun r => (mkEventViewState (info_societyId r.1) (info_name r.1)
                 (formatTimeToPrettyString (info_time r.1)) (info_location r.1)
                 (info_description r.1) r.2 eventBanner, None))
    (fun _ => (s, Some (Navigate "/home"))).

End Views.

(** ** Loading the pages *)

Lemma societyView_Done st sid soc :
  societies st !! sid = Some soc ->
  societyView sid st = Done (mkSocietyInfo sid (name soc) (description soc) (photoURL soc)) st.
Proof. intros Hs. unfold societyView. st_simpl. by rewrite Hs. Qed.

Lemma societyView_missing st sid :
  societies st !! sid = None -> societyView sid st = Fail (BadRequest "Invalid societyId") st.
Proof. intros Hs. unfold societyView. st_simpl. by rewrite Hs. Qed.

Lemma getEvent_missing st eid :
  events st !! eid = None -> getEvent eid st = Fail (BadRequest "eventId is invalid") st.
Proof. intros He. unfold getEvent. st_simpl. by rewrite He. Qed.

Lemma societyEvents_missing st sid now :
  societies st !! sid = None -> societyEvents sid now st = Fail (BadRequest "Invalid SocietyId") st.
Proof. intros Hs. unfold societyEvents. st_simpl. by rewrite Hs. Qed.

Lemma getUrlParamsId_link (n : Z) : getUrlParamsId (Some (pretty n)) = (None, Some n).
Proof. unfold getUrlParamsId. by rewrite parseInt_pretty. Qed.

Lemma bind_parseInt_link (n : Z) : Some (pretty n) ≫= parseInt = Some n.
Proof. apply parseInt_pretty. Qed.

Lemma login_if_falsy_link (n : Z) : login_if_falsy (Some (pretty n)) = None.
Proof. pose proof (pretty_Z_numeric n) as Hn. by destruct (pretty n). Qed.

Lemma societyViewPage_societyId_link (n : Z) : societyViewPage_societyId (Some (pretty n)) = (None, Some n).
Proof. unfold societyViewPage_societyId. by rewrite login_if_falsy_link, bind_parseInt_link. Qed.

(** Every page with a parameter reads back the id of a link built with
    [pretty], and makes no redirect. *)
Lemma page_id_links (n : Z) :
  page_id (resolve ("/event/" +:+ pretty n)) ("/event/" +:+ pretty n) = (None, Some n) /\
  page_id (resolve ("/event/" +:+ pretty n +:+ "/qrcode")) ("/event/" +:+ pretty n +:+ "/qrcode") = (None, Some n) /\
  page_id (resolve ("/event/" +:+ pretty n +:+ "/form")) ("/event/" +:+ pretty n +:+ "/form") = (None, Some n) /\
  page_id (resolve ("/society/" +:+ pretty n)) ("/society/" +:+ pretty n) = (None, Some n) /\
  page_id (resolve ("/event/" +:+ pretty n +:+ "/edit")) ("/event/" +:+ pretty n +:+ "/edit") = (None, Some n) /\
  page_id (resolve ("/event/" +:+ pretty n +:+ "/create")) ("/event/" +:+ pretty n +:+ "/create") = (None, Some n) /\
  page_id (resolve ("/society/" +:+ pretty n +:+ "/edit")) ("/society/" +:+ pretty n +:+ "/edit") = (None, Some n) /\
  page_id (resolve ("/society/" +:+ pretty n +:+ "/members")) ("/society/" +:+ pretty n +:+ "/members") = (None, Some n).
Proof.
  destruct (app_links_resolve n) as (Hv & He & Hf & Hq & Hc & Hs & Hse & Hsm).
  destruct (useParams_links n) as (Pv & Pq & Pf & Ps & Pe & Pc & Pse & Psm).
  rewrite Hv, He, Hf, Hq, Hc, Hs, Hse, Hsm. unfold page_id, memberList_numSocietyId, societyEditPage_societyId,
    eventEditPage_eventIdNum, eventCreationPage_societyIdNum, eventQrCodePage_eventIdNum,
    eventAttendanceFormPage_eventIdNum.
  rewrite Pv, Pq, Pf, Ps, Pe, Pc, Pse, Psm, ?getUrlParamsId_link, ?societyViewPage_societyId_link,
    ?login_if_falsy_link, ?bind_parseInt_link.
  split_and!; reflexivity.
Qed.

(** [loadEvent] of an existing event of an existing society sets every
    hook from the two answers and makes no redirect. *)
Lemma eventViewPage_loadEvent_Done fmt banner st eid e soc s :
  events st !! eid = Some e -> societies st !! ev_societyId e = Some soc ->
  eventViewPage_loadEvent fmt banner eid s st =
    Done (mkEventViewState (ev_societyId e) (ev_name e) (fmt (time e)) (location e)
            (ev_description e) (name soc) banner, None) st.
Proof.
  intros He Hsoc. unfold eventViewPage_loadEvent, settle, st_bind. rewrite (getEvent_Done _ _ _ He). simpl.
  by rewrite (societyView_Done _ _ _ Hsoc).
Qed.

(** ** Following the links *)

(** A click on an event card, or on a post of a society's page,
    opens the page of the event: the path renders the event view page,
    which reads the event's id back from the URL and, on a store whose
    events belong to existing societies, shows the event's fields and
    its society's name, makes no redirect and changes nothing. *)
Theorem eventCard_opens_event fmt banner st eid e s :
  ev_wf st -> events st !! eid = Some e ->
  exists p soc,
    eventCard_handleEventClick eid = Navigate p /\ societyPostCard_handleEventClick eid = Navigate p /\
    eventsAttendingList_onClick eid = Navigate p /\ resolve p = EventViewPage /\ getUrlParamsId (useParams p "eventId") = (None, Some eid) /\
    societies st !! ev_societyId e = Some soc /\
    eventViewPage_loadEvent fmt banner eid s st =
      Done (mkEventViewState (ev_societyId e) (ev_name e) (fmt (time e)) (location e)
              (ev_description e) (name soc) banner, None) st.
Proof.
  intros Hwf He. destruct (ev_wf_society st Hwf eid e He) as [soc Hsoc].
  destruct (app_links_resolve eid) as (Hv & _). destruct (useParams_links eid) as (Hp & _).
  exists ("/event/" +:+ pretty eid), soc. split_and!; try done.
  - by rewrite Hp, getUrlParamsId_link.
  - by apply eventViewPage_loadEvent_Done.
Qed.

(** A click on a society's avatar opens the society's page: the
    path renders the society view page, which reads the society's id back
    from the URL and shows the society and its events that have not
    started, in the backend's order, with no redirect. *)
Theorem societyLink_opens_society now st sid soc s :
  societies st !! sid = Some soc ->
  exists p,
    eventCard_handleSocietyClick sid = Navigate p /\ societiesJoinedGrid_onClick sid = Navigate p /\
    societyThumbnail_onClick sid = Navigate p /\ eventDetails_onClick sid = Navigate p /\
    resolve p = SocietyViewPage /\
    societyViewPage_societyId (useParams p "societyId") = (None, Some sid) /\
    societyViewPage_loadSociety now sid s st =
      Done (mkSocietyViewState (mkSocietyInfo sid (name soc) (description soc) (photoURL soc))
              (map (fun ie => event_info ie.1 ie.2)
                 (sorted_events (fun e => bool_decide (ev_societyId e = sid) && (now <=? time e)) st)),
            None) st.
Proof.
  intros Hsoc. destruct (app_links_resolve sid) as (_ & _ & _ & _ & _ & Hs & _).
  destruct (useParams_links sid) as (_ & _ & _ & Hp & _).
  exists ("/society/" +:+ pretty sid). split_and!; try done.
  - by rewrite Hp, societyViewPage_societyId_link.
  - unfold societyViewPage_loadSociety, settle, st_bind. rewrite (societyView_Done _ _ _ Hsoc). simpl.
    by rewrite (HomePage.societyEvents_Done _ _ _ _ Hsoc).
Qed.

(** An id that names no event or society sends the view pages and
    the QR code page home, leaving their state and the store as they
    were; a society's page whose second request fails keeps showing the
    society it loaded first. *)
Theorem view_pages_unknown_id_home fmt banner st eid sid now s_e s_s name0 :
  events st !! eid = None -> societies st !! sid = None ->
  eventViewPage_loadEvent fmt banner eid s_e st = Done (s_e, Some (Navigate "/home")) st /\
  qrCode_loadEvent eid name0 st = Done (name0, Some (Navigate "/home")) st /\
  societyViewPage_loadSociety now sid s_s st = Done (s_s, Some (Navigate "/home")) st /\
  resolve "/home" = HomePage.
Proof.
  intros He Hs. unfold eventViewPage_loadEvent, qrCode_loadEvent, societyViewPage_loadSociety, settle, st_bind.
  rewrite getEvent_missing, societyView_missing by done. split_and!; first [done | vm_compute; reflexivity].
Qed.

(** The QR code page of an existing event loads the event's name
    for its heading, and the code it draws leads to the attendance form
    of that same event: its path renders the attendance form page, which
    reads the event's id back from the URL. *)
Theorem qrCode_targets_form st (n : Z) e :
  events st !! n = Some e ->
  exists p,
    useParams ("/event/" +:+ pretty n +:+ "/qrcode") "eventId" = Some p /\
    qrCode_loadEvent n "" st = Done (ev_name e, None) st /\
    resolve (qrCode_path p) = EventAttendanceFormPage /\
    getUrlParamsId (useParams (qrCode_path p) "eventId") = (None, Some n).
Proof.
  intros He. destruct (app_links_resolve n) as (_ & _ & Hf & _).
  destruct (useParams_links n) as (_ & Hq & Hp & _).
  exists (pretty n). split_and!; try done.
  - unfold qrCode_loadEvent, settle. by rewrite (getEvent_Done _ _ _ He).
  - unfold qrCode_path. by rewrite Hp, getUrlParamsId_link.
Qed.

(** ** Witnesses *)

Lemma eventCard_opens_event_witness :
  ev_wf event_demo /\ events event_demo !! 1 = Some opening_night /\
  exists p soc,
    eventCard_handleEventClick 1 = Navigate p /\ societyPostCard_handleEventClick 1 = Navigate p /\
    eventsAttendingList_onClick 1 = Navigate p /\ resolve p = EventViewPage /\ getUrlParamsId (useParams p "eventId") = (None, Some 1) /\
    societies event_demo !! ev_societyId opening_night = Some soc /\
    eventViewPage_loadEvent pretty "banner.png" 1 eventView_initial event_demo =
      Done (mkEventViewState (ev_societyId opening_night) (ev_name opening_night)
              (pretty (time opening_night)) (location opening_night)
              (ev_description opening_night) (name soc) "banner.png", None) event_demo.
Proof.
  split; [apply ev_wf_event_demo|]. split; [reflexivity|].
  apply eventCard_opens_event; [apply ev_wf_event_demo|reflexivity].
Defined.

Lemma societyLink_opens_society_witness :
  exists soc, societies event_demo !! 1 = Some soc /\
  exists p,
    eventCard_handleSocietyClick 1 = Navigate p /\ societiesJoinedGrid_onClick 1 = Navigate p /\
    societyThumbnail_onClick 1 = Navigate p /\ eventDetails_onClick 1 = Navigate p /\
    resolve p = SocietyViewPage /\
    societyViewPage_societyId (useParams p "societyId") = (None, Some 1) /\
    societyViewPage_loadSociety 0 1 societyView_initial event_demo =
      Done (mkSocietyViewState (mkSocietyInfo 1 (name soc) (description soc) (photoURL soc))
              (map (fun ie => event_info ie.1 ie.2)
                 (sorted_events (fun e => bool_decide (ev_societyId e = 1) && (0 <=? time e)) event_demo)),
            None) event_demo.
Proof.
  eexists. split; [vm_compute; reflexivity|]. apply societyLink_opens_society. vm_compute. reflexivity.
Defined.

Lemma view_pages_unknown_id_home_witness :
  events event_demo !! 7 = None /\ societies event_demo !! 7 = None /\
  eventViewPage_loadEvent pretty "" 7 eventView_initial event_demo =
    Done (eventView_initial, Some (Navigate "/home")) event_demo /\
  qrCode_loadEvent 7 "" event_demo = Done ("", Some (Navigate "/home")) event_demo /\
  societyViewPage_loadSociety 0 7 societyView_initial event_demo =
    Done (societyView_initial, Some (Navigate "/home")) event_demo /\
  resolve "/home" = HomePage.
Proof.
  split; [reflexivity|]. split; [reflexivity|].
  apply view_pages_unknown_id_home; reflexivity.
Defined.

Lemma qrCode_targets_form_witness :
  events event_demo !! 1 = Some opening_night /\
  exists p,
    useParams ("/event/" +:+ pretty 1 +:+ "/qrcode") "eventId" = Some p /\
    qrCode_loadEvent 1 "" event_demo = Done (ev_name opening_night, None) event_demo /\
    resolve (qrCode_path p) = EventAttendanceFormPage /\
    getUrlParamsId (useParams (qrCode_path p) "eventId") = (None, Some 1).
Proof. split; [reflexivity|]. apply qrCode_targets_form. reflexivity. Defined.
