(* ===== verification/Menus.v ===== *)
(** * The menus as state machines

    components/EventView/AdminMenu.tsx and
    components/SocietyView/SocietyMenu.tsx keep their state in
    [useState] hooks (the menu's anchor, the confirmation dialogs, the
    error popup and its message, and the [canEdit]/[canDelete] flags
    [getPerms] settles when the component mounts).  Each control the
    render shows runs one handler; a control that is not rendered (a
    closed menu's items, the entries [canEdit] and [canDelete] hide, a
    closed dialog's buttons) cannot be clicked.

    Section [Machine] states this once: a component is its hooks, its
    controls, which of them the render shows ([available]) and what a
    click does to the hooks and the store ([handle], built from the
    handlers of UI.v); [ui_step] is a click on a shown control, with the
    effect that leaves the page if there is one, and [ui_reachable] what
    a user reaches from the mount while staying on the page.  The event
    menu ([AdminMenuState], [adminMenu_handle]), the society menu
    ([SocietyMenuState], [societyMenu_handle]), the home drawer of
    Home/HomeMenu.tsx with Home/CreateModal.tsx ([HomeMenuState]) and
    the event card's menu of Home/EventCardMenu.tsx
    ([EventCardMenuState]) instantiate it.

    The theorems show, for every run of clicks: on the event menu the
    store never changes on the page, the delete dialog is open only for
    a user the mount allowed to delete, and the only click that writes
    is a confirmed deletion, which performs a successful [deleteEvent]
    and leaves for [/home]; on the society menu a click writes only as
    a successful [societyJoin], which shows its confirmation, or as a
    confirmed successful [societyDelete], which leaves; the home drawer
    and the card's menu never write and each of their entries opens the
    page it names, the admin entries only for a site admin and Edit Post
    only for an editor.  Every link of the three menus opens a page
    that reads back the menu's own event or society id.  The dialogs'
    backdrops are not modelled: every rendered control is clickable,
    which only adds runs. *)

From S2P Require Import Prelude Store Session Society Event Profile UI Routes Views.

(** ** Components as machines

    A component is its hooks [M], the controls [A] a user clicks, which
    of them the render shows ([available]) and what a click does to the
    hooks and the store, with the effect that leaves the page if there
    is one ([handle]). *)

Section Machine.
Context {M A : Type} (available : M -> A -> bool) (handle : A -> M -> ST Store (M * option UiEffect)).

Inductive ui_step : M * Store -> A -> option UiEffect -> M * Store -> Prop :=
| ui_step_click a s st s' o st' :
    available s a = true -> handle a s st = Done (s', o) st' -> ui_step (s, st) a o (s', st').

Inductive ui_reachable (init : M * Store) : M * Store -> Prop :=
| ui_reach_init : ui_reachable init init
| ui_reach_step c a c' : ui_reachable init c -> ui_step c a None c' -> ui_reachable init c'.

(** An invariant of the mount that every click on the page keeps holds
    of everything reachable. *)
Lemma ui_invariant (I : M * Store -> Prop) init :
  I init ->
  (forall s st a s' st', I (s, st) -> available s a = true -> handle a s st = Done (s', None) st' -> I (s', st')) ->
  forall c, ui_reachable init c -> I c.
Proof.
  intros Hinit Hstep c Hr. induction Hr as [|c a c' Hr IH Hs]; [done|].
  inversion Hs; subst. eauto.
Qed.

End Machine.

(** * The event menu *)

Record AdminMenuState := mkAdminMenuState {
  anchorOpen : bool;                (** [Boolean(anchorEl)] *)
  isDeleteConfirmationOpen : bool;
  errorMsg : string;
  showError : bool;
  qrModalOpen : bool;
  perms : MenuPerms                 (** [canEdit], [canDelete] *)
}.

Definition set_anchor (b : bool) (s : AdminMenuState) : AdminMenuState :=
  mkAdminMenuState b (isDeleteConfirmationOpen s) (errorMsg s) (showError s) (qrModalOpen s) (perms s).

Definition set_delete_open (b : bool) (s : AdminMenuState) : AdminMenuState :=
  mkAdminMenuState (anchorOpen s) b (errorMsg s) (showError s) (qrModalOpen s) (perms s).

Definition set_error (msg : string) (s : AdminMenuState) : AdminMenuState :=
  mkAdminMenuState (anchorOpen s) (isDeleteConfirmationOpen s) msg true (qrModalOpen s) (perms s).

Definition set_show_error (b : bool) (s : AdminMenuState) : AdminMenuState :=
  mkAdminMenuState (anchorOpen s) (isDeleteConfirmationOpen s) (errorMsg s) b (qrModalOpen s) (perms s).

Definition set_qr (b : bool) (s : AdminMenuState) : AdminMenuState :=
  mkAdminMenuState (anchorOpen s) (isDeleteConfirmationOpen s) (errorMsg s) (showError s) b (perms s).

(** The hooks once [getPerms] has settled. *)
Definition adminMenu_mount (token : string) (eventId : Z) (st : Store) : AdminMenuState :=
  mkAdminMenuState false false "" false false (adminMenu_perms token eventId st).

Inductive AdminMenuAction :=
| AOpenMenu           (** the Event Menu button: [handleClick] *)
| ACloseMenu          (** the menu's [onClose]: [handleClose] *)
| AEditEvent          (** Edit Event *)
| AAttendanceForm     (** Attendance Form *)
| AQrCode             (** QR Code *)
| AAttendanceData     (** Attendance Data *)
| AOpenDelete         (** Delete Event *)
| ACancelDelete       (** Cancel, or the delete dialog's [onClose] *)
| AConfirmDelete      (** Confirm Delete *)
| ACloseQR            (** Done, or the QR dialog's [onClose]: [closeQRModal] *)
| AOpenInPage         (** Open In Page *)
| ACloseError.        (** the error popup's [closeError] *)

(** The controls the render shows. *)
Definition adminMenu_available (s : AdminMenuState) (a : AdminMenuAction) : bool :=
  match a with
  | AOpenMenu => true
  | ACloseMenu | AAttendanceForm | AQrCode => anchorOpen s
  | AEditEvent | AAttendanceData => anchorOpen s && canEdit (perms s)
  | AOpenDelete => anchorOpen s && canDelete (perms s)
  | ACancelDelete | AConfirmDelete => isDeleteConfirmationOpen s
  | ACloseQR | AOpenInPage => qrModalOpen s
  | ACloseError => showError s
  end.

(** What a handler's outcome does to the hooks: an error opens the
    popup, [setDeleteConfirmationOpen(true)] the dialog, and a
    navigation or a download follows [handleClose()]. *)
Definition adminMenu_apply (e : UiEffect) (s : AdminMenuState) : AdminMenuState * option UiEffect :=
  match e with
  | ShowError msg => (set_error msg s, None)
  | OpenDialog => (set_delete_open true s, None)
  | Navigate _ | Download _ => (set_anchor false s, Some e)
  | Confirmation => (s, None)
  end.

Definition adminMenu_handle (token : string) (eventId : Z) (a : AdminMenuAction) (s : AdminMenuState)
    : ST Store (AdminMenuState * option UiEffect) :=
  match a with
  | AOpenMenu => ret (set_anchor true s, None)
  | ACloseMenu => ret (set_anchor false s, None)
  | AEditEvent => e <- handleEditEvent token eventId ;; ret (adminMenu_apply e s)
  | AAttendanceForm => ret (set_anchor false s, Some (Navigate ("/event/" +:+ pretty eventId +:+ "/form")))
  | AQrCode => ret (set_qr true s, None)
  | AAttendanceData => e <- handleAttendanceData token eventId ;; ret (adminMenu_apply e s)
  | AOpenDelete => e <- handleOpenDeleteConfirmation token ;; ret (adminMenu_apply e s)
  | ACancelDelete => ret (set_delete_open false s, None)
  | AConfirmDelete =>
      e <- handleDeleteEvent token eventId ;; ret (adminMenu_apply e (set_delete_open false s))
  | ACloseQR => ret (set_qr false s, Some (Navigate ("/event/" +:+ pretty eventId)))
  | AOpenInPage => ret (s, Some (Navigate ("/event/" +:+ pretty eventId +:+ "/qrcode")))
  | ACloseError => ret (set_show_error false s, None)
  end.

(** The menu's clicks and what a user reaches from the mount on [st0]
    while staying on the page. *)
Definition adminMenu_step (token : string) (eventId : Z) :=
  ui_step adminMenu_available (adminMenu_handle token eventId).

Definition adminMenu_reachable (token : string) (eventId : Z) (st0 : Store) :=
  ui_reachable adminMenu_available (adminMenu_handle token eventId) (adminMenu_mount token eventId st0, st0).

(** ** What a click does to the store *)

Lemma on_api_read_only {A} (c : ST Store A) (k : A -> UiEffect) : ReadOnly c -> ReadOnly (on_api c k).
Proof. intros Hc st. unfold on_api. specialize (Hc st). by destruct (c st). Qed.

Lemma generateCSV_read_only token eventId : ReadOnly (generateCSV token eventId).
Proof.
  unfold generateCSV. apply read_only_bind; [auto with spark|]. intros [uid user].
  apply read_only_bind; [auto with spark|]. intros ev. auto with spark.
Qed.

(** A store primitive fails only on a missing row, before writing. *)
Ltac fail_safe_prim := let Hf := fresh in intros ? ? ? Hf; repeat case_match; by inversion Hf.

Lemma event_delete_fail_safe eid : FailSafe (event_delete eid).
Proof. unfold event_delete. fail_safe_prim. Qed.

Lemma deleteEvent_fail_safe token eventId : FailSafe (deleteEvent token eventId).
Proof.
  unfold deleteEvent. apply fail_safe_bind; [auto with spark|]. intros [uid user].
  apply fail_safe_bind; [auto with spark|]. intros ev.
  apply fail_safe_bind; [destruct (isAdmin user); auto with spark|]. intros _. apply event_delete_fail_safe.
Qed.

Lemma bind_read_only_Done {A B} (c : ST Store A) (k : A -> B) st b st' :
  ReadOnly c -> st_bind c (fun a => ret (k a)) st = Done b st' -> st' = st.
Proof.
  intros Hc. unfold st_bind, ret. specialize (Hc st). destruct (c st); simpl in *; [|done].
  intros [= _ <-]. done.
Qed.

(** The only click that writes is Confirm Delete, and it writes what a
    successful [deleteEvent] writes, then leaves for [/home]. *)
Lemma adminMenu_handle_store token eid a s st s' o st' :
  adminMenu_handle token eid a s st = Done (s', o) st' ->
  st' = st \/ (a = AConfirmDelete /\ deleteEvent token eid st = Done tt st' /\ o = Some (Navigate "/home")).
Proof.
  destruct a; cbn [adminMenu_handle]; try (intros [= _ _ <-]; by left).
  - left. revert H. apply bind_read_only_Done. unfold handleEditEvent. destruct (isGuest token); auto with spark.
  - left. revert H. apply bind_read_only_Done. apply on_api_read_only, generateCSV_read_only.
  - left. revert H. apply bind_read_only_Done. unfold handleOpenDeleteConfirmation.
    destruct (isGuest token); auto with spark.
  - unfold handleDeleteEvent, on_api, st_bind, ret.
    destruct (deleteEvent token eid st) as [[] st1|e st1] eqn:Hd; intros [= _ <- <-]; [by right|].
    left. by apply (deleteEvent_fail_safe token eid st e).
Qed.

(** ** What a click does to the hooks *)

(** The new hooks of a click that answered. *)
Ltac menu_inv :=
  let H := fresh in
  intros H; first [discriminate H | injection H; clear H; intros];
  repeat match goal with
  | H : (_, _) = (_, _) |- _ => first [discriminate H | injection H; clear H; intros]
  | H : Some _ = None |- _ => discriminate H
  | H : _ = (_, _) |- _ =>
      let H' := fresh in pose proof (f_equal snd H) as H'; apply (f_equal fst) in H; simpl in H, H'
  end; subst.

Lemma adminMenu_apply_perms e s : perms (adminMenu_apply e s).1 = perms s.
Proof. by destruct e. Qed.

Lemma adminMenu_handle_perms token eid a s st s' o st' :
  adminMenu_handle token eid a s st = Done (s', o) st' -> perms s' = perms s.
Proof.
  destruct a; cbn [adminMenu_handle]; unfold st_bind, ret; repeat case_match; menu_inv;
    try done; by rewrite adminMenu_apply_perms.
Qed.

(** The delete dialog opens only through a Delete Event click of a user
    who is not a guest. *)
Lemma adminMenu_handle_delete_open token eid a s st s' o st' :
  adminMenu_handle token eid a s st = Done (s', o) st' ->
  isDeleteConfirmationOpen s' = true ->
  isDeleteConfirmationOpen s = true \/ (a = AOpenDelete /\ isGuest token = false).
Proof.
  destruct a; cbn [adminMenu_handle]; unfold st_bind, ret, handleEditEvent, handleOpenDeleteConfirmation,
    handleAttendanceData, handleDeleteEvent, on_api;
    repeat case_match; menu_inv; unfold ret in *; simplify_eq/=; auto.
Qed.

(** ** The menu's guarantees *)

Lemma adminMenu_reachable_inv token eid st0 c :
  adminMenu_reachable token eid st0 c ->
  c.2 = st0 /\ perms c.1 = adminMenu_perms token eid st0 /\
  (isDeleteConfirmationOpen c.1 = true -> canDelete (perms c.1) = true /\ isGuest token = false).
Proof.
  revert c. apply ui_invariant; [done|]. intros s st a s' st' (IHst & Hp & Hd) Havail Hh; simpl in *.
  pose proof (adminMenu_handle_perms _ _ _ _ _ _ _ _ Hh) as Hp'.
  destruct (adminMenu_handle_store _ _ _ _ _ _ _ _ Hh) as [->|(_ & _ & [=])].
  split_and!; [done|congruence|]. intros Hopen. rewrite Hp'.
  destruct (adminMenu_handle_delete_open _ _ _ _ _ _ _ _ Hh Hopen) as [Ho|[-> Hg]]; [by apply Hd|].
  simpl in Havail. apply andb_prop in Havail as [_ Hcd]. done.
Qed.

(** (C11) On the event page's menu, from the mount on [st0] and through
    any clicks on the controls the render shows: the store stays [st0],
    the permissions stay those [getPerms] settled, the delete dialog is
    open only for a user who is not a guest and whom the mount allowed
    to delete, and the only click that changes the store is Confirm
    Delete in that dialog, which performs a successful [deleteEvent]
    and leaves for [/home]. *)
Theorem adminMenu_delete_guarded token eid st0 s st :
  adminMenu_reachable token eid st0 (s, st) ->
  st = st0 /\ perms s = adminMenu_perms token eid st0 /\
  (isDeleteConfirmationOpen s = true -> canDelete (perms s) = true /\ isGuest token = false) /\
  (forall a o s' st', adminMenu_step token eid (s, st) a o (s', st') -> st' <> st ->
     a = AConfirmDelete /\ canDelete (perms s) = true /\ isGuest token = false /\
     deleteEvent token eid st = Done tt st' /\ o = Some (Navigate "/home")).
Proof.
  intros Hr. destruct (adminMenu_reachable_inv _ _ _ _ Hr) as (Hst & Hp & Hd); simpl in *.
  split_and!; [done..|]. intros a o s' st' Hstep Hne.
  inversion Hstep as [a' s0 st1 s2 o' st2 Havail Hh]; subst.
  destruct (adminMenu_handle_store _ _ _ _ _ _ _ _ Hh) as [->|(-> & Hdel & ->)]; [done|].
  destruct (Hd Havail) as [Hcd Hg]. done.
Qed.

(** * The society menu

    components/SocietyView/SocietyMenu.tsx: the same hooks as the event
    menu, with a join confirmation in place of the QR dialog.  Join
    Society and View Members are shown to everyone, Create Event and
    Edit Society when [canEdit], Delete Society when [canDelete]. *)

Record SocietyMenuState := mkSocietyMenuState {
  sm_anchorOpen : bool;
  showJoinConfirmation : bool;
  showDeleteConfirmation : bool;
  sm_errorMsg : string;
  sm_showError : bool;
  sm_perms : MenuPerms
}.

Definition sm_set_anchor (b : bool) (s : SocietyMenuState) : SocietyMenuState :=
  mkSocietyMenuState b (showJoinConfirmation s) (showDeleteConfirmation s) (sm_errorMsg s) (sm_showError s) (sm_perms s).

Definition sm_set_join (b : bool) (s : SocietyMenuState) : SocietyMenuState :=
  mkSocietyMenuState (sm_anchorOpen s) b (showDeleteConfirmation s) (sm_errorMsg s) (sm_showError s) (sm_perms s).

Definition sm_set_delete (b : bool) (s : SocietyMenuState) : SocietyMenuState :=
  mkSocietyMenuState (sm_anchorOpen s) (showJoinConfirmation s) b (sm_errorMsg s) (sm_showError s) (sm_perms s).

Definition sm_set_error (msg : string) (s : SocietyMenuState) : SocietyMenuState :=
  mkSocietyMenuState (sm_anchorOpen s) (showJoinConfirmation s) (showDeleteConfirmation s) msg true (sm_perms s).

Definition sm_set_show_error (b : bool) (s : SocietyMenuState) : SocietyMenuState :=
  mkSocietyMenuState (sm_anchorOpen s) (showJoinConfirmation s) (showDeleteConfirmation s) (sm_errorMsg s) b (sm_perms s).

Definition societyMenu_mount (token : string) (societyId : Z) (st : Store) : SocietyMenuState :=
  mkSocietyMenuState false false false "" false (societyMenu_perms token societyId st).

Inductive SocietyMenuAction :=
| SOpenMenu | SCloseMenu
| SJoin               (** Join Society *)
| SViewMembers        (** View Members *)
| SCreateEvent        (** Create Event *)
| SEditSociety        (** Edit Society *)
| SOpenDelete         (** Delete Society *)
| SCancelDelete       (** Cancel, or the delete dialog's [onClose] *)
| SConfirmDelete      (** Confirm Delete *)
| SCloseJoin          (** OK, or the join dialog's [onClose] *)
| SCloseError.

Definition societyMenu_available (s : SocietyMenuState) (a : SocietyMenuAction) : bool :=
  match a with
  | SOpenMenu => true
  | SCloseMenu | SJoin | SViewMembers => sm_anchorOpen s
  | SCreateEvent | SEditSociety => sm_anchorOpen s && canEdit (sm_perms s)
  | SOpenDelete => sm_anchorOpen s && canDelete (sm_perms s)
  | SCancelDelete | SConfirmDelete => showDeleteConfirmation s
  | SCloseJoin => showJoinConfirmation s
  | SCloseError => sm_showError s
  end.

(** [handleJoinSociety] and [handleDeleteSociety] on their outcome: the
    join opens its confirmation and closes the menu; a deletion opens
    the delete confirmation again, closes the menu and leaves. *)
Definition societyMenu_apply (e : UiEffect) (s : SocietyMenuState) : SocietyMenuState * option UiEffect :=
  match e with
  | ShowError msg => (sm_set_error msg s, None)
  | Confirmation => (sm_set_anchor false (sm_set_join true s), None)
  | Navigate _ => (sm_set_anchor false (sm_set_delete true s), Some e)
  | _ => (s, None)
  end.

Definition societyMenu_handle (token : string) (societyId : Z) (a : SocietyMenuAction) (s : SocietyMenuState)
    : ST Store (SocietyMenuState * option UiEffect) :=
  match a with
  | SOpenMenu => ret (sm_set_anchor true s, None)
  | SCloseMenu => ret (sm_set_anchor false s, None)
  | SJoin => e <- handleJoinSociety token societyId ;; ret (societyMenu_apply e s)
  | SViewMembers => ret (s, Some (Navigate ("/society/" +:+ pretty societyId +:+ "/members")))
  | SCreateEvent => ret (s, Some (Navigate ("/event/" +:+ pretty societyId +:+ "/create")))
  | SEditSociety => ret (s, Some (Navigate ("/society/" +:+ pretty societyId +:+ "/edit")))
  | SOpenDelete => ret (sm_set_anchor false (sm_set_delete true s), None)
  | SCancelDelete => ret (sm_set_delete false s, None)
  | SConfirmDelete =>
      e <- handleDeleteSociety token societyId ;; ret (societyMenu_apply e (sm_set_delete false s))
  | SCloseJoin => ret (sm_set_join false s, None)
  | SCloseError => ret (sm_set_show_error false s, None)
  end.

Definition societyMenu_step (token : string) (societyId : Z) :=
  ui_step societyMenu_available (societyMenu_handle token societyId).

Definition societyMenu_reachable (token : string) (societyId : Z) (st0 : Store) :=
  ui_reachable societyMenu_available (societyMenu_handle token societyId)
    (societyMenu_mount token societyId st0, st0).

(** ** What a click on the society menu does *)

Lemma society_delete_fail_safe sid : FailSafe (society_delete sid).
Proof. unfold society_delete. fail_safe_prim. Qed.

Lemma member_upsert_fail_safe uid sid : FailSafe (member_upsert uid sid).
Proof. unfold member_upsert. fail_safe_prim. Qed.

Lemma societyDelete_fail_safe token sid : FailSafe (societyDelete token sid).
Proof.
  unfold societyDelete. apply fail_safe_bind; [auto with spark|]. intros s.
  apply fail_safe_bind; [auto with spark|]. intros _. apply fail_safe_bind; [auto with spark|]. intros _.
  apply fail_safe_bind_ret, society_delete_fail_safe.
Qed.

Lemma societyJoin_fail_safe token sid : FailSafe (societyJoin token sid).
Proof.
  unfold societyJoin. apply fail_safe_bind; [auto with spark|]. intros uid.
  apply fail_safe_bind; [auto with spark|]. intros _. apply fail_safe_bind_ret, member_upsert_fail_safe.
Qed.

(** An API call behind [on_api] that fails has written nothing. *)
Lemma on_api_fail_safe_Done {A} (c : ST Store A) k st e st' :
  FailSafe c -> on_api c k st = Done e st' -> st' = st \/ exists a, c st = Done a st' /\ e = k a.
Proof.
  intros Hc. unfold on_api. destruct (c st) eqn:E; intros [= <- <-]; [by right; eauto|].
  left. by apply (Hc st e0).
Qed.

(** The clicks that write are a successful join, which opens its
    confirmation and stays, and a confirmed successful deletion, which
    leaves for [/home]. *)
Lemma societyMenu_handle_store token sid a s st s' o st' :
  societyMenu_handle token sid a s st = Done (s', o) st' ->
  st' = st \/
  (a = SJoin /\ societyJoin token sid st = Done tt st' /\ o = None /\ showJoinConfirmation s' = true) \/
  (a = SConfirmDelete /\ societyDelete token sid st = Done tt st' /\ o = Some (Navigate "/home")).
Proof.
  destruct a; cbn [societyMenu_handle]; try (intros [= _ _ <-]; by left);
    unfold st_bind, ret, handleJoinSociety, handleDeleteSociety, is_null; simpl.
  - destruct (on_api _ _ st) as [e st1|] eqn:E; [|done]. intros [= Hso <-].
    destruct (on_api_fail_safe_Done _ _ _ _ _ (societyJoin_fail_safe token sid) E) as [->|([] & Hj & ->)];
      [by left|]. injection Hso as <- <-. right; left. done.
  - destruct (on_api _ _ st) as [e st1|] eqn:E; [|done]. intros [= Hso <-].
    destruct (on_api_fail_safe_Done _ _ _ _ _ (societyDelete_fail_safe token sid) E) as [->|([] & Hj & ->)];
      [by left|]. injection Hso as <- <-. right; right. done.
Qed.

Lemma societyMenu_apply_perms e s : sm_perms (societyMenu_apply e s).1 = sm_perms s.
Proof. by destruct e. Qed.

Lemma societyMenu_handle_perms token sid a s st s' o st' :
  societyMenu_handle token sid a s st = Done (s', o) st' -> sm_perms s' = sm_perms s.
Proof.
  destruct a; cbn [societyMenu_handle]; unfold st_bind, ret; repeat case_match; menu_inv;
    try done; by rewrite societyMenu_apply_perms.
Qed.

Lemma societyMenu_handle_delete_open token sid a s st s' st' :
  societyMenu_handle token sid a s st = Done (s', None) st' ->
  showDeleteConfirmation s' = true -> showDeleteConfirmation s = true \/ a = SOpenDelete.
Proof.
  destruct a; cbn [societyMenu_handle]; unfold st_bind, ret, handleJoinSociety, handleDeleteSociety, on_api;
    repeat case_match; menu_inv; unfold ret in *; simplify_eq/=; auto.
Qed.

Lemma societyMenu_reachable_inv token sid st0 c :
  societyMenu_reachable token sid st0 c ->
  sm_perms c.1 = societyMenu_perms token sid st0 /\
  (showDeleteConfirmation c.1 = true -> canDelete (sm_perms c.1) = true).
Proof.
  revert c. apply ui_invariant; [done|]. intros s st a s' st' (Hp & Hd) Havail Hh; simpl in *.
  pose proof (societyMenu_handle_perms _ _ _ _ _ _ _ _ Hh) as Hp'. rewrite Hp'.
  split; [done|]. intros Hopen.
  destruct (societyMenu_handle_delete_open _ _ _ _ _ _ _ Hh Hopen) as [Ho| ->]; [by apply Hd|].
  simpl in Havail. by apply andb_prop in Havail as [_ Hcd].
Qed.

(** (C12) On a society's menu, from the mount on [st0] and through any
    clicks on the controls the render shows: the permissions stay those
    [getPerms] settled, the delete dialog is open only when the mount
    allowed the user to delete, and a click changes the store only as a
    successful [societyJoin] by Join Society, which then shows its
    confirmation, or as a successful [societyDelete] by Confirm Delete
    in that dialog, which then leaves for [/home]. *)
Theorem societyMenu_writes_guarded token sid st0 s st :
  societyMenu_reachable token sid st0 (s, st) ->
  sm_perms s = societyMenu_perms token sid st0 /\
  (showDeleteConfirmation s = true -> canDelete (sm_perms s) = true) /\
  (forall a o s' st', societyMenu_step token sid (s, st) a o (s', st') -> st' <> st ->
     (a = SJoin /\ societyJoin token sid st = Done tt st' /\ o = None /\ showJoinConfirmation s' = true) \/
     (a = SConfirmDelete /\ canDelete (sm_perms s) = true /\ societyDelete token sid st = Done tt st' /\
      o = Some (Navigate "/home"))).
Proof.
  intros Hr. destruct (societyMenu_reachable_inv _ _ _ _ Hr) as (Hp & Hd); simpl in *.
  split_and!; [done..|]. intros a o s' st' Hstep Hne.
  inversion Hstep as [a' s0 st1 s2 o' st2 Havail Hh]; subst.
  destruct (societyMenu_handle_store _ _ _ _ _ _ _ _ Hh) as [->|[Hj|(-> & Hdel & ->)]]; [done|by left|].
  right. split_and!; [done| |done..]. by apply Hd.
Qed.

(** * The home drawer and the event card's menu

    components/Home/HomeMenu.tsx: a drawer toggled by its icon, holding
    HomeButton, CreateModal (for a logged-in user), SocietyList,
    ViewEventListButton and, when [fetchApplcations] settled [isAdmin],
    ViewUsersButton and ViewSocApplicationsButton; CreateModal's own
    [open] hook shows the card that leads to the application form.
    components/Home/EventCardMenu.tsx: the card's icon, rendered when
    [getPerms] settled [canEdit], opens a menu with Edit Post. *)

Record HomeMenuState := mkHomeMenuState {
  drawerOpen : bool;
  createOpen : bool;          (** CreateModal's [open] *)
  hm_isAdmin : bool;
  hm_errorMsg : option string (** the error popup, when shown *)
}.

Definition homeMenu_mount (token : string) (st : Store) : HomeMenuState :=
  match homeMenu_fetch token st with
  | Done (b, err) _ => mkHomeMenuState false false b err
  | Fail _ _ => mkHomeMenuState false false false None
  end.

Inductive HomeMenuAction :=
| HToggle           (** the icon, or the drawer's [onClose]: [handleDrawerToggle] *)
| HHome             (** HomeButton *)
| HCreate           (** CreateModal's create button *)
| HCreateSociety    (** the modal's card: [handleCreateSociety] *)
| HCloseCreate      (** the modal's [onClose] *)
| HSocieties        (** SocietyList: [goList] *)
| HEvents           (** ViewEventListButton *)
| HUsers            (** ViewUsersButton *)
| HApplications     (** ViewSocApplicationsButton *)
| HCloseError.

Definition homeMenu_available (token : string) (s : HomeMenuState) (a : HomeMenuAction) : bool :=
  match a with
  | HToggle => true
  | HHome | HSocieties | HEvents => drawerOpen s
  | HCreate => drawerOpen s && negb (isGuest token)
  | HCreateSociety | HCloseCreate => createOpen s
  | HUsers | HApplications => drawerOpen s && hm_isAdmin s
  | HCloseError => bool_decide (is_Some (hm_errorMsg s))
  end.

Definition homeMenu_handle (a : HomeMenuAction) (s : HomeMenuState) : ST Store (HomeMenuState * option UiEffect) :=
  match a with
  | HToggle => ret (mkHomeMenuState (negb (drawerOpen s)) (createOpen s) (hm_isAdmin s) (hm_errorMsg s), None)
  | HHome => ret (s, Some (Navigate "/home"))
  | HCreate => ret (mkHomeMenuState (drawerOpen s) true (hm_isAdmin s) (hm_errorMsg s), None)
  | HCreateSociety => ret (mkHomeMenuState (drawerOpen s) false (hm_isAdmin s) (hm_errorMsg s), Some (Navigate "/apply"))
  | HCloseCreate => ret (mkHomeMenuState (drawerOpen s) false (hm_isAdmin s) (hm_errorMsg s), None)
  | HSocieties => ret (s, Some (Navigate "/society/list"))
  | HEvents => ret (s, Some (Navigate "/event/list"))
  | HUsers => ret (s, Some (Navigate "/users"))
  | HApplications => ret (s, Some (Navigate "/applications/review"))
  | HCloseError => ret (mkHomeMenuState (drawerOpen s) (createOpen s) (hm_isAdmin s) None, None)
  end.

Definition homeMenu_reachable (token : string) (st0 : Store) :=
  ui_reachable (homeMenu_available token) homeMenu_handle (homeMenu_mount token st0, st0).

Record EventCardMenuState := mkEventCardMenuState { ecm_anchorOpen : bool; ecm_canEdit : bool }.

Definition eventCardMenu_mount (token : string) (eventId : Z) (st : Store) : EventCardMenuState :=
  mkEventCardMenuState false (eventCardMenu_canEdit token eventId st).

Inductive EventCardMenuAction := EOpen | EClose | EEditPost.

Definition eventCardMenu_available (s : EventCardMenuState) (a : EventCardMenuAction) : bool :=
  match a with
  | EOpen => ecm_canEdit s
  | EClose | EEditPost => ecm_anchorOpen s
  end.

Definition eventCardMenu_handle (eventId : Z) (a : EventCardMenuAction) (s : EventCardMenuState)
    : ST Store (EventCardMenuState * option UiEffect) :=
  match a with
  | EOpen => ret (mkEventCardMenuState true (ecm_canEdit s), None)
  | EClose => ret (mkEventCardMenuState false (ecm_canEdit s), None)
  | EEditPost => ret (mkEventCardMenuState false (ecm_canEdit s), Some (handleEditPost eventId))
  end.

Definition eventCardMenu_reachable (token : string) (eventId : Z) (st0 : Store) :=
  ui_reachable eventCardMenu_available (eventCardMenu_handle eventId) (eventCardMenu_mount token eventId st0, st0).

(** The page an entry of the drawer or of the card's menu names. *)
Definition homeMenu_target (a : HomeMenuAction) : option Page :=
  match a with
  | HHome => Some HomePage
  | HCreateSociety => Some ApplySocietyPage
  | HSocieties => Some SocietyListPage
  | HEvents => Some EventListPage
  | HUsers => Some UsersPage
  | HApplications => Some ReviewApplicationsPage
  | _ => None
  end.

Lemma homeMenu_reachable_inv token st0 c :
  homeMenu_reachable token st0 c -> c.2 = st0 /\ hm_isAdmin c.1 = homeMenu_isAdmin token st0.
Proof.
  revert c. apply ui_invariant.
  - split; [done|]. unfold homeMenu_mount, homeMenu_isAdmin. by repeat case_match; simplify_eq.
  - intros s st a s' st' [Hst Hadm] _. destruct a; cbn; intros [= <- <-]; done.
Qed.

Lemma eventCardMenu_reachable_inv token eid st0 c :
  eventCardMenu_reachable token eid st0 c ->
  c.2 = st0 /\ ecm_canEdit c.1 = eventCardMenu_canEdit token eid st0 /\ (ecm_anchorOpen c.1 = true -> ecm_canEdit c.1 = true).
Proof.
  revert c. apply ui_invariant; [done|].
  intros s st a s' st' (Hst & He & Ho) Havail. destruct a; cbn in *; intros [= <- <-]; auto.
Qed.

(** The home drawer and an event card's menu never write to the
    store, and every click that leaves the page goes to a path that
    renders the page its entry names: Home, the application form, the
    society and event lists, and, only for a user [fetchApplcations]
    found to be a site admin, the user table and the application review;
    an event card's Edit Post opens the event's edit page, and only for
    a user [getPerms] allowed to edit. *)
Theorem home_and_card_menus_navigate token eid st0 :
  (forall s st a o s' st', homeMenu_reachable token st0 (s, st) ->
     ui_step (homeMenu_available token) homeMenu_handle (s, st) a o (s', st') ->
     st' = st0 /\
     (forall p, o = Some (Navigate p) -> homeMenu_target a = Some (resolve p)) /\
     ((a = HUsers \/ a = HApplications) -> homeMenu_isAdmin token st0 = true)) /\
  (forall s st a o s' st', eventCardMenu_reachable token eid st0 (s, st) ->
     ui_step eventCardMenu_available (eventCardMenu_handle eid) (s, st) a o (s', st') ->
     st' = st0 /\
     (forall p, o = Some (Navigate p) ->
        a = EEditPost /\ resolve p = EventEditPage /\ eventCardMenu_canEdit token eid st0 = true)).
Proof.
  split.
  - intros s st a o s' st' Hr Hstep. destruct (homeMenu_reachable_inv _ _ _ Hr) as [Hst Hadm]; simpl in *.
    inversion Hstep as [a' s0 st1 s2 o' st2 Havail Hh]; subst.
    revert Havail Hh. destruct a; cbn; intros Havail Hh; injection Hh; intros; subst; (split; [done|]); split;
      try (intros p [= <-]; vm_compute; reflexivity); try (intros ? [=]);
      intros [Ha | Ha]; try discriminate Ha; apply andb_prop in Havail as [_ Hi]; by rewrite <- Hadm.
  - intros s st a o s' st' Hr Hstep. destruct (eventCardMenu_reachable_inv _ _ _ _ Hr) as (Hst & He & Ho); simpl in *.
    inversion Hstep as [a' s0 st1 s2 o' st2 Havail Hh]; subst.
    revert Havail Hh. destruct a; cbn; intros Havail Hh; injection Hh; intros; subst; (split; [done|]);
      intros p; try discriminate.
    intros [= <-]. split_and!; [done| |by rewrite <- He; apply Ho].
    apply (app_links_resolve eid).
Qed.

(** ** The menus' links carry their ids *)

Lemma on_api_cases {A} (c : ST Store A) k st e st' :
  on_api c k st = Done e st' -> (exists a, e = k a) \/ (exists msg, e = ShowError msg).
Proof. unfold on_api. destruct (c st); intros [= <- _]; eauto. Qed.

Lemma bind_ret_map_Done {A B} (c : ST Store A) (f : A -> B) st r st' :
  (x <- c ;; ret (f x)) st = Done r st' -> exists x st'', c st = Done x st'' /\ r = f x.
Proof. unfold st_bind, ret. destruct (c st); [intros [= <- _]; eauto | done]. Qed.

Ltac link_inv H :=
  repeat match type of H with
  | st_bind _ _ _ = Done _ _ => apply bind_ret_map_Done in H as (? & ? & H & ?)
  | on_api _ _ _ = Done _ _ => apply on_api_cases in H as [[? ->] | [? ->]]
  | (if ?b then _ else _) _ = _ => destruct b
  | ret _ _ = Done _ _ => injection H as H; subst
  | Done _ _ = Done _ _ => injection H as H; subst
  end; cbn [adminMenu_apply societyMenu_apply] in *; simplify_eq.

(** (C25) The links of the event's menu, of the society's menu and of the
    card's menu are read back by the pages they open: whatever the
    state, the token and the store, each navigation either leaves for
    the home page after a confirmed deletion or opens a route whose
    page reads, from the path, exactly the id of the menu's event or
    society, with no redirect to the login page. *)
Theorem menu_links_carry_ids token eid sid :
  (forall a s st s' p st', adminMenu_handle token eid a s st = Done (s', Some (Navigate p)) st' ->
     (a = AConfirmDelete /\ p = "/home") \/ page_id (resolve p) p = (None, Some eid)) /\
  (forall a s st s' p st', societyMenu_handle token sid a s st = Done (s', Some (Navigate p)) st' ->
     (a = SConfirmDelete /\ p = "/home") \/ page_id (resolve p) p = (None, Some sid)) /\
  (forall a s st s' p st', eventCardMenu_handle eid a s st = Done (s', Some (Navigate p)) st' ->
     page_id (resolve p) p = (None, Some eid)).
Proof.
  destruct (page_id_links eid) as (Pv & Pq & Pf & _ & Pe & _).
  destruct (page_id_links sid) as (_ & _ & _ & _ & _ & Pc & Pse & Psm).
  split_and!; intros a s st s' p st' H; destruct a;
    unfold adminMenu_handle, societyMenu_handle, eventCardMenu_handle, handleEditEvent,
      handleAttendanceData, handleOpenDeleteConfirmation, handleDeleteEvent, handleJoinSociety,
      handleDeleteSociety, handleEditPost in H;
    link_inv H; first [done | by left | by right].
Qed.

(** ** Witnesses *)

Lemma adminMenu_delete_guarded_witness :
  exists s, adminMenu_reachable "tok1" 1 event_demo (s, event_demo) /\
    isDeleteConfirmationOpen s = true /\ canDelete (perms s) = true /\ isGuest "tok1" = false.
Proof.
  eexists. assert (Hr : adminMenu_reachable "tok1" 1 event_demo
    (set_delete_open true (set_anchor true (adminMenu_mount "tok1" 1 event_demo)), event_demo)).
  { eapply ui_reach_step with (a := AOpenDelete);
      [eapply ui_reach_step with (a := AOpenMenu); [apply ui_reach_init|]|];
      (apply ui_step_click; vm_compute; reflexivity). }
  split; [exact Hr|]. split; [reflexivity|].
  apply (adminMenu_delete_guarded "tok1" 1 event_demo _ _ Hr). reflexivity.
Defined.

Lemma societyMenu_writes_guarded_witness :
  exists s st, societyMenu_reachable "tok1" 1 demo_store (s, st) /\ st <> demo_store /\
    showJoinConfirmation s = true /\ sm_perms s = societyMenu_perms "tok1" 1 demo_store.
Proof.
  do 2 eexists.
  assert (Hr : societyMenu_reachable "tok1" 1 demo_store
    (sm_set_anchor false (sm_set_join true (sm_set_anchor true (societyMenu_mount "tok1" 1 demo_store))),
     set_members (insert (1, 1) "member") demo_store)).
  { eapply ui_reach_step with (a := SJoin);
      [eapply ui_reach_step with (a := SOpenMenu); [apply ui_reach_init|]|];
      (apply ui_step_click; vm_compute; reflexivity). }
  split; [exact Hr|]. split; [vm_compute; discriminate|]. split; [reflexivity|].
  apply (societyMenu_writes_guarded "tok1" 1 demo_store _ _ Hr).
Defined.

Lemma home_and_card_menus_navigate_witness :
  homeMenu_isAdmin "tok1" demo_store = true /\ homeMenu_target HUsers = Some (resolve "/users").
Proof.
  assert (Hr : homeMenu_reachable "tok1" demo_store (mkHomeMenuState true false true None, demo_store)).
  { eapply ui_reach_step with (a := HToggle); [apply ui_reach_init|].
    apply ui_step_click; vm_compute; reflexivity. }
  assert (Hs : ui_step (homeMenu_available "tok1") homeMenu_handle (mkHomeMenuState true false true None, demo_store)
                 HUsers (Some (Navigate "/users")) (mkHomeMenuState true false true None, demo_store)).
  { apply ui_step_click; vm_compute; reflexivity. }
  destruct (proj1 (home_and_card_menus_navigate "tok1" 1 demo_store) _ _ _ _ _ _ Hr Hs) as (_ & Hp & Ha).
  split; [by apply Ha; left|]. by apply Hp.
Defined.

Lemma menu_links_carry_ids_witness :
  adminMenu_handle "tok1" 1 AOpenInPage (adminMenu_mount "tok1" 1 event_demo) event_demo =
    Done (adminMenu_mount "tok1" 1 event_demo, Some (Navigate "/event/1/qrcode")) event_demo /\
  page_id (resolve "/event/1/qrcode") "/event/1/qrcode" = (None, Some 1).
Proof.
  split; [reflexivity|].
  destruct (proj1 (menu_links_carry_ids "tok1" 1 1) AOpenInPage (adminMenu_mount "tok1" 1 event_demo)
              event_demo (adminMenu_mount "tok1" 1 event_demo) "/event/1/qrcode" event_demo) as [[? _] | H]; [reflexivity | discriminate | exact H].
Defined.
