(* ===== verification/UserTable.v ===== *)
(** * The site's user table as a state machine

    components/User/UserList.tsx (rendered by pages/UsersPage.tsx) keeps
    the rows it fetched with [api.admin.users], the user chosen for
    removal, the removal dialog, the "Permissions Saved" modal and the
    error popup in [useState] hooks; each row is a
    components/User/UserCard.tsx whose select, Reset, Save and Remove
    controls call the list's handlers with the row's id.  This file
    models the hooks as [UserListState], the controls as [UserListAction]
    and a click as [userList_handle], built from the handlers of UI.v,
    and runs them with the machine of Menus.v.

    The theorems show that the table's ids stay distinct and among those
    fetched at the mount, that a click changes the store only as a
    successful [permSiteAllocate] of a row's chosen level by Save or a
    successful [adminUserRemove] by Remove in the dialog, after which
    the user is no longer listed; and that Reset after a Save shows the
    permission the user had before the save, which the backend no
    longer holds. *)

From S2P Require Import Prelude Store Session Perm Admin UI Menus.

Record UserListState := mkUserListState {
  userList : list UserToDisplay;
  userToRemove : option UserToDisplay;
  confirmationDialogOpen : bool;
  ul_errorMsg : string;
  ul_showError : bool;
  showPermissionSaveModal : bool
}.

Definition ul_set_list (l : list UserToDisplay) (s : UserListState) : UserListState :=
  mkUserListState l (userToRemove s) (confirmationDialogOpen s) (ul_errorMsg s) (ul_showError s)
    (showPermissionSaveModal s).

Definition ul_set_remove (u : UserToDisplay) (s : UserListState) : UserListState :=
  mkUserListState (userList s) (Some u) true (ul_errorMsg s) (ul_showError s) (showPermissionSaveModal s).

Definition ul_set_dialog (b : bool) (s : UserListState) : UserListState :=
  mkUserListState (userList s) (userToRemove s) b (ul_errorMsg s) (ul_showError s) (showPermissionSaveModal s).

Definition ul_set_error (msg : string) (s : UserListState) : UserListState :=
  mkUserListState (userList s) (userToRemove s) (confirmationDialogOpen s) msg true (showPermissionSaveModal s).

Definition ul_set_show_error (b : bool) (s : UserListState) : UserListState :=
  mkUserListState (userList s) (userToRemove s) (confirmationDialogOpen s) (ul_errorMsg s) b
    (showPermissionSaveModal s).

Definition ul_set_modal (b : bool) (s : UserListState) : UserListState :=
  mkUserListState (userList s) (userToRemove s) (confirmationDialogOpen s) (ul_errorMsg s) (ul_showError s) b.

Definition userList_initial : UserListState := mkUserListState [] None false "" false false.

(** The render's [if (isGuest(authUserToken)) navigate('/auth/login')]. *)
Definition userList_guard (authUserToken : string) : option UiEffect :=
  if isGuest authUserToken then Some (Navigate "/auth/login") else None.

(** [fetchData] when the table mounts: the rows, or the error popup
    over an empty table. *)
Definition userList_mount (authUserToken : string) : ST Store UserListState :=
  settle (adminGetUsers authUserToken) (fun users => ul_set_list (map display_user users) userList_initial)
    (fun msg => ul_set_error msg userList_initial).

Inductive UserListAction :=
| UChange (userId : Z) (p : Permission)   (** a row's select: [onChangePermission] *)
| UReset (userId : Z)                     (** a row's Reset *)
| USave (userId : Z)                      (** a row's Save: [onSavePermission(user.id, 1)] *)
| URemove (userId : Z)                    (** a row's Remove *)
| UConfirmRemove                          (** Remove in the dialog *)
| UCancelRemove                           (** Cancel, or the dialog's [onClose] *)
| UClosePermModal                         (** OK, or the modal's [onClose] *)
| UCloseError.

Definition listed (l : list UserToDisplay) (userId : Z) : bool :=
  existsb (fun u => Z.eqb (ud_id u) userId) l.

(** A row's controls exist for the rows of the table. *)
Definition userList_available (s : UserListState) (a : UserListAction) : bool :=
  match a with
  | UChange i _ | UReset i | USave i | URemove i => listed (userList s) i
  | UConfirmRemove | UCancelRemove => confirmationDialogOpen s
  | UClosePermModal => showPermissionSaveModal s
  | UCloseError => ul_showError s
  end.

Definition userList_handle (authUserToken : string) (a : UserListAction) (s : UserListState)
    : ST Store (UserListState * option UiEffect) :=
  match a with
  | UChange i p => ret (ul_set_list (userList_handleChangePermission (userList s) p i) s, None)
  | UReset i => ret (ul_set_list (userList_handleResetPermission (userList s) i) s, None)
  | USave i =>
      found <- userList_handleSavePermission authUserToken (userList s) i ;;
      ret (if found then ul_set_modal true s else s, None)
  | URemove i =>
      ret (match List.find (fun u => Z.eqb (ud_id u) i) (userList s) with
           | Some u => ul_set_remove u s
           | None => s
           end, None)
  | UConfirmRemove =>
      match userToRemove s with
      | Some u =>
          r <- userList_handleConfirmRemoveUser authUserToken (userList s) u ;;
          ret (ul_set_dialog false
                 (match r.2 with Some msg => ul_set_error msg (ul_set_list r.1 s) | None => ul_set_list r.1 s end),
               None)
      | None => ret (ul_set_dialog false s, None)
      end
  | UCancelRemove => ret (ul_set_dialog false s, None)
  | UClosePermModal => ret (ul_set_modal false s, None)
  | UCloseError => ret (ul_set_show_error false s, None)
  end.

Definition userList_step (authUserToken : string) :=
  ui_step userList_available (userList_handle authUserToken).

(** What an admin reaches from the table mounted on [st0]. *)
Inductive userList_reachable (authUserToken : string) (st0 : Store) : UserListState * Store -> Prop :=
| userList_reach c s1 st1 :
    userList_mount authUserToken st0 = Done s1 st1 ->
    ui_reachable userList_available (userList_handle authUserToken) (s1, st1) c ->
    userList_reachable authUserToken st0 c.

(** ** The rows *)

Lemma change_ids l p i : map ud_id (userList_handleChangePermission l p i) = map ud_id l.
Proof. unfold userList_handleChangePermission. rewrite map_map. apply map_ext. intros u. by case_match. Qed.

Lemma reset_ids l i : map ud_id (userList_handleResetPermission l i) = map ud_id l.
Proof. induction l as [|u l IH]; simpl; [done|]. case_match; simpl; by rewrite ?IH. Qed.

Lemma filter_ids_NoDup (f : UserToDisplay -> bool) l : NoDup (map ud_id l) -> NoDup (map ud_id (List.filter f l)).
Proof.
  induction l as [|u l IH]; simpl; [done|]. intros [Hn Hl]%NoDup_cons.
  destruct (f u); simpl; [|by apply IH]. constructor; [|by apply IH].
  intros Hin. apply Hn. apply list_elem_of_fmap in Hin as (v & -> & Hv).
  apply list_elem_of_fmap. exists v. split; [done|]. apply list_elem_of_In.
  apply list_elem_of_In in Hv. by apply filter_In in Hv as [? _].
Qed.

Lemma listed_filter_removed l i :
  listed (List.filter (fun user => negb (Z.eqb (ud_id user) i)) l) i = false.
Proof.
  induction l as [|u l IH]; simpl; [done|]. destruct (Z.eqb_spec (ud_id u) i); simpl; [done|].
  rewrite IH. by destruct (Z.eqb_spec (ud_id u) i).
Qed.

Lemma mount_ids_NoDup token st s st' :
  userList_mount token st = Done s st' -> NoDup (map ud_id (userList s)).
Proof.
  unfold userList_mount, settle. destruct (adminGetUsers token st) eqn:E; intros [= <- _]; [|constructor].
  revert E. unfold adminGetUsers, st_bind, check, gets, ret, throw. repeat case_match; intros [= <- _]; try done.
  cbn. rewrite !map_map. cbn. apply NoDup_fst_map_to_list.
Qed.

(** ** What a click does to the store *)

Lemma user_update_isAdmin_fail_safe uid b : FailSafe (user_update_isAdmin uid b).
Proof. unfold user_update_isAdmin. fail_safe_prim. Qed.

Lemma user_delete_fail_safe uid : FailSafe (user_delete uid).
Proof. unfold user_delete. fail_safe_prim. Qed.

Lemma permSiteAllocate_fail_safe token uid lvl : FailSafe (permSiteAllocate token uid lvl).
Proof.
  unfold permSiteAllocate. repeat (apply fail_safe_bind; [solve [auto with spark]|]; intros ?).
  apply fail_safe_bind_ret, user_update_isAdmin_fail_safe.
Qed.

Lemma adminUserRemove_fail_safe token uid : FailSafe (adminUserRemove token uid).
Proof.
  unfold adminUserRemove. repeat (apply fail_safe_bind; [solve [auto with spark]|]; intros ?).
  apply fail_safe_bind_ret, user_delete_fail_safe.
Qed.

Lemma swallow_fail_safe_Done (c : ST Store unit) st st' :
  FailSafe c -> swallow c st = Done tt st' -> st' = st \/ c st = Done tt st'.
Proof.
  intros Hc. unfold swallow. destruct (c st) as [[] st1|e st1] eqn:E; intros [= <-]; [by right|].
  left. by apply (Hc st e).
Qed.

(** A click keeps the ids distinct, stays on the page, and writes only
    by a successful Save or a successful confirmed removal. *)
Lemma userList_handle_store token a s st s' o st' :
  userList_handle token a s st = Done (s', o) st' ->
  o = None /\ (NoDup (map ud_id (userList s)) -> NoDup (map ud_id (userList s'))) /\
  (st' = st \/
   (exists i x, a = USave i /\ List.find (fun u => Z.eqb (ud_id u) i) (userList s) = Some x /\
      permSiteAllocate token i (permissionToPermissionLevel (ud_permissions x)) st = Done tt st' /\
      showPermissionSaveModal s' = true) \/
   (exists u, a = UConfirmRemove /\ userToRemove s = Some u /\ adminUserRemove token (ud_id u) st = Done tt st' /\
      listed (userList s') (ud_id u) = false)).
Proof.
  destruct a as [i p|i|i|i| | | |]; cbn [userList_handle].
  - intros [= <- <- <-]. simpl. rewrite change_ids. auto.
  - intros [= <- <- <-]. simpl. rewrite reset_ids. auto.
  - unfold userList_handleSavePermission. destruct (List.find _ (userList s)) as [x|] eqn:Hf;
      [|intros [= <- <- <-]; auto].
    unfold st_bind at 1 2, ret at 1 2.
    destruct (swallow _ st) as [[] st1|e st1] eqn:Hsw; [|done]. intros [= <- <- <-].
    split; [done|]. split; [done|].
    destruct (swallow_fail_safe_Done _ _ _ (permSiteAllocate_fail_safe _ _ _) Hsw) as [->|Hp]; [by left|].
    right; left. by exists i, x.
  - intros [= <- <- <-]. split; [done|]. split; [by case_match|]. by left.
  - destruct (userToRemove s) as [u|] eqn:Hu; [|intros [= <- <- <-]; auto].
    unfold userList_handleConfirmRemoveUser, st_bind, ret.
    destruct (adminUserRemove token (ud_id u) st) as [[] st1|e st1] eqn:Ha; intros [= <- <- <-];
      (split; [done|]); simpl.
    + split; [apply filter_ids_NoDup|]. right; right. exists u. split_and!; try done. apply listed_filter_removed.
    + split; [done|]. left. by apply (adminUserRemove_fail_safe token (ud_id u) st e).
  - intros [= <- <- <-]. auto.
  - intros [= <- <- <-]. auto.
  - intros [= <- <- <-]. auto.
Qed.

(** ** The table's guarantees *)

(** (C13) In the site's user table, mounted on [st0] and through any
    clicks on its rows and dialogs, the rows' ids stay distinct, and a
    click changes the store only as a successful [permSiteAllocate] of
    the level a row shows, by that row's Save (which then opens the
    "Permissions Saved" modal), or as a successful [adminUserRemove] of
    the user chosen for removal, by Remove in the dialog, after which
    that user is no longer listed. *)
Theorem userList_writes_guarded token st0 s st :
  userList_reachable token st0 (s, st) ->
  NoDup (map ud_id (userList s)) /\
  (forall a o s' st', userList_step token (s, st) a o (s', st') -> st' <> st ->
     (exists i x, a = USave i /\ List.find (fun u => Z.eqb (ud_id u) i) (userList s) = Some x /\
        permSiteAllocate token i (permissionToPermissionLevel (ud_permissions x)) st = Done tt st' /\
        showPermissionSaveModal s' = true) \/
     (exists u, a = UConfirmRemove /\ userToRemove s = Some u /\ adminUserRemove token (ud_id u) st = Done tt st' /\
        listed (userList s') (ud_id u) = false)).
Proof.
  intros Hr. assert (Hnd : NoDup (map ud_id (userList s))).
  { inversion Hr as [c s1 st1 Hm Hu]; subst.
    change (userList s) with (userList (s, st).1). revert Hu. generalize (s, st). apply ui_invariant.
    - by apply (mount_ids_NoDup token st0 s1 st1).
    - intros s0 st2 a s' st' Hn _ Hh. by apply (userList_handle_store _ _ _ _ _ _ _ Hh). }
  split; [done|]. intros a o s' st' Hstep Hne. inversion Hstep as [a' s0 st1 s2 o' st2 Havail Hh]; subst.
  destruct (userList_handle_store _ _ _ _ _ _ _ Hh) as (_ & _ & [->|H]); [done|exact H].
Qed.

(** ** Reset after Save *)

Definition find_row (l : list UserToDisplay) (i : Z) : option UserToDisplay :=
  List.find (fun u => Z.eqb (ud_id u) i) l.

Lemma find_row_change l p i :
  find_row (userList_handleChangePermission l p i) i =
    (fun x => mkUserToDisplay (ud_id x) (ud_name x) (ud_zId x) (ud_email x) p (ud_originalPermissions x))
      <$> find_row l i.
Proof.
  unfold find_row, userList_handleChangePermission. induction l as [|u l IH]; [done|]. simpl.
  destruct (Z.eqb (ud_id u) i) eqn:E; simpl; rewrite ?E; [done|]. by rewrite IH.
Qed.

Lemma find_row_reset l i :
  find_row (userList_handleResetPermission l i) i =
    (fun x => mkUserToDisplay (ud_id x) (ud_name x) (ud_zId x) (ud_email x)
                (ud_originalPermissions x) (ud_originalPermissions x)) <$> find_row l i.
Proof.
  unfold find_row. induction l as [|u l IH]; [done|]. simpl.
  destruct (Z.eqb (ud_id u) i) eqn:E; simpl; rewrite ?E; [done|]. by rewrite IH.
Qed.

(** (C38) Reset after Save shows a stale permission: when a site admin
    changes a user's permission to [p], saves it and then clicks Reset,
    the backend holds [p] while the row goes back to the permission
    fetched when the table mounted, because Save never updates the
    row's [originalPermissions]. *)
Theorem userList_reset_after_save_stale st token uid u ul target tu x p :
  sessions st !! token = Some uid -> users st !! uid = Some u -> isAdmin u = true ->
  users st !! target = Some tu -> find_row ul target = Some x -> ud_originalPermissions x <> p ->
  exists st' tu' x',
    userList_handleSavePermission token (userList_handleChangePermission ul p target) target st = Done true st' /\
    users st' !! target = Some tu' /\ ud_permissions (display_user (user_info (target, tu'))) = p /\
    find_row (userList_handleResetPermission (userList_handleChangePermission ul p target) target) target = Some x' /\
    ud_permissions x' = ud_originalPermissions x /\ ud_permissions x' <> p.
Proof.
  intros Hs Hu Ha Ht Hx Hne.
  assert (Hin : exists y, In y ul /\ ud_id y = target).
  { unfold find_row in Hx. exists x. split; [by eapply find_some|].
    apply find_some in Hx as [_ Hid]. by apply Z.eqb_eq in Hid. }
  destruct (userList_save_roundtrip st token uid u ul target tu p Hs Hu Ha Ht Hin) as (st' & Hsave & tu' & Htu & Hp).
  exists st', tu', (mkUserToDisplay (ud_id x) (ud_name x) (ud_zId x) (ud_email x)
                      (ud_originalPermissions x) (ud_originalPermissions x)).
  split_and!; try done. by rewrite find_row_reset, find_row_change, Hx.
Qed.

(** ** Witnesses *)

Lemma userList_writes_guarded_witness :
  exists s st, userList_reachable "tok1" demo_store (s, st) /\ NoDup (map ud_id (userList s)) /\
    listed (userList s) 2 = false.
Proof.
  do 2 eexists.
  assert (Hr : userList_reachable "tok1" demo_store
                 (ul_set_dialog false (ul_set_list (List.filter (fun user => negb (Z.eqb (ud_id user) 2))
                    (map display_user (user_info <$> map_to_list (users demo_store))))
                    (ul_set_remove bob_row (ul_set_list (map display_user (user_info <$> map_to_list (users demo_store)))
                       userList_initial))),
                  state_of (adminUserRemove "tok1" 2 demo_store))).
  { eapply userList_reach; [vm_compute; reflexivity|].
    eapply ui_reach_step with (a := UConfirmRemove);
      [eapply ui_reach_step with (a := URemove 2); [apply ui_reach_init|]|];
      (apply ui_step_click; vm_compute; reflexivity). }
  split; [exact Hr|]. split; [apply (userList_writes_guarded _ _ _ _ Hr)|]. vm_compute. reflexivity.
Defined.

Lemma userList_reset_after_save_stale_witness :
  exists st' tu' x',
    userList_handleSavePermission "tok1" (userList_handleChangePermission [bob_row] SITE_ADMIN 2) 2 demo_store =
      Done true st' /\
    users st' !! 2 = Some tu' /\ ud_permissions (display_user (user_info (2, tu'))) = SITE_ADMIN /\
    find_row (userList_handleResetPermission (userList_handleChangePermission [bob_row] SITE_ADMIN 2) 2) 2 =
      Some x' /\ ud_permissions x' = MEMBER_P /\ ud_permissions x' <> SITE_ADMIN.
Proof.
  apply (userList_reset_after_save_stale demo_store "tok1" 1 ada [bob_row] 2 bob bob_row SITE_ADMIN);
    [reflexivity..|discriminate].
Defined.
