(* ===== verification/Search.v ===== *)
(** * The search bars

    components/Home/SearchBar.tsx (the society list's search) and
    components/Home/EventSearchBar.tsx (the event list's search, with
    two date pickers) keep what the user typed and picked in [useState]
    hooks and pass it to the page's search handler on Enter or on the
    search button.  The event bar turns each picked date into a string
    with [formatDate] ([date.toISOString()]), which the page keeps and
    [api.event.list] sends; the backend reads it back with [new Date].

    Pages.v models the event list's filters as instants ([option Z]),
    not as the strings the page keeps.  The theorem of this file is the
    refinement that justifies it: for every date the bar can send, the
    request [api.event.list] builds reaches the backend's listing with
    exactly the picked instants as its filters. *)

From S2P Require Import Prelude Store System Client Forms.

(** ** Home/SearchBar.tsx *)

(** [handleKeyDown]: Enter searches for the typed text. *)
Definition searchBar_handleKeyDown (key searchTerm : string) : option string :=
  if String.eqb key "Enter" then Some searchTerm else None.

(** ** Home/EventSearchBar.tsx *)

Record EventSearchBarState := mkEventSearchBarState {
  es_searchTerm : string;
  es_timeStart : option Z;       (** [Date | null] *)
  es_timeEnd : option Z;
  isTinyViewport : bool
}.

Definition determineIsTinyViewport (size : Z) : bool := size <? 450.

Section EventSearchBar.
Context `{JsDate}.

Definition formatDate (date : option Z) : option string := toISOString <$> date.

(** [handleSearchButtonClick]: the arguments of [handleSearch]. *)
Definition eventSearchBar_handleSearchButtonClick (s : EventSearchBarState)
    : string * option string * option string :=
  (es_searchTerm s, formatDate (es_timeStart s), formatDate (es_timeEnd s)).

Definition eventSearchBar_handleKeyDown (key : string) (s : EventSearchBarState)
    : option (string * option string * option string) :=
  if String.eqb key "Enter"
  then Some (es_searchTerm s, formatDate (es_timeStart s), formatDate (es_timeEnd s))
  else None.

(** The pickers' [onAccept], rendered only on a viewport of 450 pixels
    or more. *)
Definition eventSearchBar_accept (from : bool) (d : option Z) (s : EventSearchBarState)
    : EventSearchBarState :=
  if isTinyViewport s then s
  else if from then mkEventSearchBarState (es_searchTerm s) d (es_timeEnd s) (isTinyViewport s)
  else mkEventSearchBarState (es_searchTerm s) (es_timeStart s) d (isTinyViewport s).

(** ** The dates reach the backend *)

Lemma toISOString_nonempty t : toISOString t <> "".
Proof. destruct (toISOString_local t) as (s & -> & _). by destruct s. Qed.

Lemma formatDate_filter (date : option Z) : date_filter date_parse (formatDate date) = Some date.
Proof.
  destruct date as [t|]; [|done]. unfold date_filter, formatDate. simpl.
  destruct (String.eqb_spec (toISOString t) "") as [Hn|_]; [by apply toISOString_nonempty in Hn|].
  by rewrite toISOString_parse.
Qed.

(** The event list's search is exact: whether the user presses
    Enter or the search button, the text and the dates the bar hands to
    the page, once [api.event.list] has sent them and the backend has
    read them with [new Date], reach the listing handler as the typed
    text and exactly the picked instants, with any pagination. *)
Theorem eventSearchBar_dates_reach_backend (d : Draws) (s : EventSearchBarState) a b :
  eventSearchBar_handleKeyDown "Enter" s = Some (eventSearchBar_handleSearchButtonClick s) /\
  (let '(q, ts, te) := eventSearchBar_handleSearchButtonClick s in
   route_request date_parse d (client_request (CEvent (CEventList (Some q) ts te a b))) =
     Some (REvent (REventList (Some q) (es_timeStart s) (es_timeEnd s) a b))).
Proof.
  split; [done|]. unfold eventSearchBar_handleSearchButtonClick. cbv beta iota.
  rewrite client_routes. unfold intended. by rewrite !formatDate_filter.
Qed.

End EventSearchBar.
