(* ===== verification/Cards.v ===== *)
(** * The event cards and the pages that list them

    Home/EventCard.tsx renders one event of the home feed
    (pages/HomePage.tsx) and of the event list (pages/EventListPage.tsx);
    SocietyView/SocietyPostCard.tsx renders one event of a society's page
    (SocietyView/SocietyLower.tsx).  A card is modelled by what its
    render shows and binds: the avatar's picture, the header's title and
    subheader, the body, the event id of its [EventCardMenu], and the
    effect of a click on the avatar and on the title ([CardView]).

    The pages pass each post's fields to a card; the pictures come from
    components/Common/Pictures, a module that is not in the repository,
    so [profilePicture] and [eventBanner] are parameters, as is the date
    format [formatTimeToPrettyString] (it depends on the browser's
    locale).  The theorems show that every card of the three lists shows
    its post and links to pages that read back the post's event and
    society ids, and that the home feed and the event list hand the
    avatar the banner picture: [eventBanner={profilePicture}] and
    [societyProfilePicture={eventBanner}] are swapped.

    The profile page (pages/ProfileViewPage.tsx) is rendered the same
    way: its grid of societies (Profile/SocietiesJoinedGrid.tsx) and its
    list of events (Profile/EventsAttendingList.tsx), whose entries are
    shown once the page's fetches have settled and link to the pages of
    the society or event they name. *)

From S2P Require Import Prelude Store Society Event Profile UI Pages Routes Views.

(** ** Home/EventCard.tsx *)

Record EventCardProps := mkEventCardProps {
  ec_eventId : Z;
  ec_societyId : Z;
  ec_title : string;
  ec_time : string;
  ec_location : string;
  ec_description : string;
  ec_eventBanner : string;
  ec_societyProfilePicture : string
}.

Record CardView := mkCardView {
  cv_avatar : string;
  cv_title : string;
  cv_subheader : string;
  cv_body : string;
  cv_menuEventId : Z;
  cv_onAvatarClick : option UiEffect;   (** [None]: the avatar has no [onClick] *)
  cv_onTitleClick : UiEffect
}.

(** The card's subheader [`${time} @ ${location}`]. *)
Definition card_subheader (time location : string) : string := time +:+ " @ " +:+ location.

(** The render: [eventBanner] is a prop the card does not destructure,
    so it is drawn nowhere. *)
Definition eventCard (p : EventCardProps) : CardView :=
  mkCardView (ec_societyProfilePicture p) (ec_title p) (card_subheader (ec_time p) (ec_location p))
    (ec_description p) (ec_eventId p) (Some (eventCard_handleSocietyClick (ec_societyId p)))
    (eventCard_handleEventClick (ec_eventId p)).

(** ** SocietyView/SocietyPostCard.tsx *)

Definition societyPostCard (eventId : Z) (title time location description societyProfilePicture : string)
    : CardView :=
  mkCardView societyProfilePicture title (card_subheader time location) description eventId None
    (societyPostCard_handleEventClick eventId).

Section Lists.
Context (formatTimeToPrettyString : Z -> string) (profilePicture eventBanner : string).

(** ** The lists of cards *)

(** pages/HomePage.tsx: the props of the card of a post. *)
Definition homePage_card (post : EventInfo) : EventCardProps :=
  mkEventCardProps (info_eventId post) (info_societyId post) (info_name post)
    (formatTimeToPrettyString (info_time post)) (info_location post) (info_description post)
    profilePicture eventBanner.

Inductive FeedView :=
| FeedCards (cards : list CardView)
| FeedEmpty.   (** "Your feed is currently empty, try joining a society." *)

Definition homePage_render (s : HomePage.HomeState) : FeedView :=
  if bool_decide (length (HomePage.hp_eventPosts s) <> 0%nat)
  then FeedCards (map (fun post => eventCard (homePage_card post)) (HomePage.hp_eventPosts s))
  else FeedEmpty.

(** pages/EventListPage.tsx: the same props for each loaded post. *)
Definition eventListPage_card (post : EventInfo) : EventCardProps :=
  mkEventCardProps (info_eventId post) (info_societyId post) (info_name post)
    (formatTimeToPrettyString (info_time post)) (info_location post) (info_description post)
    profilePicture eventBanner.

Definition eventListPage_render (s : EventListPage.EventListState) : list CardView :=
  map (fun post => eventCard (eventListPage_card post)) (EventListPage.eventPosts s).

(** SocietyView/SocietyLower.tsx: the posts of a society's page. *)
Definition societyLower_render (s : SocietyViewState) : list CardView :=
  map (fun post => societyPostCard (info_eventId post) (info_name post)
                     (formatTimeToPrettyString (info_time post)) (info_location post)
                     (info_description post) profilePicture)
    (societyPosts s).

End Lists.

(** ** The lists of the profile page *)

(** An entry of Profile/EventsAttendingList.tsx: the event's name as
    [primary], its date and its location as [secondary], and the
    entry's [onClick]. *)
Record ListEntry := mkListEntry {
  le_primary : string;
  le_time : string;
  le_location : string;
  le_onClick : UiEffect
}.

(** [None]: "No events attending". *)
Definition eventsAttendingList_render (fmt : Z -> string) (attending : list EventInfo)
    : option (list ListEntry) :=
  nonempty_map (fun event => mkListEntry (info_name event) (fmt (info_time event)) (info_location event)
                               (eventsAttendingList_onClick (info_eventId event))) attending.

(** An item of Profile/SocietiesJoinedGrid.tsx: the society's picture,
    its name and the item's [onClick]. *)
Record GridItem := mkGridItem {
  gi_photo : option string;
  gi_name : string;
  gi_onClick : UiEffect
}.

(** [None]: "No societies joined". *)
Definition societiesJoinedGrid_render (societies : list SocietyInfo) : option (list GridItem) :=
  nonempty_map (fun society => mkGridItem (si_photoURL society) (societyName society)
                                 (societiesJoinedGrid_onClick (societyId society))) societies.

(** pages/ProfileViewPage.tsx: each of the three parts shows its
    "Loading ..." text ([None]) until its fetch has set its hook. *)
(** Profile/CopyWebcalButton.tsx: [copyLink], the backend's origin
    (from config.json, which is not in the repository: [BACKEND_HOST]
    and [BACKEND_PORT] are parameters) followed by the profile's
    [webcal] path. *)
Definition webcal_origin (backendHost : string) (backendPort : Z) : string :=
  (if String.eqb backendHost "localhost" then "http" else "https") +:+ "://" +:+ backendHost +:+ ":" +:+
  pretty backendPort.

Definition copyWebcal_link (backendHost : string) (backendPort : Z) (webcal : string) : string :=
  webcal_origin backendHost backendPort +:+ webcal.

Record ProfilePageView := mkProfilePageView {
  ppv_info : option UserProfile;
  ppv_copyLink : option string;      (** the text Copy Ical Link writes to the clipboard *)
  ppv_societies : option (option (list GridItem));
  ppv_events : option (option (list ListEntry))
}.

Definition profileViewPage_render (fmt : Z -> string) (backendHost : string) (backendPort : Z)
    (s : ProfileViewPage.ProfileViewState) : ProfilePageView :=
  mkProfilePageView (ProfileViewPage.pv_user s)
    ((fun user => copyWebcal_link backendHost backendPort (prof_webcal user)) <$> ProfileViewPage.pv_user s)
    (societiesJoinedGrid_render <$> ProfileViewPage.pv_societies s)
    ((fun evs => eventsAttendingList_render fmt evs.1) <$> ProfileViewPage.pv_events s).

(** ** What the cards show and where they lead *)

(** A card shows a post: its title, its subheader, its body and the id
    of its menu are the post's, and a click on its title opens a page
    that reads back the post's event id. *)
Definition shows_post (fmt : Z -> string) (post : EventInfo) (c : CardView) : Prop :=
  cv_title c = info_name post /\
  cv_subheader c = card_subheader (fmt (info_time post)) (info_location post) /\
  cv_body c = info_description post /\ cv_menuEventId c = info_eventId post /\
  exists path, cv_onTitleClick c = Navigate path /\ page_id (resolve path) path = (None, Some (info_eventId post)).

(** The avatar of an [EventCard] opens a page that reads back the
    society's id. *)
Definition avatar_opens_society (post : EventInfo) (c : CardView) : Prop :=
  exists path, cv_onAvatarClick c = Some (Navigate path) /\
    page_id (resolve path) path = (None, Some (info_societyId post)).

(** A click opens a page that reads back the id [id] from its path. *)
Definition opens_page (e : UiEffect) (id : Z) : Prop :=
  exists path, e = Navigate path /\ page_id (resolve path) path = (None, Some id).

Lemma event_link_read_back (eid : Z) :
  exists path, eventCard_handleEventClick eid = Navigate path /\
    societyPostCard_handleEventClick eid = Navigate path /\ page_id (resolve path) path = (None, Some eid).
Proof. destruct (page_id_links eid) as (Pv & _). eexists. split_and!; [reflexivity..|exact Pv]. Qed.

Lemma society_link_read_back (sid : Z) :
  exists path, eventCard_handleSocietyClick sid = Navigate path /\ page_id (resolve path) path = (None, Some sid).
Proof. destruct (page_id_links sid) as (_ & _ & _ & Ps & _). eexists. split; [reflexivity|exact Ps]. Qed.

Lemma feed_card_shows fmt pp eb post :
  shows_post fmt post (eventCard (homePage_card fmt pp eb post)) /\
  avatar_opens_society post (eventCard (homePage_card fmt pp eb post)).
Proof.
  destruct (event_link_read_back (info_eventId post)) as (p & He & _ & Hp).
  destruct (society_link_read_back (info_societyId post)) as (q & Hs & Hq).
  split; [split_and!; [done..|by exists p] | by exists q; rewrite <- Hs].
Qed.

Lemma eventListPage_card_homePage fmt pp eb post :
  eventListPage_card fmt pp eb post = homePage_card fmt pp eb post.
Proof. reflexivity. Qed.

Lemma society_post_card_shows fmt pp post :
  shows_post fmt post (societyPostCard (info_eventId post) (info_name post) (fmt (info_time post))
                         (info_location post) (info_description post) pp).
Proof.
  destruct (event_link_read_back (info_eventId post)) as (p & _ & He & Hp).
  split_and!; [done..|by exists p].
Qed.

(** (C21) Every card of the home feed, of the event list and of a
    society's page shows its post (title, date and place, description,
    the menu of the same event) and its title opens a page that reads
    back the post's event id; the avatar of a feed or list card opens a
    page that reads back the post's society id, while a society page's
    card has no avatar link; the feed shows its empty message exactly
    when it has no post. *)
Theorem cards_show_posts fmt pp eb :
  (forall s, homePage_render fmt pp eb s = FeedEmpty <-> HomePage.hp_eventPosts s = []) /\
  (forall s cs, homePage_render fmt pp eb s = FeedCards cs ->
     Forall2 (fun post c => shows_post fmt post c /\ avatar_opens_society post c) (HomePage.hp_eventPosts s) cs) /\
  (forall s, Forall2 (fun post c => shows_post fmt post c /\ avatar_opens_society post c)
               (EventListPage.eventPosts s) (eventListPage_render fmt pp eb s)) /\
  (forall s, Forall2 (fun post c => shows_post fmt post c /\ cv_onAvatarClick c = None)
               (societyPosts s) (societyLower_render fmt pp s)).
Proof.
  split_and!.
  - intros s. unfold homePage_render. case_bool_decide as Hl.
    + split; [done|]. by intros Hn; rewrite Hn in Hl.
    + split; [intros _|done]. apply nil_length_inv. lia.
  - intros s cs. unfold homePage_render. case_bool_decide; [|done]. intros [= <-].
    apply Forall2_map_diag. intros post. apply feed_card_shows.
  - intros s. apply Forall2_map_diag. intros post. rewrite eventListPage_card_homePage. apply feed_card_shows.
  - intros s. apply Forall2_map_diag. intros post. split; [apply society_post_card_shows|done].
Qed.

(** The avatar pictures are swapped on the home feed and the event
    list: [EventCard] documents [societyProfilePicture] as the society's
    picture, and SocietyLower.tsx passes [profilePicture] to it, but
    HomePage.tsx and EventListPage.tsx pass [eventBanner].  Whenever the
    two pictures differ, an event that is both in the feed and on its
    society's page is drawn with two different avatars. *)
Theorem card_avatars_swapped fmt pp eb hs es vs post :
  pp <> eb -> post ∈ HomePage.hp_eventPosts hs -> post ∈ EventListPage.eventPosts es ->
  post ∈ societyPosts vs ->
  exists c1 c2 c3,
    homePage_render fmt pp eb hs = FeedCards (map (fun p => eventCard (homePage_card fmt pp eb p))
                                               (HomePage.hp_eventPosts hs)) /\
    c1 ∈ map (fun p => eventCard (homePage_card fmt pp eb p)) (HomePage.hp_eventPosts hs) /\
    c2 ∈ eventListPage_render fmt pp eb es /\ c3 ∈ societyLower_render fmt pp vs /\
    cv_menuEventId c1 = info_eventId post /\ cv_menuEventId c2 = info_eventId post /\
    cv_menuEventId c3 = info_eventId post /\
    cv_avatar c1 = eb /\ cv_avatar c2 = eb /\ cv_avatar c3 = pp /\ cv_avatar c1 <> cv_avatar c3.
Proof.
  intros Hne Hh He Hv.
  eexists _, _, _. split_and!;
    [ | apply elem_of_map_diag, Hh | apply elem_of_map_diag, He | apply elem_of_map_diag, Hv
    | reflexivity.. | cbn; congruence].
  unfold homePage_render. rewrite bool_decide_true; [done|].
  intros Hl. apply nil_length_inv in Hl. by rewrite Hl in Hh; apply not_elem_of_nil in Hh.
Qed.

(** The profile page's effect, for a logged-in user: the three
    fetches succeed and set their hooks. *)
Lemma profileViewPage_mount_Done st token uid u p l :
  token <> "" -> sessions st !! token = Some uid -> users st !! uid = Some u ->
  profileView token st = Done p st -> profileSocieties token st = Done l st ->
  ProfileViewPage.profileViewPage_mount token st =
    Done (ProfileViewPage.mkProfileViewState (Some p) (Some l)
            (Some (events_of (attending st) uid st, events_of (attended st) uid st)) None None) st.
Proof.
  intros Hne Hs Hu Hp Hl.
  unfold ProfileViewPage.profileViewPage_mount, ProfileViewPage.fetchUserInfo,
    ProfileViewPage.fetchSocieties, ProfileViewPage.fetchEvents, settle, st_bind.
  rewrite !isGuest_false by done. rewrite Hp. simpl. rewrite Hl. simpl.
  by rewrite (profileEvents_Done _ _ _ _ Hs Hu).
Qed.

Lemma attending_entry_shows (ev : EventInfo) :
  opens_page (eventsAttendingList_onClick (info_eventId ev)) (info_eventId ev).
Proof. destruct (page_id_links (info_eventId ev)) as (Pv & _). by eexists. Qed.

Lemma joined_item_opens (sid : Z) : opens_page (societiesJoinedGrid_onClick sid) sid.
Proof. destruct (page_id_links sid) as (_ & _ & _ & Ps & _). by eexists. Qed.

(** Once the profile page of a logged-in user has mounted, with
    no error and no redirect, it shows the user's profile; its grid of
    societies lists one item per membership of the user whose society
    exists, named after the society and opening a page that reads back
    the society's id, or "No societies joined" exactly when there is
    none; its list of events lists one entry per event the user marked
    as attending, with the event's name, date and place, opening a
    page that reads back the event's id, or "No events attending"
    exactly when there is none. *)
Theorem profilePage_lists fmt host port st token uid u :
  token <> "" -> sessions st !! token = Some uid -> users st !! uid = Some u ->
  exists s, ProfileViewPage.profileViewPage_mount token st = Done s st /\
    ProfileViewPage.pv_errorMsg s = None /\ ProfileViewPage.pv_navigated s = None /\
    (exists p, ppv_info (profileViewPage_render fmt host port s) = Some p /\ prof_userId p = uid) /\
    (exists l, ppv_societies (profileViewPage_render fmt host port s) = Some (societiesJoinedGrid_render l) /\
       (forall sid, (exists soc, soc ∈ l /\ societyId soc = sid) <->
                    is_Some (members st !! (uid, sid)) /\ is_Some (societies st !! sid)) /\
       (societiesJoinedGrid_render l = None <-> l = []) /\
       forall items, societiesJoinedGrid_render l = Some items ->
         Forall2 (fun soc it => gi_name it = societyName soc /\ opens_page (gi_onClick it) (societyId soc)) l items) /\
    (exists evs, ppv_events (profileViewPage_render fmt host port s) = Some (eventsAttendingList_render fmt evs) /\
       (forall ev, ev ∈ evs <-> exists eid e, (uid, eid) ∈ attending st /\ events st !! eid = Some e /\
                                              ev = event_info eid e) /\
       (eventsAttendingList_render fmt evs = None <-> evs = []) /\
       forall entries, eventsAttendingList_render fmt evs = Some entries ->
         Forall2 (fun ev le => le_primary le = info_name ev /\ le_time le = fmt (info_time ev) /\
                               le_location le = info_location ev /\ opens_page (le_onClick le) (info_eventId ev))
           evs entries).
Proof.
  intros Hne Hs Hu.
  destruct (profileView_spec st token uid u Hs Hu) as (p & Hp & Hid & _).
  destruct (HomePage.profileSocieties_Done st token uid u Hs Hu) as (l & Hl & _ & Hsids).
  rewrite (profileViewPage_mount_Done _ _ _ _ _ _ Hne Hs Hu Hp Hl).
  eexists. split; [reflexivity|]. split_and!; [done|done|by exists p| |].
  - exists l. split_and!; [done|done|apply nonempty_map_None|].
    intros items. apply nonempty_map_Some. intros soc. split; [done|apply joined_item_opens].
  - eexists. split_and!; [done|apply events_of_elem|apply nonempty_map_None|].
    intros entries. apply nonempty_map_Some. intros ev. split_and!; [done..|apply attending_entry_shows].
Qed.

(** The Copy Ical Link button of a logged-in user's profile page
    copies the backend's origin followed by a path that the backend
    serves, through [express.static('cals')], from the very file
    [generateICal] writes for that user, and that calendar holds one
    entry for each event the user is attending, and nothing else. *)
Theorem webcal_link_serves_calendar fmt host port st token uid u :
  token <> "" -> ev_wf st -> sessions st !! token = Some uid -> users st !! uid = Some u ->
  exists s path f n evs,
    ProfileViewPage.profileViewPage_mount token st = Done s st /\
    ppv_copyLink (profileViewPage_render fmt host port s) = Some (webcal_origin host port +:+ path) /\
    static_calendar_file path = Some f /\ generateICal uid st = Some (f, n, evs) /\
    forall c, c ∈ evs <-> exists eid e soc, (uid, eid) ∈ attending st /\ events st !! eid = Some e /\
                                           societies st !! ev_societyId e = Some soc /\ c = cal_event e soc.
Proof.
  intros Hne Hwf Hs Hu.
  destruct (profileView_spec st token uid u Hs Hu) as (p & Hp & _ & _ & _ & Hw & _).
  destruct (HomePage.profileSocieties_Done st token uid u Hs Hu) as (l & Hl & _).
  destruct (webcal_serves_generated_file st uid u Hu) as (f & n & evs & Hg & Hf).
  eexists _, (webcalPath (zId u)), f, n, evs.
  rewrite (profileViewPage_mount_Done _ _ _ _ _ _ Hne Hs Hu Hp Hl).
  split_and!; [reflexivity|by simpl; rewrite Hw|done|done|].
  intros c. destruct (generateICal_entries st uid u c Hwf Hu) as (f' & n' & evs' & Hg' & Hc).
  rewrite Hg in Hg'. by injection Hg' as <- <- <-.
Qed.

(** ** Witnesses *)

Definition demo_post : EventInfo := event_info 1 opening_night.

Lemma card_avatars_swapped_witness :
  exists c1 c2 c3,
    homePage_render (fun _ => "") "profile.png" "banner.png" (HomePage.mkHomeState [demo_post] None) =
      FeedCards (map (fun p => eventCard (homePage_card (fun _ => "") "profile.png" "banner.png" p)) [demo_post]) /\
    c1 ∈ map (fun p => eventCard (homePage_card (fun _ => "") "profile.png" "banner.png" p)) [demo_post] /\
    c2 ∈ eventListPage_render (fun _ => "") "profile.png" "banner.png"
           (EventListPage.mkState [demo_post] 0 10 None None None None) /\
    c3 ∈ societyLower_render (fun _ => "") "profile.png"
           (mkSocietyViewState (mkSocietyInfo 1 "" "" None) [demo_post]) /\
    cv_menuEventId c1 = 1 /\ cv_menuEventId c2 = 1 /\ cv_menuEventId c3 = 1 /\
    cv_avatar c1 = "banner.png" /\ cv_avatar c2 = "banner.png" /\ cv_avatar c3 = "profile.png" /\
    cv_avatar c1 <> cv_avatar c3.
Proof.
  apply (card_avatars_swapped (fun _ => "") "profile.png" "banner.png" (HomePage.mkHomeState [demo_post] None)
           (EventListPage.mkState [demo_post] 0 10 None None None None)
           (mkSocietyViewState (mkSocietyInfo 1 "" "" None) [demo_post]) demo_post);
    [discriminate | constructor..].
Defined.

Lemma profilePage_lists_witness :
  exists s, ProfileViewPage.profileViewPage_mount "tok3" demo_store = Done s demo_store /\
    ProfileViewPage.pv_errorMsg s = None /\ ProfileViewPage.pv_navigated s = None.
Proof.
  destruct (profilePage_lists (fun _ => "") "localhost" 5000 demo_store "tok3" 3
              (mkUser "cat@unsw.edu" "cat" "stevens" "hash:pw3" "z3333333" false))
    as (s & Hm & He & Hn & _); [discriminate|reflexivity|reflexivity|].
  exists s. split_and!; [exact Hm|exact He|exact Hn].
Defined.

Lemma webcal_link_serves_calendar_witness :
  exists s path f n evs,
    ProfileViewPage.profileViewPage_mount "tok3" demo_store = Done s demo_store /\
    ppv_copyLink (profileViewPage_render (fun _ => "") "localhost" 5000 s) =
      Some (webcal_origin "localhost" 5000 +:+ path) /\
    static_calendar_file path = Some f /\ generateICal 3 demo_store = Some (f, n, evs) /\
    forall c, c ∈ evs <-> exists eid e soc, (3, eid) ∈ attending demo_store /\ events demo_store !! eid = Some e /\
                                           societies demo_store !! ev_societyId e = Some soc /\ c = cal_event e soc.
Proof.
  apply (webcal_link_serves_calendar (fun _ => "") "localhost" 5000 demo_store "tok3" 3
           (mkUser "cat@unsw.edu" "cat" "stevens" "hash:pw3" "z3333333" false));
    [discriminate| |reflexivity|reflexivity].
  apply ev_wfb_ev_wf. vm_compute. reflexivity.
Defined.
