(* ===== verification/EventPage.v ===== *)
(** * The event page's render

    pages/EventViewPage.tsx renders a [Banner], EventView/EventUpper.tsx
    and EventView/EventLower.tsx from its hooks ([EventViewState] of
    Views.v) and from the id it read from its path ([getUrlParamsId]).
    EventUpper shows EventView/EventHeader.tsx (the title, the date and
    the place) and mounts EventView/AttendanceButton.tsx and
    EventView/AdminMenu.tsx with the page's event id; EventLower shows
    EventView/EventDetails.tsx (the society's name, as a link to its
    page, and the description).  Each render is a function from its
    props to a record of what it shows and binds; the styled containers
    are layout.  [parseInt]'s [NaN] is [None].

    The theorem shows that the page of an existing event, reached by
    its link, shows the event's fields once [loadEvent] has settled and
    mounts the attendance button and the event menu with the event's
    own id, while the society's name leads to a page that reads back
    the society's id. *)

From S2P Require Import Prelude Store Society Event UI Routes Views.

(** ** EventView/EventHeader.tsx *)

Record HeaderView := mkHeaderView {
  hv_title : string;      (** [<h1>{title}</h1>] *)
  hv_date : string;       (** [DateTypography] *)
  hv_location : string    (** [LocationTypography] *)
}.

Definition eventHeader (title date location : string) : HeaderView :=
  mkHeaderView title date location.

(** ** EventView/EventUpper.tsx *)

Record UpperView := mkUpperView {
  uv_header : HeaderView;
  uv_attendanceEventId : option Z;   (** [<AttendanceButton eventId={eventId} />] *)
  uv_menuEventId : option Z          (** [<AdminMenu eventId={eventId} />] *)
}.

Definition eventUpper (eventId : option Z) (eventTitle eventDate eventLocation : string) : UpperView :=
  mkUpperView (eventHeader eventTitle eventDate eventLocation) eventId eventId.

(** ** EventView/EventDetails.tsx and EventView/EventLower.tsx *)

Record DetailsView := mkDetailsView {
  dv_societyName : string;
  dv_onSocietyClick : UiEffect;
  dv_description : string
}.

Definition eventDetails (societyId : Z) (societyName description : string) : DetailsView :=
  mkDetailsView societyName (eventDetails_onClick societyId) description.

Definition eventLower (societyId : Z) (societyName eventDescription : string) : DetailsView :=
  eventDetails societyId societyName eventDescription.

(** ** pages/EventViewPage.tsx *)

Record EventPageView := mkEventPageView {
  epv_banner : string;
  epv_upper : UpperView;
  epv_lower : DetailsView
}.

Definition eventViewPage_render (eventIdNum : option Z) (s : EventViewState) : EventPageView :=
  mkEventPageView (bannerImage s)
    (eventUpper eventIdNum (eventTitle s) (eventDate s) (eventLocation s))
    (eventLower (ev_view_societyId s) (ev_view_societyName s) (eventDescription s)).

(** ** The page of an event *)

(** (C24) The page of an existing event, reached by the path of its
    link, reads the event's id without a redirect; once [loadEvent] has
    settled it shows the banner, the event's name, date, place and
    description and its society's name, mounts the attendance button
    and the event menu with the event's own id, and the society's name
    opens a page that reads back the society's id. *)
Theorem eventPage_binds_event fmt banner st eid e s :
  ev_wf st -> events st !! eid = Some e ->
  exists soc s',
    societies st !! ev_societyId e = Some soc /\
    getUrlParamsId (useParams ("/event/" +:+ pretty eid) "eventId") = (None, Some eid) /\
    eventViewPage_loadEvent fmt banner eid s st = Done (s', None) st /\
    eventViewPage_render (Some eid) s' =
      mkEventPageView banner
        (mkUpperView (mkHeaderView (ev_name e) (fmt (time e)) (location e)) (Some eid) (Some eid))
        (mkDetailsView (name soc) (eventDetails_onClick (ev_societyId e)) (ev_description e)) /\
    exists path, eventDetails_onClick (ev_societyId e) = Navigate path /\
      page_id (resolve path) path = (None, Some (ev_societyId e)).
Proof.
  intros Hwf He. destruct (ev_wf_society st Hwf eid e He) as [soc Hsoc].
  destruct (useParams_links eid) as (Hp & _).
  destruct (page_id_links (ev_societyId e)) as (_ & _ & _ & Ps & _).
  eexists soc, _. split_and!; [done| |by apply eventViewPage_loadEvent_Done|reflexivity|by eexists].
  by rewrite Hp, getUrlParamsId_link.
Qed.

(** ** Witnesses *)

Lemma eventPage_binds_event_witness :
  exists soc s',
    societies event_demo !! ev_societyId opening_night = Some soc /\
    getUrlParamsId (useParams ("/event/" +:+ pretty 1%Z) "eventId") = (None, Some 1%Z) /\
    eventViewPage_loadEvent (fun _ => "") "banner.png" 1 eventView_initial event_demo = Done (s', None) event_demo /\
    eventViewPage_render (Some 1%Z) s' =
      mkEventPageView "banner.png"
        (mkUpperView (mkHeaderView (ev_name opening_night) "" (location opening_night)) (Some 1%Z) (Some 1%Z))
        (mkDetailsView (name soc) (eventDetails_onClick (ev_societyId opening_night)) (ev_description opening_night)) /\
    exists path, eventDetails_onClick (ev_societyId opening_night) = Navigate path /\
      page_id (resolve path) path = (None, Some (ev_societyId opening_night)).
Proof.
  apply (eventPage_binds_event (fun _ => "") "banner.png" event_demo 1 opening_night eventView_initial);
    [|reflexivity].
  apply ev_wfb_ev_wf. vm_compute. reflexivity.
Defined.
