(* ===== verification/HtmlForms.v ===== *)
(** * The forms' inputs and the browser's constraint validation

    The forms of the frontend declare their inputs in JSX ([required],
    [type="email"]) and submit through [<form onSubmit={handleSubmit}>].
    The browser runs the HTML constraint validation before it fires the
    [submit] event: a [required] input whose value is empty, or an
    [email] input whose non-empty value is not a valid e-mail address,
    blocks the submission, and [handleSubmit] is not called.  The value
    an [onChange] handler reads has been sanitized: newlines are removed
    from a text input's value, and an e-mail input's value also loses
    its leading and trailing ASCII whitespace.  These are the WHATWG
    HTML rules (a valid e-mail address is the specification's regular
    expression), modelled here as executable functions; they are the
    platform's semantics, not code of the repository.

    The file declares the inputs of the profile edit page, the register
    form and the login form, and models pages/ProfileEditPage.tsx as a
    click machine ([ui_step] of Menus.v).  Its theorem: the only click
    of the profile edit page that changes the store is a submission the
    browser let through, which writes the user's row with two non-empty
    names and a valid e-mail address, although the backend's
    [profileEdit] would store any strings. *)

From Stdlib Require Import Ascii.
From S2P Require Import Prelude Validation Store Session Event Profile UI AuthPages Forms Menus.

(** ** The browser's rules *)

Inductive InputType := InText | InEmail | InPassword.

Record Input := mkInput { in_type : InputType; in_required : bool }.

Definition chars (s : string) : list ascii := String.list_ascii_of_string s.

Definition is_alnum (c : ascii) : bool :=
  let n := nat_of_ascii c in
  ((48 <=? n) && (n <=? 57) || (65 <=? n) && (n <=? 90) || (97 <=? n) && (n <=? 122))%nat.

(** The characters of the local part besides letters and digits. *)
Definition local_specials : list ascii := chars ".!#$%&'*+/=?^_`{|}~-".

Definition atext (c : ascii) : bool := is_alnum c || bool_decide (c ∈ local_specials).

(** A label of the domain: 1 to 63 letters, digits and hyphens, not
    starting or ending with a hyphen. *)
Definition label_ok (l : list ascii) : bool :=
  bool_decide (1 <= length l <= 63)%nat && forallb (fun c => is_alnum c || Ascii.eqb c "-") l &&
  match l with [] => false | c :: _ => is_alnum c end &&
  match last l with None => false | Some c => is_alnum c end.

Fixpoint split_on (sep : ascii) (l : list ascii) : list (list ascii) :=
  match l with
  | [] => [[]]
  | c :: l' => if Ascii.eqb c sep then [] :: split_on sep l'
               else match split_on sep l' with
                    | w :: ws => (c :: w) :: ws
                    | [] => [[c]]
                    end
  end.

Fixpoint split_first (sep : ascii) (l : list ascii) : option (list ascii * list ascii) :=
  match l with
  | [] => None
  | c :: l' => if Ascii.eqb c sep then Some ([], l')
               else (fun p => (c :: p.1, p.2)) <$> split_first sep l'
  end.

(** A valid e-mail address: [local@label(.label)*]. *)
Definition html_valid_email (s : string) : bool :=
  match split_first "@" (chars s) with
  | Some (loc, dom) => negb (bool_decide (loc = [])) && forallb atext loc && forallb label_ok (split_on "." dom)
  | None => false
  end.

Definition is_newline (c : ascii) : bool := Ascii.eqb c "010" || Ascii.eqb c "013".
Definition is_ascii_ws (c : ascii) : bool :=
  Ascii.eqb c " " || Ascii.eqb c "009" || Ascii.eqb c "010" || Ascii.eqb c "012" || Ascii.eqb c "013".

Definition strip_newlines (s : string) : string :=
  String.string_of_list_ascii (List.filter (fun c => negb (is_newline c)) (chars s)).

Fixpoint drop_ws (l : list ascii) : list ascii :=
  match l with c :: l' => if is_ascii_ws c then drop_ws l' else l | [] => [] end.

(** The value sanitization of an input of each type. *)
Definition sanitize (t : InputType) (raw : string) : string :=
  match t with
  | InEmail => String.string_of_list_ascii (rev (drop_ws (rev (drop_ws (chars (strip_newlines raw))))))
  | InText | InPassword => strip_newlines raw
  end.

(** Neither [valueMissing] nor [typeMismatch]. *)
Definition input_valid (i : Input) (v : string) : bool :=
  (negb (in_required i) || negb (String.eqb v "")) &&
  match in_type i with InEmail => String.eqb v "" || html_valid_email v | _ => true end.

Fixpoint form_valid (inputs : list Input) (values : list string) : bool :=
  match inputs, values with
  | i :: ins, v :: vs => input_valid i v && form_valid ins vs
  | [], [] => true
  | _, _ => false
  end.

(** [<form onSubmit={handleSubmit}>]: the handler runs only when the
    browser lets the submission through. *)
Definition form_submit {S A} (inputs : list Input) (values : list string) (handler : ST S A) : ST S (option A) :=
  if form_valid inputs values then x <- handler ;; ret (Some x) else ret None.

(** ** The inputs of the forms *)

Definition required_text : Input := mkInput InText true.

(** pages/ProfileEditPage.tsx: First Name, Last Name, Email. *)
Definition profileEdit_inputs : list Input := [required_text; required_text; mkInput InEmail true].

(** Auth/RegisterForm.tsx: First Name, Last Name, Email Address,
    Student Number ([type="string"] is not a type: a text input),
    Password. *)
Definition registerForm_inputs : list Input :=
  [required_text; required_text; mkInput InEmail true; required_text; mkInput InPassword true].

(** Auth/LoginForm.tsx: Email Address and Password. *)
Definition loginForm_inputs : list Input := [mkInput InEmail true; mkInput InPassword true].

(** pages/EventAttendanceFormPage.tsx: four [RequiredTextField]s
    (Fields/RequiredTextField.tsx: [required], [type="text"]) in a
    [FormBox], a styled [Box] and not a [<form>]; the Submit button has
    no form owner, so its [onClick={submitForm}] runs with no
    constraint validation. *)
Definition attendanceForm_inputs : list Input := [required_text; required_text; required_text; required_text].

Definition af_values (s : AttendanceFormState) : list string := [af_nameFirst s; af_nameLast s; af_zId s; af_email s].

(** ** The register and login forms' submissions *)

Section AuthForms.
Context `{EmailValidator} `{PasswordHasher}.

Definition registerForm_handleSubmit (email password nameFirst nameLast zId salt : string)
    : ST Browser (option UiEffect) :=
  form_submit registerForm_inputs [nameFirst; nameLast; email; zId; password]
    (registerForm_register email password nameFirst nameLast zId salt).

Definition loginForm_handleSubmit (email password : string) : ST Browser (option UiEffect) :=
  form_submit loginForm_inputs [email; password] (loginForm_login email password).

End AuthForms.

(** ** pages/ProfileEditPage.tsx as a machine *)

Inductive ProfileField := PFNameFirst | PFNameLast | PFEmail.

Inductive ProfileEditAction :=
| PEChange (f : ProfileField) (raw : string)   (** an input's [onChange] *)
| PESubmit                                     (** Save: the form's [submit] *)
| PEBack                                       (** Back *)
| PECloseError.                                (** the error popup's [closeError] *)

Definition pe_values (s : ProfileEditState) : list string := [pe_nameFirst s; pe_nameLast s; pe_email s].

Definition pe_set_error (e : option string) (s : ProfileEditState) : ProfileEditState :=
  mkProfileEditState (pe_nameFirst s) (pe_nameLast s) (pe_email s) e.

Definition profileEdit_available (s : ProfileEditState) (a : ProfileEditAction) : bool :=
  match a with PECloseError => bool_decide (is_Some (pe_errorMsg s)) | _ => true end.

Definition profileEdit_handle (userToken : string) (a : ProfileEditAction) (s : ProfileEditState)
    : ST Store (ProfileEditState * option UiEffect) :=
  match a with
  | PEChange PFNameFirst raw =>
      ret (mkProfileEditState (sanitize InText raw) (pe_nameLast s) (pe_email s) (pe_errorMsg s), None)
  | PEChange PFNameLast raw =>
      ret (mkProfileEditState (pe_nameFirst s) (sanitize InText raw) (pe_email s) (pe_errorMsg s), None)
  | PEChange PFEmail raw =>
      ret (mkProfileEditState (pe_nameFirst s) (pe_nameLast s) (sanitize InEmail raw) (pe_errorMsg s), None)
  | PESubmit =>
      r <- form_submit profileEdit_inputs (pe_values s) (profileEdit_editProfile userToken s) ;;
      ret (match r with
           | Some (ShowError msg) => (pe_set_error (Some msg) s, None)
           | Some e => (s, Some e)
           | None => (s, None)
           end)
  | PEBack => ret (s, Some (Navigate "/profile/view"))
  | PECloseError => ret (pe_set_error None s, None)
  end.

Definition profileEdit_step (userToken : string) :=
  ui_step profileEdit_available (profileEdit_handle userToken).

(** ** What the profile edit page writes *)

Lemma on_api_state {A} (c : ST Store A) k st : state_of (on_api c k st) = state_of (c st).
Proof. unfold on_api. by destruct (c st). Qed.

Lemma bind_ret_state {S A B} (c : ST S A) (f : A -> B) st r st' :
  (x <- c ;; ret (f x)) st = Done r st' -> state_of (c st) = st'.
Proof. unfold st_bind, ret. destruct (c st); [by intros [= _ <-]|done]. Qed.

Lemma form_submit_state {S A} ins vals (h : ST S A) st :
  state_of (form_submit ins vals h st) = if form_valid ins vals then state_of (h st) else st.
Proof. unfold form_submit. destruct (form_valid ins vals); [|done]. unfold st_bind. by destruct (h st). Qed.

(** [profileEdit] changes the store only by writing the names and the
    email it was given into the row of the token's user. *)
Lemma profileEdit_state token nf nl e st :
  state_of (profileEdit token nf nl e st) <> st ->
  exists uid u, sessions st !! token = Some uid /\ users st !! uid = Some u /\
    state_of (profileEdit token nf nl e st) = set_users (insert uid (user_with_profile nf nl e u)) st.
Proof.
  unfold profileEdit. rewrite validateSession_bind.
  destruct (sessions st !! token) as [uid|]; [|done].
  unfold catch_to, st_bind, user_update_profile. destruct (users st !! uid) as [u|] eqn:Hu; [|done].
  intros Hne. exists uid, u. split_and!; [done..|].
  repeat case_match; simplify_eq/=;
    first [by rewrite (profileView_read_only token _) in * | done].
Qed.

Lemma profileEdit_inputs_valid nf nl e :
  form_valid profileEdit_inputs [nf; nl; e] = true ->
  nf <> "" /\ nl <> "" /\ html_valid_email e = true.
Proof.
  intros H. cbn in H. unfold input_valid in H. simpl in H.
  destruct (String.eqb_spec nf ""), (String.eqb_spec nl ""), (String.eqb_spec e ""); subst; simpl in H;
    try discriminate. rewrite ?andb_true_r in H. by split_and!.
Qed.

(** (C26) The only click of the profile edit page that changes the store
    is a submission of the form that the browser let through: the
    fields then hold two non-empty names and a valid e-mail address,
    and the store changes only by writing them into the row of the
    token's user.  The backend's [profileEdit] checks none of them. *)
Theorem profileEdit_writes_checked token s st a o s' st' :
  profileEdit_step token (s, st) a o (s', st') -> st' <> st ->
  a = PESubmit /\ pe_nameFirst s <> "" /\ pe_nameLast s <> "" /\ html_valid_email (pe_email s) = true /\
  exists uid u, sessions st !! token = Some uid /\ users st !! uid = Some u /\
    st' = set_users (insert uid (user_with_profile (pe_nameFirst s) (pe_nameLast s) (pe_email s) u)) st.
Proof.
  intros Hstep Hne. inversion Hstep as [a' s0 st0 s1 o' st1 _ Hh]; subst.
  destruct a as [[] raw| | |]; simpl in Hh;
    try (unfold ret in Hh; injection Hh as _ Heq; congruence).
  apply bind_ret_state in Hh. rewrite form_submit_state in Hh.
  destruct (form_valid profileEdit_inputs (pe_values s)) eqn:Hv; [|by subst].
  destruct (profileEdit_inputs_valid _ _ _ Hv) as (H1 & H2 & H3).
  unfold profileEdit_editProfile in Hh. rewrite on_api_state in Hh. subst st'.
  destruct (profileEdit_state _ _ _ _ _ Hne) as (uid & u & ? & ? & ->).
  split_and!; [done..|]. by exists uid, u.
Qed.

(** ** Blocked submissions *)

Lemma form_submit_blocked {S A} ins vals (h : ST S A) st :
  form_valid ins vals = false -> form_submit ins vals h st = Done None st.
Proof. intros Hv. unfold form_submit. by rewrite Hv. Qed.

Lemma form_valid_empty_required i ins (vs : list string) :
  in_required i = true -> form_valid (i :: ins) ("" :: vs) = false.
Proof. intros Hr. simpl. unfold input_valid. by rewrite Hr. Qed.

Lemma form_valid_bad_email ins v vs :
  v <> "" -> html_valid_email v = false -> form_valid (mkInput InEmail true :: ins) (v :: vs) = false.
Proof. intros Hn Hb. simpl. unfold input_valid. simpl. apply String.eqb_neq in Hn. by rewrite Hn, Hb. Qed.

Lemma form_valid_cons_false i ins v vs :
  form_valid ins vs = false -> form_valid (i :: ins) (v :: vs) = false.
Proof. simpl. intros ->. apply andb_false_r. Qed.

Lemma attended_create_forms z eid st : forms (state_of (attended_create z eid st)) = forms st.
Proof. unfold attended_create. by repeat case_match. Qed.

Section Attendance.
Context `{EmailValidator}.

(** The attendance form's required fields are not enforced: whatever
    the names and the zId, empty ones included, a submission with an
    email the backend accepts, for an existing event and a new
    (zId, email) pair, shows the success dialog and stores the row with
    the names as typed, although the fields' constraints fail. *)
Theorem attendanceForm_required_unenforced st eid e s :
  events st !! eid = Some e -> isEmail (af_email s) = true ->
  forms st !! (eid, af_zId s, af_email s) = None ->
  exists st', attendanceForm_submitForm eid s st =
      Done (mkAttendanceFormState (af_eventTitle s) (af_nameFirst s) (af_nameLast s) (af_zId s)
              (af_email s) true (af_errorMsg s) (af_navigated s)) st' /\
    forms st' !! (eid, af_zId s, af_email s) = Some (af_nameFirst s, af_nameLast s).
Proof.
  intros He Hem Hf. unfold attendanceForm_submitForm, settle, fillForm. st_simpl. rewrite Hem. simpl.
  unfold form_upsert. rewrite Hf, bool_decide_true by (rewrite He; by eexists). simpl.
  pose proof (attended_create_forms (af_zId s) eid
    (mkStore (users st) (sessions st) (societies st) (members st) (applications st) (events st)
       (attending st) (attended st) (resetCodes st) (<[(eid, af_zId s, af_email s):=(af_nameFirst s, af_nameLast s)]> (forms st))
       (next_user st) (next_society st) (next_application st) (next_event st))) as Hfs.
  destruct (attended_create _ _ _) as [[] st'|err st']; simpl in Hfs; eexists; (split; [reflexivity|]);
    rewrite Hfs; apply lookup_insert_eq.
Qed.

End Attendance.

Section Blocked.
Context `{EmailValidator} `{PasswordHasher}.

(** A submission with an empty required field, or with an e-mail
    that is not a valid address, does nothing: the register and login
    forms neither call the backend nor touch the browser's token, and
    the profile edit page keeps its fields, shows no error and leaves
    the store as it was. *)
Theorem forms_block_invalid (b : Browser) email password nameFirst nameLast zId salt token s st :
  (nameFirst = "" \/ nameLast = "" \/ zId = "" \/ password = "" \/ email = "" \/
   html_valid_email email = false ->
   registerForm_handleSubmit email password nameFirst nameLast zId salt b = Done None b) /\
  (password = "" \/ email = "" \/ html_valid_email email = false ->
   loginForm_handleSubmit email password b = Done None b) /\
  (pe_nameFirst s = "" \/ pe_nameLast s = "" \/ pe_email s = "" \/ html_valid_email (pe_email s) = false ->
   profileEdit_handle token PESubmit s st = Done (s, None) st).
Proof.
  split_and!; intros Hc.
  - apply form_submit_blocked. unfold registerForm_inputs.
    destruct Hc as [->|[->|[->|[->|[->|Hb]]]]].
    + by apply form_valid_empty_required.
    + apply form_valid_cons_false. by apply form_valid_empty_required.
    + do 3 apply form_valid_cons_false. by apply form_valid_empty_required.
    + do 4 apply form_valid_cons_false. by apply form_valid_empty_required.
    + do 2 apply form_valid_cons_false. by apply form_valid_empty_required.
    + do 2 apply form_valid_cons_false. destruct (String.eqb_spec email "") as [->|Hn].
      * by apply form_valid_empty_required.
      * by apply form_valid_bad_email.
  - apply form_submit_blocked. unfold loginForm_inputs.
    destruct Hc as [->|[->|Hb]]; [apply form_valid_cons_false; by apply form_valid_empty_required
                               |by apply form_valid_empty_required|].
    destruct (String.eqb_spec email "") as [->|Hn]; [by apply form_valid_empty_required|by apply form_valid_bad_email].
  - unfold profileEdit_handle, st_bind. rewrite form_submit_blocked; [done|]. unfold pe_values, profileEdit_inputs.
    destruct s as [nf nl e err]; cbn [pe_nameFirst pe_nameLast pe_email] in *.
    destruct Hc as [->|[->|[->|Hb]]]; [by apply form_valid_empty_required|..].
    + apply form_valid_cons_false. by apply form_valid_empty_required.
    + do 2 apply form_valid_cons_false. by apply form_valid_empty_required.
    + destruct (String.eqb_spec e "") as [->|Hn].
      * do 2 apply form_valid_cons_false. by apply form_valid_empty_required.
      * do 2 apply form_valid_cons_false. by apply form_valid_bad_email.
Qed.

End Blocked.

(** ** Witnesses *)

Definition cat_user : User := mkUser "cat@unsw.edu" "cat" "stevens" "hash:pw3" "z3333333" false.
Definition cat_form : ProfileEditState := mkProfileEditState "Cat" "stevens" "cat@unsw.edu" None.
Definition cat_renamed : Store := set_users (insert 3 (user_with_profile "Cat" "stevens" "cat@unsw.edu" cat_user)) demo_store.

Lemma profileEdit_writes_checked_witness :
  profileEdit_step "tok3" (cat_form, demo_store) PESubmit (Some (Navigate "/profile/view")) (cat_form, cat_renamed) /\
  cat_renamed <> demo_store /\
  PESubmit = PESubmit /\ "Cat" <> "" /\ "stevens" <> "" /\ html_valid_email "cat@unsw.edu" = true /\
  exists uid u, sessions demo_store !! "tok3" = Some uid /\ users demo_store !! uid = Some u /\
    cat_renamed = set_users (insert uid (user_with_profile "Cat" "stevens" "cat@unsw.edu" u)) demo_store.
Proof.
  assert (Hs : profileEdit_step "tok3" (cat_form, demo_store) PESubmit (Some (Navigate "/profile/view"))
                 (cat_form, cat_renamed)) by (apply ui_step_click; vm_compute; reflexivity).
  assert (Hne : cat_renamed <> demo_store).
  { intros Heq. apply (f_equal (fun st => users st !! 3)) in Heq. vm_compute in Heq. discriminate. }
  split; [exact Hs|]. split; [exact Hne|].
  exact (profileEdit_writes_checked "tok3" cat_form demo_store PESubmit _ cat_form cat_renamed Hs Hne).
Defined.

Lemma forms_block_invalid_witness :
  registerForm_handleSubmit "bob@unsw" "pw" "" "ross" "z2222222" "s" (mkBrowser None demo_store) =
    Done None (mkBrowser None demo_store).
Proof.
  apply (proj1 (forms_block_invalid (mkBrowser None demo_store) "bob@unsw" "pw" "" "ross" "z2222222" "s"
                  "tok3" cat_form demo_store)).
  by left.
Defined.

Definition blank_attendance : AttendanceFormState := mkAttendanceFormState "" "" "" "" "x@unsw.edu" false None None.

Lemma attendanceForm_required_unenforced_witness :
  form_valid attendanceForm_inputs (af_values blank_attendance) = false /\
  exists st', attendanceForm_submitForm 1 blank_attendance event_demo =
      Done (mkAttendanceFormState "" "" "" "" "x@unsw.edu" true None None) st' /\
    forms st' !! (1, "", "x@unsw.edu") = Some ("", "").
Proof.
  split; [reflexivity|].
  apply (attendanceForm_required_unenforced event_demo 1 opening_night blank_attendance); reflexivity.
Defined.
