(* ===== verification/Paging.v ===== *)
(** * The society list's Previous and Next buttons

    pages/SocietyListPage.tsx renders its page of societies with a
    Previous button, [disabled={paginationStart === 0}], and a Next
    button, [disabled={!isMore}]; a click changes the pagination and
    the effect on [[paginationStart, paginationEnd]] fetches the new
    page ([previous] and [next] of Pages.v).  This file models the two
    buttons and the error popup as a click machine ([ui_step] of
    Menus.v) over the page's state; the search bar, whose answers race
    with the effect, is the subject of Pages.v's theorems.

    The theorem: through any clicks on the enabled buttons the page
    shows one of the pages of the whole listing, [society_page] with
    [k >= 0], in particular never a page before the first, and the
    store does not change; Previous after Next shows the same page
    again. *)

From S2P Require Import Prelude Store Society Query UI Pages Menus.

Import SocietyListPage.

Inductive SocietyListAction := LPrevious | LNext | LCloseError.

(** The render's buttons: enabled when not [disabled]. *)
Definition societyList_available (s : SocietyListState) (a : SocietyListAction) : bool :=
  match a with
  | LPrevious => negb (Z.eqb (paginationStart s) 0)
  | LNext => isMore s
  | LCloseError => bool_decide (is_Some (errorMsg s))
  end.

Definition societyList_handle (a : SocietyListAction) (s : SocietyListState)
    : ST Store (SocietyListState * option UiEffect) :=
  match a with
  | LPrevious => s' <- previous s ;; ret (s', None)
  | LNext => s' <- next s ;; ret (s', None)
  | LCloseError =>
      ret (mkState (societies s) (paginationStart s) (paginationEnd s) (searchString s) (isMore s) None, None)
  end.

Inductive societyList_reachable (st0 : Store) : SocietyListState * Store -> Prop :=
| societyList_reach c s1 st1 :
    societyList_mount st0 = Done s1 st1 ->
    ui_reachable societyList_available societyList_handle (s1, st1) c ->
    societyList_reachable st0 c.

(** ** Moving between pages *)

Lemma previous_page q L k st :
  L = societies_listing q st -> previous (society_page q L (S k)) st = Done (society_page q L k) st.
Proof. intros HL. apply (fetchData_page q L k st HL); simpl; try done; lia. Qed.

(** Through any clicks on the enabled buttons of the society list,
    the page shows the [k]-th page of the whole listing for some
    [k >= 0], so Previous never leads before the first page, and the
    store stays as it was; from any page Next then Previous, when Next
    is enabled, shows the same page again. *)
Theorem societyList_pages st0 :
  (forall c, societyList_reachable st0 c ->
     exists k, c = (society_page None (societies_listing None st0) k, st0)) /\
  (forall k, let s := society_page None (societies_listing None st0) k in
     societyList_available s LNext = true ->
     exists s', next s st0 = Done s' st0 /\ societyList_available s' LPrevious = true /\
                previous s' st0 = Done s st0).
Proof.
  set (L := societies_listing None st0). split.
  - intros c [c' s1 st1 Hm Hr]. rewrite mount_page in Hm. injection Hm as <- <-.
    revert c' Hr. apply ui_invariant; [by exists 0%nat|].
    intros s st a s' st' (k & Hk) Havail Hh. injection Hk as -> ->.
    destruct a; simpl in Havail, Hh.
    + destruct k as [|k]; [done|]. unfold st_bind in Hh. rewrite (previous_page None L k st0 eq_refl) in Hh.
      injection Hh as <- <-. by exists k.
    + unfold st_bind in Hh. rewrite (next_page None L k st0 eq_refl) in Hh.
      injection Hh as <- <-. by exists (S k).
    + case_bool_decide as He; [|done]. by destruct He.
  - intros k s Hn. exists (society_page None L (S k)). split; [apply next_page; done|].
    split; [|apply previous_page; done]. simpl. first [done | apply negb_true_iff, Z.eqb_neq; lia].
Qed.

(** ** Witnesses *)

Lemma societyList_pages_witness :
  exists s', next (society_page None (societies_listing None clubs_store) 0%nat) clubs_store = Done s' clubs_store /\
    societyList_available s' LPrevious = true /\
    previous s' clubs_store = Done (society_page None (societies_listing None clubs_store) 0%nat) clubs_store.
Proof. apply (proj2 (societyList_pages clubs_store) 0%nat). vm_compute. reflexivity. Defined.
